(* ===== verification/_CoqProject ===== *)
-Q . S2P
Prelude.v
Types.v
Ngx.v
Http.v
NgxModel.v
Score.v
Shm.v
ShmTree.v
ShmSpec.v
ShmOps.v
ShmRate.v
ShmProps.v
Signals.v
SignalProps.v
Feed.v
FeedProps.v
FeedConc.v
Fcrdns.v
Ring.v
Redis.v
RedisProps.v
RedisEv.v
Cssink.v
CssinkProps.v
Pow.v
PowProps.v
Tarpit.v
TarpitProps.v
Metrics.v
MetricsProps.v
Ja4h.v
Ja4hProps.v
Core.v
CoreProps.v
Conf.v
Directives.v
ConfModel.v
ConfProps.v
ConfZones.v
Init.v
InitProps.v
System.v
SystemFrames.v
SystemProps.v
Deployed.v
FuzzFeed.v
FuzzFeedProps.v
FuzzRequests.v
FuzzRequestsProps.v
