(* ===== verification/Prelude.v ===== *)
(** * A verification development for the nginx "sentinel" HTTP module

    The module scores every request with some twenty signals, turns the score
    into a verdict (allow, challenge, tarpit, block) and enforces it, keeping its
    state in shared memory that all worker processes use.  This library is a
    shallow embedding of its C sources ([src/src/*.c], [src/src/sentinel.h]):
    every function is a Rocq function of the same name, executable on the
    concrete interfaces of [NgxModel.v], and the theorems are about those
    functions.

    ** Conventions

    - A byte string ([ngx_str_t], or a buffer and a length) is a [list byte]; a
      machine integer is a [Z] whose wrap-around is written out ([wrap32],
      [wrap64], [to_i32]); signed overflow, which is undefined, is [None]
      ([time_add] for the sums of [time_t] whose operands a configuration does not
      bound: block times, soft bans, cookies and resolver verdicts).  The sums with
      the lifetimes of the feed, Redis and the sink, which the merge limits to a
      day, are plain.
    - [option] on the outside of a result is a fault: a NULL or dead pointer, an
      access outside a buffer, a signed overflow.  "Never faults" means that the
      function is [Some _].  The return codes of nginx are [ngx_rc], the errors of
      configuration handlers [conf_result].
    - State is passed explicitly.  What the sources reach through pointers that
      can alias (the nodes of a zone, the elements of a zone array, the counter
      blocks of a segment, connection slots) lives in a heap keyed by address.
    - Functions of nginx, OpenSSL and hiredis are operations of type classes
      ([Ngx.v], [Http.v], [Conf.v], [Init.v], [RedisEv.v]); what the module relies
      on are separate classes of laws.  The outcome of an allocation, a system
      call or a filter is an argument.  Logging is left out, and so are the
      fields of [r->headers_out] that are only handed to the header filter.

    ** The parts of the program and the files that model them

    - Requests and configurations as data: [Types.v] (verdicts, signals,
      weights), [Http.v] ([ngx_http_request_t], [ngx_sentinel_loc_conf_t]).
    - Scoring, [sentinel_score.c]: [Score.v].
    - The shared identity store, [sentinel_shm.c]: [Shm.v] (heap, search tree and
      LRU queue of a zone, and every operation on it), [ShmTree.v] (the tree is a
      search tree), [ShmSpec.v] (a zone refines a finite map), [ShmOps.v] and
      [ShmRate.v] (the operations refine the decision table and the sliding
      window), [ShmProps.v] (the theorems on the public operations).
    - The detection signals, [sentinel_botua.c], [_coherence.c], [_header.c],
      [_honeypot.c], [_ja3sig.c], [_ja4sig.c], [_ja4tsig.c], [_asn.c], [_c2ip.c],
      [_allowlist.c], [_errrate.c], [_velocity.c]: [Signals.v], [SignalProps.v].
    - The HTTP fingerprint, [sentinel_ja4h.c]: [Ja4h.v], [Ja4hProps.v].
    - The CrowdSec feed, [sentinel_feed.c]: [Feed.v] (file, trailer, parser,
      timers), [FeedProps.v], [FeedConc.v] (several workers load one zone; a step
      is one critical section).
    - Forward-confirmed reverse DNS, [sentinel_fcrdns.c]: [Fcrdns.v] (verdict
      cache, the two resolver callbacks, their interleavings).
    - The push rings shared by the Redis and sink code: [Ring.v].
    - Redis, [sentinel_redis.c]: [Redis.v] (connection state machine, pull, push,
      initialisation), [RedisProps.v], [RedisEv.v] (the adapter of hiredis to the
      event loop).
    - The decision sink, [sentinel_cssink.c]: [Cssink.v], [CssinkProps.v].
    - The proof-of-work challenge, [sentinel_pow.c]: [Pow.v], [PowProps.v].
    - The tarpit, [sentinel_tarpit.c]: [Tarpit.v], [TarpitProps.v].
    - The metrics, [sentinel_metrics.c]: [Metrics.v], [MetricsProps.v].
    - The request path, [ngx_http_sentinel_module.c]: [Core.v] (the request
      context, the PREACCESS and LOG handlers, the variables, over one [world] of
      shared memory), [CoreProps.v].
    - The configuration phase, [ngx_http_sentinel_module.c]: [Conf.v] (creation
      and merge), [Directives.v] (every directive and the command table),
      [ConfModel.v] (a concrete configuration interface), [ConfProps.v] (bounds),
      [ConfZones.v] (zone arrays, start-up, and the composition with [Core.v]).
    - Registration and process start, [ngx_http_sentinel_module.c]: [Init.v],
      [InitProps.v].
    - The server as a whole: [System.v] (worker processes, requests in flight and
      every handler as a step of one state), [SystemFrames.v] (what a handler can
      change), [SystemProps.v] (the invariant, one lemma per kind of event),
      [Deployed.v] (from the configuration file to any reachable state).
    - The fuzzing harnesses, [fuzz/*.c]: [FuzzFeed.v] (the harness's copy of the
      feed parser, with pointers and checked accesses), [FuzzFeedProps.v] (it
      refines the parser of [Feed.v]), [FuzzRequests.v], [FuzzRequestsProps.v]
      (inputs as requests).

    ** How the parts interact

    A configuration file is a sequence of directives and merges
    ([ConfZones.config_run]).  Start-up gives every declared zone a table
    ([ConfZones.start_world]); a worker starts with [ngx_sentinel_init_process].
    A request computes its context once ([ngx_sentinel_get_ctx] calls every signal
    and the score), the PREACCESS handler enforces the verdict (soft ban, pushes
    into the rings, challenge, tarpit), and the LOG handler records the request.
    The timers (feed, Redis, sink) read and write the same zones and rings.
    [System.handle] is the union of all these steps: an event names a worker and
    what the environment answers (allocations, replies, files, the time), and a
    run is any sequence of events.

    ** What the theorems show

    - Composition: from a configuration nginx accepts and after any
      interleaving of events of any number of workers, no event faults, the zones
      stay well formed, the tarpit counters are exact and the Redis timers armed;
      a decision enters a CrowdSec table only through a validated feed or a
      peer's reply; a load nobody interrupts is the sequential load.  Beyond what
      nginx checks, the theorems assume ([Deployed.deployed],
      [CoreProps.world_fits]) that the thresholds of the zones are below [2^60],
      that the block times and lifetimes do not carry the clock past the end of
      [time_t], that the Redis prefix fits the pattern buffer and its table is
      attached, that requests have a socket address, and that no variable is read
      for a request the tarpit holds.  What goes wrong without most of them is stated
      under Defects.
    - Policy: with positive thresholds an allow-listed client is never refused,
      a CrowdSec ban always blocks, more signals never soften a verdict, shadow
      mode only observes, a ban is published exactly by the host it originates
      from, and a challenge is passed with a cookie or a solved puzzle only, or
      when the challenge or its page cannot be made.
    - Refinements: the score is a saturated weighted sum; a zone is a map of
      sliding windows; a ring is a bounded queue; a tick of the sink exports
      exactly the running bans; an accepted feed becomes the table; the pointers
      of the parser never leave the file and find the lines of the list model.
    - Ends and bounds: a burst is banned at the threshold, a soft ban lasts its
      lifetime, the Redis timer never stops, a tarpitted request ends within the
      longer of its delay and its lifetime and gives its slot back once, the cap is
      overshot by at most the workers minus one, the metrics page and the
      fingerprint fit their buffers.
    - Round trips: bypass cookies, Redis keys and values.
    - Defects, stated as theorems about the code as it is: concurrent feed loads
      can empty the table, a reload with a larger threshold overflows an event
      ring, a threshold of [2^61] makes the size of a node wrap around and a long
      block time overflows [time_t] ([huge_threshold_overflows_node],
      [huge_block_overflows]), a long sink scenario silently exports nothing
      ([long_scenario_exports_nothing]), growing zone arrays lose their tables, a reload forgets the tarpit
      counters and a few exhaust their segment, a challenge of one address is a
      cookie of another, a long Redis prefix leaves a pattern unterminated,
      the variables of a tarpitted request read the wrong context, and a reply for
      a table that a growing array left behind crashes the worker; the harness
      rejects feeds with an expiry above 31 bits, which the module accepts.

    ** Fuel and bounds

    [reserve_loop] runs once for a worker that owns its slot; the drain loops of
    the rings have one more iteration than a ring has entries, after which the
    ring is empty or the batch is full; [leading_zeros] shifts a byte at most
    eight times; the traversals of a tree recur on the tree.  The pointer loops of
    the harnesses have the size of the input as fuel, since each iteration moves
    the pointer, and running out of it is a fault, which the theorems exclude.
    Other loops recur on their data.

    ** Not modelled

    - The contents of nginx, OpenSSL and hiredis: they are interfaces.
    - Reading the feed file and writing the decisions file below the level of
      their system calls.
    - The mutex of a zone: a locked section is one step, which the interleaving
      theorems ([FeedConc.v], [TarpitProps.v], [System.v]) rely on.  In [System.v]
      a handler is one step, with two exceptions: a feed load is a step per
      critical section, and the tarpit's sum reads values of the other workers'
      counters chosen by the environment, so that the race of its check and its
      commit is covered (how far it can overshoot the cap is in [TarpitProps.v]).
      The workers share one clock and are not exiting, and a worker dies only
      outside a locked section.
    - In [Redis.v], [redisAsyncFree] does not call back from inside; the callbacks
      are later events.  [ngx_del_event] succeeds ([RedisEv.v]).
    - Test::Nginx suites, tools and packaging: they hold no logic of the module. *)

From stdpp Require Export base gmap sets list strings.
From Stdlib Require Export ZArith Lia.
From Stdlib Require Export Strings.Byte.
From Stdlib Require Strings.String.

#[global] Open Scope Z_scope.

(** ** Bytes and byte strings

    A C buffer [(u_char *p, size_t len)] and an [ngx_str_t] are both the list
    of the bytes they delimit. *)

Abbreviation bytes := (list Byte.byte).

#[global] Instance byte_eq_dec : EqDecision Byte.byte := Byte.byte_eq_dec.

#[global] Program Instance byte_countable : Countable Byte.byte :=
  inj_countable Byte.to_N Byte.of_N _.
Next Obligation. intros b. apply Byte.of_to_N. Qed.

(** The numeric value of a [u_char]. *)
Definition bval (b : Byte.byte) : Z := Z.of_N (Byte.to_N b).

(** The conversion [(u_char) z]: reduction modulo 256. *)
Definition u_char (z : Z) : Byte.byte :=
  default Byte.x00 (Byte.of_N (Z.to_N (z mod 256))).

(** String literals of the C source. *)
Definition lit (s : String.string) : bytes := String.list_byte_of_string s.

Arguments lit _%_string_scope.

Declare Scope sentinel_scope.
Delimit Scope sentinel_scope with sentinel.
#[global] Open Scope sentinel_scope.

(** Undefined behaviour (an out-of-bounds access, a null dereference) is the
    value [None] of an option monad: [let!] sequences two computations. *)
Notation "'let!' x := e 'in' k" :=
  (match e with Some x => k | None => None end)
  (at level 10, x pattern at level 0, e at level 100, k at level 200) : sentinel_scope.

(** ** Return codes

    The [ngx_int_t] codes the module exchanges with nginx; a positive value is
    an HTTP status ([NGX_HTTP_CLOSE] is the status 444). *)
Inductive ngx_rc : Type :=
  | NGX_OK | NGX_ERROR | NGX_AGAIN | NGX_BUSY | NGX_DONE | NGX_DECLINED
  | NGX_HTTP (status : Z).

#[global] Instance ngx_rc_eq_dec : EqDecision ngx_rc.
Proof. solve_decision. Defined.

Definition NGX_HTTP_CLOSE : Z := 444.

(** ** Machine integers *)

Definition wrap (w z : Z) : Z := z mod 2 ^ w.

(** [uint32_t], [ngx_uint_t] (64 bits) and [u_short] conversions. *)
Abbreviation wrap32 := (wrap 32).
Abbreviation wrap64 := (wrap 64).
Abbreviation wrap16 := (wrap 16).

Lemma wrap_range w z : 0 <= w -> 0 <= wrap w z < 2 ^ w.
Proof. intros. unfold wrap. apply Z.mod_pos_bound. lia. Qed.

Lemma wrap_id w z : 0 <= z < 2 ^ w -> wrap w z = z.
Proof. intros. unfold wrap. by apply Z.mod_small. Qed.

(** The sum of two [time_t], whose signed overflow is undefined. *)
Definition time_add (a b : Z) : option Z :=
  if (- 2 ^ 63 <=? a + b) && (a + b <? 2 ^ 63) then Some (a + b) else None.

Lemma time_add_ok a b : 0 <= a + b < 2 ^ 63 -> time_add a b = Some (a + b).
Proof.
  intros. unfold time_add.
  by rewrite (proj2 (Z.leb_le _ _)), (proj2 (Z.ltb_lt _ _)) by lia.
Qed.

Lemma time_add_overflow a b : 2 ^ 63 <= a + b -> time_add a b = None.
Proof.
  intros. unfold time_add.
  by rewrite (proj2 (Z.ltb_ge _ _)), andb_false_r by lia.
Qed.

Lemma time_add_inv a b t : time_add a b = Some t -> t = a + b /\ a + b < 2 ^ 63.
Proof.
  unfold time_add. destruct (Z.ltb_spec (a + b) (2 ^ 63)); [|by rewrite andb_false_r].
  case_match; [|done]. by intros [= <-].
Qed.

Lemma bval_range b : 0 <= bval b < 256.
Proof. unfold bval. pose proof (Byte.to_N_bounded b). lia. Qed.

Lemma bval_inj a b : bval a = bval b -> a = b.
Proof.
  unfold bval. intros H. apply N2Z.inj in H.
  pose proof (Byte.of_to_N a). pose proof (Byte.of_to_N b). congruence.
Qed.

Lemma bval_u_char z : bval (u_char z) = z mod 256.
Proof.
  unfold u_char. pose proof (Z.mod_pos_bound z 256 ltac:(lia)) as Hb.
  destruct (Byte.of_N (Z.to_N (z mod 256))) as [b|] eqn:E; simpl.
  - apply Byte.to_of_N in E. unfold bval. rewrite E. lia.
  - apply Byte.of_N_None_iff in E. lia.
Qed.

Lemma u_char_bval b : u_char (bval b) = b.
Proof.
  apply bval_inj. rewrite bval_u_char.
  apply Z.mod_small, bval_range.
Qed.

(** ** The C library functions the module calls *)

(** [memchr(p, c, n)]: the offset of the first [c] in the buffer. *)
Fixpoint memchr (p : bytes) (c : Byte.byte) : option nat :=
  match p with
  | [] => None
  | x :: p' => if decide (x = c) then Some 0%nat else S <$> memchr p' c
  end.

(** [strncmp(a, b, n)] (nginx's [ngx_strncmp] is this macro). A list that ends
    before the comparison does reads as its terminating NUL. *)
Fixpoint strncmp (a b : bytes) (n : nat) : Z :=
  match n with
  | O => 0
  | S n' =>
      let ca := bval (hd Byte.x00 a) in
      let cb := bval (hd Byte.x00 b) in
      if ca =? cb then
        if ca =? 0 then 0 else strncmp (tl a) (tl b) n'
      else ca - cb
  end.

(** [strcmp(a, b)] on NUL-terminated strings ([ngx_strcmp]). *)
Definition strcmp (a b : bytes) : Z :=
  strncmp a b (S (Nat.max (length a) (length b))).

(** [memcmp(a, b, n) == 0] on two buffers of length at least [n]. *)
Definition memcmp_eq (a b : bytes) (n : nat) : bool :=
  bool_decide (take n a = take n b).

Definition NUL : Byte.byte := Byte.x00.

(** A C string literal has no embedded NUL byte. *)
Definition no_nul (b : bytes) : Prop := NUL ∉ b.

#[global] Instance no_nul_dec b : Decision (no_nul b).
Proof. unfold no_nul. apply _. Defined.

Lemma strncmp_self a n : strncmp a a n = 0.
Proof.
  revert a; induction n as [|n IH]; intros a; [done|]. simpl.
  rewrite Z.eqb_refl. by destruct (_ =? 0).
Qed.

(** Comparing [length b] bytes against a NUL-free [b] is the prefix test. *)
Lemma strncmp_prefix a b :
  no_nul b -> strncmp a b (length b) = 0 <-> take (length b) a = b.
Proof.
  unfold no_nul, NUL. revert a. induction b as [|y b IH]; intros a Hb.
  { simpl. by rewrite take_0. }
  rewrite not_elem_of_cons in Hb. destruct Hb as [Hy Hb].
  assert (bval y <> 0) as Hy0.
  { intros E. apply Hy. symmetry. by apply bval_inj. }
  cbn [length strncmp hd tl].
  destruct a as [|x a]; cbn [hd tl take].
  - change (bval Byte.x00) with 0.
    destruct (Z.eqb_spec 0 (bval y)); [congruence|]. split; [lia|done].
  - destruct (Z.eqb_spec (bval x) (bval y)) as [E|E].
    + apply bval_inj in E as ->.
      destruct (Z.eqb_spec (bval y) 0); [congruence|].
      rewrite IH by done. split; [by intros ->|by intros [= ->]].
    + split; [lia|]. intros [= -> ?]. congruence.
Qed.

Lemma memchr_Some p c i :
  memchr p c = Some i <-> p !! i = Some c /\ c ∉ take i p.
Proof.
  revert i. induction p as [|x p IH]; intros i; simpl.
  { rewrite lookup_nil. naive_solver. }
  case_decide as E; [subst|].
  - split.
    + intros [= <-]. simpl. split; [done|set_solver].
    + destruct i; [done|]. simpl. intros [_ H]. set_solver.
  - split.
    + intros (j & Ej & ->)%fmap_Some. apply IH in Ej as [? ?].
      simpl. split; [done|]. rewrite not_elem_of_cons. by split.
    + destruct i as [|i]; simpl; [naive_solver|].
      rewrite not_elem_of_cons. intros (H1 & _ & H2).
      rewrite (proj2 (IH i) (conj H1 H2)). done.
Qed.

Lemma memchr_None p c : memchr p c = None <-> c ∉ p.
Proof.
  induction p as [|x p IH]; simpl; [set_solver|].
  case_decide; [set_solver|].
  destruct (memchr p c); simpl; set_solver.
Qed.

Lemma filter_all {A} (P : A -> Prop) `{!forall x, Decision (P x)} l :
  Forall P l -> filter P l = l.
Proof.
  induction 1 as [|x l Hx _ IH]; [done|]. by rewrite filter_cons_True, IH.
Qed.

Lemma filter_ext_in {A} (P Q : A -> Prop) `{!forall x, Decision (P x)}
    `{!forall x, Decision (Q x)} l :
  Forall (fun x => P x <-> Q x) l -> filter P l = filter Q l.
Proof.
  induction 1 as [|x l Hx _ IH]; [done|]. rewrite !filter_cons, IH.
  by repeat case_decide; try tauto.
Qed.

(** ** Constants of [sentinel.h] *)

Definition NGX_SENTINEL_DIGEST_LEN : nat := 32.
Definition NGX_SENTINEL_EXPIRE_BATCH : nat := 2.
Definition NGX_SENTINEL_MAX_WINDOW_EVENTS : Z := 64.
Definition NGX_SENTINEL_SCORE_MAX : Z := 100000.

(** ** Automation shared by the development *)

Create HintDb sentinel.

(** Destruct every boolean comparison and [decide] the goal or a hypothesis
    branches on, turning comparisons into arithmetic facts. *)
Ltac break_bool :=
  match goal with
  | |- context [Z.leb ?a ?b] => destruct (Z.leb_spec a b)
  | |- context [Z.ltb ?a ?b] => destruct (Z.ltb_spec a b)
  | |- context [Z.eqb ?a ?b] => destruct (Z.eqb_spec a b)
  | H : context [Z.leb ?a ?b] |- _ => destruct (Z.leb_spec a b)
  | H : context [Z.ltb ?a ?b] |- _ => destruct (Z.ltb_spec a b)
  | H : context [Z.eqb ?a ?b] |- _ => destruct (Z.eqb_spec a b)
  end.

Ltac break_if :=
  match goal with
  | |- context [if ?c then _ else _] => destruct c eqn:?
  | H : context [if ?c then _ else _] |- _ => destruct c eqn:?
  end.

Ltac break_let :=
  match goal with
  | |- context [match ?x with (_, _) => _ end] => destruct x eqn:?
  | H : context [match ?x with (_, _) => _ end] |- _ => destruct x eqn:?
  end.

(** Boolean facts to propositions, then linear arithmetic. *)
Ltac blia :=
  repeat match goal with
  | H : _ && _ = true |- _ => apply andb_true_iff in H as [? ?]
  | H : _ || _ = false |- _ => apply orb_false_iff in H as [? ?]
  | H : negb _ = true |- _ => apply negb_true_iff in H
  | H : negb _ = false |- _ => apply negb_false_iff in H
  | H : Z.leb _ _ = _ |- _ => first [apply Z.leb_le in H | apply Z.leb_gt in H]
  | H : Z.ltb _ _ = _ |- _ => first [apply Z.ltb_lt in H | apply Z.ltb_ge in H]
  | H : Z.eqb _ _ = _ |- _ => first [apply Z.eqb_eq in H | apply Z.eqb_neq in H]
  end; lia.

(** Linear arithmetic with division and remainder by constants. *)
Ltac dlia := Z.to_euclidean_division_equations; lia.

(** From [E : Some (computed, _) = Some (r, _)] replace [r] by its value and
    close the goal. *)
Ltac first_of E :=
  apply (f_equal (fmap fst)) in E; vm_compute in E;
  injection E as <-; reflexivity.

(** ** Lower-case hexadecimal digits *)

Definition hex_char (n : Z) : Byte.byte :=
  nth (Z.to_nat n) (lit "0123456789abcdef") NUL.

(** ** C strings *)

(** The string a [char *] points to in a buffer: up to its NUL, which must be in
    the buffer. *)
Definition c_string (buf : bytes) : option bytes :=
  match memchr buf NUL with Some n => Some (take n buf) | None => None end.

Lemma c_string_app s rest : NUL ∉ s -> c_string (s ++ NUL :: rest) = Some s.
Proof.
  intros Hn. unfold c_string.
  assert (memchr (s ++ NUL :: rest) NUL = Some (length s)) as ->.
  { apply memchr_Some. split; [by apply list_lookup_middle|].
    by rewrite take_app_length. }
  by rewrite take_app_length.
Qed.
