(* ===== verification/Types.v ===== *)
(** * Types.v: the data shared by every component ([sentinel.h])

    The verdict enumeration, the CrowdSec action tiers, the signals gathered
    for a request, the score weights and the verdict thresholds.  An
    [ngx_flag_t] that only ever holds 0 or 1 is a [bool]. *)
From S2P Require Import Prelude.

(** [ngx_sentinel_verdict_e] *)
Inductive verdict : Type :=
  | VERDICT_ALLOW | VERDICT_CHALLENGE | VERDICT_TARPIT | VERDICT_BLOCK.

#[global] Instance verdict_eq_dec : EqDecision verdict.
Proof. solve_decision. Defined.

(** The enumerator's integer value (the metrics index and the label tables are
    computed from it). *)
Definition verdict_index (v : verdict) : Z :=
  match v with
  | VERDICT_ALLOW => 0
  | VERDICT_CHALLENGE => 1
  | VERDICT_TARPIT => 2
  | VERDICT_BLOCK => 3
  end.

(** CrowdSec action tiers; they are stored in a [u_char], so they stay numbers. *)
Definition NGX_SENTINEL_CS_NONE : Z := 0.
Definition NGX_SENTINEL_CS_BAN : Z := 1.
Definition NGX_SENTINEL_CS_CAPTCHA : Z := 2.
Definition NGX_SENTINEL_CS_THROTTLE : Z := 3.

(** [ngx_sentinel_inputs_t]: the signals of one request. *)
Record inputs : Type := Inputs {
  ja4h : bytes;
  errrate_count : Z;
  errrate_blocked : bool;
  scanner_path : bool;
  bot_ua : bool;
  known_good_ua : bool;
  fcrdns_verified : bool;
  fcrdns_spoofed : bool;
  header_anomaly : bool;
  honeypot : bool;
  velocity_exceeded : bool;
  datacenter_asn : bool;
  ua_incoherent : bool;
  ja3_flagged : bool;
  ja4_flagged : bool;
  ja4t_flagged : bool;
  c2ip_flagged : bool;
  allowlisted : bool;
  crowdsec_hit : bool;
  crowdsec_action : Z
}.

(** A request on which no signal fires. *)
Definition inputs_none : inputs :=
  Inputs [] 0 false false false false false false false false false false
         false false false false false false false NGX_SENTINEL_CS_NONE.

(** [ngx_sentinel_threshold_t] *)
Record threshold : Type := Threshold {
  thr_challenge : Z;
  thr_tarpit : Z;
  thr_block : Z
}.

(** [ngx_sentinel_weights_t] *)
Record weights : Type := Weights {
  w_errrate : Z;
  w_blocked : Z;
  w_scanner : Z;
  w_bot : Z;
  w_header : Z;
  w_honeypot : Z;
  w_velocity : Z;
  w_asn : Z;
  w_coherence : Z;
  w_ja3 : Z;
  w_ja4 : Z;
  w_ja4t : Z;
  w_c2ip : Z;
  w_crowdsec : Z
}.

(** The defaults of [sentinel.h]. *)
Definition default_threshold : threshold := Threshold 30 60 80.

Definition default_weights : weights :=
  {| w_errrate := 1; w_blocked := 100; w_scanner := 50; w_bot := 30;
     w_header := 25; w_honeypot := 90; w_velocity := 30; w_asn := 35;
     w_coherence := 40; w_ja3 := 80; w_ja4 := 50; w_ja4t := 45;
     w_c2ip := 80; w_crowdsec := 100 |}.

(** Every weight is a non-negative [ngx_int_t] and the CrowdSec weight is
    within the score ceiling (what the configuration merge guarantees). *)
Definition weights_ok (w : weights) : Prop :=
  0 <= w_errrate w < 2 ^ 63 /\ 0 <= w_blocked w /\ 0 <= w_scanner w /\
  0 <= w_bot w /\ 0 <= w_header w /\ 0 <= w_honeypot w /\
  0 <= w_velocity w /\ 0 <= w_asn w /\ 0 <= w_coherence w /\
  0 <= w_ja3 w /\ 0 <= w_ja4 w /\ 0 <= w_ja4t w /\ 0 <= w_c2ip w /\
  0 <= w_crowdsec w <= NGX_SENTINEL_SCORE_MAX.

#[global] Instance weights_ok_dec w : Decision (weights_ok w).
Proof. unfold weights_ok. apply _. Defined.

Lemma default_weights_ok : weights_ok default_weights.
Proof. unfold weights_ok, NGX_SENTINEL_SCORE_MAX; simpl; lia. Qed.
#[export] Hint Resolve default_weights_ok : sentinel.
