(* ===== verification/Ngx.v ===== *)
(** * Ngx.v: the interfaces to nginx, OpenSSL and the allocator

    The functions of nginx's core and of OpenSSL are not part of this
    repository.  Each group is a type class of operations, and what the module
    relies on is a separate class of laws ([...Laws], in [Prop]): a theorem that
    needs a documented property of an external function takes the class as an
    argument.  [NgxModel.v] instantiates every class with a concrete model, so
    the laws are satisfiable and the witnesses evaluate. *)
From Stdlib Require Export Sorting.Sorted.
From S2P Require Import Prelude.

(** ** Digests and checksums *)
Class NgxHash : Type := {
  ngx_crc32_short : bytes -> Z;
  ngx_crc32_long : bytes -> Z;
  SHA256 : bytes -> bytes
}.

Class NgxHashLaws `{NgxHash} : Prop := {
  SHA256_length : forall b, length (SHA256 b) = NGX_SENTINEL_DIGEST_LEN;
  crc32_short_range : forall b, 0 <= ngx_crc32_short b < 2 ^ 32;
  crc32_long_range : forall b, 0 <= ngx_crc32_long b < 2 ^ 32
}.

(** OpenSSL's keyed digest; [None] is a failure of the library. *)
Class NgxHmac : Type := {
  HMAC_SHA256 : bytes -> bytes -> option bytes
}.

(** ** Byte-string comparison *)

(** The lexicographic order of byte strings, as the sign of a comparison. *)
Fixpoint lexcmp (a b : bytes) : Z :=
  match a, b with
  | [], [] => 0
  | [], _ => -1
  | _, [] => 1
  | x :: a', y :: b' => if bval x =? bval y then lexcmp a' b' else bval x - bval y
  end.

Lemma lexcmp_eq a b : lexcmp a b = 0 <-> a = b.
Proof.
  revert b. induction a as [|x a IH]; intros [|y b]; simpl; try (split; [lia|done]); [done|].
  destruct (Z.eqb_spec (bval x) (bval y)) as [E|E].
  - apply bval_inj in E as ->. rewrite IH. split; [by intros ->|by intros [= ->]].
  - split; [lia|]. intros [= -> ?]. congruence.
Qed.

Lemma lexcmp_antisym a b : lexcmp a b < 0 <-> 0 < lexcmp b a.
Proof.
  revert b. induction a as [|x a IH]; intros [|y b]; simpl; try lia.
  rewrite (Z.eqb_sym (bval y)). destruct (Z.eqb_spec (bval x) (bval y)); [apply IH|lia].
Qed.

Lemma lexcmp_trans a b c : lexcmp a b < 0 -> lexcmp b c < 0 -> lexcmp a c < 0.
Proof.
  revert b c. induction a as [|x a IH]; intros [|y b] [|z c]; simpl; try lia.
  repeat break_bool; try lia. apply IH.
Qed.

(** Lexicographic comparison is comparison of the common prefix length, then of
    the lengths. *)
Lemma lexcmp_prefix a b :
  let n := Nat.min (length a) (length b) in
  Z.sgn (lexcmp a b) =
    if lexcmp (take n a) (take n b) =? 0
    then Z.sgn (Z.of_nat (length a) - Z.of_nat (length b))
    else Z.sgn (lexcmp (take n a) (take n b)).
Proof.
  revert b. induction a as [|x a IH]; intros [|y b]; cbn [length Nat.min take lexcmp Z.eqb];
    try lia.
  destruct (bval x =? bval y) eqn:E.
  - rewrite IH. cbn zeta. destruct (_ =? 0); [f_equal; lia|done].
  - apply Z.eqb_neq in E. by rewrite (proj2 (Z.eqb_neq (bval x - bval y) 0)) by lia.
Qed.

(**

    [ngx_memn2cmp s1 s2] compares two counted strings (bytes, then lengths);
    it is a total order whose zero is equality. *)
Class NgxCompare : Type := {
  ngx_memn2cmp : bytes -> bytes -> Z
}.

Class NgxCompareLaws `{NgxCompare} : Prop := {
  memn2cmp_eq : forall a b, ngx_memn2cmp a b = 0 <-> a = b;
  memn2cmp_antisym : forall a b, ngx_memn2cmp a b < 0 <-> 0 < ngx_memn2cmp b a;
  memn2cmp_trans : forall a b c,
    ngx_memn2cmp a b < 0 -> ngx_memn2cmp b c < 0 -> ngx_memn2cmp a c < 0
}.

(** [ngx_qsort]: a permutation of its input, sorted when the comparison is a total
    preorder of its elements. *)
Class NgxSort : Type := {
  ngx_qsort : (bytes -> bytes -> Z) -> list bytes -> list bytes
}.

Class NgxSortLaws `{NgxSort} : Prop := {
  qsort_permutation : forall cmp l, ngx_qsort cmp l ≡ₚ l;
  qsort_sorted : forall cmp l,
    (forall a b, a ∈ l -> b ∈ l -> cmp a b <= 0 \/ cmp b a <= 0) ->
    (forall a b c, a ∈ l -> b ∈ l -> c ∈ l -> cmp a b <= 0 -> cmp b c <= 0 -> cmp a c <= 0) ->
    StronglySorted (fun a b => cmp a b <= 0) (ngx_qsort cmp l)
}.

(** ** The slab allocator of a shared zone

    [ngx_slab_calloc_locked] returns [None] when the zone is full and
    otherwise a block that was not live. *)
Definition addr : Type := positive.

Class NgxSlab : Type := {
  slab_pool : Type;
  slab_live : slab_pool -> gset addr;
  ngx_slab_calloc_locked : slab_pool -> Z -> option (addr * slab_pool);
  ngx_slab_free_locked : slab_pool -> addr -> slab_pool;
  (** [offsetof(ngx_sentinel_node_t, data)] and [sizeof(ngx_sentinel_node_t)],
      which depend on the layout of nginx's tree and queue nodes. *)
  node_data_offset : Z;
  node_size : Z
}.

Class NgxSlabLaws `{NgxSlab} : Prop := {
  slab_calloc_fresh : forall s n a s',
    ngx_slab_calloc_locked s n = Some (a, s') ->
    a ∉ slab_live s /\ slab_live s' = {[a]} ∪ slab_live s;
  slab_free_live : forall s a,
    slab_live (ngx_slab_free_locked s a) = slab_live s ∖ {[a]};
  (** the fixed part of a node is a few machine words *)
  node_data_offset_small : 0 <= node_data_offset < 65536
}.

(** ** The red-black tree

    The module owns the descent of an insertion and the search; nginx owns the
    colours, the rebalancing and the deletion.  A tree is the binary tree of
    the addresses of its nodes. *)
Inductive rbtree : Type :=
  | RbSentinel
  | RbNode (left : rbtree) (node : addr) (right : rbtree).

Fixpoint inorder (t : rbtree) : list addr :=
  match t with
  | RbSentinel => []
  | RbNode l a r => inorder l ++ a :: inorder r
  end.

(** [ngx_rbtree_insert tree node] makes [node] the root of an empty tree and
    otherwise calls the tree's insert callback on the root and rebalances;
    rebalancing and deletion keep the order of the remaining nodes. *)
Class NgxRbtree : Type := {
  ngx_rbtree_insert :
    (rbtree -> option rbtree) -> rbtree -> addr -> option rbtree;
  ngx_rbtree_delete : rbtree -> addr -> rbtree
}.

Class NgxRbtreeLaws `{NgxRbtree} : Prop := {
  rbtree_insert_empty : forall cb a,
    exists t', ngx_rbtree_insert cb RbSentinel a = Some t' /\ inorder t' = [a];
  rbtree_insert_callback : forall cb t a t1,
    t <> RbSentinel -> cb t = Some t1 ->
    exists t', ngx_rbtree_insert cb t a = Some t' /\ inorder t' = inorder t1;
  rbtree_delete_inorder : forall t a,
    inorder (ngx_rbtree_delete t a) = filter (.≠ a) (inorder t)
}.

(** ** Number and string parsing

    [ngx_atoi] and [ngx_atotm] return [NGX_ERROR] ([None]) on an empty or
    non-decimal string and on overflow. *)
Class NgxParse : Type := {
  ngx_atoi : bytes -> option Z;
  ngx_strncasecmp : bytes -> bytes -> nat -> Z;
  ngx_tolower : Byte.byte -> Byte.byte
}.

Class NgxParseLaws `{NgxParse} : Prop := {
  atoi_range : forall b n, ngx_atoi b = Some n -> 0 <= n < 2 ^ 63;
  atoi_nonempty : ngx_atoi [] = None;
  tolower_idem : forall c, ngx_tolower (ngx_tolower c) = ngx_tolower c;
  (** Two buffers of at least [n] NUL-free bytes compare as their lower-case
      forms do in the lexicographic order. *)
  strncasecmp_sgn : forall a b n,
    (n <= length a)%nat -> (n <= length b)%nat -> no_nul a -> no_nul b ->
    Z.sgn (ngx_strncasecmp a b n) =
    Z.sgn (lexcmp (map ngx_tolower (take n a)) (map ngx_tolower (take n b)))
}.

Lemma strncasecmp_eq `{NgxParseLaws} a b n :
  (n <= length a)%nat -> (n <= length b)%nat -> no_nul a -> no_nul b ->
  ngx_strncasecmp a b n = 0 <->
  map ngx_tolower (take n a) = map ngx_tolower (take n b).
Proof.
  intros. rewrite <- lexcmp_eq, <- (Z.sgn_null_iff (lexcmp _ _)), <- strncasecmp_sgn by done.
  by rewrite Z.sgn_null_iff.
Qed.

(** With a 64-bit [time_t] the two parsers coincide. *)
Definition ngx_atotm `{NgxParse} (b : bytes) : option Z := ngx_atoi b.

(** ** Internet addresses

    [ngx_inet_addr] is [None] for [INADDR_NONE]; [ngx_inet6_addr] yields the 16
    address bytes; the [ntop] functions render the canonical text. *)
Class NgxInet : Type := {
  ngx_inet_addr : bytes -> option Z;
  ngx_inet6_addr : bytes -> option bytes;
  ngx_inet_ntop : Z -> bytes;
  ngx_inet6_ntop : bytes -> bytes
}.

(** ** Formatting *)

(** nginx's formatting of decimal numbers ([%T], [%uL], [%i]) and the size of its
    address text buffers. *)
Class NgxFormat : Type := {
  ngx_dec : Z -> bytes;
  NGX_SOCKADDR_STRLEN : nat
}.

(** [ngx_snprintf] into a buffer of [size] bytes truncates its output. *)
Definition ngx_snprintf (size : nat) (out : bytes) : bytes := take size out.

Definition digit (c : Byte.byte) : Prop := 48 <= bval c <= 57.

Definition dec_from (v : Z) (s : bytes) : Z :=
  fold_left (fun v c => v * 10 + (bval c - 48)) s v.

(** The value of a decimal digit string. *)
Definition dec_value (s : bytes) : Z := dec_from 0 s.

Lemma dec_value_from v s : 0 <= v -> Forall digit s -> v <= dec_from v s.
Proof.
  intros Hv Hs. revert v Hv. induction Hs as [|c s Hc Hs IH]; intros v Hv; simpl; [done|].
  unfold digit in Hc. unfold dec_from in *. cbn [fold_left]. etransitivity; [|apply IH]; lia.
Qed.

Lemma dec_from_app v s1 s2 : dec_from v (s1 ++ s2) = dec_from (dec_from v s1) s2.
Proof. unfold dec_from. by rewrite fold_left_app. Qed.

Lemma dec_from_lt v s :
  0 <= v -> Forall digit s -> dec_from v s < (v + 1) * 10 ^ Z.of_nat (length s).
Proof.
  intros Hv Hs. revert v Hv. induction Hs as [|c s Hc Hs IH]; intros v Hv.
  { unfold dec_from. simpl. lia. }
  unfold dec_from in *. cbn [fold_left length]. unfold digit in Hc.
  rewrite Nat2Z.inj_succ, Z.pow_succ_r by lia.
  specialize (IH (v * 10 + (bval c - 48)) ltac:(lia)).
  eapply Z.lt_le_trans; [exact IH|]. rewrite Z.mul_assoc.
  apply Z.mul_le_mono_nonneg_r; [apply Z.pow_nonneg|]; lia.
Qed.

(** Decimal output is digits, denotes the number, fits twenty characters for a
    64-bit number, is read back by [ngx_atoi] and has no
    leading zeros. *)
Class NgxFormatLaws `{NgxFormat} `{NgxParse} : Prop := {
  dec_digits : forall n, 0 <= n -> Forall digit (ngx_dec n);
  dec_value_dec : forall n, 0 <= n -> dec_value (ngx_dec n) = n;
  dec_length : forall n, 0 <= n < 2 ^ 64 -> (1 <= length (ngx_dec n) <= 20)%nat;
  atoi_dec : forall n, 0 <= n < 2 ^ 63 -> ngx_atoi (ngx_dec n) = Some n;
  dec_canonical : forall c s, Forall digit (c :: s) -> bval c <> 48 ->
    ngx_dec (dec_value (c :: s)) = c :: s
}.
