(* ===== verification/Http.v ===== *)
(** * Http.v: requests, configurations and what nginx computes on them

    The parts of [ngx_http_request_t] the module reads, the location
    configuration ([ngx_sentinel_loc_conf_t]), and the class of nginx's
    evaluation and address-matching functions. *)
From S2P Require Import Prelude Types.

(** ** Requests *)

Inductive http_method : Type :=
  | NGX_HTTP_GET | NGX_HTTP_POST | NGX_HTTP_PUT | NGX_HTTP_DELETE
  | NGX_HTTP_HEAD | NGX_HTTP_OPTIONS | NGX_HTTP_PATCH | NGX_HTTP_METHOD_OTHER.

Definition NGX_HTTP_VERSION_10 : Z := 1000.
Definition NGX_HTTP_VERSION_11 : Z := 1001.
Definition NGX_HTTP_VERSION_20 : Z := 2000.

(** The client address of the connection: an IPv4 address in host order, the
    16 bytes of an IPv6 address, or a socket of another family. *)
Inductive sockaddr : Type :=
  | AF_INET (a : Z)
  | AF_INET6 (a : bytes)
  | AF_OTHER.

(** The four bytes of an IPv4 address in network order. *)
Definition be32 (a : Z) : bytes :=
  [u_char (Z.shiftr a 24); u_char (Z.shiftr a 16); u_char (Z.shiftr a 8); u_char a].

(** [ngx_table_elt_t] *)
Record header : Type := Header {
  h_hash : Z;
  h_key : bytes;
  h_value : bytes
}.

(** A pointer to a header of [headers_in] is the value it points to. *)
Record request : Type := Request {
  r_method : http_method;
  r_http_version : Z;
  r_uri : bytes;
  r_args : bytes;
  r_headers : list (list header);
  r_host : option bytes;
  r_user_agent : option bytes;
  r_accept : option bytes;
  r_accept_language : option bytes;
  r_accept_encoding : option bytes;
  r_content_length : option bytes;
  r_transfer_encoding : option bytes;
  r_addr_text : bytes;
  r_sockaddr : option sockaddr;
  r_err_status : Z;
  r_status : Z
}.

(** ** nginx's request-time evaluation *)
Class NgxHttp : Type := {
  complex_value : Type;
  cidr : Type;
  radix32 : Type;
  radix128 : Type;
  (** [None] is a result other than [NGX_OK]. *)
  ngx_http_complex_value : request -> complex_value -> option bytes;
  ngx_cidr_match : sockaddr -> list cidr -> bool;
  (** [None] is [NGX_RADIX_NO_VALUE]. *)
  ngx_radix32tree_find : radix32 -> Z -> option Z;
  ngx_radix128tree_find : radix128 -> bytes -> option Z
}.

(** nginx's parsing of a cookie and of a query argument. *)
Class NgxQuery : Type := {
  ngx_http_parse_cookie_lines : request -> bytes -> option bytes;
  ngx_http_arg : request -> bytes -> option bytes
}.

(** ** The location configuration

    An unset integer or flag is [NGX_CONF_UNSET]; an unset [size_t] is
    [NGX_CONF_UNSET_SIZE]; a zone pointer is the index of the zone in its array
    of the main configuration ([None] for NULL), and one that can also be
    [NGX_CONF_UNSET_PTR] is an [option] of it. *)
Definition NGX_CONF_UNSET : Z := -1.
Definition NGX_CONF_UNSET_SIZE : Z := 2 ^ 64 - 1.

Definition zone_ref : Type := option nat.

Section LocConf.
Context `{NgxHttp}.

Record cs_conf : Type := CsConf {
  cs_zone : option zone_ref;
  cs_feed : bytes;
  cs_interval : Z;
  cs_default_ttl : Z;
  cs_stale_after : Z;
  cs_max_bytes : Z
}.

(** A fingerprint signal: the source variable and the deny list. *)
Record deny_conf : Type := DenyConf {
  deny_source : option complex_value;
  deny_list : list bytes
}.

Record fcrdns_conf : Type := FcrdnsConf {
  fcrdns_zone : option zone_ref;
  fcrdns_zone_name : bytes;
  fcrdns_ttl : Z;
  fcrdns_suffixes : list bytes
}.

Record tarpit_conf : Type := TarpitConf {
  tarpit_max_conns : Z;
  tarpit_delay : Z;
  tarpit_bytes : Z;
  tarpit_max_lifetime : Z;
  tarpit_maze : Z
}.

Record pow_conf : Type := PowConf {
  pow_enabled : Z;
  pow_secret : option bytes;
  pow_difficulty : Z;
  pow_ttl : Z
}.

(** [redis_password], [redis_prefix], [pow_secret] and [cs_sink_scenario] are
    [ngx_str_t]s whose unset state is a NULL [data] pointer. *)
Record redis_conf : Type := RedisConf {
  redis_host : bytes;
  redis_port : Z;
  redis_password : option bytes;
  redis_prefix : option bytes;
  redis_interval : Z;
  redis_ttl : Z;
  redis_push_zone : option nat
}.

Record sink_conf : Type := SinkConf {
  cs_sink_path : bytes;
  cs_sink_interval : Z;
  cs_sink_ttl : Z;
  cs_sink_scenario : option bytes;
  cs_sink_zone : option nat
}.

(** [ngx_sentinel_loc_conf_t] *)
Record loc_conf : Type := LocConf {
  enabled : Z;
  shadow : Z;
  fail_open : Z;
  lcf_zone : zone_ref;
  vel_zone : option zone_ref;
  vel_zone_name : bytes;
  lcf_threshold : threshold;
  lcf_weights : weights;
  lcf_cs : cs_conf;
  decoy_paths : list bytes;
  allow_cidrs : list cidr;
  asn_source : option complex_value;
  asn_list : list Z;
  lcf_ja3 : deny_conf;
  lcf_ja4 : deny_conf;
  lcf_ja4t : deny_conf;
  c2ip_tree : option radix32;
  c2ip_tree6 : option radix128;
  lcf_fcrdns : fcrdns_conf;
  lcf_tarpit : tarpit_conf;
  block_status : Z;
  block_ttl : Z;
  throttle_rate : Z;
  shield : Z;
  lcf_pow : pow_conf;
  lcf_redis : redis_conf;
  lcf_sink : sink_conf
}.
End LocConf.
