(* ===== verification/NgxModel.v ===== *)
(** * NgxModel.v: concrete instances of the external interfaces

    One executable instance of every class of [Ngx.v], with the proof of its
    laws: the hypotheses of the development are satisfiable, and the witnesses
    evaluate on these instances.  They are local to the file that needs them
    ([#[export]] instances of a Module that only witnesses import). *)
From S2P Require Import Prelude Types Ngx Http.

Module Concrete.

(** ** Digests: fixed-length and in range, not cryptographic *)

Fixpoint sum_hash (acc : Z) (b : bytes) : Z :=
  match b with
  | [] => acc
  | c :: b' => sum_hash ((acc * 31 + bval c + 1) mod 2 ^ 32) b'
  end.

Lemma sum_hash_range b acc : 0 <= acc < 2 ^ 32 -> 0 <= sum_hash acc b < 2 ^ 32.
Proof.
  revert acc. induction b as [|c b IH]; intros acc Hacc; cbn [sum_hash]; [done|].
  apply IH, Z.mod_pos_bound. lia.
Qed.

Definition digest (b : bytes) : bytes :=
  (fun i => u_char (sum_hash (Z.of_nat i) b)) <$> seq 0 NGX_SENTINEL_DIGEST_LEN.

#[export] Instance hash : NgxHash := {|
  ngx_crc32_short := sum_hash 0;
  ngx_crc32_long := sum_hash 0;
  SHA256 := digest
|}.

#[export] Instance hash_laws : NgxHashLaws.
Proof.
  split; intros b.
  - unfold SHA256, hash, digest. by rewrite length_fmap, length_seq.
  - apply sum_hash_range. lia.
  - apply sum_hash_range. lia.
Qed.

(** ** Comparison *)

#[export] Instance compare : NgxCompare := {| ngx_memn2cmp := lexcmp |}.

#[export] Instance compare_laws : NgxCompareLaws.
Proof. split; [apply lexcmp_eq|apply lexcmp_antisym|apply lexcmp_trans]. Qed.

(** ** Sorting: insertion *)

Fixpoint insert_sorted (cmp : bytes -> bytes -> Z) (x : bytes) (l : list bytes) : list bytes :=
  match l with
  | [] => [x]
  | y :: l' => if cmp x y <=? 0 then x :: l else y :: insert_sorted cmp x l'
  end.

#[export] Instance sort : NgxSort := {|
  ngx_qsort := fun cmp l => foldr (insert_sorted cmp) [] l
|}.

Lemma insert_sorted_perm cmp x l : insert_sorted cmp x l ≡ₚ x :: l.
Proof.
  induction l as [|y l IH]; simpl; [done|]. destruct (_ <=? 0); [done|].
  rewrite IH. apply perm_swap.
Qed.

Lemma sort_perm cmp l : foldr (insert_sorted cmp) [] l ≡ₚ l.
Proof. induction l as [|x l IH]; simpl; [done|]. by rewrite insert_sorted_perm, IH. Qed.

Lemma insert_sorted_sorted cmp x l :
  (forall a b, a ∈ x :: l -> b ∈ x :: l -> cmp a b <= 0 \/ cmp b a <= 0) ->
  (forall a b c, a ∈ x :: l -> b ∈ x :: l -> c ∈ x :: l ->
     cmp a b <= 0 -> cmp b c <= 0 -> cmp a c <= 0) ->
  StronglySorted (fun a b => cmp a b <= 0) l ->
  StronglySorted (fun a b => cmp a b <= 0) (insert_sorted cmp x l).
Proof.
  intros Htot Htr Hs. induction Hs as [|y l Hs IH Hy]; simpl; [by repeat constructor|].
  destruct (Z.leb_spec (cmp x y) 0) as [Hxy|Hxy].
  - constructor; [by constructor|]. constructor; [done|].
    rewrite Forall_forall in *. intros z Hz. apply (Htr x y z); [set_solver..|done|by apply Hy].
  - constructor.
    + apply IH; intros; [apply Htot|eapply Htr]; try done; set_solver.
    + rewrite Forall_forall in *. intros z. rewrite insert_sorted_perm.
      intros [->|Hz]%elem_of_cons; [|by apply Hy].
      destruct (Htot x y); [set_solver..|lia|done].
Qed.

#[export] Instance sort_laws : NgxSortLaws.
Proof.
  split; intros cmp l; [apply sort_perm|]. unfold ngx_qsort, sort.
  induction l as [|x l IH]; intros Htot Htr; simpl; [constructor|].
  apply insert_sorted_sorted.
  - intros a b. rewrite sort_perm. apply Htot.
  - intros a b c. rewrite sort_perm. apply Htr.
  - apply IH; intros; [apply Htot|eapply Htr]; try done; set_solver.
Qed.

(** ** Slab allocator: a bump allocator with a bound on the live blocks *)

Record pool : Type := Pool { p_next : positive; p_live : gset addr; p_max : nat }.

Definition pool_calloc (s : pool) (size : Z) : option (addr * pool) :=
  if decide (p_next s ∉ p_live s /\ (base.size (p_live s) < p_max s)%nat)
  then Some (p_next s, Pool (Pos.succ (p_next s)) ({[p_next s]} ∪ p_live s) (p_max s))
  else None.

#[export] Instance slab : NgxSlab := {|
  slab_pool := pool;
  slab_live := p_live;
  ngx_slab_calloc_locked := pool_calloc;
  ngx_slab_free_locked := fun s a => Pool (p_next s) (p_live s ∖ {[a]}) (p_max s);
  node_data_offset := 108;
  node_size := 112
|}.

#[export] Instance slab_laws : NgxSlabLaws.
Proof.
  split; [|done|by cbn]. intros s n a s'. unfold ngx_slab_calloc_locked, slab, pool_calloc.
  case_decide as E; [|done]. intros [= <- <-]. by destruct E.
Qed.

Definition fresh_pool (max : nat) : pool := Pool 1 ∅ max.

(** ** Red-black tree: no rebalancing on insertion, a list on deletion *)

Fixpoint spine (l : list addr) : rbtree :=
  match l with
  | [] => RbSentinel
  | a :: l' => RbNode RbSentinel a (spine l')
  end.

Lemma inorder_spine l : inorder (spine l) = l.
Proof. induction l; simpl; congruence. Qed.

#[export] Instance rbt : NgxRbtree := {|
  ngx_rbtree_insert := fun cb t a =>
    match t with RbSentinel => Some (RbNode RbSentinel a RbSentinel) | _ => cb t end;
  ngx_rbtree_delete := fun t a => spine (filter (.≠ a) (inorder t))
|}.

#[export] Instance rbt_laws : NgxRbtreeLaws.
Proof.
  split; simpl.
  - intros. by eexists.
  - intros cb [|l b r] a t1 Ht; [done|]. by eexists.
  - intros. apply inorder_spine.
Qed.

(** ** Parsing *)

Definition tolower (c : Byte.byte) : Byte.byte :=
  if (65 <=? bval c) && (bval c <=? 90) then u_char (bval c + 32) else c.

(** Values of [ngx_int_t] up to [NGX_MAX_INT_T_VALUE]. *)
Fixpoint atoi (acc : Z) (b : bytes) : option Z :=
  match b with
  | [] => Some acc
  | c :: b' =>
      if (48 <=? bval c) && (bval c <=? 57) then
        let v := acc * 10 + (bval c - 48) in
        if v <? 2 ^ 63 then atoi v b' else None
      else None
  end.

Lemma atoi_bound b acc n : 0 <= acc < 2 ^ 63 -> atoi acc b = Some n -> 0 <= n < 2 ^ 63.
Proof.
  revert acc. induction b as [|c b IH]; intros acc Hacc; cbn [atoi].
  { by intros [= <-]. }
  destruct (Z.leb_spec 48 (bval c)), (Z.leb_spec (bval c) 57); cbn [andb]; try done.
  cbn zeta. destruct (Z.ltb_spec (acc * 10 + (bval c - 48)) (2 ^ 63)); [|done].
  apply IH. lia.
Qed.

Fixpoint casecmp (a b : bytes) (n : nat) : Z :=
  match n with
  | O => 0
  | S n' =>
      let ca := bval (tolower (hd NUL a)) in
      let cb := bval (tolower (hd NUL b)) in
      if ca =? cb then
        if ca =? 0 then 0 else casecmp (tl a) (tl b) n'
      else ca - cb
  end.

#[export] Instance parse : NgxParse := {|
  ngx_atoi := fun b => match b with [] => None | _ => atoi 0 b end;
  ngx_strncasecmp := casecmp;
  ngx_tolower := tolower
|}.

Lemma tolower_NUL c : bval (tolower c) = 0 -> c = NUL.
Proof. destruct c; vm_compute; done. Qed.

#[export] Instance parse_laws : NgxParseLaws.
Proof.
  split; unfold ngx_atoi, ngx_strncasecmp, ngx_tolower, parse.
  - intros [|c b] n; [done|]. apply atoi_bound. lia.
  - done.
  - intros c. destruct c; reflexivity.
  - unfold no_nul. intros a b n. revert a b.
    induction n as [|n IH]; intros a b Ha Hb Na Nb; [done|].
    destruct a as [|x a], b as [|y b]; simpl in Ha, Hb; try lia.
    rewrite !not_elem_of_cons in *. cbn [casecmp hd tl take map lexcmp].
    destruct (Z.eqb_spec (bval (tolower x)) (bval (tolower y))) as [E|E]; [|done].
    destruct (Z.eqb_spec (bval (tolower x)) 0) as [E0|E0].
    { apply tolower_NUL in E0. naive_solver. }
    rewrite IH by (try lia; tauto). done.
Qed.

(** ** Decimal output *)

Fixpoint dec_loop (fuel : nat) (n : Z) (acc : bytes) : bytes :=
  match fuel with
  | O => acc
  | S f =>
      let acc := u_char (48 + n mod 10) :: acc in
      if n / 10 =? 0 then acc else dec_loop f (n / 10) acc
  end.

#[export] Instance format : NgxFormat := {|
  ngx_dec := fun n => dec_loop (S (Z.to_nat (Z.log2 n))) n [];
  NGX_SOCKADDR_STRLEN := 65
|}.

Lemma bval_digit n : bval (u_char (48 + n mod 10)) = 48 + n mod 10.
Proof. rewrite bval_u_char. dlia. Qed.

Lemma dec_loop_digits fuel n acc : Forall digit acc -> Forall digit (dec_loop fuel n acc).
Proof.
  revert n acc. induction fuel as [|f IH]; intros n acc Hacc; cbn [dec_loop]; [done|].
  assert (Forall digit (u_char (48 + n mod 10) :: acc)).
  { constructor; [|done]. unfold digit. rewrite bval_digit. dlia. }
  destruct (n / 10 =? 0); auto.
Qed.

Lemma dec_loop_value fuel n acc :
  0 <= n < 2 ^ Z.of_nat fuel -> (0 < fuel)%nat ->
  dec_from 0 (dec_loop fuel n acc) = dec_from n acc.
Proof.
  revert n acc. induction fuel as [|f IH]; intros n acc Hn Hf; [lia|]. cbn [dec_loop].
  rewrite Nat2Z.inj_succ, Z.pow_succ_r in Hn by lia.
  destruct (Z.eqb_spec (n / 10) 0) as [E|E].
  - unfold dec_from. cbn [fold_left]. rewrite bval_digit. f_equal. dlia.
  - destruct f as [|f']; [change (2 ^ Z.of_nat 0) with 1 in Hn; dlia|].
    rewrite IH; [|dlia|lia]. unfold dec_from. cbn [fold_left]. rewrite bval_digit.
    f_equal. dlia.
Qed.

Lemma dec_loop_length fuel n acc k :
  0 <= n < 10 ^ Z.of_nat (S k) -> (length (dec_loop fuel n acc) <= S k + length acc)%nat.
Proof.
  revert n acc k. induction fuel as [|f IH]; intros n acc k Hn; cbn [dec_loop]; [lia|].
  rewrite Nat2Z.inj_succ, Z.pow_succ_r in Hn by lia.
  destruct (Z.eqb_spec (n / 10) 0) as [E|E]; [simpl; lia|].
  destruct k as [|k]; [change (10 ^ Z.of_nat 0) with 1 in Hn; dlia|].
  etransitivity; [apply (IH _ _ k)|simpl; lia]. dlia.
Qed.

Lemma dec_loop_nonempty fuel n acc :
  (0 < fuel)%nat -> (1 <= length (dec_loop fuel n acc))%nat.
Proof.
  assert (forall f n acc, (length acc <= length (dec_loop f n acc))%nat) as Hmono.
  { induction f as [|f IH]; intros m l; cbn [dec_loop]; [done|].
    destruct (m / 10 =? 0); [simpl; lia|]. etransitivity; [|apply IH]. simpl. lia. }
  destruct fuel as [|f]; [lia|]. intros _. cbn [dec_loop].
  destruct (n / 10 =? 0); [simpl; lia|]. etransitivity; [|apply Hmono]. simpl. lia.
Qed.

Lemma atoi_digits s v :
  0 <= v -> Forall digit s -> dec_from v s < 2 ^ 63 -> atoi v s = Some (dec_from v s).
Proof.
  intros Hv Hs. revert v Hv. induction Hs as [|c s Hc Hs IH]; intros v Hv Hlt; [done|].
  unfold dec_from in *. cbn [fold_left atoi] in *. unfold digit in Hc.
  pose proof (dec_value_from (v * 10 + (bval c - 48)) s ltac:(lia) Hs) as Hle.
  unfold dec_from in Hle.
  destruct (Z.leb_spec 48 (bval c)), (Z.leb_spec (bval c) 57); try lia. cbn [andb].
  destruct (Z.ltb_spec (v * 10 + (bval c - 48)) (2 ^ 63)); [|lia]. apply IH; [lia|done].
Qed.

Lemma dec_loop_canonical fuel c s acc :
  Forall digit (c :: s) -> bval c <> 48 ->
  dec_from 0 (c :: s) < 2 ^ Z.of_nat fuel -> (0 < fuel)%nat ->
  dec_loop fuel (dec_from 0 (c :: s)) acc = c :: s ++ acc.
Proof.
  revert fuel acc. induction s as [|d s IH] using rev_ind; intros fuel acc Hd Hc Hf Hp.
  - rewrite Forall_singleton in Hd. unfold digit in Hd.
    destruct fuel as [|f]; [lia|]. unfold dec_from. cbn [fold_left dec_loop app].
    replace (0 * 10 + (bval c - 48)) with (bval c - 48) by lia.
    rewrite (Z.mod_small (bval c - 48) 10), (Z.div_small (bval c - 48) 10) by lia.
    cbn [Z.eqb]. f_equal. rewrite <- (u_char_bval c) at 2. f_equal. lia.
  - rewrite app_comm_cons in *. apply Forall_app in Hd as [Hd Hl].
    rewrite Forall_singleton in Hl. unfold digit in Hl.
    rewrite dec_from_app in *. set (v := dec_from 0 (c :: s)) in *.
    assert (1 <= v) as Hv.
    { subst v. inversion Hd as [|? ? Hc' Hs']; subst. unfold digit in Hc'.
      change (dec_from 0 (c :: s)) with (dec_from (0 * 10 + (bval c - 48)) s).
      etransitivity; [|apply dec_value_from; [lia|done]]. lia. }
    change (dec_from v [d]) with (v * 10 + (bval d - 48)) in *.
    destruct fuel as [|f]; [lia|]. cbn [dec_loop].
    rewrite Nat2Z.inj_succ, Z.pow_succ_r in Hf by lia.
    replace ((v * 10 + (bval d - 48)) / 10) with v by dlia.
    replace ((v * 10 + (bval d - 48)) mod 10) with (bval d - 48) by dlia.
    destruct (Z.eqb_spec v 0); [lia|].
    replace (48 + (bval d - 48)) with (bval d) by lia. rewrite u_char_bval.
    destruct f as [|f']; [change (2 ^ Z.of_nat 0) with 1 in Hf; lia|].
    rewrite IH by (done || lia). by rewrite <- app_assoc.
Qed.

Lemma dec_fuel n : 0 <= n -> 0 <= n < 2 ^ Z.of_nat (S (Z.to_nat (Z.log2 n))).
Proof.
  intros Hn. split; [done|].
  rewrite Nat2Z.inj_succ, Z2Nat.id by apply Z.log2_nonneg.
  destruct (Z.eq_dec n 0) as [->|]; [done|]. apply Z.log2_spec. lia.
Qed.

#[export] Instance format_laws : NgxFormatLaws.
Proof.
  split; unfold ngx_dec, format.
  - intros n Hn. by apply dec_loop_digits.
  - intros n Hn. apply (dec_loop_value _ _ []); [by apply dec_fuel|lia].
  - intros n Hn. split; [apply dec_loop_nonempty; lia|].
    etransitivity; [apply (dec_loop_length _ _ _ 19)|simpl; lia]. lia.
  - intros n Hn. set (s := dec_loop _ n []).
    assert (Hs : Forall digit s) by by apply dec_loop_digits.
    assert (Hv : dec_from 0 s = n)
      by (apply (dec_loop_value _ _ []); [apply dec_fuel; lia|lia]).
    assert (Hl : (1 <= length s)%nat) by (apply dec_loop_nonempty; lia).
    unfold ngx_atoi, parse. destruct s as [|c s']; [simpl in Hl; lia|].
    rewrite atoi_digits; [by rewrite Hv|lia|done|rewrite Hv; lia].
  - intros c s Hs Hc. unfold dec_value.
    pose proof (dec_value_from 0 (c :: s) ltac:(lia) Hs) as Hn.
    rewrite dec_loop_canonical; [by rewrite app_nil_r|done|done|apply dec_fuel; lia|lia].
Qed.

(** ** Addresses: dotted quads in decimal, and no IPv6 text. *)

Fixpoint split_dots (acc : bytes) (b : bytes) : list bytes :=
  match b with
  | [] => [rev acc]
  | c :: b' => if bval c =? 46 then rev acc :: split_dots [] b' else split_dots (c :: acc) b'
  end.

Definition octet (b : bytes) : option Z :=
  match ngx_atoi b with
  | Some n => if n <? 256 then Some n else None
  | None => None
  end.

Definition inet_addr (b : bytes) : option Z :=
  match map octet (split_dots [] b) with
  | [Some a; Some b; Some c; Some d] => Some (((a * 256 + b) * 256 + c) * 256 + d)
  | _ => None
  end.

Definition dec3 (n : Z) : bytes :=
  (if n <? 100 then [] else [u_char (48 + n / 100)]) ++
  (if n <? 10 then [] else [u_char (48 + n / 10 mod 10)]) ++
  [u_char (48 + n mod 10)].

Definition dot : bytes := [u_char 46].

#[export] Instance inet : NgxInet := {|
  ngx_inet_addr := inet_addr;
  ngx_inet6_addr := fun _ => None;
  ngx_inet_ntop := fun a =>
    dec3 (a / 2 ^ 24 mod 256) ++ dot ++ dec3 (a / 2 ^ 16 mod 256) ++ dot ++
    dec3 (a / 2 ^ 8 mod 256) ++ dot ++ dec3 (a mod 256);
  ngx_inet6_ntop := fun _ => []
|}.

(** ** Request-time evaluation: a variable is a function of the request, a CIDR
    one address, a radix tree a finite map. *)
#[export] Instance sockaddr_eq_dec : EqDecision sockaddr.
Proof. solve_decision. Defined.

#[export] Instance http : NgxHttp := {|
  complex_value := request -> option bytes;
  cidr := sockaddr;
  radix32 := gmap Z Z;
  radix128 := gmap bytes Z;
  ngx_http_complex_value := fun r f => f r;
  ngx_cidr_match := fun sa l => bool_decide (sa ∈ l);
  ngx_radix32tree_find := fun t k => t !! k;
  ngx_radix128tree_find := fun t k => t !! k
|}.

(** A keyed digest of the right length (not cryptographic); the cookie of a
    request is its [Accept] header, and it has no query arguments. *)
#[export] Instance hmac : NgxHmac := {| HMAC_SHA256 := fun k m => Some (digest (k ++ m)) |}.

#[export] Instance query : NgxQuery := {|
  ngx_http_parse_cookie_lines := fun r _ => r_accept r;
  ngx_http_arg := fun _ _ => None
|}.
End Concrete.
