(* ===== verification/Score.v ===== *)
(** * Score.v: score computation and verdict bands ([sentinel_score.c])

    [sentinel_score_compute] is a saturating weighted sum with two
    short-circuits.  Signed 64-bit overflow of its two products is undefined
    behaviour in C, so the model multiplies with [mul_i64], which is [None]
    outside the range of [ngx_int_t]; the theorems show it never happens. *)
From S2P Require Import Prelude Types.

(** ** The code *)

(** The conversion of an [ngx_uint_t] to an [ngx_int_t]. *)
Definition to_i64 (z : Z) : Z :=
  let u := wrap64 z in if u <? 2 ^ 63 then u else u - 2 ^ 64.

(** A product of two [ngx_int_t]: overflow is undefined behaviour. *)
Definition mul_i64 (a b : Z) : option Z :=
  if (- 2 ^ 63 <=? a * b) && (a * b <? 2 ^ 63) then Some (a * b) else None.

Definition sentinel_score_add (acc term : Z) : Z :=
  if term <=? 0 then acc
  else if NGX_SENTINEL_SCORE_MAX - acc <? term then NGX_SENTINEL_SCORE_MAX
  else acc + term.

(** [if (flag) { sentinel_score_add(&score, w); }] *)
Definition add_if (flag : bool) (w acc : Z) : Z :=
  if flag then sentinel_score_add acc w else acc.

(** The error-burst product, clamped before it is multiplied. *)
Definition score_errrate (w count acc : Z) : option Z :=
  if (0 <? w) && (0 <? count) then
    let cnt := to_i64 count in
    if Z.quot NGX_SENTINEL_SCORE_MAX w <? cnt
    then Some (sentinel_score_add acc NGX_SENTINEL_SCORE_MAX)
    else let! t := mul_i64 w cnt in Some (sentinel_score_add acc t)
  else Some acc.

(** The CrowdSec term: a fraction of the weight by action tier. *)
Definition score_crowdsec (w action acc : Z) : option Z :=
  if 0 <? w then
    if action =? NGX_SENTINEL_CS_CAPTCHA
    then let! t := mul_i64 w 40 in Some (sentinel_score_add acc (Z.quot t 100))
    else if action =? NGX_SENTINEL_CS_THROTTLE
    then let! t := mul_i64 w 65 in Some (sentinel_score_add acc (Z.quot t 100))
    else Some (sentinel_score_add acc w)
  else Some acc.

(** The two allow-listing short-circuits. *)
Definition short_circuit (i : inputs) : bool :=
  (known_good_ua i && negb (crowdsec_hit i) && negb (fcrdns_spoofed i))
  || (allowlisted i && negb (crowdsec_hit i)).

Definition sentinel_score_compute (i : option inputs) (w : option weights)
    : option Z :=
  match i, w with
  | Some i, Some w =>
      if short_circuit i then Some 0 else
      let! score := score_errrate (w_errrate w) (errrate_count i) 0 in
      let score := add_if (errrate_blocked i) (w_blocked w) score in
      let score := add_if (scanner_path i) (w_scanner w) score in
      let score := add_if (bot_ua i) (w_bot w) score in
      let score := add_if (header_anomaly i) (w_header w) score in
      let score := add_if (honeypot i) (w_honeypot w) score in
      let score := add_if (velocity_exceeded i) (w_velocity w) score in
      let score := add_if (datacenter_asn i) (w_asn w) score in
      let score := add_if (c2ip_flagged i) (w_c2ip w) score in
      let score := add_if (ja3_flagged i) (w_ja3 w) score in
      let score := add_if (ja4_flagged i) (w_ja4 w) score in
      let score := add_if (ja4t_flagged i) (w_ja4t w) score in
      let score := add_if (ua_incoherent i) (w_coherence w) score in
      let! score :=
        if crowdsec_hit i
        then score_crowdsec (w_crowdsec w) (crowdsec_action i) score
        else Some score in
      let score := if score <? 0 then 0 else score in
      Some (if NGX_SENTINEL_SCORE_MAX <? score
            then NGX_SENTINEL_SCORE_MAX else score)
  | _, _ => Some 0
  end.

Definition sentinel_score_to_verdict (score : Z) (thr : threshold) : verdict :=
  if thr_block thr <=? score then VERDICT_BLOCK
  else if thr_tarpit thr <=? score then VERDICT_TARPIT
  else if thr_challenge thr <=? score then VERDICT_CHALLENGE
  else VERDICT_ALLOW.

(** ** The specification: an unbounded weighted sum *)

Definition flag_term (f : bool) (w : Z) : Z := if f then w else 0.

(** The CrowdSec weight scaled by the action tier. *)
Definition crowdsec_term (w action : Z) : Z :=
  if action =? NGX_SENTINEL_CS_CAPTCHA then w * 40 / 100
  else if action =? NGX_SENTINEL_CS_THROTTLE then w * 65 / 100
  else w.

Definition score_terms (i : inputs) (w : weights) : list Z :=
  [ w_errrate w * errrate_count i;
    flag_term (errrate_blocked i) (w_blocked w);
    flag_term (scanner_path i) (w_scanner w);
    flag_term (bot_ua i) (w_bot w);
    flag_term (header_anomaly i) (w_header w);
    flag_term (honeypot i) (w_honeypot w);
    flag_term (velocity_exceeded i) (w_velocity w);
    flag_term (datacenter_asn i) (w_asn w);
    flag_term (c2ip_flagged i) (w_c2ip w);
    flag_term (ja3_flagged i) (w_ja3 w);
    flag_term (ja4_flagged i) (w_ja4 w);
    flag_term (ja4t_flagged i) (w_ja4t w);
    flag_term (ua_incoherent i) (w_coherence w);
    flag_term (crowdsec_hit i)
              (crowdsec_term (w_crowdsec w) (crowdsec_action i)) ].

Definition weighted_sum (i : inputs) (w : weights) : Z :=
  foldr Z.add 0 (score_terms i w).

(** ** Saturating addition *)

(** A score accumulator represents the unbounded sum [s] when it is [s] capped
    at the ceiling. *)
Definition sat (s : Z) : Z := Z.min NGX_SENTINEL_SCORE_MAX s.

Lemma score_add_sat s t :
  0 <= t -> sentinel_score_add (sat s) t = sat (s + t).
Proof. intros. unfold sentinel_score_add, sat. repeat break_bool; lia. Qed.

Lemma add_if_sat f w s : 0 <= w -> add_if f w (sat s) = sat (s + flag_term f w).
Proof.
  intros. unfold add_if, flag_term. destruct f; [by apply score_add_sat|].
  f_equal; lia.
Qed.

Lemma score_errrate_sat w c :
  0 <= w < 2 ^ 63 -> 0 <= c < 2 ^ 63 ->
  score_errrate w c (sat 0) = Some (sat (w * c)).
Proof.
  intros Hw Hc. unfold score_errrate.
  destruct (Z.ltb_spec 0 w); simpl; [|by replace w with 0 by lia].
  destruct (Z.ltb_spec 0 c); simpl; [|by replace (w * c) with 0 by nia].
  assert (to_i64 c = c) as ->.
  { unfold to_i64. rewrite wrap_id by lia. by destruct (Z.ltb_spec c (2 ^ 63)); [|lia]. }
  rewrite Z.quot_div_nonneg by (unfold NGX_SENTINEL_SCORE_MAX; lia).
  destruct (Z.ltb_spec (NGX_SENTINEL_SCORE_MAX / w) c) as [Hlt|Hge].
  - rewrite score_add_sat by (unfold NGX_SENTINEL_SCORE_MAX; lia).
    assert (NGX_SENTINEL_SCORE_MAX < w * c).
    { pose proof (Z.mul_succ_div_gt NGX_SENTINEL_SCORE_MAX w). nia. }
    unfold sat. f_equal. lia.
  - assert (w * c <= NGX_SENTINEL_SCORE_MAX).
    { pose proof (Z.mul_div_le NGX_SENTINEL_SCORE_MAX w). nia. }
    unfold mul_i64. unfold NGX_SENTINEL_SCORE_MAX in *.
    destruct (Z.leb_spec (- 2 ^ 63) (w * c)); [|nia].
    destruct (Z.ltb_spec (w * c) (2 ^ 63)); [|lia]. simpl.
    by rewrite score_add_sat by nia.
Qed.

Lemma score_crowdsec_sat w a s :
  0 <= w <= NGX_SENTINEL_SCORE_MAX ->
  score_crowdsec w a (sat s) = Some (sat (s + crowdsec_term w a)).
Proof.
  intros Hw. unfold score_crowdsec, crowdsec_term, mul_i64.
  unfold NGX_SENTINEL_SCORE_MAX in Hw.
  destruct (Z.ltb_spec 0 w).
  - repeat break_bool; simpl; try lia;
      rewrite ?Z.quot_div_nonneg by lia;
      rewrite score_add_sat by (try apply Z.div_pos; lia); done.
  - assert (w = 0) as -> by lia.
    repeat break_bool; simpl; by rewrite Z.add_0_r.
Qed.

Lemma sat_clamp s :
  0 <= s ->
  (let x := if sat s <? 0 then 0 else sat s in
   if NGX_SENTINEL_SCORE_MAX <? x then NGX_SENTINEL_SCORE_MAX else x) = sat s.
Proof.
  intros. unfold sat, NGX_SENTINEL_SCORE_MAX. simpl. repeat break_bool; lia.
Qed.

Lemma flag_term_nonneg f w : 0 <= w -> 0 <= flag_term f w.
Proof. by destruct f. Qed.

Lemma crowdsec_term_nonneg w a : 0 <= w -> 0 <= crowdsec_term w a.
Proof.
  intros. unfold crowdsec_term.
  repeat break_bool; try apply Z.div_pos; lia.
Qed.

Lemma score_terms_nonneg i w :
  weights_ok w -> 0 <= errrate_count i -> Forall (Z.le 0) (score_terms i w).
Proof.
  intros (?&?&?&?&?&?&?&?&?&?&?&?&?&?) Hc. unfold score_terms.
  repeat (apply List.Forall_cons); try apply List.Forall_nil;
    try (by apply flag_term_nonneg); [nia|].
  apply flag_term_nonneg, crowdsec_term_nonneg. lia.
Qed.

Lemma sum_nonneg (l : list Z) : Forall (Z.le 0) l -> 0 <= foldr Z.add 0 l.
Proof. induction 1; simpl; lia. Qed.

Lemma sum_elem_le (l : list Z) x :
  Forall (Z.le 0) l -> x ∈ l -> x <= foldr Z.add 0 l.
Proof.
  induction 1 as [|y l Hy Hl IH]; [set_solver|].
  rewrite elem_of_cons. intros [-> | Hx]; simpl.
  - pose proof (sum_nonneg l Hl). lia.
  - specialize (IH Hx). lia.
Qed.

(** ** Properties *)

(** The code in closed form, for the clients of this file. *)
Lemma score_compute_sat i w :
  weights_ok w -> 0 <= errrate_count i < 2 ^ 63 ->
  sentinel_score_compute (Some i) (Some w) =
    Some (if short_circuit i then 0 else sat (weighted_sum i w)).
Proof.
  intros Hw Hc. pose proof (score_terms_nonneg i w Hw ltac:(lia)) as Hnn.
  apply sum_nonneg in Hnn. fold (weighted_sum i w) in Hnn.
  destruct Hw as (?&?&?&?&?&?&?&?&?&?&?&?&?&?).
  unfold sentinel_score_compute.
  destruct (short_circuit i); [done|].
  change 0 with (sat 0) at 1. rewrite score_errrate_sat by lia.
  rewrite !add_if_sat by lia.
  set (s := _ + flag_term (ua_incoherent i) _).
  assert (weighted_sum i w = s + flag_term (crowdsec_hit i)
    (crowdsec_term (w_crowdsec w) (crowdsec_action i))) as Hsum.
  { unfold weighted_sum, score_terms, s; simpl. lia. }
  destruct (crowdsec_hit i); simpl in Hsum.
  - rewrite score_crowdsec_sat by lia. rewrite <- Hsum.
    by rewrite sat_clamp by lia.
  - replace s with (weighted_sum i w) by lia. by rewrite sat_clamp by lia.
Qed.

(** C4. [sentinel_score_compute] refines the unbounded weighted sum: on every
    input with valid weights no product overflows, the score is 0 when an
    allow-listing short-circuit applies, and otherwise it is the sum of the
    weights of the fired signals capped at [NGX_SENTINEL_SCORE_MAX]. *)
Theorem score_compute_refines_weighted_sum (i : inputs) (w : weights) :
  weights_ok w -> 0 <= errrate_count i < 2 ^ 63 ->
  sentinel_score_compute (Some i) (Some w) =
    Some (if short_circuit i then 0
          else Z.min NGX_SENTINEL_SCORE_MAX (weighted_sum i w)).
Proof. apply score_compute_sat. Qed.

Lemma verdict_monotone s1 s2 thr :
  s1 <= s2 ->
  verdict_index (sentinel_score_to_verdict s1 thr) <=
  verdict_index (sentinel_score_to_verdict s2 thr).
Proof.
  intros. unfold sentinel_score_to_verdict. repeat break_bool; simpl; lia.
Qed.

Lemma verdict_block thr s :
  thr_block thr <= s -> sentinel_score_to_verdict s thr = VERDICT_BLOCK.
Proof. intros. unfold sentinel_score_to_verdict. by break_bool; [|lia]. Qed.

(** A single fired term already bounds the score from below. *)
Lemma score_at_least_term (i : inputs) (w : weights) (t : Z) :
  weights_ok w -> 0 <= errrate_count i < 2 ^ 63 -> short_circuit i = false ->
  t ∈ score_terms i w ->
  exists s, sentinel_score_compute (Some i) (Some w) = Some s /\
            Z.min NGX_SENTINEL_SCORE_MAX t <= s <= NGX_SENTINEL_SCORE_MAX.
Proof.
  intros Hw Hc Hs Ht. rewrite score_compute_sat by done. rewrite Hs.
  eexists. split; [done|]. unfold sat.
  pose proof (sum_elem_le _ _ (score_terms_nonneg i w Hw ltac:(lia)) Ht).
  unfold weighted_sum. lia.
Qed.

(** C7. A CrowdSec ban cannot be wiped by anything the client controls: with
    the ban tier and a CrowdSec weight that reaches the block threshold, the
    verdict is BLOCK whatever the User-Agent, the FCrDNS verdict, the CIDR
    allow-list and the other signals say. *)
Theorem crowdsec_ban_always_blocks (i : inputs) (w : weights) (thr : threshold) :
  weights_ok w -> 0 <= errrate_count i < 2 ^ 63 ->
  crowdsec_hit i = true -> crowdsec_action i = NGX_SENTINEL_CS_BAN ->
  thr_block thr <= w_crowdsec w ->
  exists s, sentinel_score_compute (Some i) (Some w) = Some s /\
            sentinel_score_to_verdict s thr = VERDICT_BLOCK.
Proof.
  intros Hw Hc Hhit Hact Hthr.
  destruct (score_at_least_term i w (w_crowdsec w)) as (s & Hs & Hle & _); auto.
  { unfold short_circuit. rewrite Hhit. by rewrite !andb_false_r. }
  { unfold score_terms, flag_term, crowdsec_term. rewrite Hhit, Hact. set_solver. }
  exists s. split; [done|]. apply verdict_block.
  destruct Hw as (?&?&?&?&?&?&?&?&?&?&?&?&?&?). lia.
Qed.

Lemma crowdsec_ban_always_blocks_witness :
  exists s,
    sentinel_score_compute
      (Some (Inputs [] 0 false false false true true false false false false
                    false false false false false false true true
                    NGX_SENTINEL_CS_BAN)) (Some default_weights) = Some s /\
    sentinel_score_to_verdict s default_threshold = VERDICT_BLOCK.
Proof.
  apply (crowdsec_ban_always_blocks
    (Inputs [] 0 false false false true true false false false false
            false false false false false false true true NGX_SENTINEL_CS_BAN)
    default_weights default_threshold);
    [apply default_weights_ok | simpl; lia | reflexivity | reflexivity | simpl; lia].
Defined.

(** [i2] fires at least the signals of [i1], with the same CrowdSec tier. *)
Definition signals_le (i1 i2 : inputs) : Prop :=
  errrate_count i1 <= errrate_count i2 /\
  crowdsec_action i1 = crowdsec_action i2 /\
  Forall2 (fun a b : bool => a = true -> b = true)
    [errrate_blocked i1; scanner_path i1; bot_ua i1; header_anomaly i1;
     honeypot i1; velocity_exceeded i1; datacenter_asn i1; c2ip_flagged i1;
     ja3_flagged i1; ja4_flagged i1; ja4t_flagged i1; ua_incoherent i1;
     crowdsec_hit i1]
    [errrate_blocked i2; scanner_path i2; bot_ua i2; header_anomaly i2;
     honeypot i2; velocity_exceeded i2; datacenter_asn i2; c2ip_flagged i2;
     ja3_flagged i2; ja4_flagged i2; ja4t_flagged i2; ua_incoherent i2;
     crowdsec_hit i2].

Lemma flag_term_mono (a b : bool) w :
  (a = true -> b = true) -> 0 <= w -> flag_term a w <= flag_term b w.
Proof. intros Hab Hw. destruct a; [by rewrite Hab|]. by apply flag_term_nonneg. Qed.

Lemma sum_mono (l1 l2 : list Z) :
  Forall2 Z.le l1 l2 -> foldr Z.add 0 l1 <= foldr Z.add 0 l2.
Proof. induction 1; simpl; lia. Qed.

Lemma weighted_sum_mono i1 i2 w :
  weights_ok w -> signals_le i1 i2 -> weighted_sum i1 w <= weighted_sum i2 w.
Proof.
  intros (?&?&?&?&?&?&?&?&?&?&?&?&?&?) (Hc & Ha & Hf).
  rewrite !Forall2_cons in Hf.
  destruct Hf as (?&?&?&?&?&?&?&?&?&?&?&?&?&_).
  apply sum_mono. unfold score_terms. rewrite Ha.
  repeat (apply Forall2_cons; split); [nia|..|apply Forall2_nil; done];
    apply flag_term_mono; auto.
  apply crowdsec_term_nonneg. lia.
Qed.

(** C27. More evidence never softens the outcome: if no allow-listing
    short-circuit applies to the request with more fired signals, its score is
    at least the score of the request with fewer, and its verdict band is at
    least as severe under every threshold configuration. *)
Theorem more_signals_never_softer (i1 i2 : inputs) (w : weights) (thr : threshold) :
  weights_ok w -> 0 <= errrate_count i1 -> errrate_count i2 < 2 ^ 63 ->
  signals_le i1 i2 -> short_circuit i2 = false ->
  exists s1 s2 : Z,
    sentinel_score_compute (Some i1) (Some w) = Some s1 /\
    sentinel_score_compute (Some i2) (Some w) = Some s2 /\
    0 <= s1 <= s2 /\ s2 <= NGX_SENTINEL_SCORE_MAX /\
    verdict_index (sentinel_score_to_verdict s1 thr)
      <= verdict_index (sentinel_score_to_verdict s2 thr).
Proof.
  intros Hw H1 H2 Hle Hsc. pose proof Hle as (Hc & _ & _).
  rewrite !score_compute_sat by (done || lia). rewrite Hsc.
  do 2 eexists. do 2 (split; [done|]).
  pose proof (weighted_sum_mono i1 i2 w Hw Hle).
  pose proof (sum_nonneg _ (score_terms_nonneg i1 w Hw H1)).
  fold (weighted_sum i1 w) in *.
  assert (0 <= (if short_circuit i1 then 0 else sat (weighted_sum i1 w))
            <= sat (weighted_sum i2 w)) as Hs.
  { unfold sat, NGX_SENTINEL_SCORE_MAX. destruct (short_circuit i1); lia. }
  split; [done|]. split; [unfold sat; lia|]. apply verdict_monotone; lia.
Qed.

(** A request on which exactly the CrowdSec signal fires, with tier [a]. *)
Definition crowdsec_only (a : Z) : inputs :=
  Inputs [] 0 false false false false false false false false
         false false false false false false false false true a.

Lemma more_signals_never_softer_witness :
  exists s1 s2 : Z,
    sentinel_score_compute (Some inputs_none) (Some default_weights) = Some s1 /\
    sentinel_score_compute (Some (crowdsec_only NGX_SENTINEL_CS_NONE))
      (Some default_weights) = Some s2 /\
    0 <= s1 <= s2 /\ s2 <= NGX_SENTINEL_SCORE_MAX /\
    verdict_index (sentinel_score_to_verdict s1 default_threshold)
      <= verdict_index (sentinel_score_to_verdict s2 default_threshold).
Proof.
  apply (more_signals_never_softer inputs_none (crowdsec_only NGX_SENTINEL_CS_NONE)
    default_weights default_threshold);
    [ apply default_weights_ok | simpl; lia | simpl; lia
    | repeat split; simpl; try lia; repeat constructor; auto | reflexivity ].
Defined.

(** The CrowdSec tiers land in three different bands under the defaults. *)
Example crowdsec_default_bands :
  map (fun a => option_map (fun s => sentinel_score_to_verdict s default_threshold)
         (sentinel_score_compute (Some (crowdsec_only a)) (Some default_weights)))
    [NGX_SENTINEL_CS_BAN; NGX_SENTINEL_CS_CAPTCHA; NGX_SENTINEL_CS_THROTTLE]
  = [Some VERDICT_BLOCK; Some VERDICT_CHALLENGE; Some VERDICT_TARPIT].
Proof. reflexivity. Qed.

(** A built-in scanner-path hit alone scores 50 under the default
    configuration, which is the CHALLENGE band (30 to 59), not the tarpit
    band. *)
Theorem scanner_hit_alone_is_challenge :
  let i := Inputs [] 0 false true false false false false false false
             false false false false false false false false false
             NGX_SENTINEL_CS_NONE in
  sentinel_score_compute (Some i) (Some default_weights) = Some 50 /\
  sentinel_score_to_verdict 50 default_threshold = VERDICT_CHALLENGE.
Proof. by split. Qed.

Lemma score_compute_refines_weighted_sum_witness :
  sentinel_score_compute (Some (crowdsec_only NGX_SENTINEL_CS_BAN))
    (Some default_weights) = Some 100.
Proof.
  rewrite (score_compute_refines_weighted_sum (crowdsec_only NGX_SENTINEL_CS_BAN)
    default_weights); [reflexivity | apply default_weights_ok | simpl; lia].
Defined.
