(* ===== verification/Shm.v ===== *)
(** * Shm.v: the shared-memory identity store ([sentinel_shm.c])

    A zone holds nodes allocated from a slab, reachable both from a binary
    search tree ordered by (hash, key bytes) and from an LRU queue.  The model
    keeps the three structures apart: [sh_heap] maps the address of a live node
    to its contents, [sh_tree] is the tree of addresses, [sh_queue] the queue
    of addresses from head to tail.  Dereferencing an address that is not live
    and indexing an event ring out of bounds are undefined behaviour: the
    operations return [None]. *)
From S2P Require Import Prelude Types Ngx.

(** ** Data *)

(** [ngx_sentinel_node_t].  [n_data] is the key as it is read back through
    [data]/[key_len] ([key_len] is a [u_short]); [n_events] is the event ring
    that follows the key in the same allocation, so its length is the capacity
    the node was allocated with. *)
Record node : Type := Node {
  n_hash : Z;
  n_data : bytes;
  n_blocked_until : Z;
  n_last_seen : Z;
  n_event_head : Z;
  n_event_count : Z;
  n_cs_generation : Z;
  n_cs_action : Z;
  n_redis_pulled : bool;
  n_events : list Z
}.

(** The configured part of [ngx_sentinel_zone_t]. *)
Record zone_conf : Type := ZoneConf {
  z_interval : Z;
  z_block : Z;
  z_threshold : Z
}.

Section Shm.
Context `{NgxHash} `{NgxCompare} `{NgxSlab} `{NgxRbtree}.

(** [ngx_sentinel_shctx_t] with the slab pool of its segment. *)
Record shctx : Type := Shctx {
  sh_heap : gmap addr node;
  sh_tree : rbtree;
  sh_queue : list addr;
  sh_cs_generation : Z;
  sh_slab : slab_pool
}.

(** [ngx_sentinel_zone_t]: [zone_sh] is [None] while [sh] or [shpool] is NULL. *)
Record zone : Type := Zone {
  zone_conf_of : zone_conf;
  zone_sh : option shctx
}.

(** *** Field updates *)

Definition set_ban (n : node) (until last_seen : Z) : node :=
  Node (n_hash n) (n_data n) until last_seen 0 0
       (n_cs_generation n) (n_cs_action n) (n_redis_pulled n) (n_events n).

Definition set_last_seen (n : node) (t : Z) : node :=
  Node (n_hash n) (n_data n) (n_blocked_until n) t (n_event_head n)
       (n_event_count n) (n_cs_generation n) (n_cs_action n)
       (n_redis_pulled n) (n_events n).

Definition set_window (n : node) (head count : Z) (events : list Z) : node :=
  Node (n_hash n) (n_data n) (n_blocked_until n) (n_last_seen n) head count
       (n_cs_generation n) (n_cs_action n) (n_redis_pulled n) events.

Definition set_blocked_until (n : node) (until head count : Z) : node :=
  Node (n_hash n) (n_data n) until (n_last_seen n) head count
       (n_cs_generation n) (n_cs_action n) (n_redis_pulled n) (n_events n).

Definition set_decision (n : node) (until action generation now : Z) (pulled : bool)
    : node :=
  Node (n_hash n) (n_data n) until now (n_event_head n) (n_event_count n)
       generation action pulled (n_events n).

Definition with_heap (sh : shctx) (h : gmap addr node) : shctx :=
  Shctx h (sh_tree sh) (sh_queue sh) (sh_cs_generation sh) (sh_slab sh).

Definition store (sh : shctx) (a : addr) (n : node) : shctx := with_heap sh (<[a := n]> (sh_heap sh)).

(** *** The event ring *)

Definition ring_read (ev : list Z) (i : Z) : option Z :=
  if i <? 0 then None else ev !! Z.to_nat i.

Definition ring_write (ev : list Z) (i t : Z) : option (list Z) :=
  if (0 <=? i) && (i <? Z.of_nat (length ev))
  then Some (<[Z.to_nat i := t]> ev) else None.

(** [x % y] on [ngx_uint_t]: a zero divisor traps. *)
Definition umod (x y : Z) : option Z := if y =? 0 then None else Some (x mod y).

(** [sentinel_events_offset]: the ring starts after the key, rounded up to the
    alignment of [time_t]; [off] is [offsetof(ngx_sentinel_node_t, data)]. *)
Definition sentinel_events_offset (off key_len : Z) : Z :=
  (off + key_len + 7) / 8 * 8.

(** *** LRU queue *)

Definition unlink (sh : shctx) (a : addr) : shctx :=
  Shctx (delete a (sh_heap sh)) (ngx_rbtree_delete (sh_tree sh) a)
        (filter (.≠ a) (sh_queue sh)) (sh_cs_generation sh)
        (ngx_slab_free_locked (sh_slab sh) a).

Fixpoint sentinel_shm_expire (zc : zone_conf) (sh : shctx) (now : Z) (batch : nat) : option shctx :=
  match batch with
  | O => Some sh
  | S batch' =>
      match last (sh_queue sh) with
      | None => Some sh
      | Some a =>
          let! n := sh_heap sh !! a in
          if now <? n_blocked_until n then Some sh
          else if now - n_last_seen n <? z_interval zc then Some sh
          else sentinel_shm_expire zc (unlink sh a) now batch'
      end
  end.

Definition sentinel_shm_touch (sh : shctx) (a : addr) : shctx :=
  Shctx (sh_heap sh) (sh_tree sh) (a :: filter (.≠ a) (sh_queue sh))
        (sh_cs_generation sh) (sh_slab sh).

(** *** Sliding window: compaction in place *)

Fixpoint prune_loop (fuel : nat) (head threshold cutoff i keep : Z)
    (ev : list Z) : option (Z * list Z) :=
  match fuel with
  | O => Some (keep, ev)
  | S fuel' =>
      let! idx := umod (head + i) threshold in
      let! ts := ring_read ev idx in
      if cutoff <? ts then
        let! ev' := ring_write ev keep ts in
        prune_loop fuel' head threshold cutoff (i + 1) (keep + 1) ev'
      else prune_loop fuel' head threshold cutoff (i + 1) keep ev
  end.

Definition sentinel_shm_prune (zc : zone_conf) (n : node) (now : Z) : option node :=
  let cutoff := now - z_interval zc in
  let! (keep, ev) := prune_loop (Z.to_nat (n_event_count n)) (n_event_head n)
                       (z_threshold zc) cutoff 0 0 (n_events n) in
  Some (set_window n 0 keep ev).

(** *** Search tree *)

Fixpoint sentinel_shm_lookup (h : gmap addr node) (t : rbtree) (hash : Z)
    (key : bytes) : option (option addr) :=
  match t with
  | RbSentinel => Some None
  | RbNode l a r =>
      let! n := h !! a in
      if hash <? n_hash n then sentinel_shm_lookup h l hash key
      else if n_hash n <? hash then sentinel_shm_lookup h r hash key
      else
        let rc := ngx_memn2cmp key (n_data n) in
        if rc =? 0 then Some (Some a)
        else if rc <? 0 then sentinel_shm_lookup h l hash key
        else sentinel_shm_lookup h r hash key
  end.

(** The insertion callback: [temp] is never the sentinel; the loop stops when
    the child it would follow is. *)
Fixpoint sentinel_shm_rbtree_insert (h : gmap addr node) (a : addr)
    (temp : rbtree) : option rbtree :=
  match temp with
  | RbSentinel => None
  | RbNode l t r =>
      let! nn := h !! a in
      let! nt := h !! t in
      let go_left :=
        if n_hash nn <? n_hash nt then true
        else if n_hash nt <? n_hash nn then false
        else ngx_memn2cmp (n_data nn) (n_data nt) <? 0 in
      if go_left then
        match l with
        | RbSentinel => Some (RbNode (RbNode RbSentinel a RbSentinel) t r)
        | _ => let! l' := sentinel_shm_rbtree_insert h a l in
               Some (RbNode l' t r)
        end
      else
        match r with
        | RbSentinel => Some (RbNode l t (RbNode RbSentinel a RbSentinel))
        | _ => let! r' := sentinel_shm_rbtree_insert h a r in
               Some (RbNode l t r')
        end
  end.

(** Link a node into the tree and the queue after its allocation: the result is
    [None] inside when the zone is full. *)
Definition link_node (sh : shctx) (size : Z) (n : node)
    : option (option (addr * shctx)) :=
  match ngx_slab_calloc_locked (sh_slab sh) size with
  | None => Some None
  | Some (a, slab') =>
      let h := <[a := n]> (sh_heap sh) in
      let! tree' :=
        ngx_rbtree_insert (sentinel_shm_rbtree_insert h a) (sh_tree sh) a in
      Some (Some (a, Shctx h tree' (a :: sh_queue sh)
                           (sh_cs_generation sh) slab'))
  end.

(** The key bytes read back through the [u_short] length. *)
Definition stored_key (key : bytes) : bytes :=
  take (Z.to_nat (wrap16 (Z.of_nat (length key)))) key.

(** The size of the allocation is a [size_t]: it wraps for a large threshold,
    and the event ring then has only the slots that the allocation holds. *)
Definition sentinel_shm_create_node (zc : zone_conf) (sh : shctx) (hash : Z) (key : bytes) (now : Z)
    : option (option (addr * shctx)) :=
  let events := sentinel_events_offset node_data_offset
                  (wrap16 (Z.of_nat (length key))) in
  let size := wrap64 (events + wrap64 (z_threshold zc * 8)) in
  (* the key is copied whole: a key longer than the allocation overflows it *)
  if size <? node_data_offset + Z.of_nat (length key) then
    if bool_decide (ngx_slab_calloc_locked (sh_slab sh) size = None)
    then Some None else None
  else
    link_node sh size
      (Node hash (stored_key key) 0 now 0 0 0 0 false
            (replicate (Z.to_nat ((size - events) / 8)) 0)).

(** Find the node of [key] or allocate one with [create]; an existing node is
    moved to the head of the queue. *)
Definition lookup_or_create (sh : shctx) (hash : Z) (key : bytes)
    (create : shctx -> option (option (addr * shctx)))
    : option (option (addr * bool * shctx)) :=
  let! found := sentinel_shm_lookup (sh_heap sh) (sh_tree sh) hash key in
  match found with
  | Some a => Some (Some (a, true, sentinel_shm_touch sh a))
  | None =>
      let! r := create sh in
      match r with
      | None => Some None
      | Some (a, sh') => Some (Some (a, false, sh'))
      end
  end.

(** ** Operations

    Every operation checks the zone pointer, takes the zone lock, runs on the
    shared context and releases the lock on every path. *)

Definition with_zone {A} (z : option zone) (err : A)
    (body : zone_conf -> shctx -> option (A * shctx)) : option (A * option zone) :=
  match z with
  | Some (Zone zc (Some sh)) =>
      let! (r, sh') := body zc sh in Some (r, Some (Zone zc (Some sh')))
  | _ => Some (err, z)
  end.

(** The result of an error-rate operation: code, [*count], [*blocked_until]. *)
Definition rate_result : Type := ngx_rc * Z * Z.

Definition errrate_lookup_locked (key : bytes) (now : Z) (zc : zone_conf)
    (sh : shctx) : option (rate_result * shctx) :=
  let hash := ngx_crc32_short key in
  let! sh := sentinel_shm_expire zc sh now NGX_SENTINEL_EXPIRE_BATCH in
  let! found := sentinel_shm_lookup (sh_heap sh) (sh_tree sh) hash key in
  match found with
  | None => Some ((NGX_OK, 0, 0), sh)
  | Some a =>
      let! n := sh_heap sh !! a in
      let n := set_last_seen n now in
      let sh := store (sentinel_shm_touch sh a) a n in
      if now <? n_blocked_until n then
        Some ((NGX_BUSY, z_threshold zc, n_blocked_until n), sh)
      else
        let! n :=
          if negb (n_blocked_until n =? 0) then Some (set_blocked_until n 0 0 0)
          else sentinel_shm_prune zc n now in
        Some ((NGX_OK, n_event_count n, 0), store sh a n)
  end.

Definition sentinel_shm_errrate_lookup (z : option zone) (key : bytes) (now : Z)
    : option (rate_result * option zone) :=
  with_zone z (NGX_ERROR, 0, 0) (errrate_lookup_locked key now).

(** Compact the window and append [now] to the ring. *)
Definition errrate_append (zc : zone_conf) (n : node) (now : Z) : option node :=
  let! n := sentinel_shm_prune zc n now in
  let! idx := umod (n_event_head n + n_event_count n) (z_threshold zc) in
  let! ev := ring_write (n_events n) idx now in
  Some (set_window n (n_event_head n) (n_event_count n + 1) ev).

Definition errrate_record_locked (key : bytes) (now : Z) (zc : zone_conf)
    (sh : shctx) : option (rate_result * shctx) :=
  let hash := ngx_crc32_short key in
  let! sh := sentinel_shm_expire zc sh now NGX_SENTINEL_EXPIRE_BATCH in
  let! r := lookup_or_create sh hash key
              (fun sh => sentinel_shm_create_node zc sh hash key now) in
  match r with
  | None => Some ((NGX_ERROR, 0, 0), sh)
  | Some (a, existing, sh) =>
      let! n := sh_heap sh !! a in
      let n := if existing : bool then set_last_seen n now else n in
      if now <? n_blocked_until n then
        Some ((NGX_BUSY, z_threshold zc, n_blocked_until n), store sh a n)
      else
        let n := if negb (n_blocked_until n =? 0)
                 then set_blocked_until n 0 0 0 else n in
        let! n := errrate_append zc n now in
        let! n :=
          if z_threshold zc <=? n_event_count n
          then let! until := time_add now (z_block zc) in
               Some (set_blocked_until n until 0 0)
          else Some n in
        let blocked := now <? n_blocked_until n in
        Some ((if blocked then NGX_BUSY else NGX_OK,
               if blocked then z_threshold zc else n_event_count n,
               n_blocked_until n), store sh a n)
  end.

Definition sentinel_shm_errrate_record (z : option zone) (key : bytes) (now : Z)
    : option (rate_result * option zone) :=
  with_zone z (NGX_ERROR, 0, 0) (errrate_record_locked key now).

Definition softban_set_locked (key : bytes) (now ttl : Z) (zc : zone_conf)
    (sh : shctx) : option (ngx_rc * shctx) :=
  let hash := ngx_crc32_short key in
  let! sh := sentinel_shm_expire zc sh now NGX_SENTINEL_EXPIRE_BATCH in
  let! r := lookup_or_create sh hash key
              (fun sh => sentinel_shm_create_node zc sh hash key now) in
  match r with
  | None => Some (NGX_ERROR, sh)
  | Some (a, _, sh) =>
      let! n := sh_heap sh !! a in
      let! until := time_add now ttl in
      Some (NGX_OK, store sh a (set_ban n until now))
  end.

Definition sentinel_shm_softban_set (z : option zone) (key : bytes)
    (now ttl : Z) : option (ngx_rc * option zone) :=
  if ttl <=? 0 then Some (NGX_ERROR, z)
  else with_zone z NGX_ERROR (softban_set_locked key now ttl).

(** *** CrowdSec table *)

Definition sentinel_shm_crowdsec_create (sh : shctx) (hash : Z) (key : bytes)
    (now : Z) : option (option (addr * shctx)) :=
  link_node sh (node_size + Z.of_nat (length key))
    (Node hash (stored_key key) 0 now 0 0 0 NGX_SENTINEL_CS_NONE false []).

(** The caller holds the lock. *)
Definition crowdsec_upsert_locked (key : bytes) (expiry action generation now : Z)
    (pulled : bool) (sh : shctx) : option (ngx_rc * shctx) :=
  let hash := ngx_crc32_short key in
  let! r := lookup_or_create sh hash key
              (fun sh => sentinel_shm_crowdsec_create sh hash key now) in
  match r with
  | None => Some (NGX_ERROR, sh)
  | Some (a, _, sh) =>
      let! n := sh_heap sh !! a in
      Some (NGX_OK, store sh a (set_decision n expiry action generation now pulled))
  end.

Definition sentinel_shm_crowdsec_upsert (z : option zone) (key : bytes)
    (expiry action generation now : Z) (pulled : bool)
    : option (ngx_rc * option zone) :=
  with_zone z NGX_ERROR
    (fun _ => crowdsec_upsert_locked key expiry action generation now pulled).

(** The walk from the queue's tail to its head; [prev] is read before the node
    is freed, so the walk is over the queue as it was at the start. *)
Fixpoint sweep_walk (q : list addr) (generation : Z) (batch deleted : nat)
    (sh : shctx) : option (nat * shctx) :=
  match q with
  | [] => Some (deleted, sh)
  | a :: q' =>
      if (deleted <? batch)%nat then
        let! n := sh_heap sh !! a in
        if negb (n_cs_generation n =? generation)
        then sweep_walk q' generation batch (S deleted) (unlink sh a)
        else sweep_walk q' generation batch deleted sh
      else Some (deleted, sh)
  end.

Definition sentinel_shm_crowdsec_sweep (sh : shctx) (generation : Z)
    (batch : nat) : option (nat * shctx) :=
  sweep_walk (rev (sh_queue sh)) generation batch 0 sh.

Definition crowdsec_lookup_locked (key : bytes) (now : Z) (zc : zone_conf)
    (sh : shctx) : option ((ngx_rc * Z) * shctx) :=
  let hash := ngx_crc32_short key in
  let! sh := sentinel_shm_expire zc sh now NGX_SENTINEL_EXPIRE_BATCH in
  let! found := sentinel_shm_lookup (sh_heap sh) (sh_tree sh) hash key in
  match found with
  | None => Some ((NGX_OK, NGX_SENTINEL_CS_NONE), sh)
  | Some a =>
      let! n := sh_heap sh !! a in
      let sh := store (sentinel_shm_touch sh a) a (set_last_seen n now) in
      if n_blocked_until n <=? now
      then Some ((NGX_OK, NGX_SENTINEL_CS_NONE), sh)
      else Some ((NGX_BUSY, n_cs_action n), sh)
  end.

Definition sentinel_shm_crowdsec_lookup (z : option zone) (key : bytes) (now : Z)
    : option ((ngx_rc * Z) * option zone) :=
  with_zone z (NGX_ERROR, NGX_SENTINEL_CS_NONE) (crowdsec_lookup_locked key now).

(** *** Zone initialisation

    [old] is the zone of the previous cycle on a reload; [exists_sh] the
    context found in an inherited segment; [pool] the fresh slab pool; and
    [ctx_ok]/[log_ok] whether the two start-up allocations succeed. *)
Definition empty_shctx (pool : slab_pool) : shctx :=
  Shctx ∅ RbSentinel [] 0 pool.

Definition sentinel_shm_init_zone (z : zone) (old : option zone)
    (exists_sh : option shctx) (pool : slab_pool) (ctx_ok log_ok : bool)
    : ngx_rc * zone :=
  match old with
  | Some oz => (NGX_OK, Zone (zone_conf_of z) (zone_sh oz))
  | None =>
      match exists_sh with
      | Some sh => (NGX_OK, Zone (zone_conf_of z) (Some sh))
      | None =>
          if negb ctx_ok then (NGX_ERROR, z)
          else
            let z' := Zone (zone_conf_of z) (Some (empty_shctx pool)) in
            (if log_ok then NGX_OK else NGX_ERROR, z')
      end
  end.
End Shm.
