(* ===== verification/ShmTree.v ===== *)
(** * ShmTree.v: the search tree of a zone is correct

    The tree operations of [Shm.v] characterised by the in-order list of node
    addresses: an insertion puts the node at its place of a list strictly
    sorted by (hash, key bytes), and the search finds a node exactly when the
    list has one with that key. *)
From stdpp Require Import sorting.
From S2P Require Import Prelude Types Ngx Shm.

Section Tree.
Context `{NgxHash} `{NgxCompare} `{NgxSlab} `{NgxRbtree}.
Context {CmpLaws : NgxCompareLaws}.

(** The order of the tree: hash first, then the key bytes. *)
Definition klt (k1 k2 : Z * bytes) : Prop :=
  k1.1 < k2.1 \/ (k1.1 = k2.1 /\ ngx_memn2cmp k1.2 k2.2 < 0).

Lemma klt_irrefl k : ~ klt k k.
Proof.
  intros [?|[_ Hc]]; [lia|]. pose proof (proj2 (memn2cmp_eq k.2 k.2) eq_refl). lia.
Qed.

Lemma klt_trans k1 k2 k3 : klt k1 k2 -> klt k2 k3 -> klt k1 k3.
Proof.
  unfold klt. intros [?|[? ?]] [?|[? ?]]; try (left; lia).
  right. split; [lia|]. by eapply memn2cmp_trans.
Qed.

Lemma klt_or k1 k2 : k1 <> k2 -> klt k1 k2 \/ klt k2 k1.
Proof.
  destruct k1 as [h1 b1], k2 as [h2 b2]. unfold klt; simpl. intros Hne.
  destruct (Z.lt_trichotomy h1 h2) as [?|[->|?]]; [by auto| |by auto].
  destruct (Z.lt_trichotomy (ngx_memn2cmp b1 b2) 0) as [?|[E|E]]; [by auto| |].
  - apply memn2cmp_eq in E as ->. done.
  - right. right. split; [done|]. by apply memn2cmp_antisym.
Qed.

Definition nkey (n : node) : Z * bytes := (n_hash n, n_data n).
Definition hkey (h : gmap addr node) (a : addr) : option (Z * bytes) :=
  nkey <$> h !! a.

(** [a] is before [b]; both are live. *)
Definition abefore (h : gmap addr node) (a b : addr) : Prop :=
  exists ka kb, hkey h a = Some ka /\ hkey h b = Some kb /\ klt ka kb.

(** The in-order list is live and strictly sorted. *)
Definition sorted_tree (h : gmap addr node) (t : rbtree) : Prop :=
  Forall (fun a => is_Some (hkey h a)) (inorder t) /\
  StronglySorted (abefore h) (inorder t).

Lemma sorted_tree_node h l a r :
  sorted_tree h (RbNode l a r) <->
  sorted_tree h l /\ sorted_tree h r /\ is_Some (hkey h a) /\
  (forall b, b ∈ inorder l -> abefore h b a) /\
  (forall b, b ∈ inorder r -> abefore h a b) /\
  (forall b c, b ∈ inorder l -> c ∈ inorder r -> abefore h b c).
Proof.
  unfold sorted_tree. simpl. rewrite StronglySorted_app, Forall_app, Forall_cons.
  rewrite StronglySorted_cons, (Forall_forall (abefore h a)).
  setoid_rewrite elem_of_cons. split.
  - intros ((Hl & Hk & Hr) & Hlr & Sl & Hr' & Sr). eauto 12.
  - intros ((Hl & Sl) & (Hr & Sr) & Hk & Hla & Har & Hlr).
    split; [done|]. split; [|done]. intros x y Hx [->|Hy]; auto.
Qed.

Lemma abefore_trans h a b c : abefore h a b -> abefore h b c -> abefore h a c.
Proof.
  intros (ka&kb&?&?&?) (kb'&kc&?&?&?).
  assert (kb' = kb) as -> by congruence. exists ka, kc. eauto using klt_trans.
Qed.

(** The comparison of the search and of the insertion decides [klt]. *)
Lemma klt_dec_eq (k1 k2 : Z * bytes) :
  (if k1.1 <? k2.1 then true else if k2.1 <? k1.1 then false
   else ngx_memn2cmp k1.2 k2.2 <? 0) = true <-> klt k1 k2.
Proof. unfold klt. repeat break_bool; intuition (try lia; try discriminate). Qed.

Lemma lookup_spec h t hash key :
  sorted_tree h t ->
  exists r, sentinel_shm_lookup h t hash key = Some r /\
    match r with
    | Some a => a ∈ inorder t /\ hkey h a = Some (hash, key)
    | None => forall a, a ∈ inorder t -> hkey h a <> Some (hash, key)
    end.
Proof.
  induction t as [|l IHl a r IHr].
  { exists None. split; [done|]. simpl. set_solver. }
  rewrite sorted_tree_node.
  intros (Hl & Hr & [k Hk] & Hla & Har & _).
  destruct (IHl Hl) as (rl & El & Sl). destruct (IHr Hr) as (rr & Er & Sr).
  pose proof Hk as Hk'. unfold hkey in Hk'.
  apply fmap_Some in Hk' as (n & Hn & ->). simpl. rewrite Hn.
  (* what following a child means for the other parts *)
  assert (klt (hash, key) (nkey n) ->
    exists r0, Some rl = Some r0 /\ match r0 with
      | Some b => b ∈ inorder l ++ a :: inorder r /\ hkey h b = Some (hash, key)
      | None => forall b, b ∈ inorder l ++ a :: inorder r ->
                  hkey h b <> Some (hash, key) end) as Left.
  { intros Hlt. exists rl. split; [done|]. destruct rl as [b|].
    { destruct Sl. split; [set_solver|done]. }
    intros b [Hb|[->|Hb]%elem_of_cons]%elem_of_app; [by apply Sl| |].
    - rewrite Hk. intros E. assert (nkey n = (hash, key)) as E' by congruence.
      rewrite E' in Hlt. by apply klt_irrefl in Hlt.
    - intros E. destruct (Har b Hb) as (ka&kb&?&?&Hc).
      assert (ka = nkey n /\ kb = (hash, key)) as [-> ->] by (split; congruence).
      by eapply klt_irrefl, klt_trans. }
  assert (klt (nkey n) (hash, key) ->
    exists r0, Some rr = Some r0 /\ match r0 with
      | Some b => b ∈ inorder l ++ a :: inorder r /\ hkey h b = Some (hash, key)
      | None => forall b, b ∈ inorder l ++ a :: inorder r ->
                  hkey h b <> Some (hash, key) end) as Right.
  { intros Hlt. exists rr. split; [done|]. destruct rr as [b|].
    { destruct Sr. split; [set_solver|done]. }
    intros b [Hb|[->|Hb]%elem_of_cons]%elem_of_app; [| |by apply Sr].
    - intros E. destruct (Hla b Hb) as (kb&ka&?&?&Hc).
      assert (ka = nkey n /\ kb = (hash, key)) as [-> ->] by (split; congruence).
      by eapply klt_irrefl, klt_trans.
    - rewrite Hk. intros E. assert (nkey n = (hash, key)) as E' by congruence.
      rewrite E' in Hlt. by apply klt_irrefl in Hlt. }
  rewrite El, Er. unfold klt, nkey in Left, Right; simpl in Left, Right.
  destruct (Z.ltb_spec hash (n_hash n)); [apply Left; lia|].
  destruct (Z.ltb_spec (n_hash n) hash); [apply Right; lia|].
  assert (hash = n_hash n) as -> by lia.
  destruct (Z.eqb_spec (ngx_memn2cmp key (n_data n)) 0) as [E|E].
  - apply memn2cmp_eq in E as ->. exists (Some a). split; [done|].
    split; [set_solver|]. done.
  - destruct (Z.ltb_spec (ngx_memn2cmp key (n_data n)) 0); [apply Left; lia|].
    apply Right. right. split; [done|]. apply memn2cmp_antisym. lia.
Qed.

(** Where the insertion puts [a]. *)
Definition inserted (h : gmap addr node) (a : addr) (t t' : rbtree) : Prop :=
  exists l1 l2, inorder t = l1 ++ l2 /\ inorder t' = l1 ++ a :: l2 /\
    (forall b, b ∈ l1 -> abefore h b a) /\ (forall b, b ∈ l2 -> abefore h a b).

Lemma inserted_left h a l l' t r :
  inserted h a l l' -> abefore h a t ->
  (forall b, b ∈ inorder r -> abefore h t b) ->
  inserted h a (RbNode l t r) (RbNode l' t r).
Proof.
  intros (l1 & l2 & E & E' & B1 & B2) Hat Htr.
  exists l1, (l2 ++ t :: inorder r). simpl. rewrite E, E'.
  rewrite <- !app_assoc. do 2 (split; [done|]). split; [done|].
  intros b [Hb|[->|Hb]%elem_of_cons]%elem_of_app; eauto using abefore_trans.
Qed.

Lemma inserted_right h a l t r r' :
  inserted h a r r' -> abefore h t a ->
  (forall b, b ∈ inorder l -> abefore h b t) ->
  inserted h a (RbNode l t r) (RbNode l t r').
Proof.
  intros (l1 & l2 & E & E' & B1 & B2) Hta Hlt.
  exists (inorder l ++ t :: l1), l2. simpl. rewrite E, E'.
  rewrite <- !app_assoc. do 2 (split; [done|]). split; [|done].
  intros b [Hb|[->|Hb]%elem_of_cons]%elem_of_app; eauto using abefore_trans.
Qed.

Lemma inserted_leaf h a : inserted h a RbSentinel (RbNode RbSentinel a RbSentinel).
Proof. exists [], []. simpl. set_solver. Qed.

Lemma rbtree_insert_spec h a t k :
  sorted_tree h t -> t <> RbSentinel -> hkey h a = Some k ->
  (forall b, b ∈ inorder t -> hkey h b <> Some k) ->
  exists t', sentinel_shm_rbtree_insert h a t = Some t' /\ inserted h a t t'.
Proof.
  intros Hs Hne Hk. induction t as [|l IHl t r IHr]; [done|]. clear Hne.
  apply sorted_tree_node in Hs as (Hl & Hr & [kt Hkt] & Hlt & Htr & _).
  simpl. intros Hfresh.
  pose proof Hk as Hk'. unfold hkey in Hk'. apply fmap_Some in Hk' as (n & Hn & ->).
  pose proof Hkt as Hkt'. unfold hkey in Hkt'.
  apply fmap_Some in Hkt' as (m & Hm & ->). rewrite Hn, Hm.
  pose proof (klt_dec_eq (nkey n) (nkey m)) as Hdec. simpl in Hdec.
  assert (nkey n <> nkey m) as Hkne.
  { intros E. apply (Hfresh t); [set_solver|]. by rewrite Hkt, E. }
  destruct (if n_hash n <? n_hash m then true else _).
  - assert (abefore h a t) as Hat.
    { exists (nkey n), (nkey m). split_and!; [done..|]. by apply Hdec. }
    destruct l as [|ll b lr].
    + eexists. split; [done|]. apply inserted_left; auto using inserted_leaf.
    + destruct IHl as (l' & -> & Hins); [done|done| |].
      { intros c Hc. apply Hfresh. simpl. set_solver. }
      eexists. split; [done|]. by apply inserted_left.
  - assert (abefore h t a) as Hta.
    { exists (nkey m), (nkey n). split_and!; [done..|].
      destruct (klt_or (nkey n) (nkey m) Hkne) as [Hc|?]; [|done].
      by apply Hdec in Hc. }
    destruct r as [|rl b rr].
    + eexists. split; [done|]. apply inserted_right; auto using inserted_leaf.
    + destruct IHr as (r' & -> & Hins); [done|done| |].
      { intros c Hc. apply Hfresh. simpl. set_solver. }
      eexists. split; [done|]. by apply inserted_right.
Qed.

Lemma inserted_sorted h a t t' t'' :
  sorted_tree h t -> is_Some (hkey h a) -> inserted h a t t' ->
  inorder t'' = inorder t' ->
  sorted_tree h t'' /\ inorder t'' ≡ₚ a :: inorder t.
Proof.
  intros (Hlive & Hs) Ha (l1 & l2 & E & E' & B1 & B2) E''.
  unfold sorted_tree. rewrite E'', E', E. rewrite E in Hlive, Hs.
  split; [|by rewrite Permutation_middle].
  apply Forall_app in Hlive as [L1 L2].
  apply StronglySorted_app in Hs as (Hlr & S1 & S2).
  split; [apply Forall_app_2; [done|by apply Forall_cons]|]. apply StronglySorted_app_2; auto.
  - intros x y Hx [->|Hy]%elem_of_cons; auto.
  - apply StronglySorted_cons. split; [by apply Forall_forall|done].
Qed.

Lemma abefore_heap h h' a b :
  hkey h' a = hkey h a -> hkey h' b = hkey h b -> abefore h a b -> abefore h' a b.
Proof. unfold abefore. by intros -> ->. Qed.

Lemma StronglySorted_impl_in {A} (R R' : relation A) (l : list A) :
  (forall x y, x ∈ l -> y ∈ l -> R x y -> R' x y) ->
  StronglySorted R l -> StronglySorted R' l.
Proof.
  intros Himp Hs. induction Hs as [|x l Hs IH Hx]; constructor.
  - apply IH. set_solver.
  - rewrite Forall_forall in *. intros y Hy. apply Himp; set_solver.
Qed.

(** The order only depends on the keys of the tree's own nodes. *)
Lemma sorted_tree_heap h h' t :
  (forall a, a ∈ inorder t -> hkey h' a = hkey h a) ->
  sorted_tree h t -> sorted_tree h' t.
Proof.
  intros Hh [Hl Hs]. split.
  - rewrite Forall_forall in *. intros a Ha. rewrite Hh by done. auto.
  - eapply StronglySorted_impl_in, Hs. intros x y Hx Hy.
    apply abefore_heap; auto.
Qed.

Lemma sorted_filter {A} (R : relation A) (P : A -> Prop) `{!forall x, Decision (P x)}
    (l : list A) :
  StronglySorted R l -> StronglySorted R (filter P l).
Proof.
  induction 1 as [|x l Hs IH Hx]; [constructor|]. rewrite filter_cons.
  case_decide; [|done]. constructor; [done|].
  rewrite Forall_forall in *. intros y [_ Hy]%list_elem_of_filter. auto.
Qed.

Lemma sorted_tree_filter h t t' (P : addr -> Prop) `{!forall x, Decision (P x)} :
  inorder t' = filter P (inorder t) -> sorted_tree h t -> sorted_tree h t'.
Proof.
  unfold sorted_tree. intros -> [Hl Hs]. split; [|by apply sorted_filter].
  rewrite Forall_forall in *. intros y [_ Hy]%list_elem_of_filter. auto.
Qed.

(** Two live nodes of the tree never share a key. *)
Lemma sorted_tree_inj h t a b k :
  sorted_tree h t -> a ∈ inorder t -> b ∈ inorder t ->
  hkey h a = Some k -> hkey h b = Some k -> a = b.
Proof.
  intros [_ Hs] Ha Hb Ka Kb. destruct (decide (a = b)) as [|Hne]; [done|exfalso].
  assert (abefore h a b \/ abefore h b a) as Hor.
  { induction Hs as [|x l Hs IH Hx]; [set_solver|].
    rewrite Forall_forall in Hx. set_solver. }
  destruct Hor as [(k1&k2&?&?&Hlt)|(k1&k2&?&?&Hlt)];
    (assert (k1 = k /\ k2 = k) as [-> ->] by (split; congruence));
    by eapply klt_irrefl.
Qed.
End Tree.
