(* ===== verification/ShmSpec.v ===== *)
(** * ShmSpec.v: the zone refines a finite map from identities to nodes

    [wf P sh] is the invariant of a shared context: queue, tree and heap hold
    the same nodes, the tree is strictly sorted, the live nodes are allocated
    and every node satisfies [P].  [abs sh] is the map from key bytes to node
    contents the structure represents.  Every structural step ([touch], node
    update, unlink, link, expiry) is specified on that map. *)
From stdpp Require Import sorting.
From S2P Require Import Prelude Types Ngx Shm ShmTree.

Section Spec.
Context `{NgxHash} `{NgxCompare} `{NgxSlab} `{NgxRbtree}.
Context {CmpLaws : NgxCompareLaws} {SlabLaws : NgxSlabLaws}
        {RbLaws : NgxRbtreeLaws}.

Record wf (P : node -> Prop) (sh : shctx) : Prop := {
  wf_nodup : NoDup (sh_queue sh);
  wf_perm : inorder (sh_tree sh) ≡ₚ sh_queue sh;
  wf_dom : forall a, is_Some (sh_heap sh !! a) <-> a ∈ sh_queue sh;
  wf_sorted : sorted_tree (sh_heap sh) (sh_tree sh);
  wf_hash : forall a n, sh_heap sh !! a = Some n ->
              n_hash n = ngx_crc32_short (n_data n);
  wf_slab : forall a, a ∈ sh_queue sh -> a ∈ slab_live (sh_slab sh);
  wf_node : forall a n, sh_heap sh !! a = Some n -> P n
}.

(** The map the context represents. *)
Definition abs (sh : shctx) : gmap bytes node :=
  list_to_map ((fun p : addr * node => (n_data p.2, p.2)) <$>
               map_to_list (sh_heap sh)).

Lemma wf_key_inj P sh a b n m :
  wf P sh -> sh_heap sh !! a = Some n -> sh_heap sh !! b = Some m ->
  n_data n = n_data m -> a = b.
Proof.
  intros Hwf Ha Hb E.
  apply (sorted_tree_inj (sh_heap sh) (sh_tree sh) a b (nkey n)).
  - apply Hwf.
  - rewrite (wf_perm P sh Hwf). apply (wf_dom P sh Hwf). eauto.
  - rewrite (wf_perm P sh Hwf). apply (wf_dom P sh Hwf). eauto.
  - unfold hkey. by rewrite Ha.
  - unfold hkey, nkey. rewrite Hb. simpl.
    by rewrite (wf_hash _ _ Hwf _ _ Ha), (wf_hash _ _ Hwf _ _ Hb), E.
Qed.

Lemma abs_lookup P sh k n :
  wf P sh ->
  abs sh !! k = Some n <-> exists a, sh_heap sh !! a = Some n /\ n_data n = k.
Proof.
  intros Hwf. unfold abs. rewrite <- elem_of_list_to_map.
  - rewrite list_elem_of_fmap. split.
    + intros ([a m] & [= -> ->] & Hm%elem_of_map_to_list). eauto.
    + intros (a & Ha & <-). exists (a, n). split; [done|].
      by apply elem_of_map_to_list.
  - rewrite <- list_fmap_compose. apply NoDup_fmap_2_strong.
    + intros [a m] [b m'] Ha%elem_of_map_to_list Hb%elem_of_map_to_list E.
      simpl in E. assert (a = b) as -> by (eapply wf_key_inj; eauto).
      congruence.
    + apply NoDup_map_to_list.
Qed.

Lemma abs_lookup_None P sh k :
  wf P sh ->
  abs sh !! k = None <-> forall a n, sh_heap sh !! a = Some n -> n_data n <> k.
Proof.
  intros Hwf. split.
  - intros Hn a n Ha <-. assert (abs sh !! n_data n = Some n) by
      (apply (abs_lookup P); eauto). congruence.
  - intros Hn. destruct (abs sh !! k) as [n|] eqn:E; [|done].
    apply (abs_lookup P) in E as (a & Ha & E'); [|done]. by apply Hn in Ha.
Qed.

(** The search finds the node of a key of the map. *)
Lemma wf_search P sh key :
  wf P sh ->
  exists r, sentinel_shm_lookup (sh_heap sh) (sh_tree sh)
              (ngx_crc32_short key) key = Some r /\
    match r with
    | Some a => exists n, sh_heap sh !! a = Some n /\ n_data n = key /\
                  a ∈ sh_queue sh /\ abs sh !! key = Some n
    | None => abs sh !! key = None
    end.
Proof.
  intros Hwf.
  destruct (lookup_spec (sh_heap sh) (sh_tree sh) (ngx_crc32_short key) key)
    as (r & E & Hr); [apply Hwf|].
  exists r. split; [done|]. destruct r as [a|].
  - destruct Hr as [Ha Hk]. unfold hkey in Hk.
    apply fmap_Some in Hk as (n & Hn & [= Hh Hd]).
    exists n. split_and!; [done..| |].
    + apply (wf_dom _ _ Hwf). eauto.
    + apply (abs_lookup P); eauto.
  - apply (abs_lookup_None P); [done|]. intros a n Ha E'.
    apply (Hr a).
    + rewrite (wf_perm _ _ Hwf). apply (wf_dom _ _ Hwf). eauto.
    + unfold hkey, nkey. rewrite Ha. simpl.
      by rewrite (wf_hash _ _ Hwf _ _ Ha), E'.
Qed.

Lemma wf_empty P pool : wf P (empty_shctx pool).
Proof.
  unfold empty_shctx. split; simpl.
  - constructor.
  - done.
  - intros a. rewrite lookup_empty. split; [by intros [? ?]|set_solver].
  - split; constructor.
  - by intros a n.
  - set_solver.
  - by intros a n.
Qed.

Lemma abs_empty pool : abs (empty_shctx pool) = ∅.
Proof. reflexivity. Qed.

(** *** touch *)

Lemma touch_perm P sh a :
  wf P sh -> a ∈ sh_queue sh ->
  sh_queue (sentinel_shm_touch sh a) ≡ₚ sh_queue sh.
Proof.
  intros Hwf Ha. simpl.
  pose proof (wf_nodup _ _ Hwf) as Hnd.
  apply NoDup_Permutation; [|done|].
  - constructor; [|by apply NoDup_filter].
    rewrite list_elem_of_filter. tauto.
  - intros b. rewrite elem_of_cons, list_elem_of_filter.
    destruct (decide (b = a)); naive_solver.
Qed.

Lemma touch_wf P sh a :
  wf P sh -> a ∈ sh_queue sh -> wf P (sentinel_shm_touch sh a).
Proof.
  intros Hwf Ha. pose proof (touch_perm P sh a Hwf Ha) as Hp.
  destruct Hwf. split; auto.
  - by rewrite Hp.
  - by rewrite Hp.
  - intros b. by rewrite Hp.
  - intros b. rewrite Hp. auto.
Qed.

Lemma touch_abs sh a : abs (sentinel_shm_touch sh a) = abs sh.
Proof. done. Qed.

(** *** updating a node in place *)

Lemma hkey_store h a n n' b :
  h !! a = Some n -> nkey n' = nkey n -> hkey (<[a := n']> h) b = hkey h b.
Proof.
  intros Ha E. unfold hkey. destruct (decide (a = b)) as [->|].
  - rewrite lookup_insert_eq, Ha. simpl. by rewrite E.
  - by rewrite lookup_insert_ne.
Qed.

Lemma store_wf P sh a n n' :
  wf P sh -> sh_heap sh !! a = Some n -> nkey n' = nkey n -> P n' ->
  wf P (store sh a n').
Proof.
  intros Hwf Ha E HP. destruct Hwf as [Hnd Hpm Hdom Hs Hh Hsl Hn].
  assert (n_hash n' = n_hash n /\ n_data n' = n_data n) as [E1 E2].
  { unfold nkey in E. by simplify_eq. }
  split; simpl; auto.
  - intros b. rewrite <- Hdom. destruct (decide (a = b)) as [->|].
    + rewrite lookup_insert_eq. rewrite Ha. by split; eauto.
    + by rewrite lookup_insert_ne.
  - eapply sorted_tree_heap, Hs. intros b _. by eapply hkey_store.
  - intros b m. destruct (decide (a = b)) as [->|].
    + rewrite lookup_insert_eq. intros [= <-]. rewrite E1, E2. eauto.
    + rewrite lookup_insert_ne by done. eauto.
  - intros b m. destruct (decide (a = b)) as [->|].
    + rewrite lookup_insert_eq. by intros [= <-].
    + rewrite lookup_insert_ne by done. eauto.
Qed.

Lemma store_abs P sh a n n' :
  wf P sh -> sh_heap sh !! a = Some n -> nkey n' = nkey n -> P n' ->
  abs (store sh a n') = <[n_data n := n']> (abs sh).
Proof.
  intros Hwf Ha E HP. pose proof (store_wf P sh a n n' Hwf Ha E HP) as Hwf'.
  assert (n_data n' = n_data n) as E2 by (unfold nkey in E; by simplify_eq).
  apply map_eq. intros k. apply option_eq. intros m.
  rewrite (abs_lookup P) by done. simpl.
  destruct (decide (n_data n = k)) as [<-|Hk].
  - rewrite lookup_insert_eq. split.
    + intros (b & Hb & Ek). destruct (decide (a = b)) as [->|Hab].
      { rewrite lookup_insert_eq in Hb. congruence. }
      rewrite lookup_insert_ne in Hb by done.
      by destruct Hab; apply (wf_key_inj P sh a b n m).
    + intros [= <-]. exists a. by rewrite lookup_insert_eq.
  - rewrite lookup_insert_ne by done. rewrite (abs_lookup P) by done. split.
    + intros (b & Hb & Ek). exists b. destruct (decide (a = b)) as [->|Hab].
      { rewrite lookup_insert_eq in Hb. congruence. }
      by rewrite lookup_insert_ne in Hb.
    + intros (b & Hb & Ek). exists b. split; [|done].
      rewrite lookup_insert_ne; [done|]. intros ->. congruence.
Qed.

(** *** unlinking and freeing a node *)

Lemma unlink_wf P sh a n :
  wf P sh -> sh_heap sh !! a = Some n -> wf P (unlink sh a).
Proof.
  intros Hwf Ha. destruct Hwf as [Hnd Hpm Hdom Hs Hh Hsl Hn].
  split; simpl.
  - by apply NoDup_filter.
  - rewrite rbtree_delete_inorder. by rewrite Hpm.
  - intros b. rewrite list_elem_of_filter, <- Hdom.
    destruct (decide (a = b)) as [->|].
    + rewrite lookup_delete_eq. split; [by intros [? ?]|tauto].
    + rewrite lookup_delete_ne by done. naive_solver.
  - eapply sorted_tree_heap, sorted_tree_filter, Hs; [|apply rbtree_delete_inorder].
    intros b. rewrite rbtree_delete_inorder, list_elem_of_filter. intros [? _].
    unfold hkey. by rewrite lookup_delete_ne.
  - intros b m [_ Hb]%lookup_delete_Some. eauto.
  - intros b. rewrite list_elem_of_filter, slab_free_live. set_solver.
  - intros b m [_ Hb]%lookup_delete_Some. eauto.
Qed.

Lemma unlink_abs P sh a n :
  wf P sh -> sh_heap sh !! a = Some n ->
  abs (unlink sh a) = delete (n_data n) (abs sh).
Proof.
  intros Hwf Ha. pose proof (unlink_wf P sh a n Hwf Ha) as Hwf'.
  apply map_eq. intros k. apply option_eq. intros m.
  rewrite (abs_lookup P) by done. rewrite lookup_delete_Some.
  rewrite (abs_lookup P) by done. simpl. split.
  - intros (b & Hb & Ek). apply lookup_delete_Some in Hb as [Hab Hb].
    split; [|by eauto]. intros E. destruct Hab. apply (wf_key_inj P sh a b n m); congruence.
  - intros (Hk & b & Hb & Ek). exists b. split; [|done].
    apply lookup_delete_Some. split; [|done]. intros ->. congruence.
Qed.

(** *** linking a new node *)

Lemma link_wf P sh size n :
  wf P sh -> n_hash n = ngx_crc32_short (n_data n) -> P n ->
  abs sh !! n_data n = None ->
  exists r, link_node sh size n = Some r /\
    match r with
    | None => True
    | Some (a, sh') =>
        wf P sh' /\ sh_heap sh' = <[a := n]> (sh_heap sh) /\
        abs sh' = <[n_data n := n]> (abs sh) /\
        sh_queue sh' = a :: sh_queue sh /\
        sh_cs_generation sh' = sh_cs_generation sh
    end.
Proof.
  intros Hwf Hh HP Hfresh. unfold link_node.
  destruct (ngx_slab_calloc_locked (sh_slab sh) size) as [[a slab']|] eqn:Ea;
    [|by exists None].
  apply slab_calloc_fresh in Ea as [Hna Hlive].
  assert (a ∉ sh_queue sh) as Hq by (intros ?; by eapply Hna, (wf_slab _ _ Hwf)).
  assert (sh_heap sh !! a = None) as Hha.
  { apply eq_None_not_Some. by rewrite (wf_dom _ _ Hwf). }
  set (h := <[a := n]> (sh_heap sh)).
  assert (forall b, b ∈ inorder (sh_tree sh) -> hkey h b = hkey (sh_heap sh) b) as Hk.
  { intros b Hb. unfold hkey, h. rewrite lookup_insert_ne; [done|].
    intros ->. by rewrite (wf_perm _ _ Hwf) in Hb. }
  assert (sorted_tree h (sh_tree sh)) as Hs by (eapply sorted_tree_heap; [done|apply Hwf]).
  assert (hkey h a = Some (nkey n)) as Hka.
  { unfold hkey, h. by rewrite lookup_insert_eq. }
  assert (exists t', ngx_rbtree_insert (sentinel_shm_rbtree_insert h a)
            (sh_tree sh) a = Some t' /\ sorted_tree h t' /\
            inorder t' ≡ₚ a :: inorder (sh_tree sh)) as (t' & -> & Hst & Hpt).
  { destruct (decide (inorder (sh_tree sh) = [])) as [E|E].
    - destruct (sh_tree sh) as [|l b r]; [|simpl in E; by destruct (inorder l)].
      destruct (rbtree_insert_empty (sentinel_shm_rbtree_insert h a) a)
        as (t' & -> & Ht'). exists t'. unfold sorted_tree. rewrite Ht'. simpl.
      split; [done|]. split; [|done].
      split; [by apply Forall_singleton|apply StronglySorted_cons; split; constructor].
    - destruct (rbtree_insert_spec h a (sh_tree sh) (nkey n)) as (t1 & E1 & Hins); auto.
      { intros E'. by rewrite E' in E. }
      { intros b Hb. rewrite Hk by done. intros Ek. unfold hkey in Ek.
        apply fmap_Some in Ek as (m & Hm & [= _ Ed]).
        by eapply (abs_lookup_None P); eauto. }
      destruct (rbtree_insert_callback (sentinel_shm_rbtree_insert h a) (sh_tree sh) a t1)
        as (t' & -> & Ht'); [by intros E'; rewrite E' in E|done|].
      exists t'. split; [done|]. by eapply inserted_sorted; eauto. }
  eexists. split; [done|]. simpl.
  assert (wf P (Shctx h t' (a :: sh_queue sh) (sh_cs_generation sh) slab')) as Hwf'.
  { split; simpl; auto.
    - constructor; [done|apply Hwf].
    - by rewrite Hpt, (wf_perm _ _ Hwf).
    - intros b. rewrite elem_of_cons, <- (wf_dom _ _ Hwf). unfold h.
      destruct (decide (a = b)) as [->|].
      + rewrite lookup_insert_eq. naive_solver.
      + rewrite lookup_insert_ne by done. naive_solver.
    - intros b m. unfold h. rewrite lookup_insert_Some.
      intros [[<- <-]|[_ Hb]]; [done|]. by eapply (wf_hash _ _ Hwf).
    - intros b [->|Hb]%elem_of_cons; rewrite Hlive; [set_solver|].
      apply (wf_slab _ _ Hwf) in Hb. set_solver.
    - intros b m. unfold h. rewrite lookup_insert_Some.
      intros [[<- <-]|[_ Hb]]; [done|]. by eapply (wf_node _ _ Hwf). }
  split_and!; try done.
  apply map_eq. intros k. apply option_eq. intros m.
  rewrite (abs_lookup P) by done. simpl. unfold h.
  rewrite lookup_insert_Some, (abs_lookup P) by done.
  setoid_rewrite lookup_insert_Some. split.
  - intros (b & [[<- <-]|[Hab Hb]] & Ek); [by left|]. right.
    split; [|by eauto]. intros E.
    apply (proj1 (abs_lookup_None P sh (n_data n) Hwf) Hfresh b m Hb). congruence.
  - intros [[<- <-]|(Hne & b & Hb & Ek)]; [by eauto|].
    exists b. split; [|done]. right. split; [|done]. intros <-. congruence.
Qed.
End Spec.
