(* ===== verification/ShmOps.v ===== *)
(** * ShmOps.v: functional correctness of the zone operations

    Each operation of [Shm.v] on a well-formed context never faults, keeps the
    context well formed and has a specification on the abstract map: for the
    CrowdSec table the set of active decisions, for the error-rate and velocity
    zones the sliding window of each identity normalised at the current time
    ([live]).  The two-node LRU expiry that every operation runs first is
    invisible in these views. *)
From S2P Require Import Prelude Types Ngx Shm ShmTree ShmSpec.

Section Ops.
Context `{NgxHash} `{NgxCompare} `{NgxSlab} `{NgxRbtree}.
Context {CmpLaws : NgxCompareLaws} {SlabLaws : NgxSlabLaws}
        {RbLaws : NgxRbtreeLaws}.

(** An entry the LRU expiry may evict at [now]. *)
Definition evictable (zc : zone_conf) (now : Z) (n : node) : Prop :=
  n_blocked_until n <= now /\ z_interval zc <= now - n_last_seen n.

(** [abs sh'] is [abs sh] without some evictable entries. *)
Definition evicted (zc : zone_conf) (now : Z) (sh sh' : shctx) : Prop :=
  forall k, abs sh' !! k = abs sh !! k \/
    (abs sh' !! k = None /\ exists n, abs sh !! k = Some n /\ evictable zc now n).

Lemma evicted_refl zc now sh : evicted zc now sh sh.
Proof. intros k. by left. Qed.

Lemma expire_spec P zc sh now batch :
  wf P sh ->
  exists sh', sentinel_shm_expire zc sh now batch = Some sh' /\ wf P sh' /\
    evicted zc now sh sh' /\ sh_cs_generation sh' = sh_cs_generation sh.
Proof.
  revert sh. induction batch as [|batch IH]; intros sh Hwf; simpl.
  { exists sh. auto using evicted_refl. }
  destruct (last (sh_queue sh)) as [a|] eqn:El; [|by exists sh; auto using evicted_refl].
  assert (a ∈ sh_queue sh) as Ha by (by apply last_Some_elem_of).
  apply (wf_dom _ _ Hwf) in Ha as [n Hn]. rewrite Hn.
  destruct (Z.ltb_spec now (n_blocked_until n)); [by exists sh; auto using evicted_refl|].
  destruct (Z.ltb_spec (now - n_last_seen n) (z_interval zc));
    [by exists sh; auto using evicted_refl|].
  destruct (IH (unlink sh a)) as (sh' & E & Hwf' & Hev & Hg).
  { by eapply unlink_wf. }
  exists sh'. split_and!; try done. intros k.
  assert (abs (unlink sh a) = delete (n_data n) (abs sh)) as Ea
    by (by eapply unlink_abs).
  assert (abs sh !! n_data n = Some n) as Hk by (apply (abs_lookup P); eauto).
  destruct (decide (n_data n = k)) as [<-|Hne].
  - right. split; [|by exists n; split; [|split; lia]].
    destruct (Hev (n_data n)) as [->|[-> _]]; [|done].
    by rewrite Ea, lookup_delete_eq.
  - destruct (Hev k) as [->|[-> (m & Hm & He)]]; rewrite Ea in *;
      rewrite lookup_delete_ne in * by done; [by left|]. right. eauto.
Qed.

(** The body of an upsert: the node found or created is live, carries the key,
    and the rest of the map is unchanged. *)
Definition entry_of (sh sh' : shctx) (key : bytes) (a : addr) (n : node) : Prop :=
  sh_heap sh' !! a = Some n /\ n_data n = key /\
  abs sh' = <[key := n]> (abs sh) /\
  sh_cs_generation sh' = sh_cs_generation sh.

Lemma lookup_or_create_spec P sh key create fresh :
  wf P sh ->
  n_hash fresh = ngx_crc32_short key -> n_data fresh = key -> P fresh ->
  (exists size, create sh = link_node sh size fresh) ->
  exists r, lookup_or_create sh (ngx_crc32_short key) key create = Some r /\
    match r with
    | None => abs sh !! key = None /\ create sh = Some None
    | Some (a, existing, sh') =>
        wf P sh' /\
        exists n, entry_of sh sh' key a n /\
          if existing : bool then abs sh !! key = Some n
          else abs sh !! key = None /\ n = fresh
    end.
Proof.
  intros Hwf Eh Ed HP [size Ec]. unfold lookup_or_create.
  destruct (wf_search P sh key Hwf) as (r & -> & Hr).
  destruct r as [a|].
  - destruct Hr as (n & Hn & Hd & Hq & Hab). eexists. split; [done|].
    split; [by apply touch_wf|]. exists n. split; [|done].
    unfold entry_of. rewrite touch_abs. split_and!; try done.
    by rewrite insert_id.
  - rewrite Ec. destruct (link_wf P sh size fresh Hwf) as (r' & -> & Hr');
      [congruence|done|congruence|].
    destruct r' as [[a sh']|]; [|by exists None].
    destruct Hr' as (Hwf' & Eheap & Eabs & _ & Eg).
    eexists. split; [done|]. split; [done|]. exists fresh.
    unfold entry_of. rewrite Eheap, lookup_insert_eq. subst key. auto.
Qed.

(** Only the allocation fails. *)
Lemma link_node_full sh size n :
  link_node sh size n = Some None -> ngx_slab_calloc_locked (sh_slab sh) size = None.
Proof.
  unfold link_node. destruct (ngx_slab_calloc_locked _ _) as [[a slab']|]; [|done].
  by destruct (ngx_rbtree_insert _ _ _).
Qed.

Lemma stored_key_id key : Z.of_nat (length key) < 65536 -> stored_key key = key.
Proof.
  intros. unfold stored_key. rewrite wrap_id by lia.
  apply take_ge. lia.
Qed.

(** ** The CrowdSec table *)

(** What a reader sees of a decision at [now]. *)
Definition active (now : Z) (sh : shctx) (k : bytes) : option Z :=
  n ← abs sh !! k; if now <? n_blocked_until n then Some (n_cs_action n) else None.

Lemma evicted_active zc now sh sh' k :
  evicted zc now sh sh' -> active now sh' k = active now sh k.
Proof.
  intros Hev. unfold active. destruct (Hev k) as [->|(-> & n & -> & Hb & _)]; [done|].
  simpl. by break_bool; [lia|].
Qed.

Lemma nkey_eq n n' : n_hash n' = n_hash n -> n_data n' = n_data n -> nkey n' = nkey n.
Proof. unfold nkey. congruence. Qed.

(** Updating the node of [key] in place. *)
Lemma store_entry P sh sh1 key a n n' :
  wf P sh1 -> entry_of sh sh1 key a n -> nkey n' = nkey n -> P n' ->
  wf P (store sh1 a n') /\ abs (store sh1 a n') = <[key := n']> (abs sh).
Proof.
  intros Hwf (Ha & Hd & Hab & _) Hk HP. split; [by eapply store_wf|].
  rewrite (store_abs P sh1 a n n') by done.
  by rewrite Hab, Hd, insert_insert_eq.
Qed.

Definition decision_node (key : bytes) (expiry action generation now : Z)
    (pulled : bool) (old : option node) : node :=
  set_decision
    (default (Node (ngx_crc32_short key) key 0 now 0 0 0 NGX_SENTINEL_CS_NONE false [])
             old) expiry action generation now pulled.

Lemma crowdsec_upsert_abs sh key expiry action generation now pulled :
  wf (fun _ => True) sh -> Z.of_nat (length key) < 65536 ->
  exists rc sh', crowdsec_upsert_locked key expiry action generation now pulled sh
                 = Some (rc, sh') /\ wf (fun _ => True) sh' /\
    sh_cs_generation sh' = sh_cs_generation sh /\
    ((rc = NGX_OK /\
      abs sh' = <[key := decision_node key expiry action generation now pulled
                           (abs sh !! key)]> (abs sh)) \/
     (rc = NGX_ERROR /\ sh' = sh /\ abs sh !! key = None /\
      ngx_slab_calloc_locked (sh_slab sh) (node_size + Z.of_nat (length key)) = None)).
Proof.
  intros Hwf Hlen. unfold crowdsec_upsert_locked, sentinel_shm_crowdsec_create.
  rewrite stored_key_id by done.
  match goal with |- context [lookup_or_create sh _ key ?c] =>
    edestruct (lookup_or_create_spec (fun _ => True) sh key c) as (r & -> & Hr)
  end; [done| | | |by eexists|]; [done|done|done|].
  destruct r as [[[a ex] sh1]|].
  - destruct Hr as (Hwf1 & n & He & Hold). pose proof He as (-> & _ & _ & Hg).
    do 2 eexists. split; [done|].
    destruct (store_entry (fun _ => True) sh sh1 key a n
                (set_decision n expiry action generation now pulled))
      as [Hwf2 Hab]; [done|exact He|by apply nkey_eq|done|].
    split_and!; [done|done|]. left. split; [done|]. rewrite Hab.
    unfold decision_node. destruct ex; [by rewrite Hold|].
    by destruct Hold as [-> ->].
  - destruct Hr as [Hno Hfull%link_node_full]. do 2 eexists. split; [done|].
    split_and!; auto.
Qed.

(** A read answers BUSY exactly for an active decision and changes no active
    decision. *)
Lemma crowdsec_lookup_active zc sh key now :
  wf (fun _ => True) sh ->
  exists sh', crowdsec_lookup_locked key now zc sh =
      Some (match active now sh key with
            | Some action => (NGX_BUSY, action)
            | None => (NGX_OK, NGX_SENTINEL_CS_NONE)
            end, sh') /\
    wf (fun _ => True) sh' /\ sh_cs_generation sh' = sh_cs_generation sh /\
    forall k, active now sh' k = active now sh k.
Proof.
  intros Hwf. unfold crowdsec_lookup_locked.
  destruct (expire_spec (fun _ => True) zc sh now NGX_SENTINEL_EXPIRE_BATCH Hwf)
    as (sh1 & -> & Hwf1 & Hev & Hg1).
  rewrite <- (evicted_active zc now sh sh1 key Hev).
  destruct (wf_search _ sh1 key Hwf1) as (r & -> & Hr).
  destruct r as [a|].
  - destruct Hr as (n & Hn & Hd & Hq & Hab). rewrite Hn.
    assert (wf (fun _ => True) (sentinel_shm_touch sh1 a)) as Hwft by (by apply touch_wf).
    assert (abs (store (sentinel_shm_touch sh1 a) a (set_last_seen n now))
            = <[key := set_last_seen n now]> (abs sh1)) as Est.
    { rewrite (store_abs (fun _ => True) _ a n) by done. by rewrite Hd. }
    assert (active now sh1 key = if now <? n_blocked_until n
              then Some (n_cs_action n) else None) as ->.
    { unfold active. by rewrite Hab. }
    exists (store (sentinel_shm_touch sh1 a) a (set_last_seen n now)).
    split; [|split_and!].
    + repeat break_bool; try lia; done.
    + by eapply store_wf.
    + done.
    + intros k. rewrite <- (evicted_active zc now sh sh1 k Hev).
      unfold active. rewrite Est. destruct (decide (key = k)) as [<-|].
      * by rewrite lookup_insert_eq, Hab.
      * by rewrite lookup_insert_ne.
  - exists sh1. unfold active at 1. rewrite Hr. simpl.
    split_and!; auto. intros k. by eapply evicted_active.
Qed.

(** A read adds nothing to the table, at any time of reading. *)
Lemma crowdsec_lookup_shrinks zc sh key now res sh' :
  wf (fun _ => True) sh ->
  crowdsec_lookup_locked key now zc sh = Some (res, sh') ->
  forall t k v, active t sh' k = Some v -> active t sh k = Some v.
Proof.
  intros Hwf. unfold crowdsec_lookup_locked.
  destruct (expire_spec (fun _ => True) zc sh now NGX_SENTINEL_EXPIRE_BATCH Hwf)
    as (sh1 & -> & Hwf1 & Hev & Hg1).
  assert (forall t k v, active t sh1 k = Some v -> active t sh k = Some v) as H1'.
  { intros t k v. unfold active. by destruct (Hev k) as [->|[-> _]]. }
  destruct (wf_search _ sh1 key Hwf1) as (r & -> & Hr).
  destruct r as [a|]; [|intros [= _ <-]; exact H1'].
  destruct Hr as (n & Hn & Hd & Hq & Hab). rewrite Hn.
  assert (wf (fun _ => True) (sentinel_shm_touch sh1 a)) as Hwft by (by apply touch_wf).
  assert (abs (store (sentinel_shm_touch sh1 a) a (set_last_seen n now))
          = <[key := set_last_seen n now]> (abs sh1)) as Est.
  { rewrite (store_abs (fun _ => True) _ a n) by done. by rewrite Hd. }
  intros E t k v Hk. apply H1'.
  assert (sh' = store (sentinel_shm_touch sh1 a) a (set_last_seen n now)) as ->
    by (by destruct (n_blocked_until n <=? now); injection E).
  revert Hk. unfold active. rewrite Est. destruct (decide (key = k)) as [<-|].
  - by rewrite lookup_insert_eq, Hab.
  - by rewrite lookup_insert_ne.
Qed.
End Ops.
