(* ===== verification/ShmRate.v ===== *)
(** * ShmRate.v: the sliding window of the error-rate and velocity zones

    An identity of such a zone is seen through [live]: until when it is blocked
    and which of its events are inside the window at the current time.  The
    in-place compaction of the event ring never reads or writes out of bounds
    and computes this filter; recording, looking up and banning refine three
    small functions on [live], and the LRU expiry is invisible in it. *)
From S2P Require Import Prelude Types Ngx Shm ShmTree ShmSpec ShmOps.

Section Rate.
Context `{NgxHash} `{NgxCompare} `{NgxSlab} `{NgxRbtree}.
Context {CmpLaws : NgxCompareLaws} {SlabLaws : NgxSlabLaws}
        {RbLaws : NgxRbtreeLaws}.

(** What the configuration parser guarantees of a rate zone. *)
Definition zone_ok (zc : zone_conf) : Prop :=
  0 < z_interval zc /\ 0 < z_block zc /\ 0 < z_threshold zc.

#[local] Instance zone_ok_dec zc : Decision (zone_ok zc).
Proof. unfold zone_ok. apply _. Defined.

(** The thresholds for which the size of a node does not wrap around. *)
Definition ring_fits (zc : zone_conf) : Prop := z_threshold zc < 2 ^ 60.

(** The events a node currently holds. *)
Definition window (n : node) : list Z :=
  take (Z.to_nat (n_event_count n)) (n_events n).

(** The invariant of a node of a rate zone at time [now]. *)
Record node_ok (zc : zone_conf) (now : Z) (n : node) : Prop := {
  ok_head : n_event_head n = 0;
  ok_count : 0 <= n_event_count n < z_threshold zc;
  ok_events : Z.of_nat (length (n_events n)) = z_threshold zc;
  ok_window : Forall (fun t => t <= n_last_seen n) (window n);
  ok_seen : n_last_seen n <= now
}.

Lemma node_ok_mono zc t t' n : t <= t' -> node_ok zc t n -> node_ok zc t' n.
Proof. intros ? []. split; auto. lia. Qed.

Lemma wf_mono (P Q : node -> Prop) sh :
  (forall n, P n -> Q n) -> wf P sh -> wf Q sh.
Proof. intros HPQ []. split; eauto. Qed.

(** ** Compaction *)

Abbreviation inside cutoff := (filter (fun t : Z => cutoff < t)).

Lemma ring_read_ok ev i x :
  0 <= i -> ev !! Z.to_nat i = Some x -> ring_read ev i = Some x.
Proof. intros ? E. unfold ring_read. by break_bool; [lia|]. Qed.

Lemma ring_write_ok ev i t :
  0 <= i < Z.of_nat (length ev) ->
  ring_write ev i t = Some (<[Z.to_nat i := t]> ev).
Proof.
  intros. unfold ring_write. repeat break_bool; try lia. done.
Qed.

Lemma prune_loop_spec fuel : forall threshold cutoff i keep ev,
  0 <= keep <= i -> Z.of_nat (length ev) <= threshold ->
  i + Z.of_nat fuel <= Z.of_nat (length ev) ->
  exists ev',
    let kept := inside cutoff (take fuel (drop (Z.to_nat i) ev)) in
    prune_loop fuel 0 threshold cutoff i keep ev
      = Some (keep + Z.of_nat (length kept), ev') /\
    length ev' = length ev /\
    take (Z.to_nat (keep + Z.of_nat (length kept))) ev'
      = take (Z.to_nat keep) ev ++ kept.
Proof.
  induction fuel as [|fuel IH]; intros threshold cutoff i keep ev Hk Hl Hf.
  { exists ev. cbn zeta. rewrite take_0. simpl. rewrite Z.add_0_r, app_nil_r. auto. }
  assert (exists x, ev !! Z.to_nat i = Some x) as [x Hx]
    by (apply lookup_lt_is_Some; lia).
  rewrite (drop_S _ x) by done. simpl. unfold umod.
  destruct (Z.eqb_spec threshold 0); [lia|].
  rewrite Z.mod_small by lia. rewrite (ring_read_ok _ _ x) by (lia || done).
  replace (S (Z.to_nat i)) with (Z.to_nat (i + 1)) by lia.
  rewrite filter_cons. destruct (Z.ltb_spec cutoff x).
  - rewrite decide_True by done. rewrite ring_write_ok by lia.
    destruct (IH threshold cutoff (i + 1) (keep + 1) (<[Z.to_nat keep:=x]> ev))
      as (ev' & E & El & Et); [lia|by rewrite length_insert|rewrite length_insert; lia|].
    rewrite drop_insert_lt in E, Et by lia.
    exists ev'. rewrite length_cons. split_and!.
    + rewrite E. do 2 f_equal. lia.
    + by rewrite El, length_insert.
    + replace (keep + Z.of_nat (S (length (inside cutoff
        (take fuel (drop (Z.to_nat (i + 1)) ev)))))) with
        (keep + 1 + Z.of_nat (length (inside cutoff
        (take fuel (drop (Z.to_nat (i + 1)) ev))))) by lia.
      rewrite Et, Z2Nat.inj_add, Nat.add_1_r by lia.
      rewrite (take_S_r _ _ x) by (rewrite list_lookup_insert_eq; [done|lia]).
      rewrite take_insert_ge by lia. by rewrite <- app_assoc.
  - rewrite decide_False by lia. by apply IH; [lia|..|lia].
Qed.

Lemma prune_ring zc n now :
  n_event_head n = 0 -> 0 <= n_event_count n <= Z.of_nat (length (n_events n)) ->
  Z.of_nat (length (n_events n)) <= z_threshold zc ->
  exists n', sentinel_shm_prune zc n now = Some n' /\
    window n' = inside (now - z_interval zc) (window n) /\
    n' = set_window n 0 (Z.of_nat (length (window n'))) (n_events n') /\
    length (n_events n') = length (n_events n) /\
    (length (window n') <= length (window n))%nat.
Proof.
  intros Hh Hc He. unfold sentinel_shm_prune. rewrite Hh.
  destruct (prune_loop_spec (Z.to_nat (n_event_count n)) (z_threshold zc)
    (now - z_interval zc) 0 0 (n_events n)) as (ev' & E & El & Et); [lia..|].
  cbn zeta in E, Et. change (Z.to_nat 0) with 0%nat in E, Et.
  rewrite drop_0, Z.add_0_l in E. rewrite drop_0, take_0, Z.add_0_l in Et.
  fold (window n) in E, Et. simpl in Et.
  rewrite E. eexists. split; [done|].
  assert (window (set_window n 0
    (Z.of_nat (length (inside (now - z_interval zc) (window n)))) ev')
    = inside (now - z_interval zc) (window n)) as Ew by done.
  rewrite Ew. split_and!; try done. apply length_filter.
Qed.

Lemma prune_spec zc n now t :
  node_ok zc t n ->
  exists n', sentinel_shm_prune zc n now = Some n' /\
    window n' = inside (now - z_interval zc) (window n) /\
    n' = set_window n 0 (Z.of_nat (length (window n'))) (n_events n') /\
    length (n_events n') = length (n_events n) /\
    (length (window n') <= length (window n))%nat.
Proof. intros [Hh Hc He _ _]. apply prune_ring; [done|lia..]. Qed.

(** ** The view of an identity *)

Definition rate_view : Type := Z * list Z.

Definition view (n : node) : rate_view := (n_blocked_until n, window n).

(** What is left of a view at time [now]: an elapsed block forgets the window,
    events outside the window are dropped. *)
Definition norm (zc : zone_conf) (now : Z) (v : rate_view) : rate_view :=
  if now <? v.1 then (v.1, [])
  else if v.1 =? 0 then (0, inside (now - z_interval zc) v.2)
  else (0, []).

Definition live (zc : zone_conf) (now : Z) (sh : shctx) (k : bytes) : rate_view :=
  match abs sh !! k with
  | Some n => norm zc now (view n)
  | None => (0, [])
  end.

Lemma norm_norm zc t t' v :
  0 <= t <= t' -> norm zc t' (norm zc t v) = norm zc t' v.
Proof.
  intros Ht. destruct v as [u w]. unfold norm. simpl.
  destruct (Z.ltb_spec t u); simpl.
  { repeat break_bool; try lia; done. }
  destruct (Z.eqb_spec u 0) as [->|]; simpl; repeat break_bool; try lia; try done.
  f_equal. rewrite list_filter_filter. apply list_filter_iff. intros x. lia.
Qed.

(** Time passing only normalises the view. *)
Lemma live_later zc t t' sh k :
  0 <= t <= t' -> live zc t' sh k = norm zc t' (live zc t sh k).
Proof.
  intros. unfold live. destruct (abs sh !! k) as [n|].
  - by rewrite norm_norm.
  - unfold norm. simpl. by repeat break_bool; try lia.
Qed.

Lemma inside_none cutoff l : Forall (fun t => t <= cutoff) l -> inside cutoff l = [].
Proof.
  induction 1 as [|t l Ht _ IH]; [done|].
  by rewrite filter_cons, decide_False by lia.
Qed.

Lemma Forall_inside P cutoff l : Forall P l -> Forall P (inside cutoff l).
Proof. rewrite !Forall_forall. intros Hl t [_ Ht]%list_elem_of_filter. auto. Qed.

Lemma live_evicted zc t now sh sh' k :
  wf (node_ok zc t) sh -> 0 <= now -> evicted zc now sh sh' ->
  live zc now sh' k = live zc now sh k.
Proof.
  intros Hwf Hnow Hev. unfold live. destruct (Hev k) as [->|(-> & n & En & Hb & Hs)]; [done|].
  rewrite En. apply (abs_lookup (node_ok zc t)) in En as (a & Ha & _); [|done].
  apply (wf_node _ _ Hwf) in Ha. unfold norm, view. simpl.
  destruct (Z.ltb_spec now (n_blocked_until n)); [lia|].
  break_bool; [|done]. f_equal. symmetry. apply inside_none.
  eapply Forall_impl; [apply Ha|]. simpl. lia.
Qed.

Lemma live_insert zc now sh sh1 key n k :
  abs sh1 = <[key := n]> (abs sh) ->
  live zc now sh1 k = if decide (k = key) then norm zc now (view n)
                      else live zc now sh k.
Proof.
  intros E. unfold live. rewrite E. case_decide as Hk.
  - by rewrite Hk, lookup_insert_eq.
  - by rewrite lookup_insert_ne.
Qed.

(** ** Recording an event *)

Definition fresh_node (zc : zone_conf) (key : bytes) (now : Z) : node :=
  Node (ngx_crc32_short key) key 0 now 0 0 0 0 false
       (replicate (Z.to_nat (z_threshold zc)) 0).

Lemma fresh_node_ok zc key now : zone_ok zc -> node_ok zc now (fresh_node zc key now).
Proof.
  intros (?&?&?). split; simpl; try lia.
  - rewrite length_replicate. lia.
  - by constructor.
Qed.

Lemma norm_fresh zc key now t :
  0 <= t -> norm zc t (view (fresh_node zc key now)) = (0, []).
Proof. intros. unfold norm. simpl. by destruct (Z.ltb_spec t 0); [lia|]. Qed.

(** The node that a threshold above [2^61] gets has a ring of the wrapped size. *)
Definition node_with (slots : Z) (key : bytes) (now : Z) : node :=
  Node (ngx_crc32_short key) key 0 now 0 0 0 0 false (replicate (Z.to_nat slots) 0).

Lemma events_offset_bound key_len :
  0 <= key_len < 65536 ->
  node_data_offset + key_len <= sentinel_events_offset node_data_offset key_len < 2 ^ 18 /\
  0 <= sentinel_events_offset node_data_offset key_len.
Proof.
  intros. pose proof node_data_offset_small. unfold sentinel_events_offset. dlia.
Qed.

Lemma create_node_slots zc sh key now :
  0 <= z_threshold zc -> z_threshold zc mod 2 ^ 61 < 2 ^ 60 -> Z.of_nat (length key) < 65536 ->
  sentinel_shm_create_node zc sh (ngx_crc32_short key) key now
    = link_node sh (sentinel_events_offset node_data_offset (Z.of_nat (length key))
                    + z_threshold zc mod 2 ^ 61 * 8)
        (node_with (z_threshold zc mod 2 ^ 61) key now).
Proof.
  intros Hz Hth Hl. unfold sentinel_shm_create_node.
  rewrite (wrap_id 16), stored_key_id by lia.
  pose proof (events_offset_bound (Z.of_nat (length key)) ltac:(lia)) as Hoff.
  set (off := sentinel_events_offset _ _) in *.
  assert (wrap64 (z_threshold zc * 8) = z_threshold zc mod 2 ^ 61 * 8) as ->.
  { unfold wrap. replace (2 ^ 64) with (2 ^ 61 * 8) by done.
    by rewrite Z.mul_mod_distr_r by lia. }
  pose proof (Z.mod_pos_bound (z_threshold zc) (2 ^ 61) ltac:(lia)).
  rewrite wrap_id by lia.
  match goal with |- context [?s <? ?b] => destruct (Z.ltb_spec s b) end; [lia|].
  replace (off + z_threshold zc mod 2 ^ 61 * 8 - off)
    with (z_threshold zc mod 2 ^ 61 * 8) by lia.
  by rewrite Z.div_mul by lia.
Qed.

(** The size of a node of a zone. *)
Definition node_bytes (zc : zone_conf) (key : bytes) : Z :=
  sentinel_events_offset node_data_offset (Z.of_nat (length key)) + z_threshold zc * 8.

Lemma create_node_link zc sh key now :
  zone_ok zc -> ring_fits zc -> Z.of_nat (length key) < 65536 ->
  sentinel_shm_create_node zc sh (ngx_crc32_short key) key now
    = link_node sh (node_bytes zc key) (fresh_node zc key now).
Proof.
  unfold ring_fits. intros (?&?&?) Hf Hl. pose proof (Z.mod_small (z_threshold zc) (2 ^ 61)) as E.
  rewrite create_node_slots by lia. unfold node_with. by rewrite E by lia.
Qed.

(** The zone has no room for the node of [key], even after the expiry that
    precedes the allocation. *)
Definition zone_full (zc : zone_conf) (key : bytes) (now : Z) (sh : shctx) : Prop :=
  exists sh1, sentinel_shm_expire zc sh now NGX_SENTINEL_EXPIRE_BATCH = Some sh1 /\
    ngx_slab_calloc_locked (sh_slab sh1) (node_bytes zc key) = None.

(** The prologue of recording and banning: expiry, then find or create. *)
Lemma rate_prologue zc sh key t now :
  zone_ok zc -> ring_fits zc -> wf (node_ok zc t) sh -> 0 <= now -> t <= now ->
  Z.of_nat (length key) < 65536 ->
  exists sh1 r,
    sentinel_shm_expire zc sh now NGX_SENTINEL_EXPIRE_BATCH = Some sh1 /\
    lookup_or_create sh1 (ngx_crc32_short key) key
      (fun sh => sentinel_shm_create_node zc sh (ngx_crc32_short key) key now)
      = Some r /\
    wf (node_ok zc now) sh1 /\
    (forall k, live zc now sh1 k = live zc now sh k) /\
    match r with
    | None => live zc now sh key = (0, []) /\ zone_full zc key now sh
    | Some (a, existing, sh2) =>
        wf (node_ok zc now) sh2 /\
        exists n, entry_of sh1 sh2 key a n /\ node_ok zc now n /\
          norm zc now (view n) = live zc now sh key /\
          (existing = false -> n = fresh_node zc key now)
    end.
Proof.
  intros Hz Hfit Hwf Hnow Ht Hl.
  destruct (expire_spec (node_ok zc t) zc sh now NGX_SENTINEL_EXPIRE_BATCH Hwf)
    as (sh1 & E1 & Hwf1 & Hev & Hg1).
  assert (forall k, live zc now sh1 k = live zc now sh k) as Hlive
    by (intros; by eapply live_evicted).
  assert (wf (node_ok zc now) sh1) as Hwf1'
    by (eapply wf_mono; [|done]; intros; by eapply node_ok_mono).
  edestruct (lookup_or_create_spec (node_ok zc now) sh1 key
    (fun sh => sentinel_shm_create_node zc sh (ngx_crc32_short key) key now)
    (fresh_node zc key now)) as (r & E2 & Hr);
    [done|done|done|by apply fresh_node_ok|by eexists; apply create_node_link|].
  exists sh1, r. split_and!; [done..|].
  rewrite <- Hlive. destruct r as [[[a ex] sh2]|].
  - destruct Hr as (Hwf2 & n & He & Hold). split; [done|]. exists n.
    split; [done|]. split; [by apply (wf_node _ _ Hwf2 a), He|].
    unfold live. destruct ex; [by rewrite Hold|].
    destruct Hold as [-> ->]. split; [|done]. by apply norm_fresh.
  - destruct Hr as [Hno Hfull]. unfold live. rewrite Hno. split; [done|].
    exists sh1. split; [done|]. apply link_node_full with (fresh_node zc key now).
    by rewrite <- create_node_link.
Qed.

(** A rate result is [NGX_BUSY] with the threshold while blocked and the size
    of the window otherwise. *)
Definition record_spec (zc : zone_conf) (now : Z) (v : rate_view)
    : rate_result * rate_view :=
  if now <? v.1 then ((NGX_BUSY, z_threshold zc, v.1), v)
  else
    let w := v.2 ++ [now] in
    let c := Z.of_nat (length w) in
    if z_threshold zc <=? c
    then ((NGX_BUSY, z_threshold zc, now + z_block zc), (now + z_block zc, []))
    else ((NGX_OK, c, 0), (0, w)).

Lemma live_range zc now sh k :
  zone_ok zc -> wf (node_ok zc now) sh ->
  Z.of_nat (length (live zc now sh k).2) < z_threshold zc.
Proof.
  intros (?&?&?) Hwf. unfold live. destruct (abs sh !! k) as [n|] eqn:E; [|simpl; lia].
  apply (abs_lookup (node_ok zc now)) in E as (a & Ha & _); [|done].
  apply (wf_node _ _ Hwf) in Ha as [? Hc ? ? ?]. unfold norm.
  repeat break_bool; simpl; try lia.
  pose proof (length_filter (fun t => now - z_interval zc < t) (window n)).
  assert (length (window n) <= Z.to_nat (n_event_count n))%nat by (unfold window; rewrite length_take; lia). lia.
Qed.

(** Storing the updated node of [key] changes the view of [key] only. *)
Lemma rate_store zc sh sh1 sh2 key a n n' now :
  wf (node_ok zc now) sh2 -> entry_of sh1 sh2 key a n -> nkey n' = nkey n ->
  node_ok zc now n' ->
  (forall k, live zc now sh1 k = live zc now sh k) ->
  wf (node_ok zc now) (store sh2 a n') /\
  forall k, live zc now (store sh2 a n') k
    = if decide (k = key) then norm zc now (view n') else live zc now sh k.
Proof.
  intros Hwf He Hk Hn Hl.
  destruct (store_entry _ sh1 sh2 key a n n' Hwf He Hk Hn) as [Hwf' Hab].
  split; [done|]. intros k. rewrite (live_insert zc now sh1 _ key n') by done.
  case_decide; [done|]. apply Hl.
Qed.

(** Clear an elapsed ban. *)
Definition unban (n : node) : node :=
  if negb (n_blocked_until n =? 0) then set_blocked_until n 0 0 0 else n.

Lemma unban_spec zc t now n :
  node_ok zc t n -> n_blocked_until n <= now ->
  node_ok zc t (unban n) /\ n_blocked_until (unban n) = 0 /\
  nkey (unban n) = nkey n /\ n_last_seen (unban n) = n_last_seen n /\
  inside (now - z_interval zc) (window (unban n)) = (norm zc now (view n)).2.
Proof.
  intros Hn Hu. unfold unban, norm, view. simpl.
  destruct (Z.ltb_spec now (n_blocked_until n)); [lia|].
  destruct (Z.eqb_spec (n_blocked_until n) 0) as [E|E]; simpl; [done|].
  split; [|done]. destruct Hn as [?????].
  split; simpl; first [done|lia|by constructor].
Qed.

(** The part of [errrate_record] after the entry is found or created, for a
    node that is not blocked: the ring now holds the window and the new event. *)
Lemma append_event zc now n :
  zone_ok zc -> node_ok zc now n -> n_last_seen n = now ->
  exists n2, errrate_append zc n now = Some n2 /\
    window n2 = inside (now - z_interval zc) (window n) ++ [now] /\
    n_event_count n2 = Z.of_nat (length (window n2)) /\
    nkey n2 = nkey n /\ n_event_head n2 = 0 /\ n_last_seen n2 = now /\
    Z.of_nat (length (n_events n2)) = z_threshold zc /\
    Forall (fun t => t <= now) (window n2) /\
    n_blocked_until n2 = n_blocked_until n.
Proof.
  intros (Hi & Hb & Hth) Hn Hs.
  destruct (prune_spec zc n now now Hn) as (n1 & E & Ew & E1 & El & Hle).
  destruct Hn as [_ Hc He Hw _]. unfold errrate_append. rewrite E.
  set (w := inside (now - z_interval zc) (window n)) in *.
  assert (Z.of_nat (length w) < z_threshold zc) as Hlen.
  { rewrite <- Ew. unfold window in Hle at 2. rewrite length_take in Hle. lia. }
  assert (n_event_count n1 = Z.of_nat (length w) /\ n_event_head n1 = 0) as [Ec Eh].
  { rewrite E1. simpl. by rewrite Ew. }
  assert (Z.of_nat (length (n_events n1)) = z_threshold zc) as El1 by lia.
  rewrite Ec, Eh. unfold umod. destruct (Z.eqb_spec (z_threshold zc) 0); [lia|].
  rewrite Z.mod_small, ring_write_ok by lia.
  assert (window (set_window n1 0 (Z.of_nat (length w) + 1)
    (<[Z.to_nat (0 + Z.of_nat (length w)):=now]> (n_events n1))) = w ++ [now]) as Ew2.
  { unfold window in *. simpl. rewrite Ec in Ew.
    rewrite Nat2Z.id in Ew. replace (Z.to_nat (0 + Z.of_nat (length w))) with (length w) by lia.
    replace (Z.to_nat (Z.of_nat (length w) + 1)) with (S (length w)) by lia.
    rewrite (take_S_r _ _ now) by (rewrite list_lookup_insert_eq; [done|lia]).
    rewrite take_insert_ge by lia. by rewrite Ew. }
  eexists. split; [done|]. rewrite Ew2, length_app, length_cons. simpl.
  rewrite length_insert. split_and!; try done; try lia.
  - by rewrite E1.
  - by rewrite E1.
  - apply Forall_app. split; [|by apply Forall_singleton].
    unfold w. apply Forall_inside. eapply Forall_impl; [apply Hw|]. simpl. lia.
  - by rewrite E1.
Qed.

Lemma node_ok_seen zc now n : node_ok zc now n -> node_ok zc now (set_last_seen n now).
Proof.
  intros [?????]. split; simpl; auto; [|lia].
  eapply Forall_impl; [done|]. simpl. lia.
Qed.

(** Counting a banned node out and in again. *)
Lemma ban_ok zc now n until :
  zone_ok zc -> node_ok zc now n ->
  node_ok zc now (set_ban n until now).
Proof. intros (?&?&?) [?????]. split; simpl; first [done|lia|by constructor]. Qed.

Lemma record_locked_refines zc sh key t now :
  zone_ok zc -> ring_fits zc -> now + z_block zc < 2 ^ 63 ->
  wf (node_ok zc t) sh -> 0 <= now -> t <= now -> Z.of_nat (length key) < 65536 ->
  exists res sh', errrate_record_locked key now zc sh = Some (res, sh') /\
    wf (node_ok zc now) sh' /\
    ((res = (NGX_ERROR, 0, 0) /\ zone_full zc key now sh /\ live zc now sh key = (0, []) /\
      forall k, live zc now sh' k = live zc now sh k) \/
     (res = (record_spec zc now (live zc now sh key)).1 /\
      forall k, live zc now sh' k =
        if decide (k = key) then (record_spec zc now (live zc now sh key)).2
        else live zc now sh k)).
Proof.
  intros Hz Hfit Hmax Hwf Hnow Ht Hl. unfold errrate_record_locked.
  destruct (rate_prologue zc sh key t now Hz Hfit Hwf Hnow Ht Hl)
    as (sh1 & r & -> & -> & Hwf1 & Hlive & Hr).
  destruct r as [[[a ex] sh2]|]; [|destruct Hr; by do 2 eexists; eauto 8].
  destruct Hr as (Hwf2 & n & He & Hn & Ev & Hex).
  pose proof He as (-> & _).
  set (ns := if ex then set_last_seen n now else n).
  assert (node_ok zc now ns /\ nkey ns = nkey n /\ view ns = view n /\
          n_last_seen ns = now /\ n_blocked_until ns = n_blocked_until n)
    as (Hns & Eks & Evs & Els & Ebs).
  { subst ns. destruct ex; [by split; [apply node_ok_seen|]|]. by rewrite Hex in *. }
  rewrite <- Ev, <- Evs. unfold record_spec. fold (unban ns).
  clearbody ns. destruct (Z.ltb_spec now (n_blocked_until ns)) as [Hb|Hb].
  - destruct (rate_store zc sh sh1 sh2 key a n ns now) as [Hw Hs]; [done..|].
    do 2 eexists. split; [done|]. split; [done|]. right.
    assert (norm zc now (view ns) = (n_blocked_until ns, [])) as Eb.
    { unfold norm, view. simpl. by destruct (Z.ltb_spec now (n_blocked_until ns)); [|lia]. }
    rewrite Eb. simpl. destruct (Z.ltb_spec now (n_blocked_until ns)); [|lia]. simpl.
    split; [done|]. intros k. rewrite Hs. by rewrite Eb.
  - destruct (unban_spec zc now now ns Hns Hb) as (Hu & Eu & Eku & Elu & Ew).
    destruct (append_event zc now (unban ns)) as (n2 & -> & Ew2 & Ec2 & Ek2 & Eh2 & Es2 & El2 & Hf2 & Eu2);
      [done|done|congruence|].
    rewrite Ew in Ew2. assert (norm zc now (view ns) = (0, (norm zc now (view ns)).2)) as Env.
    { unfold norm, view. simpl. destruct (Z.ltb_spec now (n_blocked_until ns)); [lia|].
      by break_if. }
    set (w := (norm zc now (view ns)).2) in *. rewrite Env. simpl.
    destruct (Z.ltb_spec now 0); [lia|]. rewrite Ec2, Ew2.
    destruct (Z.leb_spec (z_threshold zc) (Z.of_nat (length (w ++ [now])))) as [Hth|Hth]; simpl.
    + destruct Hz as (Hi & Hbl & Hp). rewrite time_add_ok by lia.
      destruct (rate_store zc sh sh1 sh2 key a n (set_blocked_until n2 (now + z_block zc) 0 0) now)
        as [Hw Hs]; [done|done|unfold nkey in *; simpl; congruence| |done|].
      { split; simpl; first [done|lia|by constructor]. }
      do 2 eexists. split; [|split; [exact Hw|]].
      { simpl. by destruct (Z.ltb_spec now (now + z_block zc)); [|lia]. }
      right. split; [done|]. intros k. rewrite Hs. case_decide; [|done].
      unfold norm. simpl. by destruct (Z.ltb_spec now (now + z_block zc)); [|lia].
    + destruct Hz as (Hi & Hbl & Hp).
      destruct (rate_store zc sh sh1 sh2 key a n n2 now)
        as [Hw Hs]; [done|done|unfold nkey in *; simpl; congruence| |done|].
      { split; first [done|rewrite Ec2, Ew2; lia|lia|by rewrite Es2]. }
      do 2 eexists. split; [|split; [exact Hw|]].
      { rewrite Eu2, Eu, Ec2, Ew2. by destruct (Z.ltb_spec now 0); [lia|]. }
      right. split; [done|]. intros k. rewrite Hs. case_decide; [|done].
      unfold norm, view. simpl. rewrite Eu2, Eu, Ew2.
      destruct (Z.ltb_spec now 0); [lia|]. simpl. f_equal.
      rewrite filter_app, filter_cons_True, filter_nil by lia. f_equal.
      unfold w, norm, view. simpl. repeat break_bool; try done.
      simpl. rewrite list_filter_filter. apply list_filter_iff. tauto.
Qed.

(** ** Banning *)

Lemma softban_locked_refines zc sh key t now ttl :
  zone_ok zc -> ring_fits zc -> now + ttl < 2 ^ 63 ->
  wf (node_ok zc t) sh -> 0 <= now -> t <= now -> 0 < ttl ->
  Z.of_nat (length key) < 65536 ->
  exists rc sh', softban_set_locked key now ttl zc sh = Some (rc, sh') /\
    wf (node_ok zc now) sh' /\
    ((rc = NGX_ERROR /\ zone_full zc key now sh /\ live zc now sh key = (0, []) /\
      forall k, live zc now sh' k = live zc now sh k) \/
     (rc = NGX_OK /\
      forall k, live zc now sh' k =
        if decide (k = key) then (now + ttl, []) else live zc now sh k)).
Proof.
  intros Hz Hfit Hmax Hwf Hnow Ht Httl Hl. unfold softban_set_locked.
  destruct (rate_prologue zc sh key t now Hz Hfit Hwf Hnow Ht Hl)
    as (sh1 & r & -> & -> & Hwf1 & Hlive & Hr).
  destruct r as [[[a ex] sh2]|]; [|destruct Hr; by do 2 eexists; eauto 8].
  destruct Hr as (Hwf2 & n & He & Hn & _). pose proof He as (-> & _).
  rewrite time_add_ok by lia.
  destruct (rate_store zc sh sh1 sh2 key a n (set_ban n (now + ttl) now) now)
    as [Hw Hs]; [done..|by apply ban_ok|done|].
  do 2 eexists. split; [done|]. split; [done|]. right. split; [done|].
  intros k. rewrite Hs. case_decide; [|done].
  unfold norm. simpl. by destruct (Z.ltb_spec now (now + ttl)); [|lia].
Qed.

(** ** Looking up *)

Definition lookup_spec_rate (zc : zone_conf) (now : Z) (v : rate_view) : rate_result :=
  if now <? v.1 then (NGX_BUSY, z_threshold zc, v.1)
  else (NGX_OK, Z.of_nat (length v.2), 0).

(** The node a lookup leaves behind has the same view. *)
Lemma settle_spec zc now n :
  zone_ok zc -> 0 <= now -> node_ok zc now n -> n_last_seen n = now -> n_blocked_until n <= now ->
  exists n', (if negb (n_blocked_until n =? 0) then Some (set_blocked_until n 0 0 0)
              else sentinel_shm_prune zc n now) = Some n' /\
    node_ok zc now n' /\ nkey n' = nkey n /\
    norm zc now (view n') = norm zc now (view n) /\
    n_event_count n' = Z.of_nat (length (norm zc now (view n)).2).
Proof.
  intros Hz Hnow Hn Hs Hu. destruct (unban_spec zc now now n Hn Hu) as (Hu1 & E0 & Ek & El & Ew).
  unfold unban in *. unfold norm, view in *. simpl in *.
  destruct (Z.ltb_spec now (n_blocked_until n)); [lia|].
  destruct (Z.eqb_spec (n_blocked_until n) 0) as [E|E]; simpl in *.
  - destruct (prune_spec zc n now now Hn) as (n1 & -> & Ew1 & E1 & El1 & Hle).
    destruct Hn as [Hh Hc He Hw Hls].
    assert (length (window n) = Z.to_nat (n_event_count n)) as Elw.
    { unfold window. rewrite length_take. lia. }
    exists n1. assert (n_last_seen n1 = now /\ n_event_count n1 = Z.of_nat (length (window n1))
      /\ n_event_head n1 = 0 /\ nkey n1 = nkey n /\ n_blocked_until n1 = 0) as (Es&Ec&Eh&Ekk&Eb).
    { rewrite E1 at 1 2 4 5 6. simpl. by split_and!. }
    rewrite Eb, Ew1. split; [done|]. split_and!; [|done| |by rewrite Ec, Ew1].
    + split; [done|lia|lia| |lia]. rewrite Ew1, Es. apply Forall_inside.
      eapply Forall_impl; [apply Hw|]. simpl. lia.
    + destruct (Z.ltb_spec now 0); [lia|]. simpl. f_equal.
      rewrite list_filter_filter. apply list_filter_iff. tauto.
  - eexists. split; [done|]. split_and!; try done. simpl.
    by destruct (Z.ltb_spec now 0); [lia|].
Qed.

Lemma lookup_locked_refines zc sh key t now :
  zone_ok zc -> wf (node_ok zc t) sh -> 0 <= now -> t <= now ->
  exists sh', errrate_lookup_locked key now zc sh =
      Some (lookup_spec_rate zc now (live zc now sh key), sh') /\
    wf (node_ok zc now) sh' /\
    forall k, live zc now sh' k = live zc now sh k.
Proof.
  intros Hz Hwf Hnow Ht. unfold errrate_lookup_locked.
  destruct (expire_spec (node_ok zc t) zc sh now NGX_SENTINEL_EXPIRE_BATCH Hwf)
    as (sh1 & -> & Hwf1 & Hev & Hg1).
  assert (forall k, live zc now sh1 k = live zc now sh k) as Hlive
    by (intros; by eapply live_evicted).
  apply (wf_mono _ (node_ok zc now)) in Hwf1; [|intros; by eapply node_ok_mono].
  rewrite <- Hlive. destruct (wf_search _ sh1 key Hwf1) as (r & -> & Hr).
  destruct r as [a|].
  2: { exists sh1. unfold live at 1, lookup_spec_rate. rewrite Hr. simpl.
       destruct (Z.ltb_spec now 0); [lia|]. auto. }
  destruct Hr as (n & Hn & Hd & Hq & Hab). rewrite Hn.
  assert (live zc now sh1 key = norm zc now (view n)) as -> by (unfold live; by rewrite Hab).
  set (ns := set_last_seen n now). set (shs := store (sentinel_shm_touch sh1 a) a ns).
  assert (node_ok zc now ns) as Hns by (apply node_ok_seen, (wf_node _ _ Hwf1 a n Hn)).
  assert (view ns = view n) as <- by done.
  assert (entry_of sh1 (sentinel_shm_touch sh1 a) key a n) as He.
  { split_and!; try done. rewrite touch_abs. by rewrite insert_id. }
  pose proof (touch_wf _ sh1 a Hwf1 Hq) as Hwft.
  destruct (Z.ltb_spec now (n_blocked_until ns)) as [Hb|Hb].
  - assert (norm zc now (view ns) = (n_blocked_until ns, [])) as Eb.
    { unfold norm, view. simpl. by destruct (Z.ltb_spec now (n_blocked_until n)); [|simpl in *; lia]. }
    destruct (rate_store zc sh sh1 (sentinel_shm_touch sh1 a) key a n ns now)
      as [Hw Hs]; [done..|].
    exists shs. split; [|split; [done|]].
    + rewrite Eb. unfold lookup_spec_rate. simpl in *.
      by destruct (Z.ltb_spec now (n_blocked_until n)); [|lia].
    + intros k. subst shs. rewrite Hs. case_decide as E; [|done]. subst k.
      rewrite <- Hlive. unfold live. by rewrite Hab.
  - destruct (settle_spec zc now ns Hz Hnow Hns eq_refl Hb) as (n' & -> & Hn' & Ek & En & Ec).
    destruct (rate_store zc sh sh1 (sentinel_shm_touch sh1 a) key a n n' now)
      as [Hw Hs]; [done..|].
    eexists. split; [|split].
    + f_equal. rewrite Ec. unfold lookup_spec_rate, norm, view in *. simpl in *.
      destruct (Z.ltb_spec now (n_blocked_until n)); [lia|].
      destruct (Z.eqb_spec (n_blocked_until n) 0); simpl;
        by destruct (Z.ltb_spec now 0); [lia|].
    + unfold shs, store, with_heap in *. simpl in *. by rewrite insert_insert_eq.
    + intros k. specialize (Hs k). unfold shs, store, with_heap in *. simpl in *.
      rewrite insert_insert_eq, Hs. case_decide as E; [|done]. subst k.
      rewrite <- Hlive, En. unfold live. by rewrite Hab.
Qed.
(** ** A ring with fewer slots than the threshold *)

(** The node of an identity whose window holds [w], in a ring of [slots] slots. *)
Record short_node (zc : zone_conf) (slots now : Z) (w : list Z) (n : node) : Prop := {
  sn_head : n_event_head n = 0;
  sn_count : 0 <= n_event_count n <= slots;
  sn_events : Z.of_nat (length (n_events n)) = slots;
  sn_window : inside (now - z_interval zc) (window n) = w;
  sn_seen : Forall (fun t => t <= n_last_seen n) (window n);
  sn_now : n_last_seen n <= now;
  sn_free : n_blocked_until n = 0
}.

(** An append stays inside the ring exactly while a slot is left. *)
Lemma append_short zc slots now w n :
  0 < z_threshold zc -> slots < z_threshold zc -> short_node zc slots now w n ->
  (Z.of_nat (length w) <= slots) /\
  if Z.of_nat (length w) <? slots then
    exists ev, errrate_append zc n now = Some (set_window n 0 (Z.of_nat (length w) + 1) ev) /\
      length ev = length (n_events n) /\ take (S (length w)) ev = w ++ [now]
  else errrate_append zc n now = None.
Proof.
  intros Hth Hs [Hh Hc He Hw _ _ _].
  destruct (prune_ring zc n now) as (n1 & E & Ew & E1 & El & Hle); [done|lia..|].
  rewrite Hw in Ew. rewrite Ew in E1, Hle.
  assert (length w <= length (n_events n))%nat as Hlen.
  { unfold window in Hle. rewrite length_take in Hle. lia. }
  split; [lia|]. unfold errrate_append. rewrite E. unfold window in Ew. rewrite E1 in Ew |- *.
  cbn in Ew |- *. rewrite Nat2Z.id in Ew. unfold umod, ring_write.
  destruct (Z.eqb_spec (z_threshold zc) 0); [lia|]. rewrite Z.mod_small by lia.
  rewrite (proj2 (Z.leb_le _ _)), El, He, Z.add_0_l by lia. cbn [andb].
  destruct (Z.ltb_spec (Z.of_nat (length w)) slots); [|done].
  rewrite Nat2Z.id. eexists. split; [done|]. rewrite length_insert. split; [done|].
  rewrite (take_S_r _ _ now) by (apply list_lookup_insert_eq; lia).
  by rewrite take_insert_ge, Ew by lia.
Qed.

(** An identity that is found is moved to the head of the queue. *)
Lemma lookup_or_create_hit P sh key create n :
  wf P sh -> abs sh !! key = Some n ->
  exists a, lookup_or_create sh (ngx_crc32_short key) key create
      = Some (Some (a, true, sentinel_shm_touch sh a)) /\
    wf P (sentinel_shm_touch sh a) /\ entry_of sh (sentinel_shm_touch sh a) key a n.
Proof.
  intros Hwf Hab. unfold lookup_or_create.
  destruct (wf_search P sh key Hwf) as (r & -> & Hr). destruct r as [a|]; [|congruence].
  destruct Hr as (n' & Hn & Hd & Hq & Hab'). assert (n' = n) as -> by congruence.
  exists a. split; [done|]. split; [by apply touch_wf|].
  unfold entry_of. rewrite touch_abs. split_and!; try done. by rewrite insert_id.
Qed.

(** An identity with an event inside the interval survives the expiry. *)
Lemma short_survives zc slots now w n sh sh' key :
  short_node zc slots now w n -> w <> [] -> abs sh !! key = Some n ->
  evicted zc now sh sh' -> abs sh' !! key = Some n.
Proof.
  intros [_ _ _ Hw Hf _ _] Hne Hab Hev.
  destruct (Hev key) as [->|(_ & m & Hm & _ & Hs)]; [done|].
  assert (m = n) as -> by congruence. destruct w as [|x w]; [done|].
  assert (x ∈ inside (now - z_interval zc) (window n)) as [? Hx]%list_elem_of_filter
    by (rewrite Hw; by left).
  rewrite Forall_forall in Hf. apply Hf in Hx. lia.
Qed.

(** Recording an event of such an identity: it is counted while the ring has a
    slot left, and is written past the end of the ring after that. *)
Lemma record_short zc sh key slots w n now :
  zone_ok zc -> slots < z_threshold zc -> wf (fun _ => True) sh -> 0 <= now ->
  abs sh !! key = Some n -> short_node zc slots now w n -> w <> [] ->
  if Z.of_nat (length w) <? slots then
    exists sh' n',
      errrate_record_locked key now zc sh = Some ((NGX_OK, Z.of_nat (length w) + 1, 0), sh') /\
      wf (fun _ => True) sh' /\ abs sh' !! key = Some n' /\
      forall later, now <= later -> (forall x, x ∈ w ++ [now] -> later - z_interval zc < x) ->
        short_node zc slots later (w ++ [now]) n'
  else errrate_record_locked key now zc sh = None.
Proof.
  intros (Hi & _ & Hp) Hs Hwf Hnow Hab Hn Hne. unfold errrate_record_locked.
  destruct (expire_spec _ zc sh now NGX_SENTINEL_EXPIRE_BATCH Hwf)
    as (sh1 & -> & Hwf1 & Hev & _).
  pose proof (short_survives _ _ _ _ _ _ _ _ Hn Hne Hab Hev) as Hab1.
  destruct (lookup_or_create_hit _ sh1 key
    (fun sh => sentinel_shm_create_node zc sh (ngx_crc32_short key) key now) n Hwf1 Hab1)
    as (a & -> & Hwf2 & He).
  pose proof He as (-> & _). destruct Hn as [Hh Hc Hev' Hw Hf Hls Hu].
  assert (short_node zc slots now w (set_last_seen n now)) as Hn'.
  { split; cbn; try done. eapply Forall_impl; [exact Hf|]. cbn. lia. }
  cbn [n_blocked_until set_last_seen]. rewrite Hu. destruct (Z.ltb_spec now 0); [lia|].
  cbn [Z.eqb negb].
  destruct (append_short zc slots now w _ Hp Hs Hn') as [_ Happ].
  destruct (Z.ltb_spec (Z.of_nat (length w)) slots); [|by rewrite Happ].
  destruct Happ as (ev & -> & Elen & Ew). cbn in Elen.
  cbn [n_event_count set_window]. rewrite (proj2 (Z.leb_gt _ _)) by lia.
  cbn [n_blocked_until set_window set_last_seen]. rewrite Hu.
  destruct (Z.ltb_spec now 0); [lia|].
  set (n2 := set_window _ _ _ _).
  destruct (store_entry _ sh1 _ key a n n2 Hwf2 He) as [Hwf3 Hab3]; [done|done|].
  do 2 eexists. split; [reflexivity|]. split; [exact Hwf3|].
  rewrite Hab3, lookup_insert_eq. split; [done|]. intros later Hl Hin.
  assert (window n2 = w ++ [now]) as Ew2.
  { unfold window, n2. cbn. replace (Z.to_nat _) with (S (length w)) by lia. done. }
  split; cbn; try done; try lia; rewrite ?Ew2.
  - by apply filter_all, Forall_forall.
  - apply Forall_app. split; [|by apply Forall_singleton]. rewrite <- Hw. apply Forall_inside.
    eapply Forall_impl; [exact Hf|]. cbn. lia.
Qed.
End Rate.
