(* ===== verification/ShmProps.v ===== *)
(** * ShmProps.v: the properties of the identity store

    The theorems about the public operations of [sentinel_shm.c] on a zone, with
    the witnesses that evaluate them on the concrete interfaces. *)
From stdpp Require Import sorting.
From S2P Require Import Prelude Types Ngx NgxModel Shm ShmTree ShmSpec ShmOps ShmRate.

Section Props.
Context `{NgxHash} `{NgxCompare} `{NgxSlab} `{NgxRbtree}.
Context {CmpLaws : NgxCompareLaws} {SlabLaws : NgxSlabLaws}
        {RbLaws : NgxRbtreeLaws}.

Definition attached (zc : zone_conf) (sh : shctx) : option zone :=
  Some (Zone zc (Some sh)).

(** ** Error-rate and velocity zones *)

(** C5. Recording an event refines the abstract sliding window: for every
    well-formed zone and every time not before its last operation, the call
    never accesses memory out of bounds, keeps the zone well formed, leaves
    every other identity as it was, and for its own identity either appends the
    event to the window (reporting its size, or a ban when the threshold is
    reached, or the ban in force), or, exactly when the allocation of its node
    fails because the zone is full, reports an error and changes nothing.  The
    threshold is below [2^60], so that the size of a node does not wrap around,
    and the end of a ban is a [time_t]. *)
Theorem rate_record_refines zc sh key t now :
  zone_ok zc -> ring_fits zc -> now + z_block zc < 2 ^ 63 ->
  wf (node_ok zc t) sh -> 0 <= now -> t <= now -> Z.of_nat (length key) < 65536 ->
  exists res sh',
    sentinel_shm_errrate_record (attached zc sh) key now = Some (res, attached zc sh') /\
    wf (node_ok zc now) sh' /\
    ((res = (NGX_ERROR, 0, 0) /\ zone_full zc key now sh /\ live zc now sh key = (0, []) /\
      forall k, live zc now sh' k = live zc now sh k) \/
     (res = (record_spec zc now (live zc now sh key)).1 /\
      forall k, live zc now sh' k =
        if decide (k = key) then (record_spec zc now (live zc now sh key)).2
        else live zc now sh k)).
Proof.
  intros Hz Hfit Hmax Hwf Hnow Ht Hl.
  destruct (record_locked_refines zc sh key t now) as (res & sh' & E & Hr); [done..|].
  exists res, sh'. by simpl; rewrite E.
Qed.

(** Looking an identity up returns exactly what its sliding window implies
    (the ban in force, or the number of events inside the window) and is
    observably read-only: no identity changes, although the call expires LRU
    entries, compacts the window and clears an elapsed ban. *)
Theorem rate_lookup_read_only zc sh key t now :
  zone_ok zc -> wf (node_ok zc t) sh -> 0 <= now -> t <= now ->
  exists sh',
    sentinel_shm_errrate_lookup (attached zc sh) key now
      = Some (lookup_spec_rate zc now (live zc now sh key), attached zc sh') /\
    wf (node_ok zc now) sh' /\ forall k, live zc now sh' k = live zc now sh k.
Proof.
  intros Hz Hwf Hnow Ht.
  destruct (lookup_locked_refines zc sh key t now) as (sh' & E & Hr); [done..|].
  exists sh'. by simpl; rewrite E.
Qed.

(** A ban that was set ends at a [time_t]. *)
Lemma softban_set_bound z key now ttl z' :
  sentinel_shm_softban_set z key now ttl = Some (NGX_OK, z') -> now + ttl < 2 ^ 63.
Proof.
  unfold sentinel_shm_softban_set. destruct (ttl <=? 0); [done|].
  destruct z as [[zc [sh|]]|]; [|done..]. cbn [with_zone].
  destruct (softban_set_locked key now ttl zc sh) as [[rc sh']|] eqn:E; [|done].
  intros [= -> _]. revert E. unfold softban_set_locked.
  destruct (sentinel_shm_expire _ _ _ _); [|done].
  destruct (lookup_or_create _ _ _ _) as [[[[a ex] sh2]|]|]; [|by intros [=]|done].
  destruct (sh_heap sh2 !! a); [|done].
  destruct (time_add now ttl) eqn:Et; [|done]. by apply time_add_inv in Et as [_ ?].
Qed.

(** C12. A soft ban holds for its whole duration and no longer: when setting it
    succeeds at [now], [now + ttl] is a [time_t] and a lookup at any later time
    answers [NGX_BUSY] with the end of the ban strictly before [now + ttl], and
    from [now + ttl] on answers [NGX_OK] with an empty window.  The threshold of
    the zone is below [2^60]. *)
Theorem softban_lasts_exactly_ttl zc sh key t now ttl sh1 later :
  zone_ok zc -> ring_fits zc -> wf (node_ok zc t) sh -> 0 <= now -> t <= now -> now <= later ->
  0 < ttl -> Z.of_nat (length key) < 65536 ->
  sentinel_shm_softban_set (attached zc sh) key now ttl = Some (NGX_OK, attached zc sh1) ->
  now + ttl < 2 ^ 63 /\
  exists sh2,
    sentinel_shm_errrate_lookup (attached zc sh1) key later
      = Some (if later <? now + ttl then (NGX_BUSY, z_threshold zc, now + ttl)
              else (NGX_OK, 0, 0), attached zc sh2).
Proof.
  intros Hz Hfit Hwf Hnow Ht Hlater Httl Hl Hset.
  assert (now + ttl < 2 ^ 63) as Hmax by by eapply softban_set_bound.
  split; [done|]. revert Hset. unfold sentinel_shm_softban_set.
  destruct (Z.leb_spec ttl 0); [lia|]. simpl.
  destruct (softban_locked_refines zc sh key t now ttl) as (rc & sh' & -> & Hwf' & Hr);
    [done..|]. intros [= -> <-]. destruct Hr as [[? _]|[_ Hr]]; [done|].
  destruct (lookup_locked_refines zc sh' key now later) as (sh2 & E & _); [done..|lia|done|].
  exists sh2. simpl. rewrite E, (live_later zc now later) by lia.
  rewrite Hr, decide_True by done. unfold norm. simpl.
  unfold lookup_spec_rate.
  destruct (Z.ltb_spec later (now + ttl)); simpl.
  - by destruct (Z.ltb_spec later (now + ttl)); [|lia].
  - destruct (Z.eqb_spec (now + ttl) 0); simpl; by destruct (Z.ltb_spec later 0); [lia|].
Qed.

(** The results of recording an event of [key] at each of [ts]. *)
Fixpoint record_all (z : option zone) (key : bytes) (ts : list Z)
    : option (list rate_result * option zone) :=
  match ts with
  | [] => Some ([], z)
  | t :: ts' =>
      let! (r, z1) := sentinel_shm_errrate_record z key t in
      let! (rs, z2) := record_all z1 key ts' in
      Some (r :: rs, z2)
  end.

(** Counting up from [c] events, and a ban on the last one. *)
Fixpoint counting (zc : zone_conf) (c : Z) (ts : list Z) : list rate_result :=
  match ts with
  | [] => []
  | [t] => [(NGX_BUSY, z_threshold zc, t + z_block zc)]
  | _ :: ts' => (NGX_OK, c + 1, 0) :: counting zc (c + 1) ts'
  end.

Lemma counting_from zc key ts : forall sh t0 w,
  zone_ok zc -> ring_fits zc -> Forall (fun t => t + z_block zc < 2 ^ 63) ts -> wf (node_ok zc t0) sh -> 0 <= t0 -> Z.of_nat (length key) < 65536 ->
  live zc t0 sh key = (0, w) -> w <> [] -> ts <> [] ->
  Z.of_nat (length w) + Z.of_nat (length ts) = z_threshold zc ->
  StronglySorted Z.le (t0 :: ts) ->
  (forall x t, x ∈ w ++ ts -> t ∈ ts -> t - z_interval zc < x) ->
  exists z', record_all (attached zc sh) key ts
             = Some (counting zc (Z.of_nat (length w)) ts, z').
Proof.
  induction ts as [|t ts IH]; intros sh t0 w Hz Hfit Hmax Hwf Ht0 Hl Hw Hne Hts Hlen Hs Hin; [done|].
  apply StronglySorted_cons in Hs as [Hs0 Hs]. apply Forall_cons in Hs0 as [Htt Hs0].
  apply Forall_cons in Hmax as [Hmt Hmax].
  destruct (record_locked_refines zc sh key t0 t) as (res & sh' & E & Hwf' & Hr);
    [done..|lia|done|done|].
  assert (live zc t sh key = (0, w)) as Hlt.
  { rewrite (live_later zc t0 t), Hw by lia. unfold norm. simpl.
    destruct (Z.ltb_spec t 0); [lia|]. f_equal.
    apply filter_all, Forall_forall. intros x Hx. apply Hin; set_solver. }
  rewrite Hlt in Hr. destruct Hr as [(_ & _ & [= ->] & _)|[-> Hr]]; [done|].
  cbn [record_all]. simpl. rewrite E.
  unfold record_spec in *. simpl in *. destruct (Z.ltb_spec t 0); [lia|].
  rewrite length_app in *. simpl in *.
  destruct ts as [|t2 ts].
  - simpl in *. destruct (Z.leb_spec (z_threshold zc) (Z.of_nat (length w + 1))); [|lia].
    by eexists.
  - destruct (Z.leb_spec (z_threshold zc) (Z.of_nat (length w + 1))); [simpl in *; lia|].
    destruct (IH sh' t (w ++ [t])) as [z' Ez]; try done; try lia.
    + specialize (Hr key). by rewrite decide_True in Hr.
    + by destruct w.
    + rewrite length_app. simpl in *. lia.
    + intros x u Hx Hu. apply Hin; set_solver.
    + unfold attached in Ez. rewrite Ez. exists z'. cbn [counting].
      rewrite length_app. simpl length. by rewrite Nat2Z.inj_add.
Qed.

Lemma record_total zc key ts : forall sh t0,
  zone_ok zc -> ring_fits zc -> Forall (fun t => t + z_block zc < 2 ^ 63) ts -> wf (node_ok zc t0) sh -> 0 <= t0 -> Z.of_nat (length key) < 65536 ->
  StronglySorted Z.le ts -> Forall (Z.le t0) ts ->
  exists rs z', record_all (attached zc sh) key ts = Some (rs, z').
Proof.
  induction ts as [|t ts IH]; intros sh t0 Hz Hfit Hmax Hwf Ht0 Hl Hs Hf; [by do 2 eexists|].
  apply StronglySorted_cons in Hs as [Hs0 Hs]. apply Forall_cons in Hf as [Htt _].
  apply Forall_cons in Hmax as [Hmt Hmax].
  destruct (record_locked_refines zc sh key t0 t) as (res & sh' & E & Hwf' & _);
    [done..|lia|done|done|].
  destruct (IH sh' t) as (rs & z' & Er); [done..|lia|done|done|done|].
  simpl. rewrite E. unfold attached in Er. rewrite Er. by do 2 eexists.
Qed.

(** C11. A burst is banned exactly at the threshold: an identity with no event in
    its window that produces [threshold] events inside one interval is counted
    1, 2, ... and banned for the block time by the last of them, unless the
    first one already finds the zone full.  The threshold is below [2^60] and
    the end of a ban is a [time_t]. *)
Theorem burst_is_banned_at_threshold zc sh key t0 t ts :
  zone_ok zc -> ring_fits zc -> Forall (fun x => x + z_block zc < 2 ^ 63) (t :: ts) ->
  wf (node_ok zc t0) sh -> 0 <= t -> t0 <= t ->
  Z.of_nat (length key) < 65536 ->
  live zc t sh key = (0, []) ->
  Z.of_nat (length (t :: ts)) = z_threshold zc ->
  StronglySorted Z.le (t :: ts) ->
  (forall x, x ∈ ts -> x - z_interval zc < t) ->
  exists rs z', record_all (attached zc sh) key (t :: ts) = Some (rs, z') /\
    ((head rs = Some (NGX_ERROR, 0, 0) /\ zone_full zc key t sh) \/
     rs = counting zc 0 (t :: ts)).
Proof.
  intros Hz Hfit Hmax Hwf Ht Ht0 Hl Hlive Hlen Hs Hin. pose proof Hmax as [Hmt Hmax']%Forall_cons.
  destruct (record_locked_refines zc sh key t0 t) as (res & sh' & E & Hwf' & Hr); [done..|].
  apply StronglySorted_cons in Hs as [Hs0 Hs]. rewrite Hlive in Hr.
  unfold record_spec in Hr. simpl in Hr. destruct (Z.ltb_spec t 0); [lia|].
  destruct (Z.leb_spec (z_threshold zc) (Z.of_nat 1)) as [Hone|Hone]; simpl in Hr.
  - destruct ts; [|simpl in Hlen; lia]. simpl. rewrite E. do 2 eexists. split; [done|].
    destruct Hr as [(-> & Hfull & _)|[-> _]]; [by left|by right].
  - destruct Hr as [(-> & Hfull & _ & Hr)|[-> Hr]].
    + cbn [record_all]. simpl. rewrite E.
      destruct (record_total zc key ts sh' t) as (rs & z' & Er); [done..|].
      unfold attached in Er. rewrite Er. do 2 eexists. split; [done|]. by left.
    + assert (ts <> []) as Hts by (intros ->; simpl in Hlen; lia).
      destruct (counting_from zc key ts sh' t [t]) as [z' Ez]; try done.
      * specialize (Hr key). by rewrite decide_True in Hr.
      * simpl in *. lia.
      * by apply StronglySorted_cons.
      * destruct Hz. intros x u [->%list_elem_of_singleton|Hx]%elem_of_app Hu; [auto|].
        apply Forall_forall with (x := x) in Hs0; [|done]. specialize (Hin u Hu). lia.
      * cbn [record_all]. simpl. rewrite E. unfold attached in Ez. rewrite Ez.
        do 2 eexists. split; [done|]. right. destruct ts; [done|]. simpl. by rewrite Ez || done.
Qed.

(** ** CrowdSec table *)

(** A CrowdSec decision is readable until it expires: an upsert on a
    well-formed table either makes the decision the one a lookup of that key
    returns while [now < expiry] and changes no other active decision, or finds
    the zone full and changes nothing. *)
Theorem crowdsec_upsert_then_lookup zc sh key expiry action generation now pulled later :
  wf (fun _ => True) sh -> Z.of_nat (length key) < 65536 ->
  exists rc sh1,
    sentinel_shm_crowdsec_upsert (attached zc sh) key expiry action generation now pulled
      = Some (rc, attached zc sh1) /\ wf (fun _ => True) sh1 /\
    match rc with
    | NGX_OK =>
        (exists sh2, sentinel_shm_crowdsec_lookup (attached zc sh1) key later
           = Some (if later <? expiry then (NGX_BUSY, action)
                   else (NGX_OK, NGX_SENTINEL_CS_NONE), attached zc sh2)) /\
        forall k, k <> key -> active later sh1 k = active later sh k
    | _ => rc = NGX_ERROR /\ sh1 = sh
    end.
Proof.
  intros Hwf Hl.
  destruct (crowdsec_upsert_abs sh key expiry action generation now pulled Hwf Hl)
    as (rc & sh1 & E & Hwf1 & _ & Hr).
  exists rc, sh1. simpl. rewrite E. split_and!; [done..|].
  destruct Hr as [[-> Hab]|(-> & -> & _)]; [|done]. split.
  - destruct (crowdsec_lookup_active zc sh1 key later Hwf1) as (sh2 & E2 & _).
    exists sh2. rewrite E2. unfold active. rewrite Hab, lookup_insert_eq.
    simpl. by destruct (later <? expiry).
  - intros k Hk. unfold active. by rewrite Hab, lookup_insert_ne.
Qed.
(** ** Reloads and extreme parameters *)

(** Counting up from [c] events. *)
Fixpoint counted (c : Z) (ts : list Z) : list rate_result :=
  match ts with
  | [] => []
  | _ :: ts' => (NGX_OK, c + 1, 0) :: counted (c + 1) ts'
  end.

(** The events of an identity whose ring is smaller than the threshold are counted
    until the ring is full, and the next one is written past its end. *)
Lemma short_ring_overflows zc key slots u ts : forall sh t w n,
  zone_ok zc -> slots < z_threshold zc -> wf (fun _ => True) sh -> 0 <= t ->
  abs sh !! key = Some n ->
  (forall later, t <= later -> (forall x, x ∈ w -> later - z_interval zc < x) ->
     short_node zc slots later w n) ->
  w <> [] -> Z.of_nat (length w + length ts) = slots ->
  StronglySorted Z.le (t :: ts ++ [u]) ->
  (forall x, x ∈ w ++ ts -> u - z_interval zc < x) ->
  exists z', record_all (attached zc sh) key ts
      = Some (counted (Z.of_nat (length w)) ts, z') /\
    sentinel_shm_errrate_record z' key u = None.
Proof.
  induction ts as [|t1 ts IH]; intros sh t w n Hz Hs Hwf Ht Hab Hn Hne Hlen Hso Hin.
  - apply StronglySorted_cons in Hso as [Htu _]. apply Forall_cons in Htu as [Htu _].
    exists (attached zc sh). split; [done|].
    pose proof (record_short zc sh key slots w n u Hz Hs Hwf ltac:(lia) Hab) as Hr.
    rewrite (proj2 (Z.ltb_ge _ _)) in Hr by (simpl in Hlen; lia).
    cbn [attached sentinel_shm_errrate_record with_zone]. rewrite Hr; [done| |done].
    apply Hn; [done|]. intros x Hx. apply Hin. by rewrite app_nil_r.
  - rewrite <- app_comm_cons in Hso. apply StronglySorted_cons in Hso as [Htt Hso].
    apply Forall_cons in Htt as [Htt _].
    assert (t1 <= u) as Htu.
    { apply StronglySorted_cons in Hso as [Hall _]. rewrite Forall_forall in Hall.
      apply Hall. set_solver. }
    pose proof (record_short zc sh key slots w n t1 Hz Hs Hwf ltac:(lia) Hab) as Hr.
    rewrite (proj2 (Z.ltb_lt _ _)) in Hr by (simpl in Hlen; lia).
    destruct Hr as (sh1 & n1 & E & Hwf1 & Hab1 & Hn1); [|done|].
    { apply Hn; [done|]. intros x Hx. specialize (Hin x ltac:(set_solver)). lia. }
    destruct (IH sh1 t1 (w ++ [t1]) n1) as (z' & Ez & Eu); try done; try lia.
    + by destruct w.
    + rewrite length_app. simpl in *. lia.
    + intros x Hx. apply Hin. set_solver.
    + exists z'. split; [|done]. cbn [record_all attached sentinel_shm_errrate_record with_zone].
      rewrite E. unfold attached in Ez. rewrite Ez. cbn [counted].
      rewrite length_app. simpl length. by rewrite Nat2Z.inj_add.
Qed.

(** C34. Reusing a zone across a reload is unsafe when its threshold grows: the
    nodes of the previous configuration keep their event ring, which has as many
    slots as the old threshold.  Whatever the two configurations and the contents
    of the zone: an identity that has an event inside its window at the reload
    and reaches the old threshold inside one interval after it is counted like
    any other, and its next event is written past the end of its ring. *)
Theorem reload_growth_overflows_ring zo zn sh key t w ts u pool ctx_ok log_ok :
  let z := sentinel_shm_init_zone (Zone zn None) (Some (Zone zo (Some sh))) None pool
             ctx_ok log_ok in
  zone_ok zo -> zone_ok zn -> z_threshold zo < z_threshold zn ->
  wf (node_ok zo t) sh -> 0 <= t ->
  live zn t sh key = (0, w) -> w <> [] ->
  Z.of_nat (length w + length ts) = z_threshold zo ->
  StronglySorted Z.le (t :: ts ++ [u]) ->
  (forall x, x ∈ w ++ ts -> u - z_interval zn < x) ->
  z.1 = NGX_OK /\
  exists z', record_all (Some z.2) key ts = Some (counted (Z.of_nat (length w)) ts, z') /\
    sentinel_shm_errrate_record z' key u = None.
Proof.
  intros z Hzo Hzn Hlt Hwf Ht Hlive Hne Hlen Hso Hin. split; [done|].
  unfold live in Hlive. destruct (abs sh !! key) as [n|] eqn:Hab; [|by injection Hlive as <-].
  pose proof (proj1 (abs_lookup _ _ _ _ Hwf) Hab) as (a & Ha & _).
  apply (wf_node _ _ Hwf) in Ha as [Hh Hc He Hw Hs].
  revert Hlive. unfold norm, view. cbn [fst snd]. destruct (Z.ltb_spec t (n_blocked_until n)).
  { by intros [= _ <-]. }
  destruct (Z.eqb_spec (n_blocked_until n) 0) as [Eb|]; intros [= Ew]; [|by subst].
  apply (short_ring_overflows zn key (z_threshold zo) u ts sh t w n); try done.
  { by eapply wf_mono. }
  intros later Hl Hx. split; try done; try lia.
  rewrite <- Ew. rewrite <- Ew in Hx.
  transitivity (filter (fun x => later - z_interval zn < x)
                  (filter (fun x => t - z_interval zn < x) (window n))).
  - rewrite list_filter_filter. apply list_filter_iff. intros x. lia.
  - apply filter_all, Forall_forall, Hx.
Qed.

(** A threshold above [2^60] makes the size of a node wrap around: with a multiple
    of [2^61], which the configuration accepts, the ring of a new identity has
    no slot at all, and its first event is written past the end of the node. *)
Theorem huge_threshold_overflows_node zc sh key now :
  0 < z_interval zc -> 0 < z_threshold zc -> z_threshold zc mod 2 ^ 61 = 0 ->
  wf (fun _ => True) sh -> abs sh !! key = None -> 0 <= now -> Z.of_nat (length key) < 65536 ->
  (forall sh1, sentinel_shm_expire zc sh now NGX_SENTINEL_EXPIRE_BATCH = Some sh1 ->
     is_Some (ngx_slab_calloc_locked (sh_slab sh1)
                (sentinel_events_offset node_data_offset (Z.of_nat (length key))))) ->
  sentinel_shm_errrate_record (attached zc sh) key now = None.
Proof.
  intros Hi Hp Hmod Hwf Hab Hnow Hl Hroom.
  cbn [attached sentinel_shm_errrate_record with_zone]. unfold errrate_record_locked.
  destruct (expire_spec _ zc sh now NGX_SENTINEL_EXPIRE_BATCH Hwf)
    as (sh1 & E1 & Hwf1 & Hev & _). rewrite E1. apply Hroom in E1 as [? Hcalloc].
  assert (abs sh1 !! key = None) as Hab1.
  { by destruct (Hev key) as [->|[-> _]]. }
  edestruct (lookup_or_create_spec (fun _ => True) sh1 key
    (fun sh => sentinel_shm_create_node zc sh (ngx_crc32_short key) key now)
    (node_with 0 key now)) as (r & -> & Hr); [done..| |].
  { eexists. rewrite create_node_slots by lia. by rewrite Hmod. }
  destruct r as [[[a ex] sh2]|].
  - destruct Hr as (_ & n & (-> & _) & Hn). destruct ex; [congruence|].
    destruct Hn as [_ ->]. cbn [n_blocked_until node_with].
    rewrite (proj2 (Z.ltb_ge _ _)) by lia. cbn [Z.eqb negb].
    unfold errrate_append, sentinel_shm_prune. cbn. unfold umod.
    by rewrite (proj2 (Z.eqb_neq _ _)) by lia.
  - destruct Hr as [_ Hr]. rewrite create_node_slots, Hmod, Z.add_0_r in Hr by lia.
    apply link_node_full in Hr. congruence.
Qed.

(** A block time near the end of [time_t] overflows: the event that reaches the
    threshold computes the end of a ban that no [time_t] holds. *)
Theorem huge_block_overflows zc sh key t0 now w :
  zone_ok zc -> ring_fits zc -> wf (node_ok zc t0) sh -> 0 <= now -> t0 <= now ->
  Z.of_nat (length key) < 65536 -> 2 ^ 63 <= now + z_block zc ->
  live zc now sh key = (0, w) -> w <> [] -> Z.of_nat (length w) + 1 = z_threshold zc ->
  sentinel_shm_errrate_record (attached zc sh) key now = None.
Proof.
  intros Hz Hfit Hwf Hnow Ht Hl Hmax Hlive Hne Hlen.
  cbn [attached sentinel_shm_errrate_record with_zone]. unfold errrate_record_locked.
  destruct (rate_prologue zc sh key t0 now Hz Hfit Hwf Hnow Ht Hl)
    as (sh1 & r & -> & -> & Hwf1 & _ & Hr).
  destruct r as [[[a ex] sh2]|]; [|destruct Hr as [E _]; congruence].
  destruct Hr as (_ & n & (-> & _) & Hn & Ev & Hex).
  rewrite Hlive in Ev. revert Ev. unfold norm, view. cbn [fst snd].
  destruct (Z.ltb_spec now (n_blocked_until n)); [by intros [= _ <-]|].
  destruct (Z.eqb_spec (n_blocked_until n) 0) as [Eb|]; intros [= Ew]; [|by subst].
  destruct ex.
  2: { rewrite Hex in Ew by done. by destruct w. }
  pose proof (node_ok_seen zc now n Hn) as Hns.
  cbn [n_blocked_until set_last_seen]. rewrite Eb, (proj2 (Z.ltb_ge _ _)) by lia.
  cbn [Z.eqb negb].
  destruct (append_event zc now (set_last_seen n now) Hz Hns eq_refl)
    as (n2 & -> & Ew2 & Ec & _).
  rewrite Ec, Ew2, length_app.
  assert (filter (fun t : Z => now - z_interval zc < t) (window (set_last_seen n now)) = w)
    as -> by done.
  rewrite (proj2 (Z.leb_le _ _)) by (simpl; lia).
  by rewrite time_add_overflow.
Qed.
End Props.

(** ** Concrete runs *)
Import Concrete.

Definition demo_conf : zone_conf := ZoneConf 60 300 3.
Definition demo_key : bytes := lit "192.0.2.7".
Definition demo_empty : shctx := empty_shctx (fresh_pool 8).

(** The demonstration zone after one error at time 1000. *)
Definition demo_one : shctx :=
  match errrate_record_locked demo_key 1000 demo_conf demo_empty with
  | Some (_, sh) => sh
  | None => demo_empty
  end.

Lemma demo_conf_ok : zone_ok demo_conf.
Proof. by vm_compute. Qed.

Lemma demo_one_wf : wf (node_ok demo_conf 1000) demo_one.
Proof.
  destruct (record_locked_refines demo_conf demo_empty demo_key 0 1000)
    as (res & sh' & E & Hwf & _);
    [apply demo_conf_ok|done|done|apply wf_empty|lia|lia|by vm_compute|].
  unfold demo_one. by rewrite E.
Qed.

Lemma rate_record_refines_witness :
  (live demo_conf 1030 demo_one demo_key = (0, [1000])) /\
  exists res sh',
    sentinel_shm_errrate_record (attached demo_conf demo_one) demo_key 1030
      = Some (res, attached demo_conf sh') /\ res = (NGX_OK, 2, 0).
Proof.
  split; [by vm_compute|].
  destruct (rate_record_refines demo_conf demo_one demo_key 1000 1030)
    as (res & sh' & E & _);
    [apply demo_conf_ok|done|done|apply demo_one_wf|lia|lia|by vm_compute|].
  exists res, sh'. split; [exact E|].
  first_of E.
Defined.

Lemma rate_lookup_read_only_witness :
  exists sh', sentinel_shm_errrate_lookup (attached demo_conf demo_one) demo_key 1059
    = Some ((NGX_OK, 1, 0), attached demo_conf sh').
Proof.
  destruct (rate_lookup_read_only demo_conf demo_one demo_key 1000 1059)
    as (sh' & E & _); [apply demo_conf_ok|apply demo_one_wf|lia|lia|].
  exists sh'. exact E.
Defined.

Lemma softban_lasts_exactly_ttl_witness :
  exists sh1 sh2,
    sentinel_shm_softban_set (attached demo_conf demo_one) demo_key 1010 600
      = Some (NGX_OK, attached demo_conf sh1) /\
    sentinel_shm_errrate_lookup (attached demo_conf sh1) demo_key 1609
      = Some ((NGX_BUSY, 3, 1610), attached demo_conf sh2).
Proof.
  eexists. edestruct (softban_lasts_exactly_ttl demo_conf demo_one demo_key 1000 1010 600)
    with (later := 1609) as [_ [sh2 E2]];
    [apply demo_conf_ok|done|apply demo_one_wf|lia|lia|lia|lia|by vm_compute|vm_compute; reflexivity|].
  exists sh2. split; [vm_compute; reflexivity|]. exact E2.
Defined.

Lemma burst_is_banned_at_threshold_witness :
  exists rs z', record_all (attached demo_conf demo_empty) demo_key [1000; 1010; 1059]
    = Some (rs, z') /\
  rs = [(NGX_OK, 1, 0); (NGX_OK, 2, 0); (NGX_BUSY, 3, 1359)].
Proof.
  destruct (burst_is_banned_at_threshold demo_conf demo_empty demo_key 0 1000 [1010; 1059])
    as (rs & z' & E & Hr);
    [apply demo_conf_ok|done|repeat constructor|apply wf_empty|lia|lia|by vm_compute|reflexivity
    |reflexivity|repeat constructor; lia| |].
  { intros x [->|[->|?%not_elem_of_nil]%elem_of_cons]%elem_of_cons; simpl; try lia. }
  exists rs, z'. split; [exact E|]. clear Hr. first_of E.
Defined.

Lemma crowdsec_upsert_then_lookup_witness :
  exists rc sh1, sentinel_shm_crowdsec_upsert (attached (ZoneConf 60 0 0) demo_empty)
    demo_key 2000 NGX_SENTINEL_CS_BAN 1 1000 false
    = Some (rc, attached (ZoneConf 60 0 0) sh1) /\ rc = NGX_OK.
Proof.
  destruct (crowdsec_upsert_then_lookup (ZoneConf 60 0 0) demo_empty demo_key 2000
    NGX_SENTINEL_CS_BAN 1 1000 false 1999) as (rc & sh1 & E & _);
    [apply wf_empty|by vm_compute|].
  exists rc, sh1. split; [exact E|]. first_of E.
Defined.

(** A reload that raises the threshold from 2 to 4, the identity having had one
    error before it: the third one overflows the ring. *)
Definition demo_old_conf : zone_conf := ZoneConf 60 300 2.

Definition demo_old : shctx :=
  match errrate_record_locked demo_key 1000 demo_old_conf demo_empty with
  | Some (_, sh) => sh
  | None => demo_empty
  end.

Lemma demo_old_wf : wf (node_ok demo_old_conf 1000) demo_old.
Proof.
  destruct (record_locked_refines demo_old_conf demo_empty demo_key 0 1000)
    as (res & sh' & E & Hwf & _);
    [by vm_compute|done|done|apply wf_empty|lia|lia|by vm_compute|].
  unfold demo_old. by rewrite E.
Qed.

Lemma reload_growth_overflows_ring_witness :
  live (ZoneConf 60 300 4) 1000 demo_old demo_key = (0, [1000]) /\
  exists z', record_all (attached (ZoneConf 60 300 4) demo_old) demo_key [1001]
      = Some ([(NGX_OK, 2, 0)], z') /\
    sentinel_shm_errrate_record z' demo_key 1002 = None.
Proof.
  split; [by vm_compute|].
  destruct (reload_growth_overflows_ring demo_old_conf (ZoneConf 60 300 4) demo_old demo_key
    1000 [1000] [1001] 1002 (fresh_pool 8) true true) as (_ & z' & E & Eu).
  - by vm_compute.
  - by vm_compute.
  - done.
  - apply demo_old_wf.
  - done.
  - by vm_compute.
  - done.
  - done.
  - repeat constructor; lia.
  - intros x [->|[->|[]%not_elem_of_nil]%elem_of_cons]%elem_of_cons; simpl; lia.
  - exists z'. split; [exact E|exact Eu].
Defined.

Example huge_threshold_run :
  sentinel_shm_errrate_record (attached (ZoneConf 60 300 (2 ^ 61)) demo_empty) demo_key 1000 = None.
Proof.
  apply huge_threshold_overflows_node; try done; [apply wf_empty|].
  intros sh1 [= <-]. vm_compute. by eexists.
Qed.

Example huge_block_run :
  sentinel_shm_errrate_record (attached (ZoneConf 60 (2 ^ 63 - 1) 2)
    demo_old) demo_key 1001 = None.
Proof. by vm_compute. Qed.
