(* ===== verification/Signals.v ===== *)
(** * Signals.v: the detection signals

    One section per signal source file: botua, header, honeypot, coherence,
    allowlist, asn, c2ip, the three fingerprint deny lists, the scanner-path
    prefixes and the two signals that read a rate zone.  A signal function
    returns the fields of [inputs] the code writes; a NULL request or
    configuration is [None]. *)
From S2P Require Import Prelude Types Ngx Http Shm.

(** ** sentinel_botua.c *)

Definition good_ua_substrings : list bytes :=
  [ lit "Googlebot"; lit "Googlebot-Image"; lit "Googlebot-News";
    lit "Googlebot-Video"; lit "Bingbot"; lit "Slurp"; lit "DuckDuckBot";
    lit "Baiduspider"; lit "YandexBot"; lit "facebot"; lit "ia_archiver";
    lit "UptimeRobot"; lit "Pingdom" ].

Definition bad_ua_substrings : list bytes :=
  [ lit "sqlmap"; lit "nikto"; lit "nmap"; lit "masscan"; lit "ZGrab";
    lit "zgrab"; lit "Nuclei"; lit "nuclei"; lit "python-requests";
    lit "Go-http-client/1.1"; lit "curl/7"; lit "libwww-perl"; lit "WPScan";
    lit "wpscan"; lit "Acunetix"; lit "acunetix"; lit "Metasploit";
    lit "metasploit"; lit "Burp"; lit "dirbuster"; lit "DirBuster";
    lit "gobuster"; lit "ffuf"; lit "feroxbuster"; lit "WordPress/" ].

Definition SENTINEL_BOT_UA_MIN_LEN : nat := 5.

(** The loop over the positions [i = 0 .. ualen - sublen]. *)
Fixpoint ua_scan (ua sub : bytes) (positions : nat) : bool :=
  match positions with
  | O => false
  | S p =>
      if bool_decide (head ua = head sub) && (strncmp ua sub (length sub) =? 0)
      then true else ua_scan (tl ua) sub p
  end.

Definition ua_contains (ua sub : bytes) : bool :=
  if (length sub =? 0)%nat || (length ua <? length sub)%nat then false
  else ua_scan ua sub (S (length ua - length sub)).

(** [bot_ua] and [known_good_ua]. *)
Definition sentinel_botua_signal (r : request) : bool * bool :=
  match r_user_agent r with
  | None => (true, false)
  | Some ua =>
      if (length ua <? SENTINEL_BOT_UA_MIN_LEN)%nat then (true, false)
      else if existsb (ua_contains ua) good_ua_substrings then (false, true)
      else if existsb (ua_contains ua) bad_ua_substrings then (true, false)
      else (false, false)
  end.

(** ** sentinel_coherence.c *)

Definition browser_ua_substrings : list bytes :=
  [ lit "Chrome/"; lit "Firefox/"; lit "Safari/"; lit "Edg/"; lit "Gecko/" ].

(** The file carries its own copy of the substring search. *)
Definition coh_ua_contains : bytes -> bytes -> bool := ua_contains.

Definition nonempty (v : option bytes) : bool :=
  match v with Some (_ :: _) => true | _ => false end.

Definition coh_accepts_gzip (r : request) : bool :=
  match r_accept_encoding r with
  | None => false
  | Some [] => false
  | Some ae => coh_ua_contains ae (lit "gzip") || coh_ua_contains ae (lit "br")
  end.

Definition sentinel_coherence_signal (r : option request) : bool :=
  match r with
  | None => false
  | Some r =>
      match r_user_agent r with
      | None => false
      | Some ua =>
          if negb (existsb (coh_ua_contains ua) browser_ua_substrings) then false
          else
            let has_accept := nonempty (r_accept r) in
            let has_accept_lang := nonempty (r_accept_language r) in
            let has_gzip := coh_accepts_gzip r in
            let modern_proto := NGX_HTTP_VERSION_11 <=? r_http_version r in
            negb has_accept || negb has_accept_lang || negb has_gzip || negb modern_proto
      end
  end.

Section Signals.
Context `{NgxHash} `{NgxCompare} `{NgxSlab} `{NgxRbtree} `{NgxParse} `{NgxHttp}.

(** ** sentinel_header.c *)

(** The index walks the parts of the header list; [h[i]] after moving to an
    empty part is an out-of-bounds read, but nginx never links one. *)
Fixpoint header_count (parts : list (list header)) (name : bytes) : nat :=
  match parts with
  | [] => 0
  | part :: parts' =>
      length (filter (fun h : header =>
                (length (h_key h) =? length name)%nat
                && (ngx_strncasecmp (h_key h) name (length name) =? 0) = true) part)
      + header_count parts' name
  end.

Definition sentinel_header_signal (r : option request) : bool :=
  match r with
  | None => false
  | Some r =>
      if (r_http_version r =? NGX_HTTP_VERSION_11) && negb (bool_decide (is_Some (r_host r)))
      then true
      else if bool_decide (is_Some (r_content_length r))
              && bool_decide (is_Some (r_transfer_encoding r)) then true
      else if (1 <? header_count (r_headers r) (lit "host"))%nat then true
      else if negb (bool_decide (is_Some (r_user_agent r)))
              && (header_count (r_headers r) (lit "accept") =? 0)%nat then true
      else false
  end.

(** ** sentinel_honeypot.c *)

Definition sentinel_honeypot_signal (r : option request) (lcf : option loc_conf) : bool :=
  match r, lcf with
  | Some r, Some lcf =>
      existsb (fun decoy =>
        (length decoy <=? length (r_uri r))%nat
        && (strncmp (r_uri r) decoy (length decoy) =? 0)) (decoy_paths lcf)
  | _, _ => false
  end.

(** ** sentinel_ja3sig.c, sentinel_ja4sig.c, sentinel_ja4tsig.c *)

(** The common body of the three files: the source variable against the list. *)
Definition deny_match (r : request) (d : deny_conf) : bool :=
  match deny_source d, deny_list d with
  | Some source, _ :: _ =>
      match ngx_http_complex_value r source with
      | None => false
      | Some [] => false
      | Some val =>
          existsb (fun deny =>
            (length deny =? length val)%nat
            && (ngx_strncasecmp deny val (length val) =? 0)) (deny_list d)
      end
  | _, _ => false
  end.

Definition sentinel_ja3_signal (r : option request) (lcf : option loc_conf) : bool :=
  match r, lcf with
  | Some r, Some lcf => deny_match r (lcf_ja3 lcf)
  | _, _ => false
  end.

Definition sentinel_ja4_signal (r : option request) (lcf : option loc_conf) : bool :=
  match r, lcf with
  | Some r, Some lcf => deny_match r (lcf_ja4 lcf)
  | _, _ => false
  end.

Definition sentinel_ja4t_signal (r : option request) (lcf : option loc_conf) : bool :=
  match r, lcf with
  | Some r, Some lcf => deny_match r (lcf_ja4t lcf)
  | _, _ => false
  end.

(** ** sentinel_asn.c *)

Definition sentinel_asn_signal (r : option request) (lcf : option loc_conf) : bool :=
  match r, lcf with
  | Some r, Some lcf =>
      match asn_source lcf, asn_list lcf with
      | Some source, _ :: _ =>
          match ngx_http_complex_value r source with
          | None => false
          | Some [] => false
          | Some val =>
              match ngx_atoi val with
              | None => false
              | Some parsed =>
                  if parsed <=? 0 then false
                  else existsb (fun asn => asn =? wrap64 parsed) (asn_list lcf)
              end
          end
      | _, _ => false
      end
  | _, _ => false
  end.

(** ** sentinel_c2ip.c *)

Definition sentinel_c2ip_signal (r : option request) (lcf : option loc_conf) : bool :=
  match r, lcf with
  | Some r, Some lcf =>
      match r_sockaddr r with
      | None => false
      | Some (AF_INET key) =>
          match c2ip_tree lcf with
          | None => false
          | Some tree => bool_decide (is_Some (ngx_radix32tree_find tree key))
          end
      | Some (AF_INET6 a) =>
          match c2ip_tree6 lcf with
          | None => false
          | Some tree => bool_decide (is_Some (ngx_radix128tree_find tree a))
          end
      | Some AF_OTHER => false
      end
  | _, _ => false
  end.

(** ** sentinel_allowlist.c *)

Definition sentinel_allowlist_signal (r : option request) (lcf : option loc_conf) : bool :=
  match r, lcf with
  | Some r, Some lcf =>
      match allow_cidrs lcf with
      | [] => false
      | cidrs =>
          match r_sockaddr r with
          | None => false
          | Some sa => ngx_cidr_match sa cidrs
          end
      end
  | _, _ => false
  end.

(** ** sentinel_errrate.c *)

Definition scanner_prefixes : list bytes :=
  [ lit "/.env"; lit "/.git"; lit "/wp-login"; lit "/wp-admin"; lit "/.aws";
    lit "/phpinfo" ].

Definition sentinel_errrate_is_scanner_path (r : request) : bool :=
  existsb (fun pfx =>
    (length pfx <=? length (r_uri r))%nat
    && (ngx_strncasecmp (r_uri r) pfx (length pfx) =? 0)) scanner_prefixes.

(** [errrate_count], [errrate_blocked], [scanner_path]; [z] is the zone
    [lcf->zone] points to and [now] is [ngx_time()]. *)
Definition sentinel_errrate_signal (r : request) (z : option zone) (now : Z)
    : option ((Z * bool * bool) * option zone) :=
  let scanner := sentinel_errrate_is_scanner_path r in
  match z with
  | None => Some ((0, false, scanner), z)
  | Some _ =>
      match r_addr_text r with
      | [] => Some ((0, false, scanner), z)
      | addr =>
          let! (res, z') := sentinel_shm_errrate_lookup z (SHA256 addr) now in
          let '(rc, count, _) := res in
          if bool_decide (rc = NGX_ERROR) then Some ((0, false, scanner), z')
          else Some ((count, bool_decide (rc = NGX_BUSY), scanner), z')
      end
  end.

(** ** sentinel_velocity.c *)

(** [velocity_exceeded]; [z] is the zone [lcf->vel_zone] points to. *)
Definition sentinel_velocity_signal (r : option request) (lcf : option loc_conf)
    (z : option zone) (now : Z) : option (bool * option zone) :=
  match r, lcf, z with
  | Some r, Some _, Some _ =>
      match r_addr_text r with
      | [] => Some (false, z)
      | addr =>
          let! (res, z') := sentinel_shm_errrate_lookup z (SHA256 addr) now in
          let '(rc, _, _) := res in
          if bool_decide (rc = NGX_ERROR) then Some (false, z')
          else Some (bool_decide (rc = NGX_BUSY), z')
      end
  | _, _, _ => Some (false, z)
  end.
End Signals.
