(* ===== verification/SignalProps.v ===== *)
(** * SignalProps.v: what each detection signal recognises

    The substring search is exact, each signal fires exactly under the
    condition its file documents, and the rate signals report the abstract
    sliding window of [ShmRate.v]. *)
From S2P Require Import Prelude Types Ngx Http NgxModel Shm ShmTree ShmSpec ShmOps ShmRate ShmProps Signals.

(** ** Substring search *)

(** [sub] occurs in [ua]. *)
Definition substring (sub ua : bytes) : Prop := exists pre post, ua = pre ++ sub ++ post.

Lemma ua_scan_spec sub ua n :
  no_nul sub -> sub <> [] ->
  ua_scan ua sub n = true <->
  exists i, (i < n)%nat /\ take (length sub) (drop i ua) = sub.
Proof.
  intros Hn Hne. revert ua. induction n as [|n IH]; intros ua; simpl.
  { split; [done|]. intros (i & ? & _). lia. }
  destruct (bool_decide (head ua = head sub) && (strncmp ua sub (length sub) =? 0)) eqn:E.
  - split; [|done]. intros _. exists 0%nat. split; [lia|].
    apply andb_true_iff in E as [_ E]. apply Z.eqb_eq in E.
    by apply strncmp_prefix in E.
  - rewrite IH. split.
    + intros (i & Hi & Et). exists (S i). split; [lia|]. destruct ua; simpl in *; rewrite ?drop_nil in *; done.
    + intros ([|i] & Hi & Et).
      * exfalso. rewrite drop_0 in Et. pose proof Et as Et'.
        apply strncmp_prefix in Et'; [|done]. rewrite Et' in E.
        rewrite andb_false_iff in E. destruct E as [E|E]; [|done].
        apply bool_decide_eq_false in E. destruct E. rewrite <- Et.
        destruct ua, sub; done.
      * exists i. split; [lia|]. destruct ua; simpl in *; rewrite ?drop_nil in *; done.
Qed.

Lemma ua_contains_nonempty ua sub :
  no_nul sub -> sub <> [] -> ua_contains ua sub = true <-> substring sub ua.
Proof.
  intros Hn Hne. unfold ua_contains.
  destruct (Nat.eqb_spec (length sub) 0) as [E0|E0]; cbn [orb].
  { by apply nil_length_inv in E0 as ->. }
  destruct (Nat.ltb_spec (length ua) (length sub)).
  { split; [done|]. intros (pre & post & ->). rewrite !length_app in *. lia. }
  rewrite ua_scan_spec by done. split.
  - intros (i & Hi & Et). exists (take i ua), (drop (length sub) (drop i ua)).
    rewrite <- Et at 1. by rewrite take_drop, take_drop.
  - intros (pre & post & ->). exists (length pre). rewrite !length_app in *.
    split; [lia|]. by rewrite drop_app_length, take_app_length.
Qed.

(** The User-Agent search is exact: for a NUL-free needle it answers 1
    exactly when the needle is not empty and occurs in the User-Agent. *)
Theorem ua_contains_substring ua sub :
  no_nul sub -> ua_contains ua sub = true <-> sub <> [] /\ substring sub ua.
Proof.
  intros Hn. destruct (decide (sub = [])) as [->|Hne]; [by split; [|intros [? _]]|].
  rewrite ua_contains_nonempty by done. tauto.
Qed.

Lemma existsb_substring ua subs :
  Forall no_nul subs -> Forall (fun s => s <> []) subs ->
  existsb (ua_contains ua) subs = true <-> exists s, s ∈ subs /\ substring s ua.
Proof.
  rewrite !Forall_forall. intros Hn Hne. rewrite existsb_exists. split.
  - intros (s & Hs & Hc). apply list_elem_of_In in Hs.
    apply ua_contains_nonempty in Hc; naive_solver.
  - intros (s & Hs & Hc). exists s. rewrite <- list_elem_of_In. split; [done|].
    apply ua_contains_nonempty; auto.
Qed.

Lemma good_table_ok : Forall no_nul good_ua_substrings /\ Forall (fun s => s <> []) good_ua_substrings.
Proof. split; apply (bool_decide_unpack _); by vm_compute. Qed.

Lemma bad_table_ok : Forall no_nul bad_ua_substrings /\ Forall (fun s => s <> []) bad_ua_substrings.
Proof. split; apply (bool_decide_unpack _); by vm_compute. Qed.

Lemma browser_table_ok :
  Forall no_nul browser_ua_substrings /\ Forall (fun s => s <> []) browser_ua_substrings.
Proof. split; apply (bool_decide_unpack _); by vm_compute. Qed.

Lemma mentions_dec ua subs :
  Forall no_nul subs -> Forall (fun s => s <> []) subs ->
  existsb (ua_contains ua) subs = false <-> ~ exists s, s ∈ subs /\ substring s ua.
Proof.
  intros Hn Hne. rewrite <- existsb_substring by done.
  by destruct (existsb (ua_contains ua) subs).
Qed.

(** The User-Agent classification: [known_good_ua] is raised exactly for a
    User-Agent of at least five bytes that contains a known crawler name;
    [bot_ua] exactly when the header is missing, shorter than five bytes, or
    contains a scanner name and no crawler name; never both. *)
Theorem botua_classifies r :
  let '(bot, good) := sentinel_botua_signal r in
  let long ua := (SENTINEL_BOT_UA_MIN_LEN <= length ua)%nat in
  let crawler ua := exists s, s ∈ good_ua_substrings /\ substring s ua in
  let scanner ua := exists s, s ∈ bad_ua_substrings /\ substring s ua in
  (good = true <-> exists ua, r_user_agent r = Some ua /\ long ua /\ crawler ua) /\
  (bot = true <-> match r_user_agent r with
                  | None => True
                  | Some ua => ~ long ua \/ (~ crawler ua /\ scanner ua)
                  end) /\
  bot && good = false.
Proof.
  unfold sentinel_botua_signal. destruct (r_user_agent r) as [ua|]; [|naive_solver].
  destruct good_table_ok as [G1 G2], bad_table_ok as [B1 B2].
  pose proof (existsb_substring ua _ G1 G2) as HG. pose proof (mentions_dec ua _ G1 G2) as HG'.
  pose proof (existsb_substring ua _ B1 B2) as HB. pose proof (mentions_dec ua _ B1 B2) as HB'.
  destruct (Nat.ltb_spec (length ua) SENTINEL_BOT_UA_MIN_LEN) as [Hl|Hl].
  { split_and!; [|split; [left; lia|done]|done].
    split; [done|]. intros (? & [= <-] & ? & _). lia. }
  destruct (existsb (ua_contains ua) good_ua_substrings) eqn:EG;
    [|destruct (existsb (ua_contains ua) bad_ua_substrings) eqn:EB].
  - destruct HG as [HG _]. specialize (HG eq_refl). split_and!; [|split; [done|]|done].
    + split; [|done]. intros _. by exists ua.
    + intros [?|[Hc _]]; [lia|by destruct Hc].
  - destruct HG' as [HG' _], HB as [HB _]. specialize (HG' eq_refl). specialize (HB eq_refl).
    split_and!; [|split; [by right|done]|done].
    split; [done|]. by intros (? & [= <-] & _ & ?).
  - destruct HG' as [HG' _], HB' as [HB' _]. specialize (HG' eq_refl). specialize (HB' eq_refl).
    split_and!; [| |done].
    + split; [done|]. by intros (? & [= <-] & _ & ?).
    + split; [done|]. intros [?|[_ ?]]; [lia|done].
Qed.

(** The coherence signal: it fires exactly when the User-Agent names a
    mainstream browser and at least one part of the browser request shape is
    missing (Accept, Accept-Language, gzip or br in Accept-Encoding, HTTP/1.1):
    the presence of one part does not clear the signal. *)
Theorem coherence_fires_iff_any_part_missing r :
  sentinel_coherence_signal (Some r) = true <->
  (exists ua s, r_user_agent r = Some ua /\ s ∈ browser_ua_substrings /\ substring s ua) /\
  (nonempty (r_accept r) = false \/ nonempty (r_accept_language r) = false \/
   (~ exists ae s, r_accept_encoding r = Some ae /\
        (s = lit "gzip" \/ s = lit "br") /\ substring s ae) \/
   r_http_version r < NGX_HTTP_VERSION_11).
Proof.
  unfold sentinel_coherence_signal. destruct (r_user_agent r) as [ua|]; [|naive_solver].
  destruct browser_table_ok as [B1 B2].
  assert (coh_accepts_gzip r = true <-> exists ae s, r_accept_encoding r = Some ae /\
        (s = lit "gzip" \/ s = lit "br") /\ substring s ae) as Hgz.
  { unfold coh_accepts_gzip. destruct (r_accept_encoding r) as [ae|]; [|naive_solver].
    assert ((coh_ua_contains ae (lit "gzip") || coh_ua_contains ae (lit "br")) = true <->
            substring (lit "gzip") ae \/ substring (lit "br") ae) as Hor.
    { unfold coh_ua_contains. rewrite orb_true_iff, !ua_contains_nonempty;
        [done|by apply (bool_decide_unpack _)..]. }
    destruct ae as [|c ae]; [|naive_solver].
    split; [done|]. intros (? & s & [= <-] & Hs & pre & post & E).
    symmetry in E. apply app_nil in E as [_ [-> _]%app_nil]. by destruct Hs. }
  destruct (existsb (coh_ua_contains ua) browser_ua_substrings) eqn:EB; cbn [negb].
  - apply existsb_substring in EB as (s & Hs & Hc); [|done..].
    rewrite !orb_true_iff, !negb_true_iff, Z.leb_gt, <- Hgz, not_true_iff_false.
    split; [intros Hm; split; [by exists ua, s|tauto]|tauto].
  - apply mentions_dec in EB; [|done..]. split; [done|].
    intros ((? & s & [= <-] & ?) & _). by destruct EB; exists s.
Qed.

Section Laws.
Context `{NgxHash} `{NgxCompare} `{NgxSlab} `{NgxRbtree} `{NgxParse} `{NgxHttp}.
Context {ParseLaws : NgxParseLaws}.

(** ASCII case-insensitive equality. *)
Definition same_nocase (a b : bytes) : Prop := map ngx_tolower a = map ngx_tolower b.

#[local] Instance same_nocase_dec a b : Decision (same_nocase a b).
Proof. unfold same_nocase. apply _. Defined.

(** The comparison the module uses throughout: equal lengths, then
    [ngx_strncasecmp]. *)
Lemma nocase_eq a b :
  no_nul a -> no_nul b ->
  (length a =? length b)%nat && (ngx_strncasecmp a b (length b) =? 0) = true
  <-> same_nocase a b.
Proof.
  intros Ha Hb. unfold same_nocase. rewrite andb_true_iff, Nat.eqb_eq, Z.eqb_eq. split.
  - intros [Hl Hc]. apply strncasecmp_eq in Hc; [|lia|lia|done|done].
    by rewrite !take_ge in Hc by lia.
  - intros E. assert (length a = length b) as Hl.
    { apply (f_equal length) in E. by rewrite !length_map in E. }
    split; [done|]. apply strncasecmp_eq; [lia|lia|done|done|].
    by rewrite !take_ge by lia.
Qed.

(** The headers of a given name. *)
Definition named (r : request) (name : bytes) : list header :=
  filter (fun h => same_nocase (h_key h) name) (concat (r_headers r)).

Definition keys_no_nul (r : request) : Prop :=
  Forall (fun h => no_nul (h_key h)) (concat (r_headers r)).

Lemma header_count_spec parts name :
  Forall (fun h => no_nul (h_key h)) (concat parts) -> no_nul name ->
  header_count parts name
    = length (filter (fun h => same_nocase (h_key h) name) (concat parts)).
Proof.
  intros Hp Hn. induction parts as [|part parts IH]; [done|].
  simpl in *. apply Forall_app in Hp as [Hp Hps].
  rewrite filter_app, length_app, <- IH by done. f_equal. f_equal.
  apply filter_ext_in. eapply Forall_impl; [exact Hp|].
  intros h Hh. by apply nocase_eq.
Qed.

(** The header anomaly signal fires exactly on its four documented
    conditions: HTTP/1.1 without Host, Content-Length together with
    Transfer-Encoding, more than one header named Host in any case, or neither
    User-Agent nor a header named Accept. *)
Theorem header_anomaly_conditions r :
  keys_no_nul r ->
  sentinel_header_signal (Some r) = true <->
  (r_http_version r = NGX_HTTP_VERSION_11 /\ r_host r = None) \/
  (is_Some (r_content_length r) /\ is_Some (r_transfer_encoding r)) \/
  (1 < length (named r (lit "host")))%nat \/
  (r_user_agent r = None /\ named r (lit "accept") = []).
Proof.
  intros Hk. unfold sentinel_header_signal, named.
  rewrite !header_count_spec by (done || by apply (bool_decide_unpack _)).
  assert (forall l : list header, l = [] <-> length l = 0%nat) as Hlen
    by (intros []; simpl; split; done || lia).
  assert (forall o : option bytes, o = None <-> ~ is_Some o) as HN
    by (intros; apply eq_None_not_Some).
  rewrite Hlen, !HN.
  repeat match goal with
  | |- (if ?b then true else _) = true <-> _ => let E := fresh "E" in destruct b eqn:E
  end.
  all: rewrite ?andb_true_iff, ?andb_false_iff, ?negb_true_iff, ?negb_false_iff,
    ?bool_decide_eq_true, ?bool_decide_eq_false, ?Z.eqb_eq, ?Z.eqb_neq,
    ?Nat.eqb_eq, ?Nat.eqb_neq, ?Nat.ltb_lt, ?Nat.ltb_ge in *; naive_solver lia.
Qed.

(** A fingerprint deny list flags a request exactly when its source variable
    resolves to a non-empty value equal, up to ASCII case, to an entry of the
    list: no source, no list, an unresolved or an empty value never flags. *)
Theorem deny_list_flags_listed_values r lcf source val :
  deny_source (lcf_ja3 lcf) = Some source ->
  ngx_http_complex_value r source = Some val ->
  no_nul val -> Forall no_nul (deny_list (lcf_ja3 lcf)) ->
  sentinel_ja3_signal (Some r) (Some lcf) = true <->
  val <> [] /\ exists e, e ∈ deny_list (lcf_ja3 lcf) /\ same_nocase e val.
Proof.
  intros Es Ev Hv Hl. simpl. unfold deny_match. rewrite Es, Ev.
  rewrite Forall_forall in Hl.
  assert (existsb (fun deny => (length deny =? length val)%nat
      && (ngx_strncasecmp deny val (length val) =? 0)) (deny_list (lcf_ja3 lcf)) = true
    <-> exists e, e ∈ deny_list (lcf_ja3 lcf) /\ same_nocase e val) as Hex.
  { rewrite existsb_exists. setoid_rewrite <- list_elem_of_In.
    split; intros (e & He & Hc); exists e; (split; [done|]); apply nocase_eq; auto. }
  destruct (deny_list (lcf_ja3 lcf)) as [|d ds] eqn:Ed.
  { split; [done|]. intros (_ & e & He & _). by apply not_elem_of_nil in He. }
  destruct val as [|c v]; [naive_solver|]. rewrite Hex. naive_solver.
Qed.
End Laws.

(** ** Concrete requests *)
Import Concrete.

Definition demo_request : request :=
  Request NGX_HTTP_GET NGX_HTTP_VERSION_11 (lit "/index.html") []
    [[Header 1 (lit "Host") (lit "example.org");
      Header 1 (lit "hOsT") (lit "evil.example")]]
    (Some (lit "example.org")) (Some (lit "Mozilla/5.0 sqlmap"))
    None None None None None (lit "192.0.2.7") (Some (AF_INET 3221225991)) 0 200.

Definition demo_deny : deny_conf :=
  DenyConf (Some (fun r => Some (lit "AA12"))) [lit "bb34"; lit "aa12"].

Definition demo_tarpit : tarpit_conf := TarpitConf 256 5000 1024 30000 0.

(** The configuration of [sentinel on; sentinel_mode enforce;] with the demo
    deny list and every other directive at its default. *)
Definition demo_lcf : loc_conf :=
  LocConf 1 0 1 (Some 0%nat) (Some None) [] default_threshold default_weights
    (CsConf (Some None) [] 10 3600 600 16777216) [] [] None []
    demo_deny (DenyConf None []) (DenyConf None []) None None
    (FcrdnsConf (Some None) [] 3600 []) demo_tarpit 403 0 0 0
    (PowConf 0 (Some []) 16 3600)
    (RedisConf [] 6379 (Some []) (Some (lit "sentinel")) 10 3600 None)
    (SinkConf [] 10 3600 (Some (lit "sentinel/http-abuse")) None).

Lemma ua_contains_substring_witness :
  ua_contains (lit "Mozilla/5.0 sqlmap") (lit "sqlmap") = true.
Proof.
  apply (ua_contains_substring (lit "Mozilla/5.0 sqlmap") (lit "sqlmap")).
  - by apply (bool_decide_unpack _).
  - split; [done|]. by exists (lit "Mozilla/5.0 "), [].
Defined.

Lemma header_anomaly_conditions_witness :
  (1 < length (named demo_request (lit "host")))%nat /\
  sentinel_header_signal (Some demo_request) = true.
Proof.
  assert (1 < length (named demo_request (lit "host")))%nat as Hn by (vm_compute; lia).
  split; [exact Hn|]. apply (header_anomaly_conditions demo_request).
  - by apply (bool_decide_unpack _).
  - right. right. left. exact Hn.
Defined.

Lemma deny_list_flags_listed_values_witness :
  sentinel_ja3_signal (Some demo_request) (Some demo_lcf) = true.
Proof.
  apply (deny_list_flags_listed_values demo_request demo_lcf
           (fun _ => Some (lit "AA12")) (lit "AA12")); [done|done|..].
  - by apply (bool_decide_unpack _).
  - by apply (bool_decide_unpack _).
  - split; [done|]. exists (lit "aa12"). split; [by apply (bool_decide_unpack _)|].
    by vm_compute.
Defined.
