(* ===== verification/Feed.v ===== *)
(** * Feed.v: the CrowdSec decision feed ([sentinel_feed.c])

    The loader validates the whole file (header line, trailer with record count
    and CRC, fraction of malformed lines) before it touches the shared zone,
    then applies the decisions under a fresh generation and sweeps the nodes of
    other generations.  Two passes read the same lines with two copies of the
    line parser, as the source does.

    The lock is released between the generation bump, the apply pass, and the
    sweep batches; this file composes them for one loader, [FeedConc.v]
    interleaves two. *)
From S2P Require Import Prelude Types Ngx Http Shm.

Definition NGX_SENTINEL_FEED_HEADER : bytes := lit "# sentinel-crowdsec-feed v1".
Definition NGX_SENTINEL_FEED_APPLY_BATCH : nat := 256.
Definition NGX_SENTINEL_FEED_MALFORMED_DENOM : Z := 4.

Definition NL : Byte.byte := Byte.x0a.
Definition CR : Byte.byte := Byte.x0d.
Definition SP : Byte.byte := Byte.x20.
Definition HASH : Byte.byte := Byte.x23.
Definition SLASH : Byte.byte := Byte.x2f.

(** ** Scanning *)

(** The line that starts at [p] and what follows its newline
    ([memchr(p, '\n', end - p)]). *)
Definition split_line (p : bytes) : bytes * option bytes :=
  match memchr p NL with
  | Some n => (take n p, Some (drop (S n) p))
  | None => (p, None)
  end.

(** The lines the loop [while (p < trailer)] visits. *)
Fixpoint body_lines (fuel : nat) (p : bytes) : list bytes :=
  match fuel, p with
  | S fuel', _ :: _ =>
      let '(line, rest) := split_line p in
      line :: match rest with Some p' => body_lines fuel' p' | None => [] end
  | _, _ => []
  end.

(** Tolerate a trailing [\r]. *)
Definition strip_cr (line : bytes) : bytes :=
  match last line with
  | Some c => if bool_decide (c = CR) then removelast line else line
  | None => line
  end.

(** A blank line or a comment is not a decision; otherwise the line without its
    [\r]. *)
Definition decision_line (line : bytes) : option bytes :=
  match line with
  | [] => None
  | c :: _ =>
      if bool_decide (c = HASH) then None
      else match strip_cr line with [] => None | l => Some l end
  end.

(** The three fields: up to the first space, up to the second, the rest. *)
Definition split_fields (line : bytes) : option (bytes * bytes * bytes) :=
  match memchr line SP with
  | None => None
  | Some n1 =>
      let l2 := drop (S n1) line in
      match memchr l2 SP with
      | None => None
      | Some n2 =>
          match drop (S n2) l2 with
          | [] => None
          | f3 => Some (take n1 line, take n2 l2, f3)
          end
      end
  end.

Definition sentinel_feed_action (p : bytes) : Z :=
  if (length p =? 3)%nat && (strncmp p (lit "ban") 3 =? 0) then NGX_SENTINEL_CS_BAN
  else if (length p =? 7)%nat && (strncmp p (lit "captcha") 7 =? 0)
  then NGX_SENTINEL_CS_CAPTCHA
  else if (length p =? 8)%nat && (strncmp p (lit "throttle") 8 =? 0)
  then NGX_SENTINEL_CS_THROTTLE
  else NGX_SENTINEL_CS_NONE.

Section Feed.
Context `{NgxHash} `{NgxCompare} `{NgxSlab} `{NgxRbtree} `{NgxParse} `{NgxInet} `{NgxHttp}.

Definition sentinel_feed_digest (text : bytes) : bytes := SHA256 text.

(** The canonical text; empty for anything but a bare host address. *)
Definition sentinel_feed_canon_ip (p : bytes) : bytes :=
  if (length p =? 0)%nat || (64 <=? length p)%nat then []
  else
    match memchr p SLASH with
    | Some _ => []
    | None =>
        match ngx_inet_addr p with
        | Some v4 => ngx_inet_ntop v4
        | None =>
            match ngx_inet6_addr p with
            | Some v6 => ngx_inet6_ntop v6
            | None => []
            end
        end
    end.

(** ** Trailer *)

Definition hex_nibble (c : Byte.byte) : option Z :=
  let v := bval c in
  if (48 <=? v) && (v <=? 57) then Some (v - 48)
  else if (97 <=? v) && (v <=? 102) then Some (v - 97 + 10)
  else if (65 <=? v) && (v <=? 70) then Some (v - 65 + 10)
  else None.

Fixpoint trailer_crc (p : bytes) (file_crc : Z) : option Z :=
  match p with
  | [] => Some file_crc
  | c :: p' =>
      match hex_nibble c with
      | None => None
      | Some v => trailer_crc p' (Z.lor (wrap32 (Z.shiftl file_crc 4)) v)
      end
  end.

Definition sentinel_feed_check_trailer (trailer : bytes) (count crc : Z) : ngx_rc :=
  if (length trailer <? 9)%nat then NGX_DECLINED
  else if negb (strncmp trailer (lit "%%EOF ") 6 =? 0) then NGX_DECLINED
  else
    let p := drop 6 trailer in
    match memchr p SP with
    | None => NGX_DECLINED
    | Some O => NGX_DECLINED
    | Some n =>
        match ngx_atoi (take n p) with
        | None => NGX_DECLINED
        | Some v =>
            if negb (wrap64 v =? count) then NGX_DECLINED
            else
              match drop (S n) p with
              | [] => NGX_DECLINED
              | hex =>
                  match trailer_crc hex 0 with
                  | None => NGX_DECLINED
                  | Some file_crc => if file_crc =? crc then NGX_OK else NGX_DECLINED
                  end
              end
        end
    end.

(** Search of the trailer line: the bytes before it and from it on. *)
Fixpoint find_trailer (fuel : nat) (before q : bytes) : option (bytes * bytes) :=
  match fuel, q with
  | S fuel', _ :: _ =>
      let '(line, rest) := split_line q in
      if (6 <=? length line)%nat && (strncmp q (lit "%%EOF ") 6 =? 0)
      then Some (before, q)
      else match rest with
           | None => None
           | Some q' => find_trailer fuel' (before ++ line ++ [NL]) q'
           end
  | _, _ => None
  end.

(** ** Validation pass *)

Inductive line_kind : Type := LineIgnored | LineMalformed | LineValid.

Definition validate_line (line : bytes) : line_kind :=
  match decision_line line with
  | None => LineIgnored
  | Some l =>
      match split_fields l with
      | None => LineMalformed
      | Some (f1, f2, f3) =>
          match sentinel_feed_canon_ip f1 with
          | [] => LineMalformed
          | _ =>
              if sentinel_feed_action f2 =? NGX_SENTINEL_CS_NONE then LineMalformed
              else match ngx_atoi f3 with
                   | None => LineMalformed
                   | Some _ => LineValid
                   end
          end
      end
  end.

(** [count] and [malformed]. *)
Fixpoint validate_lines (lines : list bytes) (count malformed : Z) : Z * Z :=
  match lines with
  | [] => (count, malformed)
  | line :: lines' =>
      match validate_line line with
      | LineIgnored => validate_lines lines' count malformed
      | LineMalformed => validate_lines lines' count (malformed + 1)
      | LineValid => validate_lines lines' (count + 1) malformed
      end
  end.

(** ** Apply pass *)

(** The upsert a line asks for: key, expiry, action. *)
Definition apply_line (default_ttl now : Z) (line : bytes) : option (bytes * Z * Z) :=
  match decision_line line with
  | None => None
  | Some l =>
      match split_fields l with
      | None => None
      | Some (f1, f2, f3) =>
          match sentinel_feed_canon_ip f1 with
          | [] => None
          | canon =>
              let act := sentinel_feed_action f2 in
              if act =? NGX_SENTINEL_CS_NONE then None
              else match ngx_atoi f3 with
                   | None => None
                   | Some expiry =>
                       let exp := if expiry =? 0 then now + default_ttl else expiry in
                       if exp <=? now then None
                       else Some (sentinel_feed_digest canon, exp, act)
                   end
          end
      end
  end.

(** Insert until the zone is full. *)
Fixpoint apply_lines (default_ttl now generation : Z) (lines : list bytes)
    (applied : Z) (sh : shctx) : option (Z * shctx) :=
  match lines with
  | [] => Some (applied, sh)
  | line :: lines' =>
      match apply_line default_ttl now line with
      | None => apply_lines default_ttl now generation lines' applied sh
      | Some (key, exp, act) =>
          let! (rc, sh') := crowdsec_upsert_locked key exp act generation now false sh in
          if bool_decide (rc = NGX_OK)
          then apply_lines default_ttl now generation lines' (applied + 1) sh'
          else Some (applied, sh')
      end
  end.

(** Bump the generation. *)
Definition bump_generation (sh : shctx) : shctx :=
  Shctx (sh_heap sh) (sh_tree sh) (sh_queue sh)
        (wrap64 (sh_cs_generation sh + 1)) (sh_slab sh).

(** The sweep loop; out of fuel is [None]. *)
Fixpoint sweep_loop (fuel : nat) (generation : Z) (sh : shctx) : option shctx :=
  match fuel with
  | O => None
  | S fuel' =>
      let! (d, sh') := sentinel_shm_crowdsec_sweep sh generation
                         NGX_SENTINEL_FEED_APPLY_BATCH in
      if (d =? 0)%nat then Some sh' else sweep_loop fuel' generation sh'
  end.

(** The locked part of an accepted feed. *)
Definition feed_apply (default_ttl now : Z) (lines : list bytes) (sh : shctx)
    : option shctx :=
  let sh := bump_generation sh in
  let generation := sh_cs_generation sh in
  let! (_, sh) := apply_lines default_ttl now generation lines 0 sh in
  sweep_loop (S (length (sh_queue sh))) generation sh.

(** The decision lines of an acceptable file, [None] when it is rejected. *)
Definition feed_validate (data : bytes) : option (list bytes) :=
  let '(first, rest) := split_line data in
  if negb ((length first =? length NGX_SENTINEL_FEED_HEADER)%nat
           && (strncmp data NGX_SENTINEL_FEED_HEADER
                 (length NGX_SENTINEL_FEED_HEADER) =? 0))
  then None
  else
    match rest with
    | None => None
    | Some body_start =>
        match find_trailer (length body_start) [] body_start with
        | None => None
        | Some (body, trailer) =>
            let crc := ngx_crc32_long body in
            let lines := body_lines (length body) body in
            let '(count, malformed) := validate_lines lines 0 0 in
            let tline := strip_cr (split_line trailer).1 in
            if negb (bool_decide (sentinel_feed_check_trailer tline count crc = NGX_OK))
            then None
            else if (0 <? malformed)
                    && (count + malformed <? malformed * NGX_SENTINEL_FEED_MALFORMED_DENOM)
            then None
            else Some lines
        end
    end.

Definition sentinel_feed_parse (z : option zone) (data : bytes) (default_ttl now : Z)
    : option (ngx_rc * option zone) :=
  match z with
  | Some (Zone zc (Some sh)) =>
      match data with
      | [] => Some (NGX_DECLINED, z)
      | _ =>
          match feed_validate data with
          | None => Some (NGX_DECLINED, z)
          | Some lines =>
              let! sh' := feed_apply default_ttl now lines sh in
              Some (NGX_OK, Some (Zone zc (Some sh')))
          end
      end
  | _ => Some (NGX_ERROR, z)
  end.

(** ** The loader tick *)

(** What the file system answers: [stat] (mtime and size), then [open] and
    [read]; allocation of the transient pool and buffer may fail too. *)
Record feed_file : Type := FeedFile {
  ff_stat : option (Z * Z);
  ff_pool_ok : bool;
  ff_open_ok : bool;
  ff_buf_ok : bool;
  ff_read : option bytes
}.

(** [sentinel_feed_timer_t] *)
Record feed_timer : Type := FeedTimer {
  ft_last_mtime : Z;
  ft_missing_logged : bool;
  ft_stale_logged : bool
}.

(** The part of the tick after the size cap. *)
Definition feed_read_and_parse (lcf : loc_conf) (z : option zone) (t : feed_timer)
    (fs : feed_file) (mtime fsize now : Z) : option (feed_timer * option zone) :=
  if negb (ff_pool_ok fs) then Some (t, z)
  else if negb (ff_open_ok fs) then Some (t, z)
  else if negb (ff_buf_ok fs) then Some (t, z)
  else
    match ff_read fs with
    | None => Some (t, z)
    | Some buf =>
        if Z.of_nat (length buf) <? fsize then Some (t, z)
        else
          let! (rc, z') := sentinel_feed_parse z buf (cs_default_ttl (lcf_cs lcf)) now in
          Some (if bool_decide (rc = NGX_OK)
                then FeedTimer mtime (ft_missing_logged t) (ft_stale_logged t) else t, z')
    end.

(** [z] is the zone [lcf->cs_zone] points to. *)
Definition sentinel_feed_do_load (lcf : loc_conf) (z : option zone) (t : feed_timer)
    (fs : feed_file) (now : Z) : option (feed_timer * option zone) :=
  if (length (cs_feed (lcf_cs lcf)) =? 0)%nat || bool_decide (z = None) then Some (t, z)
  else
    match ff_stat fs with
    | None => Some (FeedTimer (ft_last_mtime t) true (ft_stale_logged t), z)
    | Some (mtime, fsize) =>
        let t := FeedTimer (ft_last_mtime t) false (ft_stale_logged t) in
        if cs_stale_after (lcf_cs lcf) <? now - mtime
        then Some (FeedTimer (ft_last_mtime t) false true, z)
        else
          let t := FeedTimer (ft_last_mtime t) false false in
          if negb (ft_last_mtime t =? 0) && (mtime =? ft_last_mtime t) then Some (t, z)
          else if fsize =? 0 then Some (t, z)
          else if cs_max_bytes (lcf_cs lcf) <? fsize then Some (t, z)
          else feed_read_and_parse lcf z t fs mtime fsize now
    end.

(** The timer handler: load, then re-arm unless the worker is exiting; the
    result says after how many milliseconds the next tick fires. *)
Definition sentinel_feed_timer_handler (lcf : loc_conf) (z : option zone)
    (t : feed_timer) (fs : feed_file) (now : Z) (exiting : bool)
    : option (option Z * feed_timer * option zone) :=
  let! (t', z') := sentinel_feed_do_load lcf z t fs now in
  Some (if exiting then None else Some (cs_interval (lcf_cs lcf) * 1000), t', z').

(** ** Arming the timers

    The location tree of a server, with the module's configuration of the exact
    and inclusive entries; only the static locations are walked. *)
Inductive location_tree : Type :=
  | LocNil
  | LocNode (exact inclusive : option loc_conf) (left sub right : location_tree).

Definition SENTINEL_FEED_MAX_TIMERS : nat := 256.

Definition cs_zone_of (lcf : loc_conf) : zone_ref :=
  match cs_zone (lcf_cs lcf) with Some z => z | None => None end.

(** [push_ok n] tells whether [ngx_array_push] succeeds on [n] elements. *)
Definition sentinel_feed_add (push_ok : nat -> bool) (out : list loc_conf)
    (lcf : option loc_conf) : list loc_conf :=
  match lcf with
  | None => out
  | Some lcf =>
      if (length (cs_feed (lcf_cs lcf)) =? 0)%nat || bool_decide (cs_zone_of lcf = None)
      then out
      else if existsb (fun e =>
             bool_decide (cs_zone_of e = cs_zone_of lcf)
             && (length (cs_feed (lcf_cs e)) =? length (cs_feed (lcf_cs lcf)))%nat
             && (strncmp (cs_feed (lcf_cs e)) (cs_feed (lcf_cs lcf))
                   (length (cs_feed (lcf_cs lcf))) =? 0)) out
      then out
      else if push_ok (length out) then out ++ [lcf] else out
  end.

Fixpoint sentinel_feed_collect_loc (push_ok : nat -> bool) (t : location_tree)
    (out : list loc_conf) : list loc_conf :=
  match t with
  | LocNil => out
  | LocNode exact inclusive lt sub rt =>
      let out := sentinel_feed_add push_ok out exact in
      let out := sentinel_feed_add push_ok out inclusive in
      let out := sentinel_feed_collect_loc push_ok lt out in
      let out := sentinel_feed_collect_loc push_ok sub out in
      sentinel_feed_collect_loc push_ok rt out
  end.

(** [servers] are the [static_locations] of the servers. *)
Definition sentinel_feed_collect (push_ok : nat -> bool) (servers : list location_tree)
    : list loc_conf :=
  fold_left (fun out t => sentinel_feed_collect_loc push_ok t out) servers [].

(** The configurations a timer is armed for; [alloc_ok] is the timer array. *)
Definition sentinel_crowdsec_init_process (push_ok : nat -> bool) (alloc_ok : bool)
    (servers : list location_tree) : list (loc_conf * feed_timer * Z) :=
  let feeds := sentinel_feed_collect push_ok servers in
  if alloc_ok
  then (fun lcf => (lcf, FeedTimer 0 false false, 1000)) <$>
       take SENTINEL_FEED_MAX_TIMERS feeds
  else [].

(** The first location of a tree, and of the servers, whose configuration
    satisfies a test: the walk of the Redis and sink initialisers. *)
Section Locate.
Variable configured : loc_conf -> bool.

Definition pick_loc (o : option loc_conf) : option loc_conf :=
  match o with
  | Some lcf => if configured lcf then Some lcf else None
  | None => None
  end.

Fixpoint scan_loc (t : location_tree) : option loc_conf :=
  match t with
  | LocNil => None
  | LocNode exact inclusive lt sub rt =>
      match pick_loc exact with
      | Some lcf => Some lcf
      | None =>
          match pick_loc inclusive with
          | Some lcf => Some lcf
          | None =>
              match scan_loc lt with
              | Some lcf => Some lcf
              | None =>
                  match scan_loc sub with
                  | Some lcf => Some lcf
                  | None => scan_loc rt
                  end
              end
          end
      end
  end.

(** Each server: its own configuration and its static locations. *)
Fixpoint find_loc (servers : list (option loc_conf * location_tree)) : option loc_conf :=
  match servers with
  | [] => None
  | (srv, t) :: servers' =>
      match pick_loc srv with
      | Some lcf => Some lcf
      | None =>
          match scan_loc t with
          | Some lcf => Some lcf
          | None => find_loc servers'
          end
      end
  end.
End Locate.

(** ** Request-path read *)

(** [crowdsec_hit] and [crowdsec_action]. *)
Definition sentinel_crowdsec_signal (r : request) (z : option zone) (now : Z)
    : option ((bool * Z) * option zone) :=
  match z with
  | None => Some ((false, NGX_SENTINEL_CS_NONE), z)
  | Some _ =>
      match r_addr_text r with
      | [] => Some ((false, NGX_SENTINEL_CS_NONE), z)
      | addr =>
          let! (res, z') := sentinel_shm_crowdsec_lookup z (sentinel_feed_digest addr) now in
          let '(rc, action) := res in
          if bool_decide (rc = NGX_ERROR) then Some ((false, NGX_SENTINEL_CS_NONE), z')
          else if bool_decide (rc = NGX_BUSY) then Some ((true, action), z')
          else Some ((false, NGX_SENTINEL_CS_NONE), z')
      end
  end.
End Feed.
