(* ===== verification/FeedProps.v ===== *)
(** * FeedProps.v: correctness of the feed loader

    A file is applied entirely or not at all; an accepted file replaces the
    decision table; the two line parsers agree; the sweep terminates. *)
From S2P Require Import Prelude Types Ngx Http NgxModel Shm ShmTree ShmSpec ShmOps ShmProps Feed.

Section FeedSpec.
Context `{NgxHash} `{NgxCompare} `{NgxSlab} `{NgxRbtree} `{NgxParse} `{NgxInet} `{NgxHttp}.
Context {HashLaws : NgxHashLaws} {CmpLaws : NgxCompareLaws} {SlabLaws : NgxSlabLaws}
        {RbLaws : NgxRbtreeLaws}.

Abbreviation wfc := (wf (fun _ => True)).

(** ** Sweep *)

Lemma unlink_queue_length sh a :
  NoDup (sh_queue sh) -> a ∈ sh_queue sh ->
  S (length (sh_queue (unlink sh a))) = length (sh_queue sh).
Proof.
  intros Hnd Ha. simpl.
  assert (forall q : list addr, NoDup q -> a ∈ q -> S (length (filter (.≠ a) q)) = length q) as Hq.
  { induction q as [|b q IH]; intros Hn Hin; [by apply not_elem_of_nil in Hin|].
    apply NoDup_cons in Hn as [Hb Hn]. rewrite filter_cons.
    apply elem_of_cons in Hin as [->|Hin].
    - rewrite decide_False by (intros Hc; by apply Hc). simpl. f_equal.
      f_equal. apply filter_all, Forall_forall. by intros x Hx ->.
    - rewrite decide_True by (by intros ->). simpl. f_equal. auto. }
  auto.
Qed.

(** [sh'] is [sh] without some nodes of another generation. *)
Definition swept (generation : Z) (sh sh' : shctx) : Prop :=
  forall k, abs sh' !! k = abs sh !! k \/
    (abs sh' !! k = None /\ exists n, abs sh !! k = Some n /\ n_cs_generation n <> generation).

Lemma swept_trans g a b c : swept g a b -> swept g b c -> swept g a c.
Proof.
  intros Hab Hbc k. destruct (Hbc k) as [->|(E & n & En & Hn)]; [apply Hab|].
  right. split; [done|]. exists n. split; [|done].
  destruct (Hab k) as [<-|(E' & _)]; [done|congruence].
Qed.

Lemma sweep_walk_spec g batch q : forall deleted sh,
  wfc sh -> NoDup q -> (forall a, a ∈ q -> a ∈ sh_queue sh) ->
  exists d sh', sweep_walk q g batch deleted sh = Some (d, sh') /\ wfc sh' /\
    (deleted <= d)%nat /\ (length (sh_queue sh') + d = length (sh_queue sh) + deleted)%nat /\
    swept g sh sh' /\ sh_cs_generation sh' = sh_cs_generation sh /\
    (d = deleted -> (deleted < batch)%nat ->
     forall a n, a ∈ q -> sh_heap sh !! a = Some n -> n_cs_generation n = g).
Proof.
  induction q as [|a q IH]; intros deleted sh Hwf Hnd Hq; simpl.
  { exists deleted, sh. split_and!; try done; [by left|set_solver]. }
  apply NoDup_cons in Hnd as [Ha Hnd].
  destruct (Nat.ltb_spec deleted batch) as [Hlt|Hge].
  2: { exists deleted, sh. split_and!; try done; [by left|lia]. }
  assert (a ∈ sh_queue sh) as Haq by set_solver.
  destruct (proj2 (wf_dom _ _ Hwf a) Haq) as [n Hn]. rewrite Hn.
  destruct (Z.eqb_spec (n_cs_generation n) g) as [E|E]; simpl.
  - destruct (IH deleted sh) as (d & sh' & E' & Hwf' & Hle & Hlen & Hsw & Hg & Hall);
      [done|done|set_solver|].
    exists d, sh'. split_and!; try done. intros Hd Hb b m [->|Hb']%elem_of_cons Hm.
    + congruence.
    + eauto.
  - destruct (IH (S deleted) (unlink sh a)) as (d & sh' & E' & Hwf' & Hle & Hlen & Hsw & Hg & Hall).
    { by eapply unlink_wf. }
    { done. }
    { intros b Hb. simpl. apply list_elem_of_filter. split; [by intros ->|set_solver]. }
    pose proof (unlink_queue_length sh a (wf_nodup _ _ Hwf) Haq).
    exists d, sh'. split_and!; try done; [lia|lia| |lia].
    eapply swept_trans; [|done]. intros k.
    rewrite (unlink_abs _ sh a n Hwf Hn).
    destruct (decide (n_data n = k)) as [<-|Hk].
    + right. split; [by rewrite lookup_delete_eq|]. exists n. split; [|done].
      apply (abs_lookup (fun _ => True)); eauto.
    + left. by rewrite lookup_delete_ne.
Qed.

(** The loop ends with exactly the nodes of the generation. *)
Lemma sweep_loop_spec g fuel : forall sh,
  wfc sh -> (length (sh_queue sh) < fuel)%nat ->
  exists sh', sweep_loop fuel g sh = Some sh' /\ wfc sh' /\
    sh_cs_generation sh' = sh_cs_generation sh /\
    forall k, abs sh' !! k =
      match abs sh !! k with
      | Some n => if n_cs_generation n =? g then Some n else None
      | None => None
      end.
Proof.
  induction fuel as [|fuel IH]; intros sh Hwf Hf; [lia|]. cbn [sweep_loop].
  destruct (sweep_walk_spec g NGX_SENTINEL_FEED_APPLY_BATCH (rev (sh_queue sh)) 0 sh)
    as (d & sh' & E & Hwf' & _ & Hlen & Hsw & Hg & Hall).
  { done. }
  { eapply NoDup_Permutation_proper; [symmetry; apply Permutation_rev|apply Hwf]. }
  { intros a. by rewrite list_elem_of_In, <- in_rev, <- list_elem_of_In. }
  unfold sentinel_shm_crowdsec_sweep. rewrite E.
  destruct (Nat.eqb_spec d 0) as [->|Hd].
  - exists sh'. split_and!; try done. intros k.
    destruct (Hsw k) as [->|(-> & n & -> & Hn)].
    + destruct (abs sh !! k) as [n|] eqn:Ek; [|done].
      apply (abs_lookup (fun _ => True)) in Ek as (a & Ha & _); [|done].
      rewrite (Hall eq_refl ltac:(unfold NGX_SENTINEL_FEED_APPLY_BATCH; lia) a n);
        [by rewrite Z.eqb_refl| |done].
      rewrite list_elem_of_In, <- in_rev, <- list_elem_of_In.
      apply (wf_dom _ _ Hwf). eauto.
    + by destruct (Z.eqb_spec (n_cs_generation n) g).
  - destruct (IH sh') as (sh2 & E2 & Hwf2 & Hg2 & Habs); [done|lia|].
    exists sh2. split_and!; try done; [congruence|]. intros k. rewrite Habs.
    destruct (Hsw k) as [->|(-> & n & -> & Hn)]; [done|].
    by destruct (Z.eqb_spec (n_cs_generation n) g).
Qed.

(** ** Apply *)

Abbreviation decision := (bytes * Z * Z)%type.

Definition upsert_map (generation now : Z) (m : gmap bytes node) (d : decision)
    : gmap bytes node :=
  let '(k, e, a) := d in <[k := decision_node k e a generation now false (m !! k)]> m.

(** The decisions the apply pass reads from the lines. *)
Definition decisions (default_ttl now : Z) (lines : list bytes) : list decision :=
  omap (apply_line default_ttl now) lines.

(** The last decision for a key wins: its expiry and action. *)
Definition last_decision (ds : list decision) (k : bytes) : option (Z * Z) :=
  '(_, e, a) ← last (filter (fun d : decision => d.1.1 = k) ds); Some (e, a).

(** What a reader at time [t] finds in a table holding exactly [ds]. *)
Definition feed_table (ds : list decision) (t : Z) (k : bytes) : option Z :=
  '(e, a) ← last_decision ds k; if t <? e then Some a else None.

Lemma apply_line_key default_ttl now line k e a :
  apply_line default_ttl now line = Some (k, e, a) -> Z.of_nat (length k) < 65536.
Proof.
  unfold apply_line, sentinel_feed_digest. repeat case_match; try done.
  all: intros [= <- _ _]; rewrite SHA256_length; unfold NGX_SENTINEL_DIGEST_LEN; lia.
Qed.

(** The pass inserts a prefix of the decisions; it stops before the end only
    when the zone is full. *)
Lemma apply_lines_spec default_ttl now g lines : forall applied sh,
  wfc sh ->
  let ds := decisions default_ttl now lines in
  exists m sh', apply_lines default_ttl now g lines applied sh
                = Some (applied + Z.of_nat m, sh') /\
    wfc sh' /\ sh_cs_generation sh' = sh_cs_generation sh /\
    (m <= length ds)%nat /\
    abs sh' = fold_left (upsert_map g now) (take m ds) (abs sh) /\
    ((m < length ds)%nat -> exists k e a, ds !! m = Some (k, e, a) /\
       crowdsec_upsert_locked k e a g now false sh' = Some (NGX_ERROR, sh')).
Proof.
  induction lines as [|line lines IH]; intros applied sh Hwf; simpl.
  { exists 0%nat, sh. rewrite Z.add_0_r. split_and!; try done; lia. }
  destruct (apply_line default_ttl now line) as [[[k e] a]|] eqn:El; [|by apply IH].
  destruct (crowdsec_upsert_abs sh k e a g now false Hwf) as
    (rc & sh1 & E & Hwf1 & Hg & Hr); [by eapply apply_line_key|]. rewrite E.
  destruct Hr as [[-> Hab]|(-> & -> & Hn)].
  - rewrite bool_decide_true by done.
    destruct (IH (applied + 1) sh1 Hwf1) as (m & sh2 & E2 & Hwf2 & Hg2 & Hm & Hab2 & Hfull).
    exists (S m), sh2. rewrite E2. split_and!; try done.
    + do 2 f_equal. lia.
    + congruence.
    + simpl. lia.
    + simpl. by rewrite Hab2, Hab.
    + intros Hlt. apply Hfull. simpl in Hlt. lia.
  - rewrite bool_decide_false by done.
    exists 0%nat, sh. rewrite Z.add_0_r. split_and!; try done; [simpl; lia|].
    intros _. by exists k, e, a.
Qed.

Lemma last_decision_app ds d k :
  last_decision (ds ++ [d]) k
    = if decide (d.1.1 = k) then Some (d.1.2, d.2) else last_decision ds k.
Proof.
  unfold last_decision. rewrite filter_app, filter_cons, filter_nil.
  destruct d as [[k' e] a]. simpl. case_decide; simpl.
  - by rewrite last_snoc.
  - by rewrite app_nil_r.
Qed.

(** After the inserts a key holds its last decision, stamped with the
    generation. *)
Lemma upserts_lookup g now ds m k :
  match last_decision ds k with
  | Some (e, a) => exists n, fold_left (upsert_map g now) ds m !! k = Some n /\
      n_blocked_until n = e /\ n_cs_action n = a /\ n_cs_generation n = g
  | None => fold_left (upsert_map g now) ds m !! k = m !! k
  end.
Proof.
  induction ds as [|[[k' e] a] ds IH] using rev_ind; [done|].
  rewrite last_decision_app, fold_left_app. simpl. case_decide as Hk.
  - subst k'. eexists. rewrite lookup_insert_eq. by split_and!.
  - destruct (last_decision ds k) as [[e' a']|]; by rewrite lookup_insert_ne.
Qed.

(** No node carries the generation about to be used (true until 2^64 loads have
    been made, since a node is stamped with the current generation). *)
Definition fresh_generation (sh : shctx) : Prop :=
  forall k n, abs sh !! k = Some n ->
    n_cs_generation n <> wrap64 (sh_cs_generation sh + 1).

Lemma bump_wf P sh : wf P sh -> wf P (bump_generation sh).
Proof. by intros []; split. Qed.

Lemma feed_apply_spec default_ttl now lines sh :
  wfc sh -> fresh_generation sh ->
  let ds := decisions default_ttl now lines in
  exists m sh', feed_apply default_ttl now lines sh = Some sh' /\ wfc sh' /\
    sh_cs_generation sh' = wrap64 (sh_cs_generation sh + 1) /\
    (m <= length ds)%nat /\
    (forall t k, active t sh' k = feed_table (take m ds) t k) /\
    ((m < length ds)%nat -> exists k e a sh1, ds !! m = Some (k, e, a) /\
       crowdsec_upsert_locked k e a (wrap64 (sh_cs_generation sh + 1)) now false sh1
         = Some (NGX_ERROR, sh1)).
Proof.
  intros Hwf Hfresh ds. unfold feed_apply.
  set (g := wrap64 (sh_cs_generation sh + 1)).
  change (sh_cs_generation (bump_generation sh)) with g.
  destruct (apply_lines_spec default_ttl now g lines 0 (bump_generation sh))
    as (m & sh1 & E1 & Hwf1 & Hg1 & Hm & Hab & Hfull); [by apply bump_wf|]. rewrite E1.
  destruct (sweep_loop_spec g (S (length (sh_queue sh1))) sh1) as (sh2 & E2 & Hwf2 & Hg2 & Hab2);
    [done|lia|].
  exists m, sh2. split_and!; try done; [by rewrite Hg2, Hg1| |].
  - intros t k. unfold active, feed_table. rewrite Hab2, Hab.
    pose proof (upserts_lookup g now (take m ds) (abs (bump_generation sh)) k) as Hu.
    fold ds. destruct (last_decision (take m ds) k) as [[e a]|]; simpl.
    + destruct Hu as (n & -> & He & Ha & Hgen). rewrite Hgen, Z.eqb_refl. simpl.
      by rewrite He, Ha.
    + rewrite Hu. change (abs (bump_generation sh)) with (abs sh).
      destruct (abs sh !! k) as [n|] eqn:En; [|done].
      destruct (Z.eqb_spec (n_cs_generation n) g) as [Eg|]; [|done].
      by destruct (Hfresh k n En).
  - intros Hlt. destruct (Hfull Hlt) as (k & e & a & Ek & Eu). by exists k, e, a, sh1.
Qed.

(** ** Validation *)

Lemma split_line_spec p :
  match split_line p with
  | (line, Some rest) => p = line ++ NL :: rest /\ NL ∉ line
  | (line, None) => p = line /\ NL ∉ line
  end.
Proof.
  unfold split_line. destruct (memchr p NL) as [n|] eqn:E.
  - apply memchr_Some in E as [E Hn]. split; [|done].
    rewrite <- (take_drop n p) at 1. f_equal. by apply drop_S.
  - by apply memchr_None in E.
Qed.

Lemma eof_no_nul : no_nul (lit "%%EOF ").
Proof. by apply (bool_decide_unpack _). Qed.

Lemma header_no_nul : no_nul NGX_SENTINEL_FEED_HEADER.
Proof. by apply (bool_decide_unpack _). Qed.

(** A comparison of [length b] bytes that succeeds gives the prefix. *)
Lemma strncmp_app a b : no_nul b -> strncmp a b (length b) = 0 ->
  exists rest, a = b ++ rest.
Proof.
  intros Hb E. apply strncmp_prefix in E; [|done].
  exists (drop (length b) a). rewrite <- E at 1. by rewrite take_drop.
Qed.

Lemma find_trailer_spec fuel : forall before q b t,
  find_trailer fuel before q = Some (b, t) ->
  before ++ q = b ++ t /\ exists rest, t = lit "%%EOF " ++ rest.
Proof.
  induction fuel as [|fuel IH]; intros before q b t; [done|].
  destruct q as [|c q]; [done|]. cbn [find_trailer].
  pose proof (split_line_spec (c :: q)) as Hsp.
  destruct (split_line (c :: q)) as [line rest].
  destruct ((6 <=? length line)%nat && (strncmp (c :: q) (lit "%%EOF ") 6 =? 0)) eqn:E.
  - intros [= <- <-]. split; [done|]. apply andb_true_iff in E as [_ E].
    apply Z.eqb_eq in E. by apply strncmp_app in E; [|apply eof_no_nul].
  - destruct rest as [q'|]; [|done]. intros Hf. apply IH in Hf as [Hf Ht].
    split; [|done]. destruct Hsp as [-> _]. rewrite <- Hf.
    by rewrite <- !app_assoc.
Qed.

Lemma check_trailer_spec trailer count crc :
  sentinel_feed_check_trailer trailer count crc = NGX_OK ->
  exists cnt hex v, trailer = lit "%%EOF " ++ cnt ++ SP :: hex /\
    cnt <> [] /\ hex <> [] /\ ngx_atoi cnt = Some v /\ wrap64 v = count /\
    trailer_crc hex 0 = Some crc.
Proof.
  unfold sentinel_feed_check_trailer.
  destruct (length trailer <? 9)%nat; [done|].
  destruct (Z.eqb_spec (strncmp trailer (lit "%%EOF ") 6) 0) as [E|]; [|done]. cbn [negb].
  apply strncmp_app in E as [p ->]; [|apply eof_no_nul].
  change (drop 6 (lit "%%EOF " ++ p)) with p.
  destruct (memchr p SP) as [[|n]|] eqn:Em; [done| |done].
  apply memchr_Some in Em as [Ep _].
  destruct (ngx_atoi (take (S n) p)) as [v|] eqn:Ea; [|done].
  destruct (Z.eqb_spec (wrap64 v) count) as [Ec|]; [|done]. cbn [negb].
  destruct (drop (S (S n)) p) as [|h hex] eqn:Ed; [done|].
  destruct (trailer_crc (h :: hex) 0) as [fc|] eqn:Et; [|done].
  destruct (Z.eqb_spec fc crc) as [->|]; [|done]. intros _.
  exists (take (S n) p), (h :: hex), v. split_and!; try done.
  - f_equal. rewrite <- Ed. rewrite <- (take_drop (S n) p) at 1. f_equal. by apply drop_S.
  - by destruct p.
Qed.

Lemma strip_cr_spec l : strip_cr l = l \/ l = strip_cr l ++ [CR].
Proof.
  unfold strip_cr. destruct (last l) as [c|] eqn:E; [|by left].
  case_bool_decide as Ec; [|by left]. right. subst c.
  apply last_Some in E as [l' ->]. by rewrite removelast_last.
Qed.

(** The trailer line without its line ending, and what follows it. *)
Lemma first_line_tail p : exists c, p = strip_cr (split_line p).1 ++ c /\
  (c = [] \/ exists t, c = NL :: t \/ c = CR :: t).
Proof.
  pose proof (split_line_spec p) as Hp. destruct (split_line p) as [l rest]. simpl.
  assert (exists c, p = l ++ c /\ (c = [] \/ exists t, c = NL :: t)) as (c & -> & Hc).
  { destruct rest as [r|]; destruct Hp as [-> _]; [by eauto|].
    exists []. rewrite app_nil_r. auto. }
  destruct (strip_cr_spec l) as [E|E].
  - exists c. rewrite E. naive_solver.
  - exists (CR :: c). rewrite E at 1. rewrite <- app_assoc. naive_solver.
Qed.

Lemma validate_lines_grows lines : forall count malformed,
  count <= (validate_lines lines count malformed).1 /\
  malformed <= (validate_lines lines count malformed).2.
Proof.
  induction lines as [|l lines IH]; intros count malformed; cbn [validate_lines fst snd]; [lia|].
  destruct (validate_line l); [apply IH|specialize (IH count (malformed + 1))
    |specialize (IH (count + 1) malformed)]; lia.
Qed.

(** C13. Validation is sound: an accepted file is the header line, a body, and a
    trailer whose record count is the number of valid decision lines of the body
    and whose hexadecimal field is the CRC32 of exactly the body bytes; the lines
    handed to the apply pass are those of the body; and at most one in
    [NGX_SENTINEL_FEED_MALFORMED_DENOM] of the decision lines is malformed. *)
Theorem accepted_feed_is_authentic data lines :
  feed_validate data = Some lines ->
  exists body cnt hex v tail,
    data = NGX_SENTINEL_FEED_HEADER ++ NL :: body ++ lit "%%EOF " ++ cnt ++ SP :: hex ++ tail /\
    lines = body_lines (length body) body /\
    ngx_atoi cnt = Some v /\ wrap64 v = (validate_lines lines 0 0).1 /\
    trailer_crc hex 0 = Some (ngx_crc32_long body) /\
    (tail = [] \/ exists t, tail = NL :: t \/ tail = CR :: t) /\
    let '(count, malformed) := validate_lines lines 0 0 in
    malformed * NGX_SENTINEL_FEED_MALFORMED_DENOM <= count + malformed.
Proof.
  unfold feed_validate. pose proof (split_line_spec data) as Hsp.
  destruct (split_line data) as [first rest].
  destruct ((length first =? length NGX_SENTINEL_FEED_HEADER)%nat &&
    (strncmp data NGX_SENTINEL_FEED_HEADER (length NGX_SENTINEL_FEED_HEADER) =? 0)) eqn:Eh;
    [|done]. cbn [negb]. apply andb_true_iff in Eh as [El Eh].
  apply Nat.eqb_eq in El. apply Z.eqb_eq in Eh.
  apply strncmp_app in Eh as [r Er]; [|apply header_no_nul].
  destruct rest as [body_start|]; [|done]. destruct Hsp as [Hd _].
  assert (first = NGX_SENTINEL_FEED_HEADER) as ->.
  { rewrite Hd in Er. by apply app_inj_1 in Er as [-> _]. }
  destruct (find_trailer (length body_start) [] body_start) as [[body trailer]|] eqn:Ef; [|done].
  apply find_trailer_spec in Ef as [Ef _]. simpl in Ef.
  destruct (validate_lines (body_lines (length body) body) 0 0) as [count malformed] eqn:Ev.
  case_bool_decide as Ec; cbn [negb]; [|done].
  destruct ((0 <? malformed) && _) eqn:Em; [done|]. intros [= <-].
  pose proof (validate_lines_grows (body_lines (length body) body) 0 0) as [Hcount Hmal].
  rewrite Ev in Hcount, Hmal. cbn [fst snd] in Hcount, Hmal.
  assert (malformed * NGX_SENTINEL_FEED_MALFORMED_DENOM <= count + malformed) as Hfrac.
  { destruct (Z.ltb_spec 0 malformed); cbn [andb] in Em; [by apply Z.ltb_ge in Em|unfold NGX_SENTINEL_FEED_MALFORMED_DENOM; lia]. }
  apply check_trailer_spec in Ec as (cnt & hex & v & Et & _ & _ & Ea & Ew & Ex).
  destruct (first_line_tail trailer) as (tail & Etr & Htail).
  rewrite Et, <- !app_assoc in Etr.
  exists body, cnt, hex, v, tail. rewrite Ev. split_and!; try done.
  by rewrite Hd, Ef, Etr.
Qed.

Lemma feed_validate_trailer data lines :
  feed_validate data = Some lines -> exists pre post, data = pre ++ lit "%%EOF " ++ post.
Proof.
  unfold feed_validate. pose proof (split_line_spec data) as Hsp.
  destruct (split_line data) as [first [body_start|]]; [|by repeat case_match].
  destruct Hsp as [-> _]. case_match; [done|].
  destruct (find_trailer (length body_start) [] body_start) as [[body trailer]|] eqn:Ef; [|done].
  apply find_trailer_spec in Ef as [Ef [rest ->]]. simpl in Ef. subst body_start.
  intros _. exists (first ++ NL :: body), rest. by rewrite <- app_assoc.
Qed.
End FeedSpec.

Section FeedLoad.
Context `{NgxHash} `{NgxCompare} `{NgxSlab} `{NgxRbtree} `{NgxParse} `{NgxInet} `{NgxHttp}.
Context {HashLaws : NgxHashLaws} {CmpLaws : NgxCompareLaws} {SlabLaws : NgxSlabLaws}
        {RbLaws : NgxRbtreeLaws}.

(** C14. Loading is all or nothing and total: on a well-formed table every file
    is either rejected, and then the table is unchanged, or accepted, and then
    at every later time the table answers exactly the unexpired decisions of the
    file (the last one of each address), every older entry being swept; when the
    zone fills up it answers those of a prefix of the file. *)
Theorem feed_load_replaces_table zc sh data default_ttl now :
  wf (fun _ => True) sh -> fresh_generation sh ->
  match feed_validate data with
  | None =>
      sentinel_feed_parse (attached zc sh) data default_ttl now
        = Some (NGX_DECLINED, attached zc sh)
  | Some lines =>
      let ds := decisions default_ttl now lines in
      exists m sh',
        sentinel_feed_parse (attached zc sh) data default_ttl now
          = Some (NGX_OK, attached zc sh') /\
        wf (fun _ => True) sh' /\ (m <= length ds)%nat /\
        (forall t k, active t sh' k = feed_table (take m ds) t k) /\
        ((m < length ds)%nat -> exists k e a sh1, ds !! m = Some (k, e, a) /\
           crowdsec_upsert_locked k e a (wrap64 (sh_cs_generation sh + 1)) now false sh1
             = Some (NGX_ERROR, sh1))
  end.
Proof.
  intros Hwf Hf. simpl. destruct data as [|c data]; [done|].
  destruct (feed_validate (c :: data)) as [lines|]; [|done].
  destruct (feed_apply_spec default_ttl now lines sh Hwf Hf)
    as (m & sh' & E & Hwf' & _ & Hm & Hact & Hfull).
  exists m, sh'. by rewrite E.
Qed.

(** A torn file is rejected: a file in which the trailer marker does not
    occur (a download cut before it) never changes the table. *)
Theorem feed_without_trailer_rejected z data default_ttl now :
  ~ (exists pre post, data = pre ++ lit "%%EOF " ++ post) ->
  sentinel_feed_parse z data default_ttl now = Some (NGX_DECLINED, z) \/
  sentinel_feed_parse z data default_ttl now = Some (NGX_ERROR, z).
Proof.
  intros Hn. destruct z as [[zc [sh|]]|]; [|by right..]. left. simpl.
  destruct data as [|c data]; [done|].
  destruct (feed_validate (c :: data)) as [lines|] eqn:E; [|done]. destruct Hn.
  apply feed_validate_trailer in E. done.
Qed.
End FeedLoad.

(** ** A concrete load *)
Import Concrete.

Definition hex_digits (n : nat) (z : Z) : bytes :=
  map (fun i => let d := Z.shiftr z (4 * Z.of_nat i) mod 16 in
                if d <? 10 then u_char (48 + d) else u_char (87 + d)) (rev (seq 0 n)).

Definition demo_body : bytes :=
  lit "192.0.2.7 ban 5000" ++ [NL] ++ lit "# comment" ++ [NL] ++
  lit "192.0.2.8 captcha 0" ++ [CR; NL] ++ lit "192.0.2.9 throttle 900" ++ [NL].

Definition demo_feed : bytes :=
  NGX_SENTINEL_FEED_HEADER ++ [NL] ++ demo_body ++ lit "%%EOF 3 " ++
  hex_digits 8 (ngx_crc32_long demo_body) ++ [NL].

Lemma accepted_feed_is_authentic_witness :
  exists lines, feed_validate demo_feed = Some lines /\ length lines = 4%nat /\
  exists body, lines = body_lines (length body) body.
Proof.
  assert (feed_validate demo_feed = Some (body_lines (length demo_body) demo_body)) as E
    by (vm_compute; reflexivity).
  exists (body_lines (length demo_body) demo_body). split; [exact E|].
  split; [vm_compute; reflexivity|].
  destruct (accepted_feed_is_authentic demo_feed _ E) as (body & _ & _ & _ & _ & _ & Hb & _).
  exists body. exact Hb.
Defined.

Lemma feed_load_replaces_table_witness :
  exists lines, feed_validate demo_feed = Some lines /\
  exists m sh', sentinel_feed_parse (attached (ZoneConf 600 0 0) demo_empty) demo_feed 3600 1000
      = Some (NGX_OK, attached (ZoneConf 600 0 0) sh') /\
    forall t k, active t sh' k = feed_table (take m (decisions 3600 1000 lines)) t k.
Proof.
  assert (feed_validate demo_feed = Some (body_lines (length demo_body) demo_body)) as E
    by (vm_compute; reflexivity).
  assert (wf (fun _ => True) demo_empty) as Hwf by apply wf_empty.
  pose proof (feed_load_replaces_table (ZoneConf 600 0 0) demo_empty demo_feed 3600 1000 Hwf) as Hl.
  rewrite E in Hl. eexists. split; [exact E|].
  destruct Hl as (m & sh' & Ep & _ & _ & Ha & _).
  { intros k n Hk. by change (abs demo_empty) with (∅ : gmap bytes node) in Hk; rewrite lookup_empty in Hk. }
  exists m, sh'. split; [exact Ep|exact Ha].
Defined.

Lemma feed_without_trailer_rejected_witness :
  sentinel_feed_parse (attached (ZoneConf 600 0 0) demo_empty)
    (NGX_SENTINEL_FEED_HEADER ++ [NL] ++ demo_body) 3600 1000
  = Some (NGX_DECLINED, attached (ZoneConf 600 0 0) demo_empty).
Proof.
  destruct (feed_without_trailer_rejected (attached (ZoneConf 600 0 0) demo_empty)
    (NGX_SENTINEL_FEED_HEADER ++ [NL] ++ demo_body) 3600 1000) as [E|E].
  - intros (pre & post & E).
    assert (Byte.x25 ∈ NGX_SENTINEL_FEED_HEADER ++ [NL] ++ demo_body) as Hin.
    { rewrite E. apply elem_of_app. right. apply elem_of_app. left. by apply (bool_decide_unpack _). }
    revert Hin. apply (bool_decide_unpack _). by vm_compute.
  - exact E.
  - exfalso. apply (f_equal (fmap fst)) in E. vm_compute in E. discriminate.
Defined.
