(* ===== verification/FeedConc.v ===== *)
(** * FeedConc.v: several workers load the feed into one zone

    Every worker process arms its own timer for the feed and the loader releases
    the zone lock between the generation bump, every batch of 256 inserts and
    every sweep batch ([sentinel_feed_parse]).  The system is a step relation on
    the shared context and the phase of each worker; a step is one critical
    section. *)
From S2P Require Import Prelude Types Ngx NgxModel Http Shm ShmTree ShmSpec ShmOps ShmProps Feed.
From S2P Require Import FeedProps.

Section Conc.
Context `{NgxHash} `{NgxCompare} `{NgxSlab} `{NgxRbtree} `{NgxParse} `{NgxInet} `{NgxHttp}.

(** The phase of a loader whose file has been accepted. *)
Inductive loader : Type :=
  | LBump (lines : list bytes)
  | LApply (generation : Z) (lines : list bytes)
  | LSweep (generation : Z)
  | LDone.

(** The critical section of the apply loop: insert until [budget] decisions are
    in, the lines are exhausted or the zone is full; the remaining lines. *)
Fixpoint apply_batch (default_ttl now generation : Z) (lines : list bytes)
    (budget : nat) (sh : shctx) : option (list bytes * shctx) :=
  match lines with
  | [] => Some ([], sh)
  | line :: lines' =>
      match budget with
      | O => Some (lines, sh)
      | S budget' =>
          match apply_line default_ttl now line with
          | None => apply_batch default_ttl now generation lines' budget sh
          | Some (key, exp, act) =>
              let! (rc, sh') := crowdsec_upsert_locked key exp act generation now false sh in
              if bool_decide (rc = NGX_OK)
              then apply_batch default_ttl now generation lines' budget' sh'
              else Some ([], sh')
          end
      end
  end.

(** One critical section of a loader. *)
Definition loader_step (default_ttl now : Z) (w : loader) (sh : shctx)
    : option (loader * shctx) :=
  match w with
  | LBump lines =>
      let sh := bump_generation sh in Some (LApply (sh_cs_generation sh) lines, sh)
  | LApply g lines =>
      let! (rest, sh) := apply_batch default_ttl now g lines NGX_SENTINEL_FEED_APPLY_BATCH sh in
      Some (match rest with [] => LSweep g | _ => LApply g rest end, sh)
  | LSweep g =>
      let! (d, sh) := sentinel_shm_crowdsec_sweep sh g NGX_SENTINEL_FEED_APPLY_BATCH in
      Some (if (d =? 0)%nat then LDone else LSweep g, sh)
  | LDone => Some (LDone, sh)
  end.

Definition system : Type := list loader * shctx.

(** Any worker that is not done may take the lock next. *)
Inductive step (default_ttl now : Z) : system -> system -> Prop :=
  | step_worker i ws sh w w' sh' :
      ws !! i = Some w -> w <> LDone ->
      loader_step default_ttl now w sh = Some (w', sh') ->
      step default_ttl now (ws, sh) (<[i := w']> ws, sh').

Abbreviation reachable default_ttl now := (rtc (step default_ttl now)).

(** Run a schedule of worker indices. *)
Fixpoint run (default_ttl now : Z) (schedule : list nat) (s : system) : option system :=
  match schedule with
  | [] => Some s
  | i :: schedule' =>
      let! w := s.1 !! i in
      match w with
      | LDone => None
      | _ =>
          let! (w', sh') := loader_step default_ttl now w s.2 in
          run default_ttl now schedule' (<[i := w']> s.1, sh')
      end
  end.

Lemma run_reachable default_ttl now schedule : forall s s',
  run default_ttl now schedule s = Some s' -> reachable default_ttl now s s'.
Proof.
  induction schedule as [|i schedule IH]; intros [ws sh] s'; cbn [run fst snd].
  { by intros [= <-]. }
  destruct (ws !! i) as [w|] eqn:Ew; [|done].
  assert (w <> LDone -> match loader_step default_ttl now w sh with
    | Some (w', sh') => run default_ttl now schedule (<[i := w']> ws, sh')
    | None => None end = Some s' -> reachable default_ttl now (ws, sh) s') as Hw.
  { intros Hne. destruct (loader_step default_ttl now w sh) as [[w' sh']|] eqn:E; [|done].
    intros Hr. eapply rtc_l; [by eapply step_worker|]. by apply IH. }
  by destruct w; auto.
Qed.

Context {HashLaws : NgxHashLaws} {CmpLaws : NgxCompareLaws} {SlabLaws : NgxSlabLaws}
        {RbLaws : NgxRbtreeLaws}.

Lemma apply_batch_wf default_ttl now g lines : forall budget sh,
  wf (fun _ => True) sh ->
  exists rest sh', apply_batch default_ttl now g lines budget sh = Some (rest, sh') /\
    wf (fun _ => True) sh'.
Proof.
  induction lines as [|line lines IH]; intros budget sh Hwf; simpl; [by eauto|].
  destruct budget as [|budget]; [by eauto|].
  destruct (apply_line default_ttl now line) as [[[k e] a]|] eqn:El; [|by apply IH].
  destruct (crowdsec_upsert_abs sh k e a g now false Hwf) as (rc & sh1 & E & Hwf1 & _);
    [by eapply apply_line_key|].
  rewrite E. case_bool_decide; [by apply IH|by eauto].
Qed.

Lemma loader_step_wf default_ttl now w sh :
  wf (fun _ => True) sh ->
  exists w' sh', loader_step default_ttl now w sh = Some (w', sh') /\ wf (fun _ => True) sh'.
Proof.
  intros Hwf. destruct w as [lines|g lines|g|]; simpl.
  - do 2 eexists. split; [done|]. by apply bump_wf.
  - destruct (apply_batch_wf default_ttl now g lines NGX_SENTINEL_FEED_APPLY_BATCH sh Hwf)
      as (rest & sh' & -> & Hwf'). by do 2 eexists.
  - destruct (sweep_walk_spec g NGX_SENTINEL_FEED_APPLY_BATCH (rev (sh_queue sh)) 0 sh)
      as (d & sh' & E & Hwf' & _); [done| | |].
    { eapply NoDup_Permutation_proper; [symmetry; apply Permutation_rev|apply Hwf]. }
    { intros a. by rewrite list_elem_of_In, <- in_rev, <- list_elem_of_In. }
    unfold sentinel_shm_crowdsec_sweep. rewrite E. by do 2 eexists.
  - by do 2 eexists.
Qed.

(** *** A load without interference *)

(** The critical sections of one loader that nobody interrupts. *)
Definition lone (default_ttl now : Z) (p q : loader * shctx) : Prop :=
  p.1 <> LDone /\ loader_step default_ttl now p.1 p.2 = Some q.

(** A batch is a part of the sequential pass. *)
Lemma apply_batch_lines default_ttl now g lines : forall budget sh applied rest sh',
  apply_batch default_ttl now g lines budget sh = Some (rest, sh') ->
  (length rest <= length lines)%nat /\
  ((0 < budget)%nat -> lines <> [] -> (length rest < length lines)%nat) /\
  exists applied', apply_lines default_ttl now g lines applied sh
                   = apply_lines default_ttl now g rest applied' sh'.
Proof.
  induction lines as [|line lines IH]; intros budget sh applied rest sh'; cbn [apply_batch apply_lines].
  { intros [= <- <-]. split_and!; [done..|]. by exists applied. }
  destruct budget as [|budget].
  { intros [= <- <-]. split_and!; [done|lia|]. by exists applied. }
  destruct (apply_line default_ttl now line) as [[[k e] a]|] eqn:El.
  - destruct (crowdsec_upsert_locked k e a g now false sh) as [[rc sh1]|]; [|done].
    case_bool_decide.
    + intros E. destruct (IH budget sh1 (applied + 1) rest sh' E) as (Hle & _ & Ha).
      simpl. split_and!; [lia|lia|done].
    + intros [= <- <-]. simpl. split_and!; [lia|lia|]. by exists applied.
  - intros E. destruct (IH (S budget) sh applied rest sh' E) as (Hle & _ & Ha).
    simpl. split_and!; [lia|lia|done].
Qed.

Lemma apply_lines_lone default_ttl now g fuel : forall lines sh applied applied' sh',
  (length lines < fuel)%nat -> wf (fun _ => True) sh ->
  apply_lines default_ttl now g lines applied sh = Some (applied', sh') ->
  rtc (lone default_ttl now) (LApply g lines, sh) (LSweep g, sh').
Proof.
  induction fuel as [|fuel IH]; intros lines sh applied applied' sh' Hf Hwf E; [lia|].
  destruct (apply_batch_wf default_ttl now g lines NGX_SENTINEL_FEED_APPLY_BATCH sh Hwf)
    as (rest & sh1 & Eb & Hwf1).
  destruct (apply_batch_lines default_ttl now g lines _ sh applied rest sh1 Eb)
    as (Hle & Hlt & a1 & Ea). rewrite Ea in E.
  assert (lone default_ttl now (LApply g lines, sh)
    (match rest with [] => LSweep g | _ => LApply g rest end, sh1)) as Hstep.
  { split; [done|]. cbn [fst snd loader_step]. by rewrite Eb. }
  eapply rtc_l; [exact Hstep|]. destruct rest as [|r rest].
  - cbn [apply_lines] in E. injection E as _ <-. apply rtc_refl.
  - eapply IH; [|exact Hwf1|exact E].
    assert (lines <> []) by (intros ->; simpl in *; lia).
    specialize (Hlt ltac:(unfold NGX_SENTINEL_FEED_APPLY_BATCH; lia) ltac:(done)). lia.
Qed.

Lemma sweep_loop_lone default_ttl now g fuel : forall sh sh',
  sweep_loop fuel g sh = Some sh' -> rtc (lone default_ttl now) (LSweep g, sh) (LDone, sh').
Proof.
  induction fuel as [|fuel IH]; intros sh sh'; cbn [sweep_loop]; [done|].
  destruct (sentinel_shm_crowdsec_sweep sh g NGX_SENTINEL_FEED_APPLY_BATCH) as [[d sh1]|] eqn:E;
    [|done]. intros Hs.
  assert (lone default_ttl now (LSweep g, sh) (if (d =? 0)%nat then LDone else LSweep g, sh1))
    as Hstep by (split; [done|]; cbn [fst snd loader_step]; by rewrite E).
  eapply rtc_l; [exact Hstep|]. destruct (d =? 0)%nat; [|by apply IH].
  injection Hs as ->. apply rtc_refl.
Qed.

(** Alone, the loader computes the sequential load. *)
Lemma feed_apply_lone default_ttl now lines sh :
  wf (fun _ => True) sh ->
  exists sh', feed_apply default_ttl now lines sh = Some sh' /\ wf (fun _ => True) sh' /\
    rtc (lone default_ttl now) (LBump lines, sh) (LDone, sh').
Proof.
  intros Hwf. set (g := sh_cs_generation (bump_generation sh)).
  destruct (apply_lines_spec default_ttl now g lines 0 (bump_generation sh))
    as (m & sh1 & E1 & Hwf1 & _); [by apply bump_wf|].
  destruct (sweep_loop_spec g (S (length (sh_queue sh1))) sh1) as (sh2 & E2 & Hwf2 & _); [done|lia|].
  exists sh2. split; [unfold feed_apply; fold g; by rewrite E1|]. split; [done|].
  eapply rtc_l; [by split|].
  transitivity (LSweep g, sh1); [|by eapply sweep_loop_lone].
  eapply apply_lines_lone; [apply Nat.lt_succ_diag_r|by apply bump_wf|exact E1].
Qed.

(** Whatever the interleaving of the workers' critical sections, the shared
    table stays well formed, and no worker ever faults or gets stuck before its
    load is done. *)
Theorem interleaved_loads_are_safe default_ttl now ws sh ws' sh' :
  wf (fun _ => True) sh ->
  reachable default_ttl now (ws, sh) (ws', sh') ->
  wf (fun _ => True) sh' /\
  forall i w, ws' !! i = Some w -> w <> LDone ->
    exists s2, step default_ttl now (ws', sh') s2.
Proof.
  intros Hwf Hr.
  assert (wf (fun _ => True) sh') as Hwf'.
  { change sh with (ws, sh).2 in Hwf. change sh' with (ws', sh').2.
    induction Hr as [s|s1 s2 s3 Hs _ IH]; [done|]. apply IH.
    destruct Hs as [i ws1 sh1 w w' sh2 _ _ E].
    destruct (loader_step_wf default_ttl now w sh1 Hwf) as (w2 & sh3 & E2 & ?). simpl in *.
    congruence. }
  split; [done|]. intros i w Ei Hne.
  destruct (loader_step_wf default_ttl now w sh' Hwf') as (w2 & sh2 & E & _).
  eexists. by eapply step_worker.
Qed.
End Conc.

(** ** Two workers *)
Import Concrete.

Definition demo_lines : list bytes := body_lines (length demo_body) demo_body.

(** Both bump and apply before either sweeps. *)
Definition bad_schedule : list nat := [0; 0; 1; 1; 0; 0; 1]%nat.

Lemma interleaved_loads_are_safe_witness :
  exists s, run 3600 1000 [0%nat; 1%nat; 1%nat] ([LBump demo_lines; LBump demo_lines], demo_empty) = Some s /\
    wf (fun _ => True) s.2.
Proof.
  destruct (run 3600 1000 [0%nat; 1%nat; 1%nat] ([LBump demo_lines; LBump demo_lines], demo_empty))
    as [[ws sh]|] eqn:E; [|apply (f_equal (fmap (fun _ => tt))) in E; vm_compute in E; discriminate].
  exists (ws, sh). split; [done|].
  apply run_reachable in E.
  apply (interleaved_loads_are_safe 3600 1000 [LBump demo_lines; LBump demo_lines] demo_empty ws sh);
    [apply wf_empty|exact E].
Defined.

(** C33. Loading in two workers can empty the table: there is an interleaving of
    two loaders of the same accepted file, which bans 192.0.2.7 until 5000, after
    which both are done and the table holds no entry at all. *)
Theorem concurrent_loads_can_empty_table :
  feed_validate demo_feed = Some demo_lines /\
  feed_table (decisions 3600 1000 demo_lines) 1000
    (sentinel_feed_digest (lit "192.0.2.7")) = Some NGX_SENTINEL_CS_BAN /\
  exists sh, rtc (step 3600 1000) ([LBump demo_lines; LBump demo_lines], demo_empty)
               ([LDone; LDone], sh) /\
    forall t k, active t sh k = None.
Proof.
  split; [by vm_compute|]. split; [by vm_compute|].
  set (start := ([LBump demo_lines; LBump demo_lines], demo_empty)).
  pose (summary := fun s : system => (s.1, map_to_list (sh_heap s.2))).
  assert (summary <$> run 3600 1000 bad_schedule start = Some ([LDone; LDone], [])) as Es
    by (vm_compute; reflexivity).
  destruct (run 3600 1000 bad_schedule start) as [[ws sh]|] eqn:E; [|discriminate].
  assert (summary (ws, sh) = ([LDone; LDone], [])) as Ew
    by (change (Some (summary (ws, sh)) = Some ([LDone; LDone], [])) in Es; congruence).
  unfold summary in Ew. cbn [fst snd] in Ew. injection Ew as -> Hh.
  exists sh. split; [by apply run_reachable in E|].
  intros t k. unfold active, abs. by rewrite Hh.
Qed.
