(* ===== verification/Fcrdns.v ===== *)
(** * Fcrdns.v: forward-confirmed reverse DNS ([sentinel_fcrdns.c])

    A request that claims to be a known crawler consults a verdict cache kept in
    a zone of the identity store; a missing verdict starts an asynchronous
    resolution that outlives the request: a PTR lookup of the client address,
    then a forward lookup of the name.  nginx's resolver is the environment: its
    answers are arguments of the two callbacks.  The state of a resolution is
    what its carrier waits for; the step relation interleaves any number of
    resolutions and requests on one cache zone. *)
From S2P Require Import Prelude Types Ngx Http NgxModel Shm ShmTree ShmSpec ShmOps ShmProps SignalProps.

Definition NGX_SENTINEL_FCRDNS_PENDING : Z := 0.
Definition NGX_SENTINEL_FCRDNS_VERIFIED : Z := 1.
Definition NGX_SENTINEL_FCRDNS_FAILED : Z := 2.
Definition NGX_SENTINEL_FCRDNS_DEFAULT_TTL : Z := 3600.

Section Fcrdns.
Context `{NgxHash} `{NgxCompare} `{NgxSlab} `{NgxRbtree} `{NgxParse} `{NgxHttp}.

(** ** Verdict cache *)

Definition sentinel_shm_fcrdns_get (z : option zone) (key : bytes) (now : Z)
    : option (Z * option zone) :=
  let! (res, z') := sentinel_shm_crowdsec_lookup z key now in
  let '(rc, action) := res in
  Some (if bool_decide (rc = NGX_BUSY) then action else NGX_SENTINEL_FCRDNS_PENDING, z').

Definition sentinel_shm_fcrdns_set (z : option zone) (key : bytes) (verdict now ttl : Z)
    : option (ngx_rc * option zone) :=
  with_zone z NGX_ERROR
    (fun _ sh =>
       let! until := time_add now ttl in
       crowdsec_upsert_locked key until (verdict mod 256) 0 now false sh).

(** ** Resolution *)

(** [sentinel_fcrdns_carrier_t]; the zone it points to is the state threaded
    through the callbacks. *)
Record carrier : Type := Carrier {
  c_key : bytes;
  c_addr : sockaddr;
  c_ttl : Z;
  c_suffixes : list bytes
}.

(** Cache a settled verdict and release the carrier. *)
Definition sentinel_fcrdns_finish (z : option zone) (c : carrier) (verdict now : Z)
    : option (option zone) :=
  if negb (verdict =? NGX_SENTINEL_FCRDNS_PENDING)
  then let! (_, z') := sentinel_shm_fcrdns_set z (c_key c) verdict now (c_ttl c) in Some z'
  else Some z.

Definition sentinel_fcrdns_suffix_ok (c : carrier) (name : bytes) : bool :=
  match c_suffixes c with
  | [] => true
  | suffixes =>
      existsb (fun suf =>
        (length suf <=? length name)%nat
        && (ngx_strncasecmp (drop (length name - length suf) name) suf (length suf) =? 0))
        suffixes
  end.

Definition fcrdns_ttl_of (f : fcrdns_conf) : Z :=
  if 0 <? fcrdns_ttl f then fcrdns_ttl f else NGX_SENTINEL_FCRDNS_DEFAULT_TTL.

(** The start of a resolution; the flags are the success of the allocation, of
    [ngx_resolve_start] and of [ngx_resolve_addr]. *)
Definition sentinel_fcrdns_resolve_start (r : request) (f : fcrdns_conf) (key : bytes)
    (alloc_ok start_ok addr_ok : bool) : option carrier :=
  match r_sockaddr r with
  | None => None
  | Some sa =>
      if alloc_ok && start_ok && addr_ok
      then Some (Carrier (take NGX_SENTINEL_DIGEST_LEN key) sa (fcrdns_ttl_of f)
                   (fcrdns_suffixes f))
      else None
  end.

(** What the carrier waits for next. *)
Inductive resolution : Type :=
  | WaitPtr (c : carrier)
  | WaitForward (c : carrier) (ptr_name : bytes).

(** The PTR callback: [answer] is [None] for a resolver error; the flags are the
    allocation of the name copy, and the start of the forward lookup. *)
Definition sentinel_fcrdns_ptr_handler (z : option zone) (c : carrier) (now : Z)
    (answer : option bytes) (alloc_ok forward_ok : bool)
    : option (option resolution * option zone) :=
  let finish verdict :=
    let! z' := sentinel_fcrdns_finish z c verdict now in Some (None, z') in
  match answer with
  | None => finish NGX_SENTINEL_FCRDNS_PENDING
  | Some [] => finish NGX_SENTINEL_FCRDNS_PENDING
  | Some name =>
      if negb (sentinel_fcrdns_suffix_ok c name) then finish NGX_SENTINEL_FCRDNS_FAILED
      else if negb alloc_ok then finish NGX_SENTINEL_FCRDNS_PENDING
      else if negb forward_ok then finish NGX_SENTINEL_FCRDNS_PENDING
      else Some (Some (WaitForward c name), z)
  end.

(** One address of the answer against the client's. *)
Definition same_address (orig a : sockaddr) : bool :=
  match orig, a with
  | AF_INET o, AF_INET x => o =? x
  | AF_INET6 o, AF_INET6 x => bool_decide (o = x)
  | _, _ => false
  end.

(** The forward callback. *)
Definition sentinel_fcrdns_fwd_handler (z : option zone) (c : carrier) (now : Z)
    (answer : option (list sockaddr)) : option (option zone) :=
  match answer with
  | None => sentinel_fcrdns_finish z c NGX_SENTINEL_FCRDNS_PENDING now
  | Some [] => sentinel_fcrdns_finish z c NGX_SENTINEL_FCRDNS_PENDING now
  | Some addrs =>
      sentinel_fcrdns_finish z c
        (if existsb (same_address (c_addr c)) addrs
         then NGX_SENTINEL_FCRDNS_VERIFIED else NGX_SENTINEL_FCRDNS_FAILED) now
  end.

(** ** Request path *)

(** The address bytes the identity is computed from. *)
Definition address_bytes (sa : sockaddr) : option bytes :=
  match sa with
  | AF_INET a => Some (be32 a)
  | AF_INET6 b => Some b
  | AF_OTHER => None
  end.

(** [fcrdns_verified], [fcrdns_spoofed] and the resolution that was started.
    [z] is the zone [lcf->fcrdns_zone] points to, [resolver] tells whether the
    location has one. *)
Definition sentinel_fcrdns_signal (r : option request) (lcf : option loc_conf)
    (z : option zone) (known_good_ua resolver : bool) (now : Z)
    (alloc_ok start_ok addr_ok : bool)
    : option ((bool * bool * option resolution) * option zone) :=
  let off := Some ((false, false, None), z) in
  match r, lcf, z with
  | Some r, Some lcf, Some _ =>
      if negb known_good_ua then off
      else if (length (r_addr_text r) =? 0)%nat then off
      else
        match r_sockaddr r with
        | None => off
        | Some sa =>
            match address_bytes sa with
            | None => off
            | Some abin =>
                let key := SHA256 abin in
                let! (verdict, z') := sentinel_shm_fcrdns_get z key now in
                if verdict =? NGX_SENTINEL_FCRDNS_VERIFIED
                then Some ((true, false, None), z')
                else if verdict =? NGX_SENTINEL_FCRDNS_FAILED
                then Some ((false, true, None), z')
                else if negb resolver then Some ((false, false, None), z')
                else Some ((false, false,
                            WaitPtr <$> sentinel_fcrdns_resolve_start r (lcf_fcrdns lcf)
                                          key alloc_ok start_ok addr_ok), z')
            end
        end
  | _, _, _ => off
  end.

(** ** Interleaving *)

(** The cache zone and the resolutions in flight. *)
Definition fcrdns_system : Type := option zone * list resolution.

Inductive fcrdns_step (lcf : loc_conf) : fcrdns_system -> fcrdns_system -> Prop :=
  | fcrdns_request r z ws known resolver now a s d v sp new z' :
      sentinel_fcrdns_signal (Some r) (Some lcf) z known resolver now a s d
        = Some ((v, sp, new), z') ->
      fcrdns_step lcf (z, ws) (z', match new with Some w => ws ++ [w] | None => ws end)
  | fcrdns_ptr i c z ws now answer alloc_ok forward_ok next z' :
      ws !! i = Some (WaitPtr c) ->
      sentinel_fcrdns_ptr_handler z c now answer alloc_ok forward_ok = Some (next, z') ->
      fcrdns_step lcf (z, ws)
        (z', match next with Some w => <[i := w]> ws | None => delete i ws end)
  | fcrdns_fwd i c name z ws now answer z' :
      ws !! i = Some (WaitForward c name) ->
      sentinel_fcrdns_fwd_handler z c now answer = Some z' ->
      fcrdns_step lcf (z, ws) (z', delete i ws).

(** ** Properties *)
Context {HashLaws : NgxHashLaws} {CmpLaws : NgxCompareLaws} {SlabLaws : NgxSlabLaws}
        {RbLaws : NgxRbtreeLaws} {ParseLaws : NgxParseLaws}.

(** The verdict a whole resolution reaches: [None] caches nothing. *)
Definition resolution_verdict (c : carrier) (ptr : option bytes)
    (forward : option (list sockaddr)) : option Z :=
  match ptr with
  | None | Some [] => None
  | Some name =>
      if negb (sentinel_fcrdns_suffix_ok c name) then Some NGX_SENTINEL_FCRDNS_FAILED
      else match forward with
           | None | Some [] => None
           | Some addrs =>
               Some (if existsb (same_address (c_addr c)) addrs
                     then NGX_SENTINEL_FCRDNS_VERIFIED else NGX_SENTINEL_FCRDNS_FAILED)
           end
  end.

(** A completed resolution caches exactly its verdict: with no PTR name, no
    forward answer or any resolver error the cache is untouched; a name outside
    the configured suffixes or a forward answer without the client address
    caches FAILED, and a forward answer with the client address caches VERIFIED,
    readable for the configured time to live unless the zone is full; the end of
    that time is a [time_t]. *)
Theorem fcrdns_resolution_outcome zc sh c t1 ptr t2 forward later :
  wf (fun _ => True) sh -> Z.of_nat (length (c_key c)) < 65536 ->
  0 <= t1 + c_ttl c < 2 ^ 63 -> 0 <= t2 + c_ttl c < 2 ^ 63 ->
  exists sh',
    (let! (next, z) := sentinel_fcrdns_ptr_handler (attached zc sh) c t1 ptr true true in
     match next with
     | Some (WaitForward c' _) => sentinel_fcrdns_fwd_handler z c' t2 forward
     | _ => Some z
     end) = Some (attached zc sh') /\
    match resolution_verdict c ptr forward with
    | None => sh' = sh
    | Some v =>
        (sh' = sh \/
         exists t z, (t = t1 \/ t = t2) /\
           sentinel_shm_fcrdns_get (attached zc sh') (c_key c) later
             = Some (if later <? t + c_ttl c then v else NGX_SENTINEL_FCRDNS_PENDING, z))
    end.
Proof.
  intros Hwf Hl Hm1 Hm2.
  assert (forall v now, 0 < v < 256 -> 0 <= now + c_ttl c < 2 ^ 63 -> exists sh',
    sentinel_fcrdns_finish (attached zc sh) c v now = Some (attached zc sh') /\
    (sh' = sh \/ exists z, sentinel_shm_fcrdns_get (attached zc sh') (c_key c) later
       = Some (if later <? now + c_ttl c then v else NGX_SENTINEL_FCRDNS_PENDING, z))) as Hfin.
  { intros v now Hv Hm. unfold sentinel_fcrdns_finish, sentinel_shm_fcrdns_set.
    destruct (Z.eqb_spec v NGX_SENTINEL_FCRDNS_PENDING) as [E|_];
      [unfold NGX_SENTINEL_FCRDNS_PENDING in E; lia|]. simpl. rewrite time_add_ok by done.
    destruct (crowdsec_upsert_abs sh (c_key c) (now + c_ttl c) (v mod 256) 0 now false Hwf Hl)
      as (rc & sh' & -> & Hwf' & _ & Hr).
    exists sh'. split; [done|]. destruct Hr as [[_ Hab]|(_ & -> & _)]; [|by left]. right.
    unfold sentinel_shm_fcrdns_get. simpl.
    destruct (crowdsec_lookup_active zc sh' (c_key c) later Hwf') as (sh2 & -> & _).
    eexists. unfold active. rewrite Hab, lookup_insert_eq. simpl.
    rewrite (Z.mod_small v 256) by lia. by destruct (later <? now + c_ttl c). }
  unfold sentinel_fcrdns_ptr_handler, resolution_verdict.
  destruct ptr as [[|ch name]|]; [by exists sh| |by exists sh].
  destruct (sentinel_fcrdns_suffix_ok c (ch :: name)); cbn [negb].
  - destruct forward as [[|a addrs]|]; [by exists sh| |by exists sh].
    unfold sentinel_fcrdns_fwd_handler.
    destruct (Hfin (if existsb (same_address (c_addr c)) (a :: addrs)
      then NGX_SENTINEL_FCRDNS_VERIFIED else NGX_SENTINEL_FCRDNS_FAILED) t2) as (sh' & E & Hr).
    { by case_match. }
    { done. }
    exists sh'. split; [done|]. naive_solver.
  - destruct (Hfin NGX_SENTINEL_FCRDNS_FAILED t1) as (sh' & E & Hr); [done|done|].
    exists sh'. rewrite E. split; [done|]. naive_solver.
Qed.

(** What is known of a resolution in flight: its key is the digest of the client
    address, its lifetime and suffixes are the configured ones, and a name being
    confirmed has an accepted suffix. *)
Definition inflight_ok (lcf : loc_conf) (w : resolution) : Prop :=
  let key_ok c := (exists b, address_bytes (c_addr c) = Some b /\ c_key c = SHA256 b) /\
                  c_suffixes c = fcrdns_suffixes (lcf_fcrdns lcf) /\
                  c_ttl c = fcrdns_ttl_of (lcf_fcrdns lcf) in
  match w with
  | WaitPtr c => key_ok c
  | WaitForward c name => key_ok c /\ sentinel_fcrdns_suffix_ok c name = true
  end.

(** [z'] is a well-formed table that adds to [z] at most a VERIFIED or FAILED
    entry for [key]. *)
Definition cache_grows (z z' : option zone) (v : Z) (key : bytes) : Prop :=
  forall zc sh, z = attached zc sh -> wf (fun _ => True) sh ->
  exists sh', z' = attached zc sh' /\ wf (fun _ => True) sh' /\
    forall t k, active t sh' k = Some NGX_SENTINEL_FCRDNS_VERIFIED ->
      active t sh k = Some NGX_SENTINEL_FCRDNS_VERIFIED \/
      (k = key /\ v = NGX_SENTINEL_FCRDNS_VERIFIED).

Lemma finish_grows z c v now z' :
  Z.of_nat (length (c_key c)) < 65536 -> 0 <= v < 256 ->
  sentinel_fcrdns_finish z c v now = Some z' -> cache_grows z z' v (c_key c).
Proof.
  intros Hl Hv E zc sh -> Hwf. revert E. unfold sentinel_fcrdns_finish.
  destruct (Z.eqb_spec v NGX_SENTINEL_FCRDNS_PENDING) as [Ev|Ev]; cbn [negb].
  { intros [= <-]. exists sh. auto. }
  unfold sentinel_shm_fcrdns_set. simpl. destruct (time_add now (c_ttl c)) as [u|] eqn:Et; [|done].
  apply time_add_inv in Et as [-> _].
  destruct (crowdsec_upsert_abs sh (c_key c) (now + c_ttl c) (v mod 256) 0 now false Hwf Hl)
    as (rc & sh' & -> & Hwf' & _ & Hr). intros [= <-].
  exists sh'. split_and!; try done. intros t k.
  destruct Hr as [[_ Hab]|(_ & -> & _)]; [|by left].
  unfold active. rewrite Hab. destruct (decide (c_key c = k)) as [<-|Hk].
  - rewrite lookup_insert_eq. simpl. rewrite Z.mod_small by done.
    intros Ha. right. split; [done|]. by destruct (t <? now + c_ttl c); [injection Ha|].
  - rewrite lookup_insert_ne by done. by left.
Qed.

Lemma cache_grows_refl z v key : cache_grows z z v key.
Proof. intros zc sh -> Hwf. exists sh. auto. Qed.

Lemma get_grows z key now v z' :
  sentinel_shm_fcrdns_get z key now = Some (v, z') ->
  cache_grows z z' NGX_SENTINEL_FCRDNS_PENDING [].
Proof.
  intros E zc sh -> Hwf. revert E. unfold sentinel_shm_fcrdns_get. simpl.
  destruct (crowdsec_lookup_active zc sh key now Hwf) as (sh' & E & Hwf' & _).
  rewrite E. pose proof (crowdsec_lookup_shrinks zc sh key now _ _ Hwf E).
  case_match; intros [= _ <-]; exists sh'; split_and!; eauto.
Qed.

Lemma start_ok lcf r sa b a1 a2 a3 c :
  r_sockaddr r = Some sa -> address_bytes sa = Some b ->
  sentinel_fcrdns_resolve_start r (lcf_fcrdns lcf) (SHA256 b) a1 a2 a3 = Some c ->
  inflight_ok lcf (WaitPtr c).
Proof.
  unfold sentinel_fcrdns_resolve_start. intros -> Hb. case_match; [|done].
  intros [= <-]. split; [|done]. exists b. split; [done|]. simpl.
  apply take_ge. by rewrite SHA256_length.
Qed.

Lemma signal_grows lcf r z known resolver now a1 a2 a3 v sp new z' :
  sentinel_fcrdns_signal (Some r) (Some lcf) z known resolver now a1 a2 a3
    = Some ((v, sp, new), z') ->
  cache_grows z z' NGX_SENTINEL_FCRDNS_PENDING [] /\
  (forall w, new = Some w -> inflight_ok lcf w).
Proof.
  unfold sentinel_fcrdns_signal. destruct z as [z|]; [|intros [= _ _ <- <-]; by split].
  assert (forall z0, Some ((false, false, None), Some z) = Some ((v, sp, new), z0) ->
    cache_grows (Some z) z0 NGX_SENTINEL_FCRDNS_PENDING [] /\
    (forall w, new = Some w -> inflight_ok lcf w)) as Hoff.
  { intros z0 [= _ _ <- <-]. split; [apply cache_grows_refl|done]. }
  destruct known; [cbn [negb]|apply Hoff].
  destruct (length (r_addr_text r) =? 0)%nat; [apply Hoff|].
  destruct (r_sockaddr r) as [sa|] eqn:Esa; [|apply Hoff].
  destruct (address_bytes sa) as [b|] eqn:Eb; [|apply Hoff].
  destruct (sentinel_shm_fcrdns_get (Some z) (SHA256 b) now) as [[verdict z2]|] eqn:Eg; [|done].
  apply get_grows in Eg.
  repeat case_match; intros [= _ _ <- <-]; split; try done.
  intros w (c & Es & ->)%fmap_Some. by eapply start_ok.
Qed.

Lemma key_length b : Z.of_nat (length (SHA256 b)) < 65536.
Proof. rewrite SHA256_length. unfold NGX_SENTINEL_DIGEST_LEN. lia. Qed.

(** The invariant of the system: the cache is well formed and every resolution
    in flight is what its request started. *)
Definition system_ok (lcf : loc_conf) (zc : zone_conf) (s : fcrdns_system) : Prop :=
  (exists sh, s.1 = attached zc sh /\ wf (fun _ => True) sh) /\
  (forall w, w ∈ s.2 -> inflight_ok lcf w).

Lemma ptr_handler_grows lcf z c now answer al fw next z' :
  inflight_ok lcf (WaitPtr c) ->
  sentinel_fcrdns_ptr_handler z c now answer al fw = Some (next, z') ->
  (exists v, cache_grows z z' v (c_key c) /\ v <> NGX_SENTINEL_FCRDNS_VERIFIED) /\
  (forall w, next = Some w -> inflight_ok lcf w).
Proof.
  intros Hin. pose proof Hin as [(b & _ & Ek) _]. unfold sentinel_fcrdns_ptr_handler.
  assert (Z.of_nat (length (c_key c)) < 65536) as Hl by (rewrite Ek; apply key_length).
  assert (forall v, 0 <= v < 256 -> v <> NGX_SENTINEL_FCRDNS_VERIFIED ->
    (let! z' := sentinel_fcrdns_finish z c v now in Some (None, z')) = Some (next, z') ->
    (exists v, cache_grows z z' v (c_key c) /\ v <> NGX_SENTINEL_FCRDNS_VERIFIED) /\
    (forall w, next = Some w -> inflight_ok lcf w)) as Hfin.
  { intros v Hv Hne. destruct (sentinel_fcrdns_finish z c v now) eqn:E; [|done].
    intros [= <- <-]. split; [|done]. exists v. split; [by eapply finish_grows|done]. }
  destruct answer as [[|ch name]|]; [by apply Hfin| |by apply Hfin].
  destruct (sentinel_fcrdns_suffix_ok c (ch :: name)) eqn:Es; cbn [negb]; [|by apply Hfin].
  destruct al, fw; cbn [negb]; try by apply Hfin.
  intros [= <- <-]. split.
  - exists NGX_SENTINEL_FCRDNS_PENDING. split; [apply cache_grows_refl|done].
  - by intros w [= <-].
Qed.

Lemma fwd_handler_grows lcf z c name now answer z' :
  inflight_ok lcf (WaitForward c name) ->
  sentinel_fcrdns_fwd_handler z c now answer = Some z' ->
  exists v, cache_grows z z' v (c_key c) /\
    (v = NGX_SENTINEL_FCRDNS_VERIFIED ->
     exists addrs, answer = Some addrs /\ existsb (same_address (c_addr c)) addrs = true).
Proof.
  intros [[(b & _ & Ek) _] _]. unfold sentinel_fcrdns_fwd_handler.
  assert (Z.of_nat (length (c_key c)) < 65536) as Hl by (rewrite Ek; apply key_length).
  destruct answer as [[|a addrs]|].
  1, 3: intros E; exists NGX_SENTINEL_FCRDNS_PENDING; split; [by eapply finish_grows|done].
  intros E. eexists. split; [eapply finish_grows; [done| |exact E]; by case_match|].
  destruct (existsb (same_address (c_addr c)) (a :: addrs)) eqn:Ex; [|done].
  intros _. by exists (a :: addrs).
Qed.

Lemma step_ok lcf zc s s' : system_ok lcf zc s -> fcrdns_step lcf s s' -> system_ok lcf zc s'.
Proof.
  intros [(sh & Ez & Hwf) Hws] Hs. destruct Hs as
    [r z ws known resolver now a1 a2 a3 v sp new z' E
    |i c z ws now answer al fw next z' Ei E|i c name z ws now answer z' Ei E]; simpl in *.
  - apply signal_grows in E as [Hg Hnew]. destruct (Hg zc sh Ez Hwf) as (sh' & -> & Hwf' & _).
    split; [by exists sh'|]. destruct new as [w|]; [|done]. simpl.
    intros w' [? | ->%list_elem_of_singleton]%elem_of_app; auto.
  - assert (inflight_ok lcf (WaitPtr c)) as Hin by (by apply Hws, (list_elem_of_lookup_2 _ i)).
    apply (ptr_handler_grows lcf) in E as [(v & Hg & _) Hnext]; [|done].
    destruct (Hg zc sh Ez Hwf) as (sh' & -> & Hwf' & _). split; [by exists sh'|].
    destruct next as [w|]; simpl; intros w' Hw'.
    + apply list_elem_of_lookup in Hw' as [j Hj].
      apply list_lookup_insert_Some in Hj as [(_ & <- & _)|[_ Hj]]; [by auto|].
      by apply Hws, (list_elem_of_lookup_2 _ j).
    + apply Hws. by eapply list_elem_of_delete_inv.
  - assert (inflight_ok lcf (WaitForward c name)) as Hin
      by (by apply Hws, (list_elem_of_lookup_2 _ i)).
    apply (fwd_handler_grows lcf z c name) in E as (v & Hg & _); [|done].
    destruct (Hg zc sh Ez Hwf) as (sh' & -> & Hwf' & _). split; [by exists sh'|].
    simpl. intros w' Hw'. apply Hws. by eapply list_elem_of_delete_inv.
Qed.

(** C26. A VERIFIED verdict is always earned: in every interleaving of requests
    and resolver answers that starts from a cache without resolutions in flight,
    the only step that can make an address read as VERIFIED is a forward answer
    that contains this very address, for a name that ends with a configured
    suffix. *)
Theorem verified_only_after_forward_confirmation lcf zc sh0 s s' :
  wf (fun _ => True) sh0 ->
  rtc (fcrdns_step lcf) (attached zc sh0, []) s -> fcrdns_step lcf s s' ->
  exists sh sh', s.1 = attached zc sh /\ s'.1 = attached zc sh' /\
  forall t k, active t sh k <> Some NGX_SENTINEL_FCRDNS_VERIFIED ->
    active t sh' k = Some NGX_SENTINEL_FCRDNS_VERIFIED ->
    exists i c name b addrs now,
      s.2 !! i = Some (WaitForward c name) /\
      sentinel_fcrdns_suffix_ok c name = true /\
      c_suffixes c = fcrdns_suffixes (lcf_fcrdns lcf) /\
      address_bytes (c_addr c) = Some b /\ k = SHA256 b /\
      existsb (same_address (c_addr c)) addrs = true /\
      sentinel_fcrdns_fwd_handler s.1 c now (Some addrs) = Some s'.1.
Proof.
  intros Hwf Hr Hs.
  assert (system_ok lcf zc s) as Hok.
  { assert (system_ok lcf zc (attached zc sh0, [])) as Hstart.
    { split; [by exists sh0|]. by intros w Hw%not_elem_of_nil. }
    clear Hs. revert Hstart. induction Hr; eauto using step_ok. }
  pose proof (step_ok _ _ _ _ Hok Hs) as [(sh' & Ez' & _) _].
  destruct Hok as [(sh & Ez & Hwfs) Hws]. exists sh, sh'. split_and!; [done..|].
  intros t k Hnot Hyes. destruct Hs as
    [r z ws known resolver now a1 a2 a3 v sp new z' E
    |i c z ws now answer al fw next z' Ei E|i c name z ws now answer z' Ei E]; simpl in *.
  - apply signal_grows in E as [Hg _]. destruct (Hg zc sh Ez Hwfs) as (sh2 & E2 & _ & Hgr).
    assert (sh2 = sh') as -> by (unfold attached in *; congruence).
    destruct (Hgr t k Hyes) as [?|[_ Hv]]; [done|discriminate].
  - assert (inflight_ok lcf (WaitPtr c)) as Hin by (by apply Hws, (list_elem_of_lookup_2 _ i)).
    apply (ptr_handler_grows lcf) in E as [(v & Hg & Hv) _]; [|done].
    destruct (Hg zc sh Ez Hwfs) as (sh2 & E2 & _ & Hgr).
    assert (sh2 = sh') as -> by (unfold attached in *; congruence). by destruct (Hgr t k Hyes) as [?|[_ ?]].
  - assert (inflight_ok lcf (WaitForward c name)) as Hin
      by (by apply Hws, (list_elem_of_lookup_2 _ i)).
    pose proof (fwd_handler_grows lcf z c name now answer z' Hin E) as (v & Hg & Hv).
    destruct (Hg zc sh Ez Hwfs) as (sh2 & E2 & _ & Hgr).
    assert (sh2 = sh') as -> by (unfold attached in *; congruence).
    destruct (Hgr t k Hyes) as [?|[-> Hver]]; [done|].
    destruct (Hv Hver) as (addrs & -> & Hex).
    destruct Hin as [[(b & Hb & Ek) [Hsuf _]] Hok].
    exists i, c, name, b, addrs, now. by rewrite Ek.
Qed.
End Fcrdns.

(** ** A concrete resolution *)
Import Concrete.

Definition demo_carrier : carrier :=
  Carrier (SHA256 (be32 3221225991)) (AF_INET 3221225991) 3600 [lit ".googlebot.com"].

Lemma fcrdns_resolution_outcome_witness :
  resolution_verdict demo_carrier (Some (lit "a.GoogleBot.com")) (Some [AF_INET 3221225991])
    = Some NGX_SENTINEL_FCRDNS_VERIFIED /\
  exists sh', (let! (next, z) := sentinel_fcrdns_ptr_handler (attached (ZoneConf 600 0 0) demo_empty)
                 demo_carrier 1000 (Some (lit "a.GoogleBot.com")) true true in
     match next with
     | Some (WaitForward c' _) => sentinel_fcrdns_fwd_handler z c' 1001 (Some [AF_INET 3221225991])
     | _ => Some z
     end) = Some (attached (ZoneConf 600 0 0) sh').
Proof.
  split; [by vm_compute|].
  destruct (fcrdns_resolution_outcome (ZoneConf 600 0 0) demo_empty demo_carrier 1000
    (Some (lit "a.GoogleBot.com")) 1001 (Some [AF_INET 3221225991]) 2000)
    as (sh' & E & _); [apply wf_empty|by vm_compute|done|done|].
  exists sh'. exact E.
Defined.

Definition demo_crawler_lcf : loc_conf :=
  LocConf 1 0 1 (Some 0%nat) (Some None) [] default_threshold default_weights
    (CsConf (Some None) [] 10 3600 600 16777216) [] [] None []
    demo_deny (DenyConf None []) (DenyConf None []) None None
    (FcrdnsConf (Some (Some 0%nat)) [] 3600 [lit ".googlebot.com"]) demo_tarpit 403 0 0 0
    (PowConf 0 (Some []) 16 3600)
    (RedisConf [] 6379 (Some []) (Some (lit "sentinel")) 10 3600 None)
    (SinkConf [] 10 3600 (Some (lit "sentinel/http-abuse")) None).

(** The request, the PTR answer and the forward answer of one crawler. *)
Lemma verified_only_after_forward_confirmation_witness :
  exists s s' sh sh',
    rtc (fcrdns_step demo_crawler_lcf) (attached (ZoneConf 600 0 0) demo_empty, []) s /\
    fcrdns_step demo_crawler_lcf s s' /\
    s.1 = attached (ZoneConf 600 0 0) sh /\ s'.1 = attached (ZoneConf 600 0 0) sh'.
Proof.
  assert (rtc (fcrdns_step demo_crawler_lcf) (attached (ZoneConf 600 0 0) demo_empty, [])
    (attached (ZoneConf 600 0 0) demo_empty,
     [WaitPtr demo_carrier])) as H1.
  { apply rtc_once.
    apply (fcrdns_request demo_crawler_lcf demo_request (attached (ZoneConf 600 0 0) demo_empty)
             [] true true 1000 true true true false false (Some (WaitPtr demo_carrier))).
    vm_compute. reflexivity. }
  assert (fcrdns_step demo_crawler_lcf
    (attached (ZoneConf 600 0 0) demo_empty, [WaitPtr demo_carrier])
    (attached (ZoneConf 600 0 0) demo_empty,
     <[0%nat := WaitForward demo_carrier (lit "a.googlebot.com")]> [WaitPtr demo_carrier])) as H2.
  { apply (fcrdns_ptr demo_crawler_lcf 0 demo_carrier _ _ 1000 (Some (lit "a.googlebot.com"))
             true true (Some (WaitForward demo_carrier (lit "a.googlebot.com")))).
    - reflexivity.
    - vm_compute. reflexivity. }
  destruct (verified_only_after_forward_confirmation demo_crawler_lcf (ZoneConf 600 0 0) demo_empty
    _ _ (wf_empty _ _) H1 H2) as (sh & sh' & E1 & E2 & _).
  do 4 eexists. split; [exact H1|]. split; [exact H2|]. split; [exact E1|exact E2].
Defined.
