(* ===== verification/Ring.v ===== *)
(** * Ring.v: the shared push rings

    The Redis push ring and the CrowdSec sink ring have the same layout and the
    same two operations ([ngx_sentinel_redis_shctx_t],
    [ngx_sentinel_cssink_shctx_t]): [head] and [tail] are free-running 64-bit
    counters, the slot of a counter is its value modulo the capacity.  The
    abstract value of a ring is a queue of at most 4096 entries. *)
From S2P Require Import Prelude.

Definition NGX_SENTINEL_REDIS_PUSH_RING : Z := 4096.
Definition NGX_SENTINEL_CSSINK_RING : Z := 4096.

(** [ngx_sentinel_redis_push_t]; [pe_ip] is the [ip_len] bytes of [ip]. *)
Record push_entry : Type := PushEntry {
  pe_ip : bytes;
  pe_action : Z;
  pe_expiry : Z
}.

Definition empty_entry : push_entry := PushEntry [] 0 0.

Record ring : Type := Ring {
  ring_head : Z;
  ring_tail : Z;
  ring_dropped : Z;
  ring_slots : list push_entry
}.

(** A zeroed ring. *)
Definition ring_init : ring :=
  Ring 0 0 0 (replicate (Z.to_nat NGX_SENTINEL_REDIS_PUSH_RING) empty_entry).

(** The body of [sentinel_redis_enqueue_ban] and [sentinel_cssink_enqueue_ban]
    under the ring lock. *)
Definition ring_enqueue (r : ring) (e : push_entry) : ring :=
  if NGX_SENTINEL_REDIS_PUSH_RING <=? wrap64 (ring_head r - ring_tail r)
  then Ring (ring_head r) (ring_tail r) (wrap64 (ring_dropped r + 1)) (ring_slots r)
  else
    let slot := ring_head r mod NGX_SENTINEL_REDIS_PUSH_RING in
    Ring (wrap64 (ring_head r + 1)) (ring_tail r) (ring_dropped r)
         (<[Z.to_nat slot := e]> (ring_slots r)).

(** One iteration of a drain loop under the lock: [None] when the ring is
    empty. *)
Definition ring_dequeue (r : ring) : option (push_entry * ring) :=
  if ring_tail r =? ring_head r then None
  else
    match ring_slots r !! Z.to_nat (ring_tail r mod NGX_SENTINEL_REDIS_PUSH_RING) with
    | Some e => Some (e, Ring (ring_head r) (wrap64 (ring_tail r + 1)) (ring_dropped r)
                              (ring_slots r))
    | None => None
    end.

(** ** Refinement of a bounded queue *)

Notation CAP := NGX_SENTINEL_REDIS_PUSH_RING (only parsing).

(** The counters are 64-bit, their distance is the length of the queue, and the
    slots from [tail] hold it in order. *)
Record ring_models (r : ring) (q : list push_entry) : Prop := {
  rm_tail : 0 <= ring_tail r < 2 ^ 64;
  rm_head : ring_head r = wrap64 (ring_tail r + Z.of_nat (length q));
  rm_len : Z.of_nat (length q) <= CAP;
  rm_slots : length (ring_slots r) = Z.to_nat CAP;
  rm_items : forall i e, q !! i = Some e ->
    ring_slots r !! Z.to_nat (wrap64 (ring_tail r + Z.of_nat i) mod CAP) = Some e
}.

(** The capacity divides 2^64, so a slot index survives the wrap-around. *)
Lemma wrap_slot z : wrap64 z mod CAP = z mod CAP.
Proof.
  unfold wrap. apply Z.mod_mod_divide. by exists (2 ^ 52).
Qed.

Lemma slot_range z : 0 <= z mod CAP < CAP.
Proof. apply Z.mod_pos_bound. done. Qed.

Lemma slot_inj z i j :
  0 <= i < CAP -> 0 <= j < CAP -> (z + i) mod CAP = (z + j) mod CAP -> i = j.
Proof. unfold NGX_SENTINEL_REDIS_PUSH_RING. intros; dlia. Qed.

Lemma ring_init_models : ring_models ring_init [].
Proof. by split. Qed.

Lemma wrap_distance a n : 0 <= a < 2 ^ 64 -> 0 <= n <= CAP -> wrap64 (wrap64 (a + n) - a) = n.
Proof. unfold wrap, NGX_SENTINEL_REDIS_PUSH_RING. intros. dlia. Qed.

Lemma ring_enqueue_models r q e :
  ring_models r q ->
  if Z.of_nat (length q) <? CAP
  then ring_models (ring_enqueue r e) (q ++ [e]) /\ ring_dropped (ring_enqueue r e) = ring_dropped r
  else ring_models (ring_enqueue r e) q /\
       ring_dropped (ring_enqueue r e) = wrap64 (ring_dropped r + 1).
Proof.
  intros [Ht Hh Hl Hs Hi]. unfold ring_enqueue.
  rewrite Hh, wrap_distance by lia.
  destruct (Z.leb_spec CAP (Z.of_nat (length q))), (Z.ltb_spec (Z.of_nat (length q)) CAP);
    try lia; (split; [|done]).
  { by split. }
  split; cbn [ring_head ring_tail ring_slots ring_dropped].
  - done.
  - rewrite length_app. cbn [length]. unfold wrap.
    rewrite Zplus_mod_idemp_l. f_equal. lia.
  - rewrite length_app. cbn [length]. lia.
  - by rewrite length_insert.
  - rewrite wrap_slot. intros i x Hx. rewrite wrap_slot.
    pose proof (slot_range (ring_tail r + Z.of_nat i)) as R1.
    pose proof (slot_range (ring_tail r + Z.of_nat (length q))) as R2.
    apply lookup_app_Some in Hx as [Hx|[Hi1 Hx]].
    + apply lookup_lt_Some in Hx as Hlt. apply Hi in Hx. rewrite wrap_slot in Hx.
      rewrite list_lookup_insert_ne; [done|].
      intros E. apply Z2Nat.inj in E; [|lia..].
      apply slot_inj in E; [lia|lia|lia].
    + apply list_lookup_singleton_Some in Hx as [Hx ->].
      assert (i = length q) as -> by lia.
      rewrite list_lookup_insert_eq; [done|]. lia.
Qed.

Lemma ring_dequeue_models r q :
  ring_models r q ->
  match q with
  | [] => ring_dequeue r = None
  | e :: q' => exists r', ring_dequeue r = Some (e, r') /\ ring_models r' q' /\
                 ring_dropped r' = ring_dropped r
  end.
Proof.
  intros [Ht Hh Hl Hs Hi]. unfold ring_dequeue. rewrite Hh. destruct q as [|e q].
  - simpl. rewrite Z.add_0_r, wrap_id, Z.eqb_refl by lia. done.
  - destruct (Z.eqb_spec (ring_tail r) (wrap64 (ring_tail r + Z.of_nat (length (e :: q))))) as [E|E].
    { exfalso. simpl in *. unfold wrap, NGX_SENTINEL_REDIS_PUSH_RING in *. dlia. }
    pose proof (Hi 0%nat e eq_refl) as H0. rewrite Z.add_0_r, wrap_id in H0 by lia.
    rewrite H0. eexists. split; [done|]. split; [|done].
    split; cbn [ring_head ring_tail ring_slots ring_dropped length] in *.
    + apply wrap_range. lia.
    + unfold wrap. rewrite Zplus_mod_idemp_l. f_equal. lia.
    + lia.
    + done.
    + intros i x Hx. specialize (Hi (S i) x Hx). rewrite wrap_slot in *.
      rewrite <- Hi. f_equal. f_equal. unfold wrap.
      rewrite (Z.add_mod _ (Z.of_nat i)) by done.
      fold (wrap64 (ring_tail r + 1)). rewrite wrap_slot.
      rewrite <- Z.add_mod by done. f_equal. lia.
Qed.

(** The operations of a run, and the queue they leave. *)
Inductive ring_op : Type := RingPut (e : push_entry) | RingGet.

Fixpoint ring_run (r : ring) (ops : list ring_op) : list push_entry * ring :=
  match ops with
  | [] => ([], r)
  | RingPut e :: ops' => ring_run (ring_enqueue r e) ops'
  | RingGet :: ops' =>
      match ring_dequeue r with
      | Some (e, r') => let '(out, r'') := ring_run r' ops' in (e :: out, r'')
      | None => ring_run r ops'
      end
  end.

(** The same run on a bounded FIFO queue; puts on a full queue are counted. *)
Fixpoint queue_run (q : list push_entry) (ops : list ring_op)
    : list push_entry * list push_entry * Z :=
  match ops with
  | [] => ([], q, 0)
  | RingPut e :: ops' =>
      if Z.of_nat (length q) <? CAP then queue_run (q ++ [e]) ops'
      else let '(out, q', d) := queue_run q ops' in (out, q', d + 1)
  | RingGet :: ops' =>
      match q with
      | [] => queue_run [] ops'
      | e :: q' => let '(out, q'', d) := queue_run q' ops' in (e :: out, q'', d)
      end
  end.

(** C18. The push ring is a bounded FIFO queue, whatever the 64-bit values of its
    free-running counters (also when they wrap around): any sequence of
    enqueues and dequeues, by any workers under the ring lock, delivers exactly
    what the queue delivers, in order, drops exactly the puts that find 4096
    entries waiting, and counts them. *)
Theorem ring_refines_bounded_queue ops : forall r q,
  ring_models r q ->
  let '(out, r') := ring_run r ops in
  let '(out', q', d) := queue_run q ops in
  out = out' /\ ring_models r' q' /\ wrap64 (ring_dropped r') = wrap64 (ring_dropped r + d).
Proof.
  induction ops as [|op ops IH]; intros r q Hm; cbn [ring_run queue_run].
  { rewrite Z.add_0_r. auto. }
  destruct op as [e|].
  - pose proof (ring_enqueue_models r q e Hm) as He.
    destruct (Z.of_nat (length q) <? CAP); destruct He as [Hm' Hd]; specialize (IH _ _ Hm').
    + destruct (ring_run (ring_enqueue r e) ops), (queue_run (q ++ [e]) ops) as [[]].
      by rewrite <- Hd.
    + destruct (ring_run (ring_enqueue r e) ops), (queue_run q ops) as [[out' q'] d].
      destruct IH as (-> & ? & Ed). split_and!; try done.
      rewrite Ed, Hd. unfold wrap. rewrite Zplus_mod_idemp_l. f_equal. lia.
  - pose proof (ring_dequeue_models r q Hm) as Hd. destruct q as [|e q].
    + rewrite Hd. by apply IH.
    + destruct Hd as (r' & -> & Hm' & Edr). specialize (IH _ _ Hm').
      destruct (ring_run r' ops), (queue_run q ops) as [[]].
      destruct IH as (-> & ? & Ed). by rewrite <- Edr.
Qed.

(** A ring about to wrap around. *)
Definition old_ring : ring := Ring (2 ^ 64 - 1) (2 ^ 64 - 1) 0 (ring_slots ring_init).

Lemma ring_refines_bounded_queue_witness :
  ring_models old_ring [] /\
  let e n := PushEntry [u_char n] 1 n in
  let '(out, r') := ring_run old_ring [RingPut (e 1); RingPut (e 2); RingGet; RingGet; RingGet] in
  out = [e 1; e 2] /\ ring_models r' [].
Proof.
  assert (ring_models old_ring []) as Hm.
  { by split. }
  split; [exact Hm|].
  pose proof (ring_refines_bounded_queue
    [RingPut (PushEntry [u_char 1] 1 1); RingPut (PushEntry [u_char 2] 1 2); RingGet; RingGet; RingGet]
    old_ring [] Hm) as Hr.
  cbn zeta. destruct (ring_run old_ring _) as [out r'].
  cbn [queue_run length app] in Hr. simpl in Hr.
  destruct Hr as (Ho & Hm' & _). by split.
Defined.
