(* ===== verification/Redis.v ===== *)
(** * Redis.v: multi-host shared state ([sentinel_redis.c])

    One state machine per worker: connection state, reconnect back-off, AUTH and
    SCAN bookkeeping, driven by the timer and by hiredis's callbacks.  hiredis is
    the environment: its replies are arguments, the commands the module issues
    are outputs, and [ok] answers for [redisAsyncCommand].  The callbacks
    [redisAsyncFree] runs (NULL replies to the pending commands, the disconnect)
    are not part of the function that frees the context; they are events of
    their own, which may follow it in any order.  The socket adapter (read/write
    event registration) is in [RedisEv.v]. *)
From S2P Require Import Prelude Types Ngx Http Shm Ring Feed.

Definition NGX_SENTINEL_REDIS_BACKOFF_MIN_MS : Z := 500.
Definition NGX_SENTINEL_REDIS_BACKOFF_MAX_MS : Z := 30000.
Definition NGX_SENTINEL_REDIS_SCAN_COUNT : Z := 256.

(** The conversion [(int) z]. *)
Definition to_i32 (z : Z) : Z := (z + 2 ^ 31) mod 2 ^ 32 - 2 ^ 31.

(** ** Data *)

(** [sentinel_redis_state_e] *)
Inductive redis_state : Type := REDIS_DOWN | REDIS_CONNECTING | REDIS_UP.

#[global] Instance redis_state_eq_dec : EqDecision redis_state.
Proof. solve_decision. Defined.

(** [sentinel_redis_ctx_t]: [rs_timer] is the delay the timer is armed with. *)
Record redis_ctx : Type := RedisCtx {
  rs_state : redis_state;
  rs_backoff : Z;
  rs_cursor : Z;
  rs_inflight : bool;
  rs_auth : bool;
  rs_ac : bool;
  rs_timer : option Z
}.

(** A hiredis reply; [None] is a NULL pointer. *)
Inductive redis_reply : Type :=
  | ReplyString (s : bytes)
  | ReplyArray (elements : list (option redis_reply))
  | ReplyError
  | ReplyOther.

(** The commands; a GET carries the address copied as its private data. *)
Inductive redis_command : Type :=
  | CmdAuth (password : bytes)
  | CmdScan (cursor pattern : bytes) (count : Z)
  | CmdGet (key ip : bytes)
  | CmdSet (key value : bytes) (ttl : Z).

(** [ULLONG_MAX] *)
Definition ull_max : Z := 2 ^ 64 - 1.

Fixpoint parse_cursor_loop (s : bytes) (v : Z) : Z :=
  match s with
  | [] => v
  | c :: s' =>
      let d := bval c in
      if (d <? 48) || (57 <? d) then v
      else if ull_max / 10 <? v then 0
      else parse_cursor_loop s' (wrap64 (v * 10 + (d - 48)))
  end.

Definition sentinel_redis_parse_cursor (s : bytes) : Z := parse_cursor_loop s 0.

Section Redis.
Context `{NgxHash} `{NgxCompare} `{NgxSlab} `{NgxRbtree} `{NgxParse} `{NgxHttp} `{NgxFormat}.
(** The result of [redisAsyncCommand] for a command, and whether nginx is
    exiting. *)
Variable ok : redis_command -> bool.
Variable exiting : bool.

(** ** Connection lifecycle *)

Definition set_timer (rc : redis_ctx) (t : option Z) : redis_ctx :=
  RedisCtx (rs_state rc) (rs_backoff rc) (rs_cursor rc) (rs_inflight rc) (rs_auth rc)
           (rs_ac rc) t.

Definition set_scan (rc : redis_ctx) (cursor : Z) (inflight : bool) : redis_ctx :=
  RedisCtx (rs_state rc) (rs_backoff rc) cursor inflight (rs_auth rc) (rs_ac rc)
           (rs_timer rc).

Definition set_auth (rc : redis_ctx) (pending : bool) : redis_ctx :=
  RedisCtx (rs_state rc) (rs_backoff rc) (rs_cursor rc) (rs_inflight rc) pending
           (rs_ac rc) (rs_timer rc).

Definition set_link (rc : redis_ctx) (s : redis_state) (ac : bool) : redis_ctx :=
  RedisCtx s (rs_backoff rc) (rs_cursor rc) (rs_inflight rc) (rs_auth rc) ac (rs_timer rc).

Definition sentinel_redis_teardown (rc : redis_ctx) : redis_ctx :=
  RedisCtx REDIS_DOWN (rs_backoff rc) 0 false false false (rs_timer rc).

Definition sentinel_redis_schedule_reconnect (rc : redis_ctx) : redis_ctx :=
  if exiting then rc
  else
    let backoff := Z.max NGX_SENTINEL_REDIS_BACKOFF_MIN_MS (rs_backoff rc) in
    let next := Z.shiftl backoff 1 in
    RedisCtx (rs_state rc)
      (if NGX_SENTINEL_REDIS_BACKOFF_MAX_MS <? next
       then NGX_SENTINEL_REDIS_BACKOFF_MAX_MS else next)
      (rs_cursor rc) (rs_inflight rc) (rs_auth rc) (rs_ac rc) (Some backoff).

Definition sentinel_redis_on_connect (rc : redis_ctx) (status_ok : bool) : redis_ctx :=
  if status_ok
  then RedisCtx REDIS_UP NGX_SENTINEL_REDIS_BACKOFF_MIN_MS (rs_cursor rc) (rs_inflight rc)
                (rs_auth rc) (rs_ac rc) (rs_timer rc)
  else sentinel_redis_schedule_reconnect (sentinel_redis_teardown rc).

Definition sentinel_redis_on_disconnect (rc : redis_ctx) : redis_ctx :=
  sentinel_redis_schedule_reconnect (sentinel_redis_teardown rc).

Definition sentinel_redis_auth_reply (rc : redis_ctx) (r : option redis_reply) : redis_ctx :=
  let rc := set_auth rc false in
  match r with
  | None | Some ReplyError =>
      sentinel_redis_schedule_reconnect (sentinel_redis_teardown rc)
  | _ => rc
  end.

(** The outcome of the asynchronous connect and of attaching its socket. *)
Inductive connect_outcome : Type := ConnectError | AttachError | ConnectIssued.

Definition sentinel_redis_connect (conf : redis_conf) (rc : redis_ctx)
    (outcome : connect_outcome) : redis_ctx * list redis_command :=
  if negb (bool_decide (rs_state rc = REDIS_DOWN)) then (rc, [])
  else
    match outcome with
    | ConnectError => (sentinel_redis_schedule_reconnect rc, [])
    | AttachError => (sentinel_redis_schedule_reconnect (set_link rc REDIS_DOWN false), [])
    | ConnectIssued =>
        let rc := set_link rc REDIS_CONNECTING true in
        match redis_password conf with
        | Some (c :: pw) =>
            let rc := set_auth rc true in
            let cmd := CmdAuth (c :: pw) in
            if ok cmd then (rc, [cmd])
            else (sentinel_redis_schedule_reconnect (sentinel_redis_teardown rc), [])
        | _ => (rc, [])
        end
    end.

(** ** PULL *)

Definition sentinel_redis_action (s : bytes) : Z :=
  if (length s =? 3)%nat && (strncmp s (lit "ban") 3 =? 0) then NGX_SENTINEL_CS_BAN
  else if (length s =? 7)%nat && (strncmp s (lit "captcha") 7 =? 0)
  then NGX_SENTINEL_CS_CAPTCHA
  else if (length s =? 8)%nat && (strncmp s (lit "throttle") 8 =? 0)
  then NGX_SENTINEL_CS_THROTTLE
  else NGX_SENTINEL_CS_BAN.

Definition redis_prefix_of (conf : redis_conf) : bytes := default [] (redis_prefix conf).

(** The reply to one GET. [z] is the bound CrowdSec zone and [ip] the copied
    address. *)
Definition sentinel_redis_get_reply (z : option zone) (r : option redis_reply)
    (ip : bytes) (now : Z) : option (option zone) :=
  match z, r with
  | Some _, Some (ReplyString (c :: s)) =>
      let str := c :: s in
      match memchr str SP with
      | None => Some z
      | Some n =>
          let action := sentinel_redis_action (take n str) in
          match ngx_atoi (drop (S n) str) with
          | None => Some z
          | Some e =>
              if e <=? now then Some z
              else
                match z with
                | Some (Zone zc (Some sh)) =>
                    let! (_, sh') := crowdsec_upsert_locked (SHA256 ip) e action
                                       (sh_cs_generation sh) now true sh in
                    Some (Some (Zone zc (Some sh')))
                | _ => None
                end
          end
      end
  | _, _ => Some z
  end.

(** The address suffix of a key of the namespace. *)
Definition key_ip (conf : redis_conf) (k : bytes) : option bytes :=
  let plen := (length (redis_prefix_of conf) + 5)%nat in
  if (length k <=? plen)%nat then None
  else
    let iplen := (length k - plen)%nat in
    if (iplen =? 0)%nat || (NGX_SOCKADDR_STRLEN <=? iplen)%nat then None
    else c_string (drop plen k ++ [NUL]).

(** The GET for one element of the key array; [alloc_ok] is the copy. *)
Definition scan_key (conf : redis_conf) (alloc_ok : bool) (k : option redis_reply)
    : list redis_command :=
  match k with
  | Some (ReplyString s) =>
      match key_ip conf s, c_string (s ++ [NUL]) with
      | Some ip, Some key =>
          if alloc_ok then
            let cmd := CmdGet key ip in if ok cmd then [cmd] else []
          else []
      | _, _ => []
      end
  | _ => []
  end.

Definition sentinel_redis_pull_step (conf : redis_conf) (rc : redis_ctx)
    : option (redis_ctx * list redis_command) :=
  if negb (rs_ac rc) || negb (bool_decide (rs_state rc = REDIS_UP))
  then Some (set_scan rc (rs_cursor rc) false, [])
  else
    let cursor := ngx_snprintf 32 (ngx_dec (rs_cursor rc) ++ [NUL]) in
    let pattern := ngx_snprintf (NGX_SOCKADDR_STRLEN + 64)
                     (redis_prefix_of conf ++ lit ":ban:*" ++ [NUL]) in
    let! c := c_string cursor in
    let! p := c_string pattern in
    let cmd := CmdScan c p NGX_SENTINEL_REDIS_SCAN_COUNT in
    if ok cmd then Some (rc, [cmd])
    else Some (set_scan rc (rs_cursor rc) false, []).

Definition sentinel_redis_scan_reply (conf : redis_conf) (rc : redis_ctx)
    (r : option redis_reply) (alloc_ok : bool)
    : option (redis_ctx * list redis_command) :=
  match r with
  | Some (ReplyArray [cur; keys]) =>
      let cursor := match cur with
                    | Some (ReplyString s) => sentinel_redis_parse_cursor s
                    | _ => 0
                    end in
      let rc := set_scan rc cursor (rs_inflight rc) in
      let gets := match keys with
                  | Some (ReplyArray ks) => flat_map (scan_key conf alloc_ok) ks
                  | _ => []
                  end in
      if negb (cursor =? 0) then
        let! (rc, cmds) := sentinel_redis_pull_step conf rc in Some (rc, gets ++ cmds)
      else Some (set_scan rc cursor false, gets)
  | _ => Some (set_scan rc (rs_cursor rc) false, [])
  end.

(** ** PUSH *)

Definition sentinel_redis_action_str (action : Z) : bytes :=
  if action =? NGX_SENTINEL_CS_CAPTCHA then lit "captcha"
  else if action =? NGX_SENTINEL_CS_THROTTLE then lit "throttle"
  else lit "ban".

(** The SET of a drained entry, unless it is malformed or expired. *)
Definition push_command (conf : redis_conf) (now : Z) (e : push_entry)
    : option redis_command :=
  if (length (pe_ip e) =? 0)%nat || (NGX_SOCKADDR_STRLEN <=? length (pe_ip e))%nat
  then None
  else
    let ttl := pe_expiry e - now in
    if ttl <=? 0 then None
    else Some (CmdSet
      (ngx_snprintf (NGX_SOCKADDR_STRLEN + 64)
         (redis_prefix_of conf ++ lit ":ban:" ++ pe_ip e))
      (ngx_snprintf 64
         (sentinel_redis_action_str (pe_action e) ++ [SP] ++ ngx_dec (pe_expiry e)))
      (to_i32 ttl)).

(** The drain loop; it ends at the latest after as many iterations as the ring
    has entries, [fuel] bounds it. *)
Fixpoint flush_loop (fuel : nat) (conf : redis_conf) (now : Z) (drained : Z) (r : ring)
    : list redis_command * ring :=
  match fuel with
  | O => ([], r)
  | S fuel' =>
      match ring_dequeue r with
      | None => ([], r)
      | Some (e, r') =>
          match push_command conf now e with
          | None => flush_loop fuel' conf now drained r'
          | Some cmd =>
              if negb (ok cmd) then ([], r')
              else if NGX_SENTINEL_REDIS_PUSH_RING <=? drained + 1 then ([cmd], r')
              else let '(cmds, r'') := flush_loop fuel' conf now (drained + 1) r' in
                   (cmd :: cmds, r'')
          end
      end
  end.

Definition sentinel_redis_flush_push (conf : redis_conf) (rc : redis_ctx) (push : option ring)
    (now : Z) : list redis_command * option ring :=
  match push with
  | None => ([], None)
  | Some r =>
      if negb (rs_ac rc) || negb (bool_decide (rs_state rc = REDIS_UP)) then ([], push)
      else
        let '(cmds, r') :=
          flush_loop (S (Z.to_nat NGX_SENTINEL_REDIS_PUSH_RING)) conf now 0 r in
        (cmds, Some r')
  end.

(** [armed] is the push zone of the worker's instance, when it has one. *)
Definition sentinel_redis_enqueue_ban (armed : option nat) (conf : redis_conf) (r : ring)
    (ip : bytes) (action expiry : Z) : ring :=
  match armed, redis_push_zone conf with
  | Some a, Some z =>
      if negb (a =? z)%nat then r
      else if (length ip =? 0)%nat || (NGX_SOCKADDR_STRLEN <=? length ip)%nat then r
      else ring_enqueue r (PushEntry ip action expiry)
  | _, _ => r
  end.

(** ** Timer *)

Definition sentinel_redis_timer_handler (conf : redis_conf) (rc : redis_ctx)
    (push : option ring) (outcome : connect_outcome) (now : Z)
    : option (redis_ctx * option ring * list redis_command) :=
  let! (rc, push, cmds) :=
    match rs_state rc with
    | REDIS_DOWN =>
        let '(rc, cmds) := sentinel_redis_connect conf rc outcome in Some (rc, push, cmds)
    | REDIS_CONNECTING => Some (rc, push, [])
    | REDIS_UP =>
        if rs_auth rc then Some (rc, push, [])
        else
          let '(sets, push) := sentinel_redis_flush_push conf rc push now in
          if negb (rs_inflight rc) then
            let! (rc, cmds) := sentinel_redis_pull_step conf (set_scan rc 0 true) in
            Some (rc, push, sets ++ cmds)
          else Some (rc, push, sets)
    end in
  Some (if negb exiting && negb (bool_decide (rs_state rc = REDIS_DOWN))
        then set_timer rc (Some (redis_interval conf * 1000)) else rc, push, cmds).
End Redis.

(** ** Initialisation *)
Section Init.
Context `{NgxHash} `{NgxHttp}.

(** [old] is the ring of the previous cycle, [exists_ring] the one found in an
    inherited segment. *)
Definition sentinel_redis_init_zone (old exists_ring : option ring) (calloc_ok : bool)
    : ngx_rc * option ring :=
  match old with
  | Some r => (NGX_OK, Some r)
  | None =>
      match exists_ring with
      | Some r => (NGX_OK, Some r)
      | None => if calloc_ok then (NGX_OK, Some ring_init) else (NGX_ERROR, None)
      end
  end.

Definition redis_configured (lcf : loc_conf) : bool :=
  negb (length (redis_host (lcf_redis lcf)) =? 0)%nat
  && negb (bool_decide (cs_zone_of lcf = None)).

Definition sentinel_redis_scan_loc : location_tree -> option loc_conf :=
  scan_loc redis_configured.

Definition sentinel_redis_find_loc
  : list (option loc_conf * location_tree) -> option loc_conf :=
  find_loc redis_configured.

(** The instance of a worker: its configuration and initial state. *)
Definition sentinel_redis_init_process (servers : list (option loc_conf * location_tree))
    (alloc_ok : bool) : option (loc_conf * redis_ctx) :=
  match sentinel_redis_find_loc servers with
  | None => None
  | Some lcf =>
      if alloc_ok
      then Some (lcf, RedisCtx REDIS_DOWN NGX_SENTINEL_REDIS_BACKOFF_MIN_MS 0 false false
                        false (Some 1000))
      else None
  end.
End Init.
