(* ===== verification/RedisProps.v ===== *)
(** * RedisProps.v: properties of the Redis synchronisation

    The timer that drives the worker's state machine is never lost, the
    reconnect delay follows the documented back-off, SCAN cursors survive the
    text round trip, and a ban pushed by one host is the ban another host
    reads. *)
From S2P Require Import Prelude Types Ngx Http NgxModel Shm ShmTree ShmSpec ShmOps ShmProps.
From S2P Require Import SignalProps Ring Feed FeedProps Redis.

Ltac redis_fields :=
  cbn [set_timer set_scan set_auth set_link sentinel_redis_teardown
       rs_state rs_backoff rs_cursor rs_inflight rs_auth rs_ac rs_timer] in *.

(** ** Cursors *)

Lemma parse_cursor_value s v :
  0 <= v -> Forall digit s ->
  dec_from v s < 2 ^ 64 -> parse_cursor_loop s v = dec_from v s.
Proof.
  unfold dec_from. intros Hv Hs. revert v Hv. induction Hs as [|c s Hc Hs IH]; intros v Hv Hlt; [done|].
  cbn [fold_left parse_cursor_loop] in *. unfold digit in Hc.
  pose proof (dec_value_from (v * 10 + (bval c - 48)) s ltac:(lia) Hs) as Hle.
  unfold dec_from in Hle. destruct (Z.ltb_spec (bval c) 48), (Z.ltb_spec 57 (bval c)); try lia. cbn [orb].
  unfold ull_max. change ((2 ^ 64 - 1) / 10) with 1844674407370955161.
  destruct (Z.ltb_spec 1844674407370955161 v); [lia|].
  rewrite wrap_id by lia. apply IH; [lia|done].
Qed.

Section Props.
Context `{NgxHash} `{NgxCompare} `{NgxSlab} `{NgxRbtree} `{NgxParse} `{NgxInet} `{NgxHttp}
        `{NgxFormat}.
Context {HashLaws : NgxHashLaws} {CmpLaws : NgxCompareLaws} {SlabLaws : NgxSlabLaws}
        {RbLaws : NgxRbtreeLaws} {FormatLaws : NgxFormatLaws}.

(** A SCAN cursor survives the text round trip: every cursor a server can
    return (a 64-bit number) is parsed to itself, so the next SCAN continues
    where the last one stopped. *)
Theorem scan_cursor_roundtrip n :
  0 <= n < 2 ^ 64 -> sentinel_redis_parse_cursor (ngx_dec n) = n.
Proof.
  intros Hn. unfold sentinel_redis_parse_cursor.
  pose proof (dec_value_dec n ltac:(lia)) as E. unfold dec_value in E.
  rewrite parse_cursor_value; [done|lia|apply dec_digits; lia|lia].
Qed.

(** ** The worker's state machine *)

Section Machine.
Context (conf : redis_conf) (ok : redis_command -> bool).

Definition redis_system : Type := redis_ctx * option ring.

(** The events of a worker that is not exiting: the timer, which is consumed
    when it fires, and the callbacks hiredis may deliver.  A disconnect and the
    NULL replies of commands that were pending when a context is freed may come
    at any time, also after the teardown that frees it has reset the context. *)
Inductive redis_step : redis_system -> redis_system -> Prop :=
  | redis_timer rc push outcome now rc' push' cmds :
      is_Some (rs_timer rc) ->
      sentinel_redis_timer_handler ok false conf (set_timer rc None) push outcome now
        = Some (rc', push', cmds) ->
      redis_step (rc, push) (rc', push')
  | redis_connected rc push status_ok :
      rs_state rc = REDIS_CONNECTING ->
      redis_step (rc, push) (sentinel_redis_on_connect false rc status_ok, push)
  | redis_disconnected rc push :
      redis_step (rc, push) (sentinel_redis_on_disconnect false rc, push)
  | redis_authenticated rc push reply :
      (rs_auth rc = true \/ reply = None) ->
      redis_step (rc, push) (sentinel_redis_auth_reply false rc reply, push)
  | redis_scanned rc push reply alloc_ok rc' cmds :
      (rs_inflight rc = true \/ reply = None) ->
      sentinel_redis_scan_reply ok conf rc reply alloc_ok = Some (rc', cmds) ->
      redis_step (rc, push) (rc', push).

(** The invariant: the timer is armed, the back-off is within its bounds, a
    pull only runs on an open connection, and a worker that is down owns no
    connection. *)
Definition redis_ok (rc : redis_ctx) : Prop :=
  is_Some (rs_timer rc) /\
  NGX_SENTINEL_REDIS_BACKOFF_MIN_MS <= rs_backoff rc <= NGX_SENTINEL_REDIS_BACKOFF_MAX_MS /\
  (rs_state rc = REDIS_DOWN -> rs_ac rc = false /\ rs_inflight rc = false /\ rs_auth rc = false) /\
  (rs_state rc <> REDIS_DOWN -> rs_ac rc = true) /\
  (rs_inflight rc = true -> rs_state rc = REDIS_UP) /\
  0 <= rs_cursor rc < 2 ^ 64.

(** The invariant without the timer. *)
Definition redis_idle_ok (rc : redis_ctx) : Prop := redis_ok (set_timer rc (Some 0)).

Lemma redis_ok_idle rc : redis_ok rc -> redis_idle_ok rc.
Proof. intros (_ & ?). by split. Qed.

Lemma idle_set_timer rc t : redis_idle_ok rc -> redis_idle_ok (set_timer rc t).
Proof. done. Qed.

Ltac redis_auto :=
  unfold redis_idle_ok, redis_ok, NGX_SENTINEL_REDIS_BACKOFF_MIN_MS,
    NGX_SENTINEL_REDIS_BACKOFF_MAX_MS in *;
  redis_fields; intuition (eauto; congruence || lia).

Lemma schedule_ok rc : redis_idle_ok rc -> redis_ok (sentinel_redis_schedule_reconnect false rc).
Proof.
  intros (_ & Hb & ?). simpl in *. unfold sentinel_redis_schedule_reconnect.
  split; [by eexists|]. split; [|done]. cbn [rs_backoff].
  unfold NGX_SENTINEL_REDIS_BACKOFF_MIN_MS, NGX_SENTINEL_REDIS_BACKOFF_MAX_MS in *.
  rewrite Z.shiftl_mul_pow2 by lia. break_bool; lia.
Qed.

Lemma teardown_ok rc : redis_idle_ok rc -> redis_idle_ok (sentinel_redis_teardown rc).
Proof. intros (_ & Hb & _). repeat split; try done; simpl in *; lia. Qed.

Lemma parse_cursor_range s v : 0 <= v < 2 ^ 64 -> 0 <= parse_cursor_loop s v < 2 ^ 64.
Proof.
  revert v. induction s as [|c s IH]; intros v Hv; cbn [parse_cursor_loop]; [done|].
  destruct ((bval c <? 48) || (57 <? bval c)); [done|].
  destruct (ull_max / 10 <? v); [lia|]. apply IH, wrap_range. lia.
Qed.

Lemma pair_fst {A B} (a c : A) (b d : B) : (a, b) = (c, d) -> a = c.
Proof. by intros [=]. Qed.

Lemma connect_ok rc outcome rc' cmds :
  redis_idle_ok rc -> sentinel_redis_connect ok false conf rc outcome = (rc', cmds) ->
  redis_idle_ok rc' /\ (rs_state rc' = REDIS_DOWN -> is_Some (rs_timer rc')).
Proof.
  intros Hi. unfold sentinel_redis_connect.
  case_bool_decide as Es; cbn [negb]; [|intros <-%pair_fst; by split].
  pose proof Hi as (_ & Hb & Hd & _ & _ & Hc). destruct (Hd Es) as (Hac & Hin & Hau). cbn in Hb, Hc, Hac, Hin, Hau.
  assert (forall rc0, redis_idle_ok rc0 ->
    redis_idle_ok (sentinel_redis_schedule_reconnect false rc0) /\
    (rs_state (sentinel_redis_schedule_reconnect false rc0) = REDIS_DOWN ->
     is_Some (rs_timer (sentinel_redis_schedule_reconnect false rc0)))) as Hsch.
  { intros rc0 Hrc. apply schedule_ok in Hrc. split; [by apply redis_ok_idle|].
    intros _. apply Hrc. }
  assert (forall auth, redis_idle_ok (set_auth (set_link rc REDIS_CONNECTING true) auth)) as Hlink.
  { intros auth. repeat split; simpl; try done; try lia. by rewrite Hin. }
  destruct outcome.
  - intros <-%pair_fst. by apply Hsch.
  - intros <-%pair_fst. apply Hsch. repeat split; simpl; try done; try lia. by rewrite Hin.
  - specialize (Hlink (rs_auth rc)) as Hl0. 
    destruct (redis_password conf) as [[|c pw]|]; [intros <-%pair_fst; split; [exact Hl0|done]| |
      intros <-%pair_fst; split; [exact Hl0|done]].
    destruct (ok (CmdAuth (c :: pw))).
    + intros <-%pair_fst. split; [apply Hlink|done].
    + intros <-%pair_fst. apply Hsch, teardown_ok, Hlink.
Qed.

Lemma pull_step_ok rc rc' cmds :
  redis_idle_ok rc -> sentinel_redis_pull_step ok conf rc = Some (rc', cmds) ->
  redis_idle_ok rc' /\ rs_timer rc' = rs_timer rc /\ rs_state rc' = rs_state rc.
Proof.
  intros Hi. unfold sentinel_redis_pull_step.
  assert (redis_idle_ok (set_scan rc (rs_cursor rc) false)) as Hoff.
  { redis_auto. }
  destruct (negb (rs_ac rc) || _); [by intros [= <- _]|].
  do 2 (case_match; [|done]). by case_match; intros [= <- _].
Qed.

Lemma step_redis_ok s s' : redis_ok s.1 -> redis_step s s' -> redis_ok s'.1.
Proof.
  intros Hok Hs. pose proof (redis_ok_idle _ Hok) as Hi.
  destruct Hs as [rc push outcome now rc' push' cmds Ht E|rc push b Es|rc push Ea
                 |rc push reply Ea|rc push reply al rc' cmds Ein E]; cbn [fst] in *.
  - unfold sentinel_redis_timer_handler in E.
    assert (forall rc2 push2 cmds2, redis_idle_ok rc2 ->
      (rs_state rc2 = REDIS_DOWN -> is_Some (rs_timer rc2)) ->
      Some (if negb false && negb (bool_decide (rs_state rc2 = REDIS_DOWN))
            then set_timer rc2 (Some (redis_interval conf * 1000)) else rc2, push2, cmds2)
        = Some (rc', push', cmds) -> redis_ok rc') as Hfin.
    { intros rc2 push2 cmds2 (_ & Hrest) Hd [= <- _ _]. cbn [negb andb].
      case_bool_decide; cbn [negb]; (split; [|exact Hrest]); [by apply Hd|by eexists]. }
    destruct (rs_state (set_timer rc None)) eqn:Est.
    + destruct (sentinel_redis_connect ok false conf (set_timer rc None) outcome)
        as [rc2 cmds2] eqn:Ec.
      apply connect_ok in Ec as [Hi2 Hd2]; [|by apply idle_set_timer]. eapply Hfin; [exact Hi2|exact Hd2|exact E].
    + eapply Hfin; [| |exact E]; [by apply idle_set_timer|]. intros Ed. congruence.
    + assert (redis_idle_ok (set_timer rc None)) as Hi0 by (by apply idle_set_timer).
      destruct (rs_auth (set_timer rc None)).
      { eapply Hfin; [exact Hi0| |exact E]. intros Ed. congruence. }
      destruct (sentinel_redis_flush_push ok conf (set_timer rc None) push now) as [sets push2].
      destruct (rs_inflight (set_timer rc None)) eqn:Ein; cbn [negb] in E.
      { eapply Hfin; [exact Hi0| |exact E]. intros Ed. congruence. }
      destruct (sentinel_redis_pull_step ok conf (set_scan (set_timer rc None) 0 true))
        as [[rc3 cmds3]|] eqn:Ep; [|done].
      apply pull_step_ok in Ep as (Hi3 & _ & Est3).
      * eapply Hfin; [exact Hi3| |exact E]. rewrite Est3. simpl in *. congruence.
      * redis_auto.
  - unfold sentinel_redis_on_connect. destruct b.
    + assert (rs_state rc <> REDIS_DOWN) by congruence. redis_auto.
    + by apply schedule_ok, teardown_ok.
  - by apply schedule_ok, teardown_ok.
  - unfold sentinel_redis_auth_reply.
    assert (redis_ok (set_auth rc false)) as Hoff.
    { redis_auto. }
    assert (redis_ok (sentinel_redis_schedule_reconnect false
      (sentinel_redis_teardown (set_auth rc false)))) as Hre
      by (apply schedule_ok, teardown_ok; by apply redis_ok_idle).
    by repeat case_match.
  - destruct Hok as (Ht & Hrest).
    assert (forall cur b, 0 <= cur < 2 ^ 64 -> (b = true -> rs_inflight rc = true) ->
      redis_ok (set_scan rc cur b)) as Hscan.
    { intros cur b Hc Hb. destruct Hrest as (?&Hd&?&Hup&?).
      repeat split; simpl; try done; try lia; try (by apply Hd); try (by intros ?; apply Hup, Hb).
      destruct b; [|done]. by destruct (Hd ltac:(done)) as (_ & Hin & _); rewrite Hb in Hin. }
    unfold sentinel_redis_scan_reply in E.
    assert (0 <= rs_cursor rc < 2 ^ 64) as Hcur by apply Hrest.
    assert (Some (set_scan rc (rs_cursor rc) false, []) = Some (rc', cmds) -> redis_ok rc') as Hno.
    { intros [= <- _]. by apply Hscan. }
    destruct reply as [[| | |]|]; try (by apply Hno).
    destruct elements as [|cur [|keys [|]]]; try (by apply Hno).
    set (c := match cur with Some (ReplyString s) => sentinel_redis_parse_cursor s | _ => 0 end) in *.
    assert (0 <= c < 2 ^ 64) as Hc.
    { subst c. destruct cur as [[]|]; try lia. apply parse_cursor_range. lia. }
    destruct (negb (c =? 0)).
    + destruct (sentinel_redis_pull_step ok conf _) as [[rc3 cmds3]|] eqn:Ep; [|done].
      injection E as <- _. apply pull_step_ok in Ep as ((_ & Hr3) & Et3 & _).
      * split; [|exact Hr3]. by rewrite Et3.
      * apply redis_ok_idle, Hscan; [done|]. by intros ->.
    + injection E as <- _. by apply Hscan.
Qed.

(** The instance a worker starts with. *)
Lemma init_process_ok servers alloc_ok lcf rc :
  sentinel_redis_init_process servers alloc_ok = Some (lcf, rc) ->
  sentinel_redis_find_loc servers = Some lcf /\ redis_ok rc.
Proof.
  unfold sentinel_redis_init_process. destruct (sentinel_redis_find_loc servers); [|done].
  destruct alloc_ok; [|done]. intros [= -> <-]. split; [done|]. redis_auto.
Qed.

Lemma digit_not_nul s : Forall digit s -> NUL ∉ s.
Proof.
  intros Hs Hin. eapply Forall_forall in Hs; [|exact Hin].
  unfold digit in Hs. change (bval NUL) with 0 in Hs. lia.
Qed.

(** The configured prefix leaves room for [:ban:*] and the NUL in the pattern
    buffer. *)
Definition prefix_fits : Prop :=
  (length (redis_prefix_of conf) + 7 <= NGX_SOCKADDR_STRLEN + 64)%nat /\
  NUL ∉ redis_prefix_of conf.

Lemma pull_step_total rc :
  prefix_fits -> 0 <= rs_cursor rc < 2 ^ 64 ->
  is_Some (sentinel_redis_pull_step ok conf rc).
Proof.
  intros [Hl Hn] Hc. unfold sentinel_redis_pull_step. case_match; [by eexists|].
  unfold ngx_snprintf. pose proof (dec_length (rs_cursor rc) Hc).
  rewrite !take_ge by (rewrite !length_app; simpl; lia).
  rewrite c_string_app by (by apply digit_not_nul, dec_digits; lia).
  rewrite app_assoc, c_string_app.
  - case_match; by eexists.
  - rewrite not_elem_of_app. split; [done|]. by apply (bool_decide_unpack _).
Qed.

(** With a prefix that fits, neither the tick nor a SCAN reply faults. *)
Lemma timer_handler_total exiting rc push outcome now :
  prefix_fits -> redis_ok rc ->
  exists rc2 push2 cmds,
    sentinel_redis_timer_handler ok exiting conf (set_timer rc None) push outcome now
      = Some (rc2, push2, cmds).
Proof.
  intros Hp Hok. unfold sentinel_redis_timer_handler.
  destruct (rs_state (set_timer rc None)).
  - destruct (sentinel_redis_connect ok exiting conf (set_timer rc None) outcome). by do 3 eexists.
  - by do 3 eexists.
  - destruct (rs_auth (set_timer rc None)); [by do 3 eexists|].
    destruct (sentinel_redis_flush_push ok conf (set_timer rc None) push now).
    destruct (negb (rs_inflight (set_timer rc None))); [|by do 3 eexists].
    destruct (pull_step_total (set_scan (set_timer rc None) 0 true)) as [[] ->];
      [done|simpl; lia|]. by do 3 eexists.
Qed.

Lemma scan_reply_total rc reply alloc_ok :
  prefix_fits -> redis_ok rc ->
  is_Some (sentinel_redis_scan_reply ok conf rc reply alloc_ok).
Proof.
  intros Hp Hok. unfold sentinel_redis_scan_reply.
  destruct reply as [[| | |]|]; try by eexists.
  destruct elements as [|cur [|keys [|]]]; try by eexists.
  destruct (negb _); [|by eexists].
  match goal with |- context [sentinel_redis_pull_step _ _ ?rc'] =>
    destruct (pull_step_total rc') as [[rc2 cmds2] ->] end; [done| |by eexists].
  cbn [set_scan rs_cursor]. destruct cur as [[]|]; try lia. apply parse_cursor_range. lia.
Qed.

(** C17. The Redis state machine of a worker that is not exiting never stops,
    when the configured prefix leaves room for [:ban:*] and its NUL in the
    164-byte pattern buffer and has no NUL of its own: from its initial state,
    whatever the order of timer ticks and hiredis callbacks, the timer is armed
    again after every event, the reconnect delay stays between 0.5 and 30
    seconds, a SCAN only runs on an open connection, and neither the next tick
    (also one of a worker that has begun to exit) nor a SCAN reply faults. *)
Theorem redis_worker_never_stops lcf servers push rc0 s' :
  sentinel_redis_init_process servers true = Some (lcf, rc0) -> prefix_fits ->
  rtc redis_step (rc0, push) s' ->
  redis_ok s'.1 /\
  (forall exiting outcome now, exists rc2 push2 cmds,
     sentinel_redis_timer_handler ok exiting conf (set_timer s'.1 None) s'.2 outcome now
       = Some (rc2, push2, cmds)) /\
  (forall reply alloc_ok, is_Some (sentinel_redis_scan_reply ok conf s'.1 reply alloc_ok)).
Proof.
  intros Hinit Hp Hr.
  assert (redis_ok s'.1) as Hok.
  { assert (redis_ok (rc0, push).1) as Hstart by (by apply init_process_ok in Hinit as [_ ?]).
    clear Hinit. induction Hr; eauto using step_redis_ok. }
  split_and!; [done| |]; intros; [by apply timer_handler_total|by apply scan_reply_total].
Qed.

(** C39. A long key prefix makes the worker read past its pattern buffer: when
    the configured prefix leaves no room for [:ban:*] and the terminating NUL,
    the pattern handed to hiredis as a C string is not terminated, and the first
    pull on an open connection faults. *)
Theorem long_prefix_pattern_unterminated rc :
  (NGX_SOCKADDR_STRLEN + 64 < length (redis_prefix_of conf) + 7)%nat ->
  NUL ∉ redis_prefix_of conf ->
  rs_ac rc = true -> rs_state rc = REDIS_UP -> 0 <= rs_cursor rc < 2 ^ 64 ->
  sentinel_redis_pull_step ok conf rc = None.
Proof.
  intros Hl Hn Hac Hst Hc. unfold sentinel_redis_pull_step.
  rewrite Hac, Hst, bool_decide_true by done. cbn [negb orb].
  unfold ngx_snprintf. pose proof (dec_length (rs_cursor rc) Hc).
  rewrite (take_ge (ngx_dec (rs_cursor rc) ++ [NUL])) by (rewrite !length_app; simpl; lia).
  rewrite c_string_app by (by apply digit_not_nul, dec_digits; lia).
  unfold c_string at 1.
  assert (memchr (take (NGX_SOCKADDR_STRLEN + 64)
    (redis_prefix_of conf ++ lit ":ban:*" ++ [NUL])) NUL = None) as ->; [|done].
  apply memchr_None. rewrite app_assoc, take_app_le.
  - intros Hin. apply elem_of_take in Hin as (i & Hi & _). apply list_elem_of_lookup_2 in Hi.
    apply elem_of_app in Hi as [?|Hi]; [done|]. revert Hi. by apply (bool_decide_unpack _).
  - rewrite length_app. simpl. lia.
Qed.
End Machine.

(** The pull does not test that its table is attached: on an element that a
    growing zone array left behind, the first decision of a peer that is still in
    force makes the worker dereference a NULL pool. *)
Theorem detached_table_crashes_pull zc text n e ip now :
  memchr text SP = Some n -> ngx_atoi (drop (S n) text) = Some e -> now < e ->
  sentinel_redis_get_reply (Some (Zone zc None)) (Some (ReplyString text)) ip now = None.
Proof.
  intros Hn He Hlt. unfold sentinel_redis_get_reply. destruct text as [|c text]; [done|].
  cbv zeta. rewrite Hn, He. by rewrite (proj2 (Z.leb_gt _ _)).
Qed.

(** ** Back-off *)

(** The delays of [n] reconnect attempts that all fail. *)
Fixpoint failing_delays (n : nat) (rc : redis_ctx) : list (option Z) :=
  match n with
  | O => []
  | S n' =>
      let rc := sentinel_redis_schedule_reconnect false rc in
      rs_timer rc :: failing_delays n' rc
  end.

Definition backoff_ms (k : nat) : Z := Z.min NGX_SENTINEL_REDIS_BACKOFF_MAX_MS (500 * 2 ^ Z.of_nat k).

Lemma failing_delays_from n : forall k rc,
  rs_backoff rc = backoff_ms k ->
  failing_delays n rc = (fun i => Some (backoff_ms i)) <$> seq k n.
Proof.
  induction n as [|n IH]; intros k rc Hb; [done|]. cbn [failing_delays seq fmap list_fmap].
  assert (500 <= backoff_ms k <= 30000) as Hr.
  { unfold backoff_ms, NGX_SENTINEL_REDIS_BACKOFF_MAX_MS.
    pose proof (Z.pow_pos_nonneg 2 (Z.of_nat k)). lia. }
  f_equal.
  - unfold sentinel_redis_schedule_reconnect, NGX_SENTINEL_REDIS_BACKOFF_MIN_MS.
    cbn [rs_timer]. f_equal. lia.
  - apply IH. unfold sentinel_redis_schedule_reconnect. cbn [rs_backoff]. rewrite Hb.
    unfold NGX_SENTINEL_REDIS_BACKOFF_MIN_MS. rewrite Z.max_r, Z.shiftl_mul_pow2 by lia.
    unfold backoff_ms, NGX_SENTINEL_REDIS_BACKOFF_MAX_MS in *.
    rewrite Nat2Z.inj_succ, Z.pow_succ_r by lia. break_bool; lia.
Qed.

(** Reconnecting backs off exponentially with a cap: the delays of the
    successive attempts of a worker whose Redis is down are 0.5 s, 1 s, 2 s, ...
    up to 30 s, and a successful connection starts the sequence again. *)
Theorem reconnect_backoff_doubles n rc :
  failing_delays n (sentinel_redis_on_connect false rc true)
    = (fun i => Some (backoff_ms i)) <$> seq 0 n.
Proof. by apply failing_delays_from. Qed.

(** ** Publishing *)

Lemma drop_S_app {A} (l : list A) x r : drop (S (length l)) (l ++ x :: r) = r.
Proof. induction l; simpl; auto. Qed.


Lemma flush_loop_all conf now fuel : forall drained r q,
  ring_models r q -> (length q < fuel)%nat ->
  drained + Z.of_nat (length q) <= NGX_SENTINEL_REDIS_PUSH_RING ->
  exists r', flush_loop (fun _ => true) fuel conf now drained r
             = (omap (push_command conf now) q, r') /\ ring_models r' [].
Proof.
  induction fuel as [|fuel IH]; intros drained r q Hm Hf Hd; [lia|].
  cbn [flush_loop]. pose proof (ring_dequeue_models r q Hm) as Hq.
  destruct q as [|e q]; [rewrite Hq; by exists r|].
  destruct Hq as (r1 & -> & Hm1 & _). cbn [omap list_omap length] in *.
  destruct (push_command conf now e) as [cmd|]; cbn [negb].
  - destruct (Z.leb_spec NGX_SENTINEL_REDIS_PUSH_RING (drained + 1)).
    + destruct q; [|cbn [length] in *; lia]. by exists r1.
    + destruct (IH (drained + 1) r1 q) as (r' & -> & Hm'); [done|lia|lia|]. by exists r'.
  - apply IH; [done|lia|lia].
Qed.

(** A flush publishes every waiting ban: on an open connection that accepts
    the commands, one tick empties the ring and issues, in order, one SET for
    each entry that has not expired, none for the others. *)
Theorem flush_publishes_every_ban conf rc r q now :
  ring_models r q -> rs_ac rc = true -> rs_state rc = REDIS_UP ->
  exists r', sentinel_redis_flush_push (fun _ => true) conf rc (Some r) now
             = (omap (push_command conf now) q, Some r') /\ ring_models r' [].
Proof.
  intros Hm Hac Hst. unfold sentinel_redis_flush_push.
  rewrite Hac, Hst, bool_decide_true by done. cbn [negb orb].
  pose proof (rm_len _ _ Hm).
  destruct (flush_loop_all conf now (S (Z.to_nat NGX_SENTINEL_REDIS_PUSH_RING)) 0 r q)
    as (r' & -> & Hm'); [done|lia|lia|]. by exists r'.
Qed.

Definition cs_tier (a : Z) : Prop :=
  a = NGX_SENTINEL_CS_BAN \/ a = NGX_SENTINEL_CS_CAPTCHA \/ a = NGX_SENTINEL_CS_THROTTLE.

Lemma action_text_roundtrip a :
  cs_tier a -> sentinel_redis_action (sentinel_redis_action_str a) = a /\
  SP ∉ sentinel_redis_action_str a /\ (length (sentinel_redis_action_str a) <= 8)%nat.
Proof.
  intros [->|[->| ->]]; (split; [done|]); (split; [by apply (bool_decide_unpack _)|simpl; lia]).
Qed.

Lemma split_at_space s rest : SP ∉ s -> memchr (s ++ SP :: rest) SP = Some (length s).
Proof.
  intros Hs. apply memchr_Some. split; [by apply list_lookup_middle|]. by rewrite take_app_length.
Qed.

(** The key of a pushed ban is a key of the namespace, and its suffix is the
    address. *)
Lemma scan_pushed_key conf ip :
  NUL ∉ redis_prefix_of conf -> NUL ∉ ip -> ip <> [] -> (length ip < NGX_SOCKADDR_STRLEN)%nat ->
  scan_key (fun _ => true) conf true
    (Some (ReplyString (redis_prefix_of conf ++ lit ":ban:" ++ ip)))
  = [CmdGet (redis_prefix_of conf ++ lit ":ban:" ++ ip) ip].
Proof.
  intros Hp Hi Hne Hlen. unfold scan_key, key_ip.
  set (k := redis_prefix_of conf ++ lit ":ban:" ++ ip).
  assert (length k = length (redis_prefix_of conf) + 5 + length ip)%nat as Hk.
  { unfold k. rewrite !length_app. simpl. lia. }
  assert (0 < length ip)%nat by (destruct ip; [done|simpl; lia]).
  rewrite (proj2 (Nat.leb_gt _ _)) by lia.
  replace (length k - (length (redis_prefix_of conf) + 5))%nat with (length ip) by lia.
  rewrite (proj2 (Nat.eqb_neq _ _)), (proj2 (Nat.leb_gt _ _)) by lia. cbn [orb].
  assert (drop (length (redis_prefix_of conf) + 5) k = ip) as ->.
  { unfold k. rewrite app_assoc. apply drop_app_length'. rewrite length_app. simpl. lia. }
  rewrite !c_string_app; [done| |done].
  unfold k. rewrite !not_elem_of_app. split_and!; [done| |done].
  by apply (bool_decide_unpack _).
Qed.

(** The zone has no room for one more node under a key. *)
Definition zone_refuses (sh : shctx) (key : bytes) : Prop :=
  ngx_slab_calloc_locked (sh_slab sh) (node_size + Z.of_nat (length key)) = None.

(** Reading back a published value upserts the address. *)
Lemma get_reply_value ip a e zc sh now :
  cs_tier a -> 0 <= e < 2 ^ 63 -> wf (fun _ => True) sh -> now < e ->
  exists sh',
    sentinel_redis_get_reply (attached zc sh)
      (Some (ReplyString (sentinel_redis_action_str a ++ [SP] ++ ngx_dec e))) ip now
      = Some (attached zc sh') /\
    ((sh' = sh /\ zone_refuses sh (SHA256 ip)) \/
     forall t, active t sh' (SHA256 ip) = if t <? e then Some a else None).
Proof.
  intros Ha He Hwf Hnow. destruct (action_text_roundtrip a Ha) as (Eact & Hsp & _).
  cbn [app]. set (str := sentinel_redis_action_str a ++ SP :: ngx_dec e).
  assert (Hm : memchr str SP = Some (length (sentinel_redis_action_str a)))
    by by apply split_at_space.
  assert (Ht : take (length (sentinel_redis_action_str a)) str = sentinel_redis_action_str a)
    by apply take_app_length.
  assert (Hd : drop (S (length (sentinel_redis_action_str a))) str = ngx_dec e)
    by apply drop_S_app.
  destruct str as [|c str']; [done|]. cbn [sentinel_redis_get_reply attached].
  unfold sentinel_redis_get_reply, attached. rewrite Hm, Ht, Hd, Eact, atoi_dec by done.
  destruct (Z.leb_spec e now); [lia|].
  destruct (crowdsec_upsert_abs sh (SHA256 ip) e a (sh_cs_generation sh) now true Hwf)
    as (rc & sh' & -> & _ & _ & Hr).
  { rewrite SHA256_length. unfold NGX_SENTINEL_DIGEST_LEN. lia. }
  exists sh'. split; [done|]. destruct Hr as [[_ Hab]|(_ & -> & _ & Hfull)]; [|by left]. right.
  intros t. unfold active. rewrite Hab, lookup_insert_eq. done.
Qed.

(** What an issued SET carries. *)
Lemma push_command_set conf now e key value ttl :
  push_command conf now e = Some (CmdSet key value ttl) ->
  pe_ip e <> [] /\ (length (pe_ip e) < NGX_SOCKADDR_STRLEN)%nat /\
  key = ngx_snprintf (NGX_SOCKADDR_STRLEN + 64)
          (redis_prefix_of conf ++ lit ":ban:" ++ pe_ip e) /\
  value = ngx_snprintf 64
            (sentinel_redis_action_str (pe_action e) ++ [SP] ++ ngx_dec (pe_expiry e)).
Proof.
  unfold push_command.
  destruct (Nat.eqb_spec (length (pe_ip e)) 0) as [|Hne]; [done|].
  destruct (Nat.leb_spec NGX_SOCKADDR_STRLEN (length (pe_ip e))) as [|Hlt]; [done|].
  cbn [orb]. destruct (pe_expiry e - now <=? 0); [done|].
  generalize (ngx_snprintf 64
    (sentinel_redis_action_str (pe_action e) ++ [SP] ++ ngx_dec (pe_expiry e))).
  intros v [= <- <- _]. split_and!; try done. by intros E; rewrite E in Hne.
Qed.

(** C28. A ban pushed by one host is the ban another host applies: the key a
    flush writes is recognised by the scan of a peer with the same prefix, its
    suffix is the banned address, and the value read back makes the peer answer
    exactly that action for that address, strictly before that expiry and no
    longer, unless the slab pool of the peer's zone has no room for the node.
    The action is a decision (ban, captcha or throttle), the prefix has at most
    59 bytes and no NUL, the address has no NUL, and the ban is still running when
    the peer reads it. *)
Theorem pushed_ban_reaches_peers conf e now key value ttl zc sh now2 :
  push_command conf now e = Some (CmdSet key value ttl) ->
  cs_tier (pe_action e) -> 0 <= pe_expiry e < 2 ^ 63 ->
  NUL ∉ redis_prefix_of conf -> (length (redis_prefix_of conf) <= 59)%nat ->
  NUL ∉ pe_ip e ->
  wf (fun _ => True) sh -> now2 < pe_expiry e ->
  scan_key (fun _ => true) conf true (Some (ReplyString key)) = [CmdGet key (pe_ip e)] /\
  exists sh',
    sentinel_redis_get_reply (attached zc sh) (Some (ReplyString value)) (pe_ip e) now2
      = Some (attached zc sh') /\
    ((sh' = sh /\ zone_refuses sh (SHA256 (pe_ip e))) \/
     forall t, active t sh' (SHA256 (pe_ip e))
         = if t <? pe_expiry e then Some (pe_action e) else None).
Proof.
  intros Hpush Ha Hexp Hp Hpl Hip Hwf Hnow2.
  apply push_command_set in Hpush as (Hne & Hlt & -> & ->).
  destruct (action_text_roundtrip (pe_action e) Ha) as (_ & _ & Hal).
  pose proof (dec_length (pe_expiry e) ltac:(lia)) as Hdl.
  unfold ngx_snprintf.
  rewrite (take_ge (redis_prefix_of conf ++ _)) by (rewrite !length_app; simpl; lia).
  rewrite (take_ge (sentinel_redis_action_str _ ++ _)) by (rewrite !length_app; simpl; lia).
  split; [by apply scan_pushed_key|by apply get_reply_value].
Qed.
End Props.

(** ** Witnesses *)
Import Concrete.

Lemma scan_cursor_roundtrip_witness :
  sentinel_redis_parse_cursor (lit "18446744073709551615") = 18446744073709551615.
Proof.
  change (lit "18446744073709551615") with (ngx_dec 18446744073709551615).
  by apply (scan_cursor_roundtrip 18446744073709551615).
Defined.

Definition demo_redis : redis_conf := RedisConf (lit "192.0.2.53") 6379 None
  (Some (lit "sentinel")) 10 3600 (Some 1%nat).

Definition demo_up : redis_ctx := RedisCtx REDIS_UP 500 0 false false true (Some 10000).

Definition demo_redis_lcf : loc_conf :=
  LocConf 1 0 1 (Some 0%nat) (Some None) [] default_threshold default_weights
    (CsConf (Some (Some 1%nat)) [] 10 3600 600 16777216) [] [] None []
    demo_deny (DenyConf None []) (DenyConf None []) None None
    (FcrdnsConf (Some None) [] 3600 []) demo_tarpit 403 0 0 0
    (PowConf 0 (Some []) 16 3600) demo_redis
    (SinkConf [] 10 3600 (Some (lit "sentinel/http-abuse")) None).

Lemma redis_worker_never_stops_witness :
  redis_ok (RedisCtx REDIS_DOWN 500 0 false false false (Some 1000)) /\
  (forall exiting outcome now, exists rc2 push2 cmds,
     sentinel_redis_timer_handler (fun _ => true) exiting demo_redis
       (RedisCtx REDIS_DOWN 500 0 false false false None) None outcome now
       = Some (rc2, push2, cmds)) /\
  (forall reply alloc_ok, is_Some (sentinel_redis_scan_reply (fun _ => true) demo_redis
     (RedisCtx REDIS_DOWN 500 0 false false false (Some 1000)) reply alloc_ok)).
Proof.
  apply (redis_worker_never_stops demo_redis (fun _ => true) demo_redis_lcf
    [(Some demo_redis_lcf, LocNil)] None
    (RedisCtx REDIS_DOWN 500 0 false false false (Some 1000))
    (RedisCtx REDIS_DOWN 500 0 false false false (Some 1000), None)).
  - reflexivity.
  - split; [vm_compute; lia|by apply (bool_decide_unpack _)].
  - apply rtc_refl.
Defined.

(** A prefix of 123 bytes, accepted by the directive. *)
Definition demo_long_redis : redis_conf := RedisConf (lit "192.0.2.53") 6379 None
  (Some (repeat (u_char 97) 123)) 10 3600 (Some 1%nat).

Lemma long_prefix_pattern_unterminated_witness :
  sentinel_redis_pull_step (fun _ => true) demo_long_redis demo_up = None.
Proof.
  apply (long_prefix_pattern_unterminated demo_long_redis (fun _ => true) demo_up).
  - vm_compute. lia.
  - by apply (bool_decide_unpack _).
  - done.
  - done.
  - split; [done|]. by vm_compute.
Defined.

Definition demo_ban : push_entry := PushEntry (lit "192.0.2.7") NGX_SENTINEL_CS_BAN 2000.

Lemma flush_publishes_every_ban_witness :
  exists r', sentinel_redis_flush_push (fun _ => true) demo_redis demo_up
      (Some (ring_enqueue ring_init demo_ban)) 1500
    = ([CmdSet (lit "sentinel:ban:192.0.2.7") (lit "ban 2000") 500], Some r').
Proof.
  destruct (flush_publishes_every_ban demo_redis demo_up (ring_enqueue ring_init demo_ban)
    [demo_ban] 1500) as (r' & -> & _); [|done|done|].
  - destruct (ring_enqueue_models ring_init [] demo_ban ring_init_models) as [E _].
    apply E.
  - exists r'. by vm_compute.
Defined.

Lemma pushed_ban_reaches_peers_witness :
  exists sh',
    sentinel_redis_get_reply (attached demo_conf demo_empty)
      (Some (ReplyString (lit "ban 2000"))) (lit "192.0.2.7") 1500
      = Some (attached demo_conf sh') /\
    active 1999 sh' (SHA256 (lit "192.0.2.7")) = Some NGX_SENTINEL_CS_BAN /\
    active 2000 sh' (SHA256 (lit "192.0.2.7")) = None.
Proof.
  destruct (pushed_ban_reaches_peers demo_redis demo_ban 1000
    (lit "sentinel:ban:192.0.2.7") (lit "ban 2000") 1000 demo_conf demo_empty 1500)
    as (_ & sh' & E & Hr); [by vm_compute|by left|done|by apply (bool_decide_unpack _)
    |vm_compute; lia|by apply (bool_decide_unpack _)|apply wf_empty|done|].
  exists sh'. split; [exact E|].
  destruct Hr as [[_ Hno]|Hr]; [by vm_compute in Hno|]. by rewrite !Hr.
Defined.
