(* ===== verification/RedisEv.v ===== *)
(** * RedisEv.v: hiredis on nginx's event loop ([sentinel_redis.c])

    The adapter wraps the socket hiredis owns in an nginx connection slot: the
    hooks hiredis calls to ask for or drop readiness events, the two event
    handlers, attaching and cleaning up.  The state of an event, its
    registration and its posting are nginx's, as is the table of slots.

    The property is that of a slot given back to nginx: nothing of it is
    registered or posted any more, so no handler can run on it.  It relies on
    [ngx_del_event] to unregister the event: the cleanup ignores its return code,
    and what an event does whose removal the kernel refuses is not modelled. *)
From S2P Require Import Prelude Types Ngx.

(** ** nginx's events *)

(** The flags of [ngx_event_t] the adapter looks at. *)
Record event : Type := Event {
  ev_active : bool;
  ev_ready : bool;
  ev_posted : bool;
  ev_closed : bool
}.

Class NgxEvent : Type := {
  ngx_handle_read_event : event -> ngx_rc * event;
  ngx_handle_write_event : event -> ngx_rc * event;
  ngx_del_event : event -> event;
  ngx_post_event : event -> event;
  ngx_delete_posted_event : event -> event
}.

(** [ngx_del_event] is the deletion that succeeds. *)
Class NgxEventLaws `{NgxEvent} : Prop := {
  del_event_active : forall e, ev_active (ngx_del_event e) = false;
  del_event_posted : forall e, ev_posted (ngx_del_event e) = ev_posted e;
  delete_posted_posted : forall e, ev_posted (ngx_delete_posted_event e) = false;
  delete_posted_active : forall e, ev_active (ngx_delete_posted_event e) = ev_active e
}.

Section RedisEv.
Context `{NgxEvent}.

(** [ngx_connection_t]: whether its descriptor is still set, and its events. *)
Record connection : Type := Connection {
  c_fd : bool;
  c_read : event;
  c_write : event
}.

(** The part of [sentinel_redis_ctx_t] the adapter uses, with nginx's slots and
    those of them that are free. *)
Record adapter : Type := Adapter {
  ad_ac : bool;
  ad_conn : option nat;
  ad_slots : gmap nat connection;
  ad_free : gset nat
}.

Definition with_read (f : event -> event) (c : connection) : connection :=
  Connection (c_fd c) (f (c_read c)) (c_write c).

Definition with_write (f : event -> event) (c : connection) : connection :=
  Connection (c_fd c) (c_read c) (f (c_write c)).

(** An update of the connection [rc->conn], none when it is NULL. *)
Definition on_conn (f : connection -> connection) (a : adapter) : adapter :=
  match ad_conn a with
  | None => a
  | Some k => Adapter (ad_ac a) (ad_conn a) (alter f k (ad_slots a)) (ad_free a)
  end.

(** ** The event handlers

    They run on the slot [k] whose event fired; the flag says whether hiredis
    was called. *)
Definition sentinel_redis_read_event (k : nat) (a : adapter) : bool * adapter :=
  if negb (ad_ac a) then (false, a)
  else (true, Adapter (ad_ac a) (ad_conn a)
                (alter (with_read (fun e => (ngx_handle_read_event e).2)) k (ad_slots a))
                (ad_free a)).

Definition sentinel_redis_write_event (k : nat) (a : adapter) : bool * adapter :=
  if negb (ad_ac a) then (false, a) else (true, a).

(** ** The hooks *)

Definition sentinel_redis_add_read (a : adapter) : adapter :=
  on_conn (with_read (fun e => (ngx_handle_read_event e).2)) a.

Definition sentinel_redis_del_read (a : adapter) : adapter :=
  on_conn (with_read (fun e => if ev_active e then ngx_del_event e else e)) a.

Definition sentinel_redis_add_write (a : adapter) : adapter :=
  on_conn (with_write (fun e =>
    if ev_ready e then if negb (ev_posted e) then ngx_post_event e else e
    else (ngx_handle_write_event e).2)) a.

Definition sentinel_redis_del_write (a : adapter) : adapter :=
  on_conn (with_write (fun e => if ev_active e then ngx_del_event e else e)) a.

(** One event of a connection that is cleaned up. *)
Definition quiet_event (e : event) : event :=
  let e := if ev_active e then ngx_del_event e else e in
  let e := if ev_posted e then ngx_delete_posted_event e else e in
  Event (ev_active e) (ev_ready e) (ev_posted e) true.

Definition sentinel_redis_ev_cleanup (a : adapter) : adapter :=
  match ad_conn a with
  | None => a
  | Some k =>
      Adapter (ad_ac a) None
        (alter (fun c => Connection false (quiet_event (c_read c)) (quiet_event (c_write c))) k
           (ad_slots a))
        ({[k]} ∪ ad_free a)
  end.

(** [fd_ok] tells whether the context has a descriptor, [slot] is the answer of
    [ngx_get_connection], whose events nginx has reset. *)
Definition fresh_event : event := Event false false false false.

Definition sentinel_redis_attach (fd_ok : bool) (slot : option nat) (a : adapter)
    : ngx_rc * adapter :=
  if negb fd_ok then (NGX_ERROR, a)
  else
    match slot with
    | None => (NGX_ERROR, a)
    | Some k =>
        (NGX_OK, Adapter (ad_ac a) (Some k)
                   (<[k := Connection true fresh_event fresh_event]> (ad_slots a))
                   (ad_free a ∖ {[k]}))
    end.

(** The tail of [sentinel_redis_teardown]: [redisAsyncFree] calls the cleanup
    hook; without a context a connection left over is detached directly. *)
Definition teardown_link (a : adapter) : adapter :=
  sentinel_redis_ev_cleanup (Adapter false (ad_conn a) (ad_slots a) (ad_free a)).

(** ** What can happen

    hiredis calls its hooks in any order, nginx fires an event that is
    registered or posted (and takes it off the queue), and the module attaches
    a new context to a free slot. *)
Definition fires (e : event) : Prop := ev_active e = true \/ ev_posted e = true.

(** Readiness is reported by the kernel, a posted event leaves its queue. *)
Definition dispatched (ready : bool) (e : event) : event :=
  Event (ev_active e) (ready || ev_ready e) false (ev_closed e).

Inductive adapter_step (a : adapter) : adapter -> Prop :=
  | step_add_read : adapter_step a (sentinel_redis_add_read a)
  | step_del_read : adapter_step a (sentinel_redis_del_read a)
  | step_add_write : adapter_step a (sentinel_redis_add_write a)
  | step_del_write : adapter_step a (sentinel_redis_del_write a)
  | step_cleanup : adapter_step a (sentinel_redis_ev_cleanup a)
  | step_teardown : adapter_step a (teardown_link a)
  | step_lost_context :
      adapter_step a (Adapter false (ad_conn a) (ad_slots a) (ad_free a))
  | step_attach fd_ok slot rc a' :
      (forall k, slot = Some k -> k ∈ ad_free a) ->
      sentinel_redis_attach fd_ok slot (Adapter true (ad_conn a) (ad_slots a) (ad_free a))
        = (rc, a') ->
      adapter_step a a'
  | step_read k c ready :
      ad_slots a !! k = Some c -> fires (c_read c) ->
      adapter_step a
        (sentinel_redis_read_event k
           (Adapter (ad_ac a) (ad_conn a)
              (<[k := with_read (dispatched ready) c]> (ad_slots a)) (ad_free a))).2
  | step_write k c ready :
      ad_slots a !! k = Some c -> fires (c_write c) ->
      adapter_step a
        (sentinel_redis_write_event k
           (Adapter (ad_ac a) (ad_conn a)
              (<[k := with_write (dispatched ready) c]> (ad_slots a)) (ad_free a))).2.

(** ** Silence of freed slots *)
Context {EventLaws : NgxEventLaws}.

Definition silent (c : connection) : Prop := ~ fires (c_read c) /\ ~ fires (c_write c).

Definition adapter_ok (a : adapter) : Prop :=
  (forall k c, k ∈ ad_free a -> ad_slots a !! k = Some c -> silent c) /\
  (forall k, ad_conn a = Some k -> k ∉ ad_free a).

(** nginx's slots before the first connection. *)
Definition adapter_start (free : gset nat) : adapter := Adapter false None ∅ free.

Lemma quiet_event_silent e : ~ fires (quiet_event e).
Proof.
  unfold quiet_event, fires. cbn [ev_active ev_posted].
  set (e1 := if ev_active e then ngx_del_event e else e).
  assert (ev_active e1 = false) as He1.
  { unfold e1. destruct (ev_active e) eqn:E; [apply del_event_active|done]. }
  destruct (ev_posted e1) eqn:E; [rewrite delete_posted_active, delete_posted_posted|];
    intros [?|?]; congruence.
Qed.

(** An update of slots that are not free keeps the invariant. *)
Lemma slots_ok a ac slots :
  adapter_ok a -> (forall k, k ∈ ad_free a -> slots !! k = ad_slots a !! k) ->
  adapter_ok (Adapter ac (ad_conn a) slots (ad_free a)).
Proof.
  intros [Hs Hc] Heq. split; cbn [ad_free ad_slots ad_conn]; [|done].
  intros k c Hk. rewrite Heq by done. by apply Hs.
Qed.

Lemma on_conn_ok f a : adapter_ok a -> adapter_ok (on_conn f a).
Proof.
  intros Ha. unfold on_conn. destruct (ad_conn a) as [k|] eqn:E; [|done].
  rewrite <- E. apply slots_ok; [done|]. intros k' Hk'.
  apply lookup_alter_ne. intros ->. by apply (proj2 Ha) in E.
Qed.

Lemma cleanup_ok a : adapter_ok a -> adapter_ok (sentinel_redis_ev_cleanup a).
Proof.
  intros [Hs Hc]. unfold sentinel_redis_ev_cleanup.
  destruct (ad_conn a) as [k|] eqn:E; [|by split; [|by rewrite E]].
  split; [|done]. cbn [ad_free ad_slots]. intros k' c Hk' Hl.
  destruct (decide (k = k')) as [<-|Hne].
  - rewrite lookup_alter_eq in Hl. destruct (ad_slots a !! k); [|done].
    injection Hl as <-. split; apply quiet_event_silent.
  - rewrite lookup_alter_ne in Hl by done. apply (Hs k'); [set_solver|done].
Qed.

Lemma adapter_step_ok a a' : adapter_ok a -> adapter_step a a' -> adapter_ok a'.
Proof.
  intros Ha Hstep. destruct Hstep as [| | | | | | |fd_ok slot rc a' Hslot E|k c ready Hk Hf|
    k c ready Hk Hf]; try (by apply on_conn_ok); try (by apply cleanup_ok).
  - by apply (slots_ok a false).
  - revert E. unfold sentinel_redis_attach. destruct fd_ok; cbn [negb];
      [|intros [= _ <-]; by apply (slots_ok a true)].
    destruct slot as [k|]; [|intros [= _ <-]; by apply (slots_ok a true)].
    intros [= _ <-]. split; cbn [ad_free ad_slots ad_conn].
    + intros k' c Hk'. rewrite lookup_insert_ne by set_solver. apply (proj1 Ha). set_solver.
    + intros k' [= <-]. set_solver.
  - assert (k ∉ ad_free a) as Hfree
      by (intros Hin; destruct (proj1 Ha k c Hin Hk) as [Hr Hw]; tauto).
    unfold sentinel_redis_read_event. cbn [ad_ac]. destruct (negb (ad_ac a));
      cbn [snd ad_ac ad_slots ad_free ad_conn]; apply (slots_ok a); try done; intros k' Hk';
      assert (k <> k') by (intros ->; contradiction);
      rewrite ?lookup_alter_ne, ?lookup_insert_ne by done; done.
  - assert (k ∉ ad_free a) as Hfree
      by (intros Hin; destruct (proj1 Ha k c Hin Hk) as [Hr Hw]; tauto).
    unfold sentinel_redis_write_event. cbn [ad_ac]. destruct (negb (ad_ac a));
      cbn [snd ad_ac ad_slots ad_free ad_conn]; apply (slots_ok a); try done; intros k' Hk';
      assert (k <> k') by (intros ->; contradiction);
      rewrite ?lookup_insert_ne by done; done.
Qed.

(** C29. No event handler runs on a connection given back to nginx: whatever the
    order in which hiredis calls its hooks, nginx fires events and contexts are
    attached, torn down or lost, a freed slot has no registered and no posted
    event, the slot the worker holds is not free (so the cleanup frees no slot
    twice), and a connection that was just cleaned up is not held any more. *)
Theorem freed_connection_is_silent free a :
  rtc adapter_step (adapter_start free) a ->
  (forall k c, k ∈ ad_free a -> ad_slots a !! k = Some c -> silent c) /\
  (forall k, ad_conn a = Some k -> k ∉ ad_free a) /\
  ad_conn (sentinel_redis_ev_cleanup a) = None /\
  (forall k, ad_conn a = Some k -> k ∈ ad_free (sentinel_redis_ev_cleanup a)).
Proof.
  intros Hrun. assert (adapter_ok a) as [Hs Hc].
  { assert (adapter_ok (adapter_start free)) as Hstart by (by split).
    induction Hrun; eauto using adapter_step_ok. }
  split; [exact Hs|]. split; [exact Hc|]. unfold sentinel_redis_ev_cleanup.
  destruct (ad_conn a) as [k|] eqn:E; [|by rewrite E].
  split; [done|]. cbn [ad_free].
  intros k' [= <-]. set_solver.
Qed.
End RedisEv.

(** ** Witness *)

#[local] Instance demo_events : NgxEvent := {|
  ngx_handle_read_event := fun e => (NGX_OK, Event true (ev_ready e) (ev_posted e) (ev_closed e));
  ngx_handle_write_event := fun e => (NGX_OK, Event true (ev_ready e) (ev_posted e) (ev_closed e));
  ngx_del_event := fun e => Event false (ev_ready e) (ev_posted e) (ev_closed e);
  ngx_post_event := fun e => Event (ev_active e) (ev_ready e) true (ev_closed e);
  ngx_delete_posted_event := fun e => Event (ev_active e) (ev_ready e) false (ev_closed e)
|}.

#[local] Instance demo_events_laws : NgxEventLaws.
Proof. by split. Qed.

(** A context is attached, asks for both events, and is torn down. *)
Definition demo_attached : adapter :=
  (sentinel_redis_attach true (Some 3%nat) (Adapter true None ∅ {[3%nat]})).2.

Lemma freed_connection_is_silent_witness :
  exists a c, rtc adapter_step (adapter_start {[3%nat]}) a /\
    ad_conn a = None /\ ad_slots a !! 3%nat = Some c /\ silent c.
Proof.
  set (a := teardown_link (sentinel_redis_add_write (sentinel_redis_add_read demo_attached))).
  assert (rtc adapter_step (adapter_start {[3%nat]}) a) as Hrun.
  { eapply rtc_l; [apply (step_attach _ true (Some 3%nat) NGX_OK demo_attached);
      [intros k [= <-]; cbn [adapter_start ad_free]; set_solver|done]|].
    eapply rtc_l; [apply step_add_read|]. eapply rtc_l; [apply step_add_write|].
    eapply rtc_l; [apply step_teardown|]. apply rtc_refl. }
  destruct (freed_connection_is_silent {[3%nat]} a Hrun) as (Hs & _ & _ & _).
  eexists a, _. split; [exact Hrun|]. split; [done|].
  split; [reflexivity|]. apply (Hs 3%nat); [|reflexivity].
  unfold a, teardown_link. cbn. set_solver.
Defined.
