(* ===== verification/Cssink.v ===== *)
(** * Cssink.v: decision feedback to CrowdSec ([sentinel_cssink.c])

    The workers enqueue their local bans into a shared ring; the owner (worker 0)
    drains it into an in-memory decision set and rewrites the decisions file on
    every tick.  The file system is a finite map from paths to contents, the
    outcomes of the system calls are an environment, and the rewrite returns the
    trace of the file systems another process can observe. *)
From S2P Require Import Prelude Types Ngx Http Ring Feed Redis.

(** [sentinel_cssink_decision_t]; [expiry = 0] is an empty slot. *)
Record decision : Type := SinkDecision { d_ip : bytes; d_expiry : Z }.

(** The decision set of the owner. *)
Record sink_set : Type := SinkSet { ss_slots : list decision; ss_count : Z }.

(** File systems. *)
Notation files := (gmap bytes bytes).

Section Cssink.
Context `{NgxHash} `{NgxHttp} `{NgxFormat}.

Definition DQUOTE : Byte.byte := Byte.x22.

Definition quoted (s : string) : bytes := [DQUOTE] ++ lit s ++ [DQUOTE].

(** The output of the format string of [sentinel_cssink_format_decision]. *)
Definition decision_text (ip scenario : bytes) (duration_s : Z) : bytes :=
  lit "{" ++ quoted "value" ++ lit ":" ++ [DQUOTE] ++ ip ++ [DQUOTE] ++ lit ","
  ++ quoted "scope" ++ lit ":" ++ quoted "Ip" ++ lit ","
  ++ quoted "duration" ++ lit ":" ++ [DQUOTE] ++ ngx_dec duration_s ++ lit "s" ++ [DQUOTE]
  ++ lit "," ++ quoted "scenario" ++ lit ":" ++ [DQUOTE] ++ scenario ++ [DQUOTE] ++ lit ","
  ++ quoted "origin" ++ lit ":" ++ quoted "sentinel" ++ lit "}" ++ [NL].

(** The line written into [buf], empty when the function returns 0. *)
Definition sentinel_cssink_format_decision (cap : nat) (ip scenario : bytes)
    (duration_s : Z) : bytes :=
  if (length ip =? 0)%nat || (NGX_SOCKADDR_STRLEN <=? length ip)%nat || (duration_s <=? 0)
  then []
  else
    let out := ngx_snprintf cap (decision_text ip scenario duration_s) in
    if (cap <=? length out)%nat then [] else out.

(** [armed] is the ring of the worker's instance, when it has one. *)
Definition sentinel_cssink_enqueue_ban (armed : option nat) (conf : sink_conf) (r : ring)
    (ip : bytes) (action expiry : Z) : ring :=
  match armed, cs_sink_zone conf with
  | Some a, Some z =>
      if negb (a =? z)%nat then r
      else if (length ip =? 0)%nat || (NGX_SOCKADDR_STRLEN <=? length ip)%nat then r
      else ring_enqueue r (PushEntry ip action expiry)
  | _, _ => r
  end.

(** ** The decision set *)

(** The scan over the slots: the slot of the address, or the first free one. *)
Fixpoint upsert_scan (slots : list decision) (i : nat) (free : option nat) (ip : bytes)
    : nat + option nat :=
  match slots with
  | [] => inr free
  | d :: slots' =>
      if d_expiry d =? 0
      then upsert_scan slots' (S i) (match free with None => Some i | _ => free end) ip
      else if bool_decide (d_ip d = ip) then inl i
      else upsert_scan slots' (S i) free ip
  end.

Definition sentinel_cssink_set_upsert (s : sink_set) (ip : bytes) (expiry : Z) : sink_set :=
  match upsert_scan (ss_slots s) 0 None ip with
  | inl i => SinkSet (<[i := SinkDecision ip expiry]> (ss_slots s)) (ss_count s)
  | inr None => s
  | inr (Some i) =>
      SinkSet (<[i := SinkDecision ip expiry]> (ss_slots s)) (wrap64 (ss_count s + 1))
  end.

(** The slots after the expiry pass, the count and the number of live ones. *)
Fixpoint expire_slots (slots : list decision) (now count live : Z)
    : list decision * Z * Z :=
  match slots with
  | [] => ([], count, live)
  | d :: slots' =>
      if d_expiry d =? 0 then
        let '(l, c, v) := expire_slots slots' now count live in (d :: l, c, v)
      else if d_expiry d <=? now then
        let '(l, c, v) :=
          expire_slots slots' now (if 0 <? count then count - 1 else count) live in
        (SinkDecision (d_ip d) 0 :: l, c, v)
      else
        let '(l, c, v) := expire_slots slots' now count (wrap64 (live + 1)) in (d :: l, c, v)
  end.

Definition sentinel_cssink_set_expire (s : sink_set) (now : Z) : sink_set * Z :=
  let '(l, c, v) := expire_slots (ss_slots s) now (ss_count s) 0 in (SinkSet l c, v).

(** ** The file *)

(** The outcomes of the system calls of one rewrite: [io_write k line] is the
    number of bytes the k-th write stores, [None] an error. *)
Record sink_io : Type := SinkIo {
  io_alloc : bool;
  io_open : bool;
  io_write : nat -> bytes -> option nat;
  io_close : bool;
  io_rename : bool;
  io_delete : bool
}.

Definition append_file (fs : files) (path data : bytes) : files :=
  <[path := default [] (fs !! path) ++ data]> fs.

Definition delete_file (io : sink_io) (fs : files) (path : bytes) : files :=
  if io_delete io then delete path fs else fs.

(** The write loop: the file systems after each write, and whether every write
    succeeded. *)
Fixpoint write_lines (io : sink_io) (tmp : bytes) (lines : list bytes) (k : nat) (fs : files)
    : list files * files * bool :=
  match lines with
  | [] => ([], fs, true)
  | line :: lines' =>
      match io_write io k line with
      | None => ([fs], fs, false)
      | Some n =>
          let fs' := append_file fs tmp (take n line) in
          if negb (n =? length line)%nat then ([fs'], fs', false)
          else let '(trace, fs'', ok) := write_lines io tmp lines' (S k) fs' in
               (fs' :: trace, fs'', ok)
      end
  end.

(** [line[NGX_SOCKADDR_STRLEN + 160]] *)
Definition LINE_CAP : nat := NGX_SOCKADDR_STRLEN + 160.

Definition scenario_of (conf : sink_conf) : bytes := default [] (cs_sink_scenario conf).

Definition slot_line (conf : sink_conf) (now : Z) (d : decision) : option bytes :=
  if (d_expiry d =? 0) || (d_expiry d <=? now) then None
  else
    match sentinel_cssink_format_decision LINE_CAP (d_ip d)
            (default [] (c_string (scenario_of conf ++ [NUL]))) (d_expiry d - now) with
    | [] => None
    | line => Some line
    end.

(** The lines of the live decisions, in slot order. *)
Definition set_lines (conf : sink_conf) (now : Z) (slots : list decision) : list bytes :=
  omap (slot_line conf now) slots.

Definition tmp_path (conf : sink_conf) : bytes := cs_sink_path conf ++ lit ".tmp".

(** The file systems observable during the rewrite, the last one included. *)
Definition sentinel_cssink_rewrite (io : sink_io) (conf : sink_conf) (s : sink_set) (now : Z)
    (fs : files) : list files * files :=
  if negb (io_alloc io) then ([], fs)
  else
    let tmp := tmp_path conf in
    if negb (io_open io) then ([], fs)
    else
      let fs := <[tmp := []]> fs in
      let '(trace, fs', ok) := write_lines io tmp (set_lines conf now (ss_slots s)) 0 fs in
      let trace := fs :: trace in
      if negb ok then let fs'' := delete_file io fs' tmp in (trace ++ [fs''], fs'')
      else if negb (io_close io)
      then let fs'' := delete_file io fs' tmp in (trace ++ [fs''], fs'')
      else if negb (io_rename io)
      then let fs'' := delete_file io fs' tmp in (trace ++ [fs''], fs'')
      else
        let fs'' := <[cs_sink_path conf := default [] (fs' !! tmp)]> (delete tmp fs') in
        (trace ++ [fs''], fs'').

(** ** Timer *)

(** The drain loop of one tick; [fuel] bounds the iterations, which stop at the
    capacity of the ring. *)
Fixpoint sink_drain (fuel : nat) (now drained : Z) (r : ring) (s : sink_set)
    : ring * sink_set :=
  match fuel with
  | O => (r, s)
  | S fuel' =>
      match ring_dequeue r with
      | None => (r, s)
      | Some (e, r') =>
          let s' := if (0 <? length (pe_ip e))%nat
                       && (length (pe_ip e) <? NGX_SOCKADDR_STRLEN)%nat
                       && (now <? pe_expiry e)
                    then sentinel_cssink_set_upsert s (pe_ip e) (pe_expiry e)
                    else s in
          if NGX_SENTINEL_CSSINK_RING <=? drained + 1 then (r', s')
          else sink_drain fuel' now (drained + 1) r' s'
      end
  end.

(** The per-worker instance. *)
Record sink_ctx : Type := SinkCtx {
  sk_owner : bool;
  sk_set : sink_set
}.

(** The ring, the instance, the file-system trace and the delay the timer is
    armed with. *)
Definition sentinel_cssink_timer_handler (exiting : bool) (io : sink_io) (conf : sink_conf)
    (r : ring) (sc : sink_ctx) (now : Z) (fs : files)
    : ring * sink_ctx * (list files * files) * option Z :=
  if exiting then (r, sc, ([], fs), None)
  else if negb (sk_owner sc) then (r, sc, ([], fs), Some (cs_sink_interval conf * 1000))
  else
    let '(r, s) := sink_drain (S (Z.to_nat NGX_SENTINEL_CSSINK_RING)) now 0 r (sk_set sc) in
    let '(s, _) := sentinel_cssink_set_expire s now in
    (r, SinkCtx true s, sentinel_cssink_rewrite io conf s now fs,
     Some (cs_sink_interval conf * 1000)).

(** ** Initialisation *)

Definition sentinel_cssink_init_zone (old exists_ring : option ring) (calloc_ok : bool)
    : ngx_rc * option ring :=
  match old with
  | Some r => (NGX_OK, Some r)
  | None =>
      match exists_ring with
      | Some r => (NGX_OK, Some r)
      | None => if calloc_ok then (NGX_OK, Some ring_init) else (NGX_ERROR, None)
      end
  end.

Definition sink_configured (lcf : loc_conf) : bool :=
  negb (length (cs_sink_path (lcf_sink lcf)) =? 0)%nat
  && negb (bool_decide (cs_sink_zone (lcf_sink lcf) = None)).

Definition sentinel_cssink_scan_loc : location_tree -> option loc_conf :=
  scan_loc sink_configured.

Definition sentinel_cssink_find_loc
  : list (option loc_conf * location_tree) -> option loc_conf :=
  find_loc sink_configured.

(** The instance of a worker and the first delay of its timer; [zone_data] is
    the ring behind the zone of the found location. *)
Definition sentinel_cssink_init_process (servers : list (option loc_conf * location_tree))
    (alloc_ctx alloc_set : bool) (worker : Z) (zone_data : bool)
    : option (loc_conf * sink_ctx * Z) :=
  match sentinel_cssink_find_loc servers with
  | None => None
  | Some lcf =>
      if negb alloc_ctx then None
      else if negb zone_data then None
      else
        let owner := worker =? 0 in
        if owner && negb alloc_set then None
        else
          let set := if owner
                     then SinkSet (replicate (Z.to_nat NGX_SENTINEL_CSSINK_RING)
                                     (SinkDecision [] 0)) 0
                     else SinkSet [] 0 in
          Some (lcf, SinkCtx owner set, 1000)
  end.
End Cssink.
