(* ===== verification/CssinkProps.v ===== *)
(** * CssinkProps.v: properties of the decision sink

    The decision set of the owner refines a finite map from addresses to
    expiries, a tick exports exactly the live bans, and the rewrite is atomic
    for every observer. *)
From S2P Require Import Prelude Types Ngx Http NgxModel Ring Feed Redis Cssink SignalProps.

(** ** The decision set as a finite map *)

Definition slot_entry (d : decision) : option (bytes * Z) :=
  if d_expiry d =? 0 then None else Some (d_ip d, d_expiry d).

Definition entries (slots : list decision) : list (bytes * Z) := omap slot_entry slots.

Definition set_abs (s : sink_set) : gmap bytes Z := list_to_map (entries (ss_slots s)).

(** One slot per address, and the count of the occupied slots. *)
Definition set_ok (s : sink_set) : Prop :=
  NoDup (entries (ss_slots s)).*1 /\ ss_count s = Z.of_nat (length (entries (ss_slots s))) /\
  Z.of_nat (length (ss_slots s)) < 2 ^ 64.

Lemma entries_app l1 l2 : entries (l1 ++ l2) = entries l1 ++ entries l2.
Proof. apply omap_app. Qed.

Lemma entries_cons d l :
  entries (d :: l)
    = if d_expiry d =? 0 then entries l else (d_ip d, d_expiry d) :: entries l.
Proof. unfold entries. cbn [omap list_omap]. unfold slot_entry. by destruct (_ =? _). Qed.

Lemma entries_length l : (length (entries l) <= length l)%nat.
Proof.
  induction l as [|d l IH]; [done|]. rewrite entries_cons. destruct (_ =? _); simpl; lia.
Qed.

Lemma set_abs_size s : set_ok s -> size (set_abs s) = length (entries (ss_slots s)).
Proof.
  intros (Hnd & _). unfold set_abs. rewrite <- length_map_to_list.
  by rewrite map_to_list_to_map.
Qed.

(** The scan finds the slot of the address, or the first free slot of a set
    without it. *)
Lemma upsert_scan_spec slots i free ip :
  match upsert_scan slots i free ip with
  | inl j => exists l1 d l2, slots = l1 ++ d :: l2 /\ j = (i + length l1)%nat /\
               d_expiry d <> 0 /\ d_ip d = ip
  | inr o => ip ∉ (entries slots).*1 /\
      match o with
      | None => free = None /\ length (entries slots) = length slots
      | Some j => free = Some j \/
          exists l1 d l2, slots = l1 ++ d :: l2 /\ j = (i + length l1)%nat /\ d_expiry d = 0
      end
  end.
Proof.
  revert i free. induction slots as [|d slots IH]; intros i free; cbn [upsert_scan].
  { split; [by apply not_elem_of_nil|]. destruct free; auto. }
  rewrite entries_cons. destruct (Z.eqb_spec (d_expiry d) 0) as [E|E].
  - specialize (IH (S i) (match free with None => Some i | _ => free end)).
    destruct (upsert_scan slots _ _ ip) as [j|[j|]].
    + destruct IH as (l1 & d' & l2 & -> & -> & ? & ?). exists (d :: l1), d', l2.
      simpl. split_and!; [done|lia|done..].
    + destruct IH as [Hn [Hj|(l1 & d' & l2 & -> & -> & ?)]]; (split; [done|]).
      * destruct free; [by left|]. injection Hj as <-. right. exists [], d, slots.
        simpl. split_and!; [done|lia|done].
      * right. exists (d :: l1), d', l2. simpl. split_and!; [done|lia|done].
    + destruct IH as [_ [Hf _]]. by destruct free.
  - case_bool_decide as Eip.
    { exists [], d, slots. simpl. split_and!; [done|lia|done..]. }
    specialize (IH (S i) free). destruct (upsert_scan slots (S i) free ip) as [j|[j|]].
    + destruct IH as (l1 & d' & l2 & -> & -> & ? & ?). exists (d :: l1), d', l2.
      simpl. split_and!; [done|lia|done..].
    + destruct IH as [Hn [Hj|(l1 & d' & l2 & -> & -> & ?)]];
        (split; [cbn; rewrite not_elem_of_cons; by split; [intros ->|]|]); [by left|].
      right. exists (d :: l1), d', l2. simpl. split_and!; [done|lia|done].
    + destruct IH as [Hn [-> Hl]]. split; [|simpl; auto].
      cbn. rewrite not_elem_of_cons. by split; [intros ->|].
Qed.

Lemma entries_occupied l1 d l2 :
  d_expiry d <> 0 ->
  entries (l1 ++ d :: l2) = entries l1 ++ (d_ip d, d_expiry d) :: entries l2.
Proof.
  intros Hd. rewrite entries_app, entries_cons. by rewrite (proj2 (Z.eqb_neq _ _)).
Qed.

Lemma entries_free l1 d l2 :
  d_expiry d = 0 -> entries (l1 ++ d :: l2) = entries l1 ++ entries l2.
Proof.
  intros Hd. rewrite entries_app, entries_cons. by rewrite Hd.
Qed.

(** An upsert inserts into the map, unless every slot holds another address. *)
Lemma set_upsert_refines s ip e :
  set_ok s -> e <> 0 ->
  let s' := sentinel_cssink_set_upsert s ip e in
  set_ok s' /\ length (ss_slots s') = length (ss_slots s) /\
  ((size (set_abs s) < length (ss_slots s))%nat \/ ip ∈ dom (set_abs s) ->
   set_abs s' = <[ip := e]> (set_abs s)).
Proof.
  intros Hok He. pose proof (set_abs_size s Hok) as Hsz. destruct Hok as (Hnd & Hc & Hl).
  destruct s as [slots count]. unfold sentinel_cssink_set_upsert, set_ok, set_abs in *.
  cbn [ss_slots ss_count] in *. pose proof (upsert_scan_spec slots 0 None ip) as Hs.
  destruct (upsert_scan slots 0 None ip) as [j|[j|]]; cbn zeta; cbn [ss_slots ss_count].
  - destruct Hs as (l1 & d & l2 & -> & -> & Hd & <-). cbn [Nat.add].
    replace (length l1) with (length l1 + 0)%nat by lia. rewrite insert_app_r.
    cbn [insert list_insert]. rewrite !entries_occupied in * by done.
    cbn [d_ip d_expiry]. rewrite !fmap_app in *. cbn [fmap list_fmap fst] in *.
    split_and!; [done| |by rewrite !length_app in *|by rewrite !length_app|].
    + rewrite Hc, !length_app. done.
    + intros _. rewrite !list_to_map_app, ?list_to_map_cons.
      apply NoDup_app in Hnd as (Hn1 & Hnot & _).
      assert (d_ip d ∉ (entries l1).*1) as Hni.
      { intros Hin. by apply (Hnot _ Hin), elem_of_cons; left. }
      rewrite <- !insert_union_r by by apply not_elem_of_list_to_map_1.
      by rewrite insert_insert_eq.
  - destruct Hs as [Hni [?|(l1 & d & l2 & -> & -> & Hd)]]; [done|]. cbn [Nat.add].
    replace (length l1) with (length l1 + 0)%nat by lia. rewrite insert_app_r.
    cbn [insert list_insert]. rewrite entries_occupied by done.
    rewrite entries_free in * by done. cbn [d_ip d_expiry].
    rewrite !fmap_app in *. cbn [fmap list_fmap fst] in *.
    pose proof (entries_length l1). pose proof (entries_length l2).
    rewrite !length_app in *. cbn [length] in *. split_and!.
    + rewrite <- Permutation_middle. by constructor.
    + rewrite Hc, wrap_id by lia. lia.
    + lia.
    + done.
    + intros _. rewrite !list_to_map_app, ?list_to_map_cons.
      rewrite not_elem_of_app in Hni. destruct Hni.
      by rewrite <- insert_union_r by by apply not_elem_of_list_to_map_1.
  - destruct Hs as (Hni & _ & Hfull). split_and!; try done.
    intros [Hlt|Hin]; [lia|]. apply elem_of_dom in Hin as [x Hx].
    apply not_elem_of_list_to_map_1 in Hni. by rewrite Hni in Hx.
Qed.

(** The expiry pass keeps exactly the entries that are still running. *)
Definition running (now : Z) (p : bytes * Z) : Prop := now < p.2.

#[global] Instance running_dec now p : Decision (running now p).
Proof. unfold running. apply _. Defined.

Lemma expire_slots_spec slots now count live l c v :
  expire_slots slots now count live = (l, c, v) ->
  Z.of_nat (length (entries slots)) <= count < 2 ^ 64 ->
  entries l = filter (running now) (entries slots) /\ length l = length slots /\
  c = count - (Z.of_nat (length (entries slots)) - Z.of_nat (length (entries l))).
Proof.
  revert count live l c v.
  induction slots as [|d slots IH]; intros count live l c v; cbn [expire_slots].
  { intros [= <- <- <-] Hc. simpl. split_and!; [done|done|lia]. }
  rewrite entries_cons. destruct (Z.eqb_spec (d_expiry d) 0) as [E|E].
  - destruct (expire_slots slots now count live) as [[l0 c0] v0] eqn:El.
    intros [= <- <- <-] Hc. destruct (IH _ _ _ _ _ El) as (He & Hl & ->); [done|].
    rewrite entries_cons, E. cbn [Z.eqb length]. split_and!; [done|lia|done].
  - destruct (Z.leb_spec (d_expiry d) now).
    + destruct (expire_slots slots now _ live) as [[l0 c0] v0] eqn:El.
      intros [= <- <- <-] Hc. cbn [length] in *. destruct (Z.ltb_spec 0 count); [|lia].
      destruct (IH _ _ _ _ _ El) as (He & Hl & ->); [lia|].
      rewrite entries_cons. cbn [d_expiry Z.eqb].
      rewrite filter_cons_False by (unfold running; simpl; lia).
      split_and!; [done|lia|lia].
    + destruct (expire_slots slots now count _) as [[l0 c0] v0] eqn:El.
      intros [= <- <- <-] Hc. cbn [length] in *.
      destruct (IH _ _ _ _ _ El) as (He & Hl & ->); [lia|].
      rewrite entries_cons, (proj2 (Z.eqb_neq _ _)) by done.
      rewrite filter_cons_True by (unfold running; simpl; lia).
      cbn [length]. split_and!; [by rewrite He|lia|lia].
Qed.

Lemma set_expire_refines s now :
  set_ok s ->
  let s' := (sentinel_cssink_set_expire s now).1 in
  set_ok s' /\ set_abs s' = filter (running now) (set_abs s).
Proof.
  intros (Hnd & Hc & Hl). unfold sentinel_cssink_set_expire.
  destruct (expire_slots (ss_slots s) now (ss_count s) 0) as [[l c] v] eqn:El.
  pose proof (entries_length (ss_slots s)).
  destruct (expire_slots_spec _ _ _ _ _ _ _ El) as (He & Hlen & ->); [lia|].
  cbn zeta. unfold set_ok, set_abs. cbn [fst ss_slots ss_count].
  assert (NoDup (entries l).*1) as Hnd'.
  { rewrite He. eapply sublist_NoDup; [exact Hnd|]. apply fmap_sublist, sublist_filter. }
  split_and!; [done|lia|by rewrite Hlen|].
  apply map_eq. intros k. apply option_eq. intros x.
  rewrite map_lookup_filter_Some, <- !elem_of_list_to_map by done.
  rewrite He, list_elem_of_filter. tauto.
Qed.

(** ** Draining *)

Section Sink.
Context `{NgxHash} `{NgxHttp} `{NgxParse} `{NgxFormat} {FormatLaws : NgxFormatLaws}.

Definition export_one (now : Z) (m : gmap bytes Z) (e : push_entry) : gmap bytes Z :=
  if (0 <? length (pe_ip e))%nat && (length (pe_ip e) <? NGX_SOCKADDR_STRLEN)%nat
     && (now <? pe_expiry e)
  then <[pe_ip e := pe_expiry e]> m else m.

Lemma export_one_size now m e : (size (export_one now m e) <= S (size m))%nat.
Proof.
  unfold export_one. destruct (_ && _); [|lia].
  destruct (m !! pe_ip e) eqn:Em.
  - rewrite map_size_insert_Some by done. lia.
  - rewrite map_size_insert_None by done. lia.
Qed.

(** One tick drains the whole ring into the map. *)
Lemma sink_drain_refines fuel now drained r q s :
  ring_models r q -> set_ok s -> 0 <= now ->
  (length q < fuel)%nat -> drained + Z.of_nat (length q) <= NGX_SENTINEL_CSSINK_RING ->
  (size (set_abs s) + length q <= length (ss_slots s))%nat ->
  exists r' s', sink_drain fuel now drained r s = (r', s') /\ ring_models r' [] /\ set_ok s' /\
    set_abs s' = fold_left (export_one now) q (set_abs s).
Proof.
  revert drained r q s.
  induction fuel as [|fuel IH]; intros drained r q s Hm Hok Hnow Hf Hd Hroom; [lia|].
  cbn [sink_drain]. pose proof (ring_dequeue_models r q Hm) as Hq.
  destruct q as [|e q]; [rewrite Hq; by exists r, s|].
  destruct Hq as (r1 & -> & Hm1 & _). cbn [length fold_left] in *.
  pose proof (export_one_size now (set_abs s) e) as Hsz.
  set (s1 := if _ && _ then _ else s).
  assert (set_ok s1 /\ length (ss_slots s1) = length (ss_slots s) /\
          set_abs s1 = export_one now (set_abs s) e) as (Hok1 & Hl1 & Ha1).
  { subst s1. unfold export_one.
    destruct (_ && _ && _) eqn:Ev; [|done].
    apply andb_prop in Ev as [_ Hlive%Z.ltb_lt].
    destruct (set_upsert_refines s (pe_ip e) (pe_expiry e) Hok) as (Ho & Hl & Ha); [lia|].
    split_and!; [done|done|]. apply Ha. left. lia. }
  destruct (Z.leb_spec NGX_SENTINEL_CSSINK_RING (drained + 1)).
  - destruct q; [|cbn [length] in *; lia]. by exists r1, s1.
  - rewrite <- Ha1 in *. apply IH; [done|done|done|lia|lia|lia].
Qed.

(** ** The file *)

(** Every system call succeeds. *)
Definition io_ok (io : sink_io) : Prop :=
  io_alloc io = true /\ io_open io = true /\ (forall k l, io_write io k l = Some (length l)) /\
  io_close io = true /\ io_rename io = true.

(** The write loop only touches the temporary file, and a successful loop
    leaves the lines in it. *)
Lemma write_lines_spec io tmp lines k fs trace fs' ok :
  write_lines io tmp lines k fs = (trace, fs', ok) ->
  (forall g p, g ∈ fs' :: trace -> p <> tmp -> g !! p = fs !! p) /\
  (ok = true -> default [] (fs' !! tmp) = default [] (fs !! tmp) ++ concat lines).
Proof.
  revert k fs trace fs' ok.
  induction lines as [|line lines IH]; intros k fs trace fs' ok; cbn [write_lines concat].
  { intros [= <- <- <-]. split; [|by rewrite app_nil_r]. by intros g p ->%list_elem_of_singleton. }
  destruct (io_write io k line) as [n|].
  2: { intros [= <- <- <-]. split; [|done]. intros g p Hg _.
       by repeat (apply elem_of_cons in Hg as [->|Hg]; [done|]); apply not_elem_of_nil in Hg. }
  assert (forall p, p <> tmp -> append_file fs tmp (take n line) !! p = fs !! p) as Ho.
  { intros p Hp. unfold append_file. by rewrite lookup_insert_ne. }
  destruct (Nat.eqb_spec n (length line)) as [->|]; cbn [negb].
  - destruct (write_lines io tmp lines (S k) _) as [[trace1 fs1] ok1] eqn:Ew.
    intros [= <- <- <-]. destruct (IH _ _ _ _ _ Ew) as [Hother Htmp]. split.
    + intros g p Hg Hp. rewrite <- (Ho p Hp).
      rewrite !elem_of_cons in Hg. destruct Hg as [->|[->|Hg]]; [|done|];
        apply Hother; try done; rewrite elem_of_cons; auto.
    + intros ->. rewrite Htmp by done. unfold append_file.
      rewrite lookup_insert_eq, take_ge by done. cbn. by rewrite app_assoc.
  - intros [= <- <- <-]. split; [|done]. intros g p Hg Hp. rewrite <- (Ho p Hp).
    by repeat (apply elem_of_cons in Hg as [->|Hg]; [done|]); apply not_elem_of_nil in Hg.
Qed.

Lemma write_lines_ok io tmp lines k fs :
  (forall k l, io_write io k l = Some (length l)) ->
  exists trace fs', write_lines io tmp lines k fs = (trace, fs', true).
Proof.
  intros Hw. revert k fs. induction lines as [|line lines IH]; intros k fs; cbn [write_lines].
  { by do 2 eexists. }
  rewrite Hw, Nat.eqb_refl. cbn [negb].
  destruct (IH (S k) (append_file fs tmp (take (length line) line))) as (t & f & ->).
  by do 2 eexists.
Qed.
Lemma tmp_path_fresh conf : tmp_path conf <> cs_sink_path conf.
Proof. intros E%(f_equal length). unfold tmp_path in E. rewrite length_app in E. simpl in E. lia. Qed.

Lemma delete_file_other io fs path p : p <> path -> delete_file io fs path !! p = fs !! p.
Proof. intros Hp. unfold delete_file. destruct (io_delete io); [by rewrite lookup_delete_ne|done]. Qed.

(** C19. The decisions file is rewritten atomically: whatever system call fails,
    in every file system another process can observe during the rewrite the
    file holds either its previous content or the complete new list, never a
    part of it, and no path other than the file and its temporary is touched. *)
Theorem sink_rewrite_is_atomic io conf s now fs trace fs' g :
  sentinel_cssink_rewrite io conf s now fs = (trace, fs') -> g ∈ fs' :: trace ->
  (g !! cs_sink_path conf = fs !! cs_sink_path conf \/
   g !! cs_sink_path conf = Some (concat (set_lines conf now (ss_slots s)))) /\
  forall p, p <> cs_sink_path conf -> p <> tmp_path conf -> g !! p = fs !! p.
Proof.
  pose proof (tmp_path_fresh conf) as Hfresh. unfold sentinel_cssink_rewrite.
  assert (forall h : files, h !! cs_sink_path conf = fs !! cs_sink_path conf ->
    (forall p, p <> cs_sink_path conf -> p <> tmp_path conf -> h !! p = fs !! p) ->
    (h !! cs_sink_path conf = fs !! cs_sink_path conf \/
     h !! cs_sink_path conf = Some (concat (set_lines conf now (ss_slots s)))) /\
    forall p, p <> cs_sink_path conf -> p <> tmp_path conf -> h !! p = fs !! p) as Hsame
    by (intros h Hp Ho; split; [by left|exact Ho]).
  destruct (io_alloc io); cbn [negb];
    [|intros [= <- <-] ->%list_elem_of_singleton; by apply Hsame].
  destruct (io_open io); cbn [negb];
    [|intros [= <- <-] ->%list_elem_of_singleton; by apply Hsame].
  set (fs0 := <[tmp_path conf := []]> fs).
  assert (forall p, p <> tmp_path conf -> fs0 !! p = fs !! p) as H00.
  { intros p Hp. subst fs0. by rewrite lookup_insert_ne. }
  destruct (write_lines io _ _ 0 fs0) as [[tr fs1] ok] eqn:Ew.
  destruct (write_lines_spec _ _ _ _ _ _ _ _ Ew) as [Hother Htmp].
  assert (forall h p, h ∈ fs0 :: fs1 :: tr -> p <> tmp_path conf -> h !! p = fs !! p) as Hkeep.
  { intros h p Hh Hp. rewrite <- (H00 p Hp). rewrite elem_of_cons in Hh.
    destruct Hh as [->|Hh]; [done|]. by apply Hother. }
  assert (forall h, h ∈ (fs0 :: tr) -> forall p, p <> tmp_path conf -> h !! p = fs !! p) as Htr.
  { intros h Hh p. apply Hkeep. rewrite !elem_of_cons in *. tauto. }
  assert (forall p, p <> tmp_path conf ->
    delete_file io fs1 (tmp_path conf) !! p = fs !! p) as Hdel.
  { intros p Hp. rewrite delete_file_other by done. apply Hkeep; [|done].
    rewrite !elem_of_cons. auto. }
  assert (forall last, g ∈ last :: (fs0 :: tr) ++ [last] -> g = last \/ g ∈ fs0 :: tr) as Hcases.
  { intros last. rewrite elem_of_cons, elem_of_app, list_elem_of_singleton. tauto. }
  destruct ok, (io_close io), (io_rename io); cbn [negb]; intros [= <- <-] [->|Hg]%Hcases;
    try (apply Hsame; eauto; fail).
  split.
  - right. rewrite lookup_insert_eq. f_equal. rewrite Htmp by done. subst fs0.
    by rewrite lookup_insert_eq.
  - intros p Hp Ht. rewrite lookup_insert_ne, lookup_delete_ne by done. apply Hkeep; [|done].
    rewrite !elem_of_cons. auto.
Qed.

(** *** The lines *)

(** The length of the fixed part of a decision line. *)
Lemma decision_text_length ip scenario n :
  length (decision_text ip scenario n)
    = (75 + length ip + length (ngx_dec n) + length scenario)%nat.
Proof. unfold decision_text, quoted. rewrite !length_app. simpl. lia. Qed.
(** A scenario of at most 65 bytes always fits the line buffer. *)
Lemma slot_line_text conf now ip e :
  (0 < length ip < NGX_SOCKADDR_STRLEN)%nat -> (length (scenario_of conf) <= 65)%nat ->
  NUL ∉ scenario_of conf -> 0 <= now < e -> e < 2 ^ 63 ->
  slot_line conf now (SinkDecision ip e)
    = Some (decision_text ip (scenario_of conf) (e - now)).
Proof.
  intros Hip Hs Hn He Hmax. unfold slot_line. cbn [d_expiry d_ip].
  rewrite (proj2 (Z.eqb_neq _ _)), (proj2 (Z.leb_gt _ _)) by lia. cbn [orb].
  rewrite c_string_app by done.
  change (default [] (Some (scenario_of conf))) with (scenario_of conf).
  unfold sentinel_cssink_format_decision.
  rewrite (proj2 (Nat.eqb_neq _ _)), (proj2 (Nat.leb_gt _ _)), (proj2 (Z.leb_gt _ _)) by lia.
  cbn [orb]. pose proof (dec_length (e - now) ltac:(lia)).
  assert (length (decision_text ip (scenario_of conf) (e - now)) < LINE_CAP)%nat as Hl.
  { rewrite decision_text_length. unfold LINE_CAP. lia. }
  unfold ngx_snprintf. rewrite take_ge by lia. by rewrite (proj2 (Nat.leb_gt _ _)).
Qed.

(** A scenario that fills the line buffer, which the configuration accepts, drops
    every decision from the file without a message. *)
Theorem long_scenario_exports_nothing conf now slots :
  NUL ∉ scenario_of conf -> (LINE_CAP <= 75 + length (scenario_of conf))%nat ->
  set_lines conf now slots = [].
Proof.
  intros Hn Hlong. unfold set_lines. induction slots as [|d slots IH]; [done|].
  cbn [omap list_omap]. assert (slot_line conf now d = None) as ->; [|done].
  unfold slot_line. destruct (_ || _); [done|]. rewrite c_string_app by done.
  change (default [] (Some (scenario_of conf))) with (scenario_of conf).
  unfold sentinel_cssink_format_decision. destruct (_ || _); [done|].
  rewrite (proj2 (Nat.leb_le _ _)); [done|]. unfold ngx_snprintf.
  rewrite length_take, decision_text_length. lia.
Qed.

(** The lines depend on the map alone, up to their order. *)
Lemma set_lines_entries conf now s :
  set_ok s ->
  set_lines conf now (ss_slots s)
    ≡ₚ omap (fun p => slot_line conf now (SinkDecision p.1 p.2)) (map_to_list (set_abs s)).
Proof.
  intros (Hnd & _). unfold set_lines, set_abs. rewrite map_to_list_to_map by done.
  induction (ss_slots s) as [|d l IH]; [done|]. rewrite entries_cons in *.
  destruct d as [ip e]. cbn [omap list_omap d_expiry d_ip] in *.
  destruct (Z.eqb_spec e 0) as [->|].
  - unfold slot_line at 1. cbn [d_expiry Z.eqb orb]. by apply IH.
  - cbn [fmap list_fmap fst] in Hnd. apply NoDup_cons in Hnd as [_ Hnd].
    cbn [omap list_omap fst snd]. destruct (slot_line conf now (SinkDecision ip e)); [apply perm_skip|]; by apply IH.
Qed.

(** An address fits an entry, and an expiry is a [time_t]. *)
Definition entry_fits (ip : bytes) (expiry : Z) : Prop :=
  (0 < length ip < NGX_SOCKADDR_STRLEN)%nat /\ expiry < 2 ^ 63.

Lemma export_fits now q : forall m,
  map_Forall entry_fits m -> Forall (fun e => pe_expiry e < 2 ^ 63) q ->
  map_Forall entry_fits (fold_left (export_one now) q m).
Proof.
  induction q as [|e q IH]; intros m Hm Hq; [done|]. apply Forall_cons in Hq as [He Hq].
  cbn [fold_left]. apply IH; [|done]. unfold export_one.
  destruct (Nat.ltb_spec 0 (length (pe_ip e))); cbn [andb]; [|done].
  destruct (Nat.ltb_spec (length (pe_ip e)) NGX_SOCKADDR_STRLEN); cbn [andb]; [|done].
  destruct (now <? pe_expiry e); [|done]. by apply map_Forall_insert_2.
Qed.

Lemma omap_all {A B} (f : A -> option B) (g : A -> B) (l : list A) :
  (forall x, x ∈ l -> f x = Some (g x)) -> omap f l = g <$> l.
Proof.
  induction l as [|x l IH]; intros Hl; [done|]. cbn [omap list_omap fmap list_fmap].
  rewrite (Hl x) by by left. f_equal. apply IH. intros y Hy. apply Hl. by right.
Qed.

(** C20. A tick of the owner publishes exactly the bans that are still running:
    when the set has room for the bans of the ring, the ring is drained
    completely, the decision set becomes the previous one updated with every
    drained ban and cleared of the expired ones, and (when the system calls
    succeed) the file holds, in some order, one line for each of them, with its
    address, the configured scenario and the seconds it has left, the timer being
    armed again.  The scenario has at most 65 bytes, none of them NUL, so that
    every line fits the line buffer. *)
Theorem sink_tick_exports_running_bans io conf r q s now fs :
  io_ok io -> ring_models r q -> set_ok s -> 0 <= now ->
  map_Forall entry_fits (set_abs s) -> Forall (fun e => pe_expiry e < 2 ^ 63) q ->
  (length (scenario_of conf) <= 65)%nat -> NUL ∉ scenario_of conf ->
  (size (set_abs s) + length q <= length (ss_slots s))%nat ->
  let m := filter (running now) (fold_left (export_one now) q (set_abs s)) in
  exists r' s' trace fs' lines,
    sentinel_cssink_timer_handler false io conf r (SinkCtx true s) now fs
      = (r', SinkCtx true s', (trace, fs'), Some (cs_sink_interval conf * 1000)) /\
    ring_models r' [] /\ set_ok s' /\ set_abs s' = m /\
    fs' !! cs_sink_path conf = Some (concat lines) /\
    lines ≡ₚ (fun p => decision_text p.1 (scenario_of conf) (p.2 - now)) <$> map_to_list m.
Proof.
  intros (Hal & Hop & Hwr & Hcl & Hrn) Hm Hok Hnow Hfits Hq Hlen Hnul Hroom m.
  destruct (sink_drain_refines (S (Z.to_nat NGX_SENTINEL_CSSINK_RING)) now 0 r q s)
    as (r' & s1 & Ed & Hm' & Hok1 & Ha1); try done.
  { pose proof (rm_len _ _ Hm). unfold NGX_SENTINEL_REDIS_PUSH_RING, NGX_SENTINEL_CSSINK_RING in *. lia. }
  { pose proof (rm_len _ _ Hm). unfold NGX_SENTINEL_REDIS_PUSH_RING, NGX_SENTINEL_CSSINK_RING in *. lia. }
  destruct (set_expire_refines s1 now Hok1) as [Hok2 Ha2].
  unfold sentinel_cssink_timer_handler. cbn [sk_owner sk_set negb]. rewrite Ed.
  destruct (sentinel_cssink_set_expire s1 now) as [s2 live]. cbn [fst] in *.
  unfold sentinel_cssink_rewrite. rewrite Hal, Hop. cbn [negb].
  destruct (write_lines_ok io (tmp_path conf) (set_lines conf now (ss_slots s2)) 0
    (<[tmp_path conf := []]> fs) Hwr) as (tr & fs1 & Ew).
  pose proof (proj2 (write_lines_spec _ _ _ _ _ _ _ _ Ew) eq_refl) as Htmp.
  rewrite Ew, Hcl, Hrn. cbn [negb]. rewrite lookup_insert_eq in Htmp. cbn in Htmp.
  do 4 eexists. exists (set_lines conf now (ss_slots s2)).
  split_and!; [reflexivity|done|done|by rewrite Ha2, Ha1| |].
  - by rewrite lookup_insert_eq, Htmp.
  - rewrite set_lines_entries by done. rewrite Ha2, Ha1. fold m. rewrite (omap_all _ (fun p => decision_text p.1 (scenario_of conf) (p.2 - now))); [done|].
    intros [ip e] Hp%elem_of_map_to_list. unfold m in Hp.
    apply map_lookup_filter_Some in Hp as [Hp Hrun].
    apply (map_Forall_lookup_1 _ _ _ _ (export_fits now q _ Hfits Hq)) in Hp as [Hip He].
    cbn [fst snd running] in *. by apply slot_line_text.
Qed.
End Sink.

(** ** Witnesses *)
Import Concrete.

Definition all_ok : sink_io :=
  SinkIo true true (fun _ line => Some (length line)) true true true.

(** The disk is full at the second write. *)
Definition disk_full : sink_io :=
  SinkIo true true (fun k line => if (k =? 0)%nat then Some (length line) else Some 3%nat)
         true true true.

Definition demo_sink : sink_conf :=
  SinkConf (lit "/var/decisions") 10 3600 (Some (lit "sentinel/http-abuse")) (Some 2%nat).

Definition demo_set : sink_set :=
  SinkSet [SinkDecision (lit "192.0.2.7") 2000; SinkDecision (lit "192.0.2.8") 3000;
           SinkDecision [] 0; SinkDecision [] 0] 2.

Definition demo_files : gmap bytes bytes := {[ lit "/var/decisions" := lit "old" ]}.

Lemma sink_rewrite_is_atomic_witness :
  exists trace fs', sentinel_cssink_rewrite disk_full demo_sink demo_set 1000 demo_files
    = (trace, fs') /\ length trace = 4%nat /\
  (fs' !! lit "/var/decisions" = demo_files !! lit "/var/decisions" \/
   fs' !! lit "/var/decisions"
     = Some (concat (set_lines demo_sink 1000 (ss_slots demo_set)))) /\
  fs' !! lit "/etc/passwd" = demo_files !! lit "/etc/passwd".
Proof.
  destruct (sentinel_cssink_rewrite disk_full demo_sink demo_set 1000 demo_files)
    as [trace fs'] eqn:E.
  exists trace, fs'.
  destruct (sink_rewrite_is_atomic disk_full demo_sink demo_set 1000 demo_files trace fs' fs' E)
    as [Ht Ho]; [by apply elem_of_cons; left|].
  split_and!; [done| |exact Ht|apply Ho; by apply (bool_decide_unpack _)].
  assert (length (sentinel_cssink_rewrite disk_full demo_sink demo_set 1000 demo_files).1
          = 4%nat) as El by (vm_compute; reflexivity).
  by rewrite E in El.
Defined.

Lemma sink_tick_exports_running_bans_witness :
  exists r' s' trace fs' lines,
    sentinel_cssink_timer_handler false all_ok demo_sink
        (ring_enqueue ring_init (PushEntry (lit "192.0.2.9") 1 2500)) (SinkCtx true demo_set)
        2000 demo_files
      = (r', SinkCtx true s', (trace, fs'), Some 10000) /\
    fs' !! lit "/var/decisions" = Some (concat lines) /\ length lines = 2%nat.
Proof.
  destruct (sink_tick_exports_running_bans all_ok demo_sink
    (ring_enqueue ring_init (PushEntry (lit "192.0.2.9") 1 2500))
    [PushEntry (lit "192.0.2.9") 1 2500] demo_set 2000 demo_files)
    as (r' & s' & trace & fs' & lines & E & _ & _ & _ & Hf & Hl).
  - split_and!; done.
  - apply (proj1 (ring_enqueue_models ring_init [] _ ring_init_models)).
  - split_and!; [|by vm_compute..]. by apply (bool_decide_unpack _).
  - done.
  - apply (bool_decide_unpack _). by vm_compute.
  - by repeat constructor.
  - vm_compute; lia.
  - by apply (bool_decide_unpack _).
  - vm_compute; lia.
  - exists r', s', trace, fs', lines. split_and!; [exact E|exact Hf|].
    rewrite Hl. by vm_compute.
Defined.
