(* ===== verification/Pow.v ===== *)
(** * Pow.v: the proof-of-work challenge ([sentinel_pow.c])

    The challenge is a keyed digest of the client address and the time bucket,
    the bypass cookie a keyed digest of the address and an expiry.  HMAC, the
    digest and nginx's cookie and argument parsing are interfaces.  A write past
    a fixed buffer, or a NULL socket address, is [None]. *)
From S2P Require Import Prelude Types Ngx Http.

Definition NGX_SENTINEL_POW_COOKIE : bytes := lit "__sentinel_pow".
Definition NGX_SENTINEL_POW_HEADER : bytes := lit "X-Sentinel-Pow".
Definition NGX_SENTINEL_POW_ARG : bytes := lit "__sentinel_pow".
Definition NGX_SENTINEL_POW_HEXLEN : nat := NGX_SENTINEL_DIGEST_LEN * 2.
Definition NGX_SENTINEL_POW_NONCE_MAX : nat := 64.

(** [NGX_TIME_T_LEN], which is also the room both message buffers leave after
    the 16 address bytes. *)
Definition NGX_TIME_T_LEN : nat := 20.

Definition DOT : Byte.byte := Byte.x2e.

(** [ngx_sentinel_pow_state_e] *)
Inductive pow_state : Type := POW_OFF | POW_VERIFIED | POW_CHALLENGE.

(** ** Hexadecimal *)

Definition sentinel_pow_hex (src : bytes) : bytes :=
  flat_map (fun c => [hex_char (Z.shiftr (bval c) 4); hex_char (Z.land (bval c) 15)]) src.

(** ** Difficulty *)

(** [while ((b & 0x80) == 0) { bits++; b <<= 1; }] on a non-zero byte; eight
    iterations are enough. *)
Fixpoint leading_zeros (fuel : nat) (b bits : Z) : Z :=
  match fuel with
  | O => bits
  | S fuel' =>
      if Z.land b 128 =? 0
      then leading_zeros fuel' (Z.shiftl b 1 mod 256) (bits + 1)
      else bits
  end.

Fixpoint digest_bits (digest : bytes) (bits : Z) : Z :=
  match digest with
  | [] => bits
  | c :: digest' =>
      if bval c =? 0 then digest_bits digest' (bits + 8)
      else leading_zeros 8 (bval c) bits
  end.

Definition sentinel_pow_meets_difficulty (digest : bytes) (difficulty : Z) : bool :=
  difficulty <=? digest_bits digest 0.

Section Pow.
Context `{NgxHash} `{NgxCompare} `{NgxParse} `{NgxFormat} `{NgxHmac} `{NgxQuery}.

(** ** Keyed digests *)

(** The identity bytes of the client, the textual address for other families. *)
Definition pow_identity (r : request) : option bytes :=
  match r_sockaddr r with
  | None => None
  | Some (AF_INET a) => Some (be32 a)
  | Some (AF_INET6 b) => Some b
  | Some AF_OTHER => Some (r_addr_text r)
  end.

(** The bytes of [conf->pow_secret]. *)
Definition pow_key (conf : pow_conf) : bytes := default [] (pow_secret conf).

Definition pow_ttl_of (conf : pow_conf) : Z := if 0 <? pow_ttl conf then pow_ttl conf else 1.

(** The hexadecimal MAC of the identity followed by a decimal number;
    [Some None] is [NGX_ERROR]. *)
Definition pow_mac (conf : pow_conf) (ident : bytes) (n : Z) : option (option bytes) :=
  if (length ident =? 0)%nat || (16 <? length ident)%nat then Some None
  else
    let msg := ident ++ ngx_dec n in
    if (16 + NGX_TIME_T_LEN <? length msg)%nat then None
    else
      match HMAC_SHA256 (pow_key conf) msg with
      | None => Some None
      | Some mac =>
          if negb (length mac =? NGX_SENTINEL_DIGEST_LEN)%nat then Some None
          else Some (Some (sentinel_pow_hex mac))
      end.

Definition sentinel_pow_challenge (r : request) (conf : pow_conf) (now : Z)
    : option (option bytes) :=
  let! ident := pow_identity r in
  pow_mac conf ident (now / pow_ttl_of conf).

Definition sentinel_pow_cookie_mac (r : request) (conf : pow_conf) (expiry : Z)
    : option (option bytes) :=
  let! ident := pow_identity r in
  pow_mac conf ident expiry.

(** ** Verification *)

Definition sentinel_pow_check_cookie (r : request) (conf : pow_conf) (now : Z)
    : option ngx_rc :=
  match ngx_http_parse_cookie_lines r NGX_SENTINEL_POW_COOKIE with
  | None | Some [] => Some NGX_DECLINED
  | Some val =>
      if (length val <=? NGX_SENTINEL_POW_HEXLEN + 1)%nat then Some NGX_ERROR
      else
        match memchr val DOT with
        | None => Some NGX_ERROR
        | Some dot =>
            if negb (length val - dot - 1 =? NGX_SENTINEL_POW_HEXLEN)%nat
            then Some NGX_ERROR
            else
              match ngx_atotm (take dot val) with
              | None => Some NGX_ERROR
              | Some expiry =>
                  if expiry <=? now then Some NGX_ERROR
                  else
                    let! m := sentinel_pow_cookie_mac r conf expiry in
                    match m with
                    | None => Some NGX_ERROR
                    | Some want =>
                        if ngx_memn2cmp (drop (S dot) val) want =? 0
                        then Some NGX_OK else Some NGX_ERROR
                    end
              end
        end
  end.

Definition nonce_ok (v : bytes) : bool :=
  (0 <? length v)%nat && (length v <=? NGX_SENTINEL_POW_NONCE_MAX)%nat.

(** The first nonce header decides; the query argument is only consulted
    without one. *)
Definition sentinel_pow_get_nonce (r : request) : option bytes :=
  match find (fun h =>
          (length (h_key h) =? length NGX_SENTINEL_POW_HEADER)%nat
          && (ngx_strncasecmp (h_key h) NGX_SENTINEL_POW_HEADER
                (length NGX_SENTINEL_POW_HEADER) =? 0)) (concat (r_headers r)) with
  | Some h => if nonce_ok (h_value h) then Some (h_value h) else None
  | None =>
      match ngx_http_arg r NGX_SENTINEL_POW_ARG with
      | Some v => if nonce_ok v then Some v else None
      | None => None
      end
  end.

(** ** Responses *)

(** The outcomes of the allocations of one request, the answer of
    [ngx_http_send_header] and [r->header_only]. *)
Record pow_env : Type := PowEnv {
  pw_push : bool;
  pw_cookie_alloc : bool;
  pw_page_alloc : bool;
  pw_header : ngx_rc;
  pw_header_only : bool
}.

(** The header added to the response: none, a complete one, or one whose value
    was never written because its allocation failed after the push. *)
Inductive pow_cookie : Type :=
  | NoCookie
  | SetCookie (value : bytes)
  | CookieUninitialised.

Definition cookie_value (expiry : Z) (machex : bytes) : bytes :=
  ngx_dec expiry ++ [DOT] ++ machex.

Definition cookie_attributes (ttl : Z) : bytes :=
  lit "; Path=/; Max-Age=" ++ ngx_dec ttl ++ lit "; HttpOnly".

(** The size of the allocation of the cookie text. *)
Definition cookie_len : nat :=
  length NGX_SENTINEL_POW_COOKIE + 1 + NGX_TIME_T_LEN + 1 + NGX_SENTINEL_POW_HEXLEN
  + length (lit "; Path=/; Max-Age=; HttpOnly") + NGX_TIME_T_LEN.

Definition sentinel_pow_set_cookie (env : pow_env) (r : request) (conf : pow_conf) (now : Z)
    : option pow_cookie :=
  let expiry := now + pow_ttl_of conf in
  let! m := sentinel_pow_cookie_mac r conf expiry in
  match m with
  | None => Some NoCookie
  | Some machex =>
      if negb (pw_push env) then Some NoCookie
      else if negb (pw_cookie_alloc env) then Some CookieUninitialised
      else
        let text := NGX_SENTINEL_POW_COOKIE ++ lit "=" ++ cookie_value expiry machex
                    ++ cookie_attributes (pow_ttl_of conf) in
        if (cookie_len <? length text)%nat then None else Some (SetCookie text)
  end.

(** The page embeds the challenge and the difficulty. *)
Definition pow_page (head mid1 mid2 challenge : bytes) (difficulty : Z) : bytes :=
  head ++ challenge ++ mid1 ++ ngx_dec difficulty ++ mid2.

Definition tmpl_head : bytes := lit
  "<!doctype html><html><head><meta charset=utf-8><title>Verifying your browser</title><meta name=robots content=noindex></head><body><h1>Checking your browser&hellip;</h1><p>One moment — solving a small computational puzzle.</p><noscript>JavaScript is required to continue.</noscript><script>(function(){var c='".

Definition tmpl_mid1 : bytes := lit "',d=".

Definition tmpl_mid2 : bytes := lit
  ";async function sha(s){var b=new TextEncoder().encode(s);var h=await crypto.subtle.digest('SHA-256',b);return new Uint8Array(h);}function lz(a){var n=0;for(var i=0;i<a.length;i++){var v=a[i];if(v===0){n+=8;continue;}while((v&128)===0){n++;v=(v<<1)&255;}break;}return n;}(async function(){var n=0;for(;;){var h=await sha(c+n);if(lz(h)>=d)break;n++;}var u=new URL(location.href);u.searchParams.set('__sentinel_pow',n);location.replace(u.toString());})();})();</script></body></html>".

(** The return code and the body handed to the output filter, [None] when the
    header ended the response; the results of both filters only go to
    [ngx_http_finalize_request]. *)
Definition sentinel_pow_send_page (env : pow_env) (conf : pow_conf) (challenge : bytes)
    : ngx_rc * option bytes :=
  if negb (pw_page_alloc env) then (NGX_ERROR, None)
  else if match pw_header env with NGX_ERROR | NGX_HTTP _ => true | _ => pw_header_only env end
  then (NGX_DONE, None)
  else (NGX_DONE, Some (pow_page tmpl_head tmpl_mid1 tmpl_mid2 challenge (pow_difficulty conf))).

Record pow_result : Type := PowResult {
  pr_rc : ngx_rc;
  pr_state : pow_state;
  pr_cookie : pow_cookie;
  pr_page : option bytes
}.

Definition sentinel_pow_dispatch (env : pow_env) (r : request) (conf : pow_conf) (now : Z)
    : option pow_result :=
  if (pow_enabled conf =? 0) || (length (pow_key conf) =? 0)%nat
  then Some (PowResult NGX_DECLINED POW_OFF NoCookie None)
  else
    let! rc := sentinel_pow_check_cookie r conf now in
    if bool_decide (rc = NGX_OK)
    then Some (PowResult NGX_DECLINED POW_VERIFIED NoCookie None)
    else
      let! c := sentinel_pow_challenge r conf now in
      match c with
      | None => Some (PowResult NGX_DECLINED POW_OFF NoCookie None)
      | Some challenge =>
          let solved :=
            match sentinel_pow_get_nonce r with
            | Some nonce =>
                sentinel_pow_meets_difficulty (SHA256 (challenge ++ nonce))
                  (pow_difficulty conf)
            | None => false
            end in
          if solved then
            let! ck := sentinel_pow_set_cookie env r conf now in
            Some (PowResult NGX_DECLINED POW_VERIFIED ck None)
          else
            let '(rc, page) := sentinel_pow_send_page env conf challenge in
            Some (PowResult rc POW_CHALLENGE NoCookie page)
      end.
End Pow.
