(* ===== verification/PowProps.v ===== *)
(** * PowProps.v: properties of the proof-of-work challenge

    The difficulty test is a numeric bound on the digest; what lets a challenged
    request through (a signed cookie, a solved puzzle, and two failures: no
    challenge can be computed, the page cannot be allocated); the cookie set is
    the cookie accepted until its expiry; and the missing domain separation
    between the two keyed digests. *)
From S2P Require Import Prelude Types Ngx Http NgxModel Pow SignalProps.

(** ** Difficulty *)

(** The digest as a big-endian number. *)
Definition be_value (s : bytes) : Z := fold_left (fun v c => v * 256 + bval c) s 0.

Lemma be_value_from s v :
  fold_left (fun v c => v * 256 + bval c) s v = v * 256 ^ Z.of_nat (length s) + be_value s.
Proof.
  unfold be_value. revert v. induction s as [|c s IH]; intros v; cbn [fold_left length].
  { change (256 ^ Z.of_nat 0) with 1. lia. }
  rewrite IH, (IH (0 * 256 + bval c)), Nat2Z.inj_succ, Z.pow_succ_r by lia. ring.
Qed.

Lemma be_value_cons c s : be_value (c :: s) = bval c * 256 ^ Z.of_nat (length s) + be_value s.
Proof. unfold be_value at 1. cbn [fold_left]. by rewrite be_value_from. Qed.

Lemma be_value_range s : 0 <= be_value s < 256 ^ Z.of_nat (length s).
Proof.
  induction s as [|c s IH]; [by vm_compute|].
  rewrite be_value_cons. cbn [length]. rewrite Nat2Z.inj_succ, Z.pow_succ_r by lia.
  pose proof (bval_range c). nia.
Qed.

Lemma leading_zeros_add fuel b bits :
  leading_zeros fuel b bits = bits + leading_zeros fuel b 0.
Proof.
  revert b bits. induction fuel as [|f IH]; intros b bits; cbn [leading_zeros]; [lia|].
  destruct (Z.land b 128 =? 0); [|lia]. rewrite IH, (IH _ (0 + 1)). lia.
Qed.

Lemma leading_zeros_byte c :
  bval c <> 0 -> leading_zeros 8 (bval c) 0 = 7 - Z.log2 (bval c).
Proof. destruct c; intros Hc; try reflexivity. by destruct Hc. Qed.

(** The loop counts the bits above the leading one. *)
Lemma digest_bits_value s bits :
  digest_bits s bits = bits + 8 * Z.of_nat (length s)
                       - (if be_value s =? 0 then 0 else Z.log2 (be_value s) + 1).
Proof.
  revert bits. induction s as [|c s IH]; intros bits; cbn [digest_bits length].
  { change (be_value []) with 0. simpl. lia. }
  pose proof (be_value_range s) as Hr. rewrite be_value_cons, Nat2Z.inj_succ.
  destruct (Z.eqb_spec (bval c) 0) as [E|E].
  - rewrite IH, E. replace (0 * 256 ^ Z.of_nat (length s) + be_value s) with (be_value s) by lia.
    lia.
  - rewrite leading_zeros_add, leading_zeros_byte by done.
    set (n := Z.of_nat (length s)) in *. pose proof (bval_range c).
    assert (0 < 256 ^ n) by (apply Z.pow_pos_nonneg; lia).
    destruct (Z.eqb_spec (bval c * 256 ^ n + be_value s) 0); [nia|].
    assert (Z.log2 (bval c * 256 ^ n + be_value s) = 8 * n + Z.log2 (bval c)) as ->; [|lia].
    change 256 with (2 ^ 8) in *. rewrite <- Z.pow_mul_r in * by lia.
    destruct (Z.log2_spec (bval c)) as [Hlo Hhi]; [lia|].
    pose proof (Z.log2_nonneg (bval c)).
    apply Z.log2_unique; [lia|].
    rewrite <- Z.add_succ_r, !Z.pow_add_r by lia. nia.
Qed.

(** The difficulty test is the numeric proof-of-work condition: a 256-bit
    digest has at least [d] leading zero bits exactly when, read as a big-endian
    number, it is below 2^(256 - d). *)
Theorem pow_difficulty_is_numeric_bound digest d :
  length digest = NGX_SENTINEL_DIGEST_LEN -> 0 <= d <= 256 ->
  sentinel_pow_meets_difficulty digest d = true <-> be_value digest < 2 ^ (256 - d).
Proof.
  intros Hl Hd. unfold sentinel_pow_meets_difficulty. rewrite Z.leb_le, digest_bits_value, Hl.
  pose proof (be_value_range digest). unfold NGX_SENTINEL_DIGEST_LEN.
  change (8 * Z.of_nat 32) with 256.
  destruct (Z.eqb_spec (be_value digest) 0) as [->|].
  - assert (0 < 2 ^ (256 - d)) by (apply Z.pow_pos_nonneg; lia). lia.
  - rewrite (Z.log2_lt_pow2 (be_value digest)) by lia. lia.
Qed.

(** ** Cookies *)

Section Props.
Context `{NgxHash} `{NgxCompare} `{NgxParse} `{NgxFormat} `{NgxHmac} `{NgxQuery}.
Context {CmpLaws : NgxCompareLaws} {ParseLaws : NgxParseLaws} {FormatLaws : NgxFormatLaws}.

Lemma hex_length s : length (sentinel_pow_hex s) = (length s * 2)%nat.
Proof.
  induction s as [|c s IH]; [done|].
  change (S (S (length (sentinel_pow_hex s))) = S (S (length s * 2)))%nat. lia.
Qed.

(** A MAC never overflows its buffer, and has 64 hexadecimal digits. *)
Lemma pow_mac_total conf ident n :
  0 <= n < 2 ^ 64 ->
  exists o, pow_mac conf ident n = Some o /\
    forall m, o = Some m -> length m = NGX_SENTINEL_POW_HEXLEN.
Proof.
  intros Hn. pose proof (dec_length n Hn). unfold pow_mac.
  destruct (Nat.eqb_spec (length ident) 0); cbn [orb]; [by eexists|].
  destruct (Nat.ltb_spec 16 (length ident)); [by eexists|].
  destruct (Nat.ltb_spec (16 + NGX_TIME_T_LEN) (length (ident ++ ngx_dec n))) as [Hlt|].
  { rewrite length_app in Hlt. unfold NGX_TIME_T_LEN in Hlt. lia. }
  destruct (HMAC_SHA256 _ _) as [mac|]; [|by eexists].
  destruct (Nat.eqb_spec (length mac) NGX_SENTINEL_DIGEST_LEN) as [E|]; cbn [negb];
    [|by eexists].
  eexists. split; [done|]. intros m [= <-]. rewrite hex_length, E. done.
Qed.

Lemma pow_ttl_pos conf : 1 <= pow_ttl_of conf.
Proof. unfold pow_ttl_of. destruct (Z.ltb_spec 0 (pow_ttl conf)); lia. Qed.

Lemma bucket_range conf now : 0 <= now < 2 ^ 63 -> 0 <= now / pow_ttl_of conf < 2 ^ 64.
Proof.
  intros Hn. pose proof (pow_ttl_pos conf). split; [apply Z.div_pos; lia|].
  assert (now / pow_ttl_of conf <= now) by (apply Z.div_le_upper_bound; nia). lia.
Qed.

(** A signed, unexpired cookie of this client. *)
Definition valid_cookie (r : request) (conf : pow_conf) (now : Z) : Prop :=
  exists digits machex e,
    ngx_http_parse_cookie_lines r NGX_SENTINEL_POW_COOKIE = Some (digits ++ DOT :: machex) /\
    DOT ∉ digits /\ ngx_atotm digits = Some e /\ now < e /\
    sentinel_pow_cookie_mac r conf e = Some (Some machex).

(** A nonce that solves the current puzzle. *)
Definition solved (r : request) (conf : pow_conf) (now : Z) : Prop :=
  exists challenge nonce,
    sentinel_pow_challenge r conf now = Some (Some challenge) /\
    sentinel_pow_get_nonce r = Some nonce /\
    sentinel_pow_meets_difficulty (SHA256 (challenge ++ nonce)) (pow_difficulty conf) = true.

Lemma atotm_range b e : ngx_atotm b = Some e -> 0 <= e < 2 ^ 64.
Proof. intros E%atoi_range. lia. Qed.

Lemma cookie_mac_total r conf e :
  r_sockaddr r <> None -> 0 <= e < 2 ^ 64 ->
  exists o, sentinel_pow_cookie_mac r conf e = Some o /\
    forall m, o = Some m -> length m = NGX_SENTINEL_POW_HEXLEN.
Proof.
  intros Hr He. unfold sentinel_pow_cookie_mac, pow_identity.
  destruct (r_sockaddr r) as [[]|]; [by apply pow_mac_total..|done].
Qed.

Lemma challenge_total r conf now :
  r_sockaddr r <> None -> 0 <= now < 2 ^ 63 ->
  exists o, sentinel_pow_challenge r conf now = Some o.
Proof.
  intros Hr Hn. unfold sentinel_pow_challenge, pow_identity.
  destruct (r_sockaddr r) as [[]|]; [..|done];
    (edestruct pow_mac_total as (o & -> & _); [by apply bucket_range|by eexists]).
Qed.

Lemma check_value r conf now digits machex :
  ngx_http_parse_cookie_lines r NGX_SENTINEL_POW_COOKIE = Some (digits ++ DOT :: machex) ->
  DOT ∉ digits -> length machex = NGX_SENTINEL_POW_HEXLEN -> digits <> [] ->
  sentinel_pow_check_cookie r conf now
  = match ngx_atotm digits with
    | None => Some NGX_ERROR
    | Some e =>
        if e <=? now then Some NGX_ERROR
        else let! m := sentinel_pow_cookie_mac r conf e in
             match m with
             | None => Some NGX_ERROR
             | Some want => if ngx_memn2cmp machex want =? 0
                            then Some NGX_OK else Some NGX_ERROR
             end
    end.
Proof.
  intros Hp Hd Hl Hne. unfold sentinel_pow_check_cookie. rewrite Hp.
  assert (memchr (digits ++ DOT :: machex) DOT = Some (length digits)) as Em.
  { apply memchr_Some. split; [by apply list_lookup_middle|]. by rewrite take_app_length. }
  assert (take (length digits) (digits ++ DOT :: machex) = digits) as Et by apply take_app_length.
  assert (drop (S (length digits)) (digits ++ DOT :: machex) = machex) as Ed.
  { rewrite (cons_middle DOT digits machex), app_assoc, drop_app_length'; [done|]. rewrite length_app. simpl. lia. }
  assert (length (digits ++ DOT :: machex) = length digits + 1 + NGX_SENTINEL_POW_HEXLEN)%nat
    as El by (rewrite length_app; simpl; lia).
  assert (0 < length digits)%nat by (destruct digits; [done|simpl; lia]).
  destruct (digits ++ DOT :: machex) as [|c val]; [simpl in El; lia|].
  rewrite Em, Et, Ed, El.
  rewrite (proj2 (Nat.leb_gt _ _)) by lia.
  rewrite (proj2 (Nat.eqb_eq (length digits + 1 + NGX_SENTINEL_POW_HEXLEN - length digits - 1) _))
    by lia. done.
Qed.

Lemma atotm_nonempty digits e : ngx_atotm digits = Some e -> digits <> [].
Proof. intros E ->. unfold ngx_atotm in E. by rewrite atoi_nonempty in E. Qed.

Lemma memchr_split p c i :
  memchr p c = Some i -> p = take i p ++ c :: drop (S i) p /\ c ∉ take i p.
Proof.
  intros E%memchr_Some. destruct E as [E Hn]. split; [|done].
  by rewrite take_drop_middle.
Qed.

(** The cookie check accepts exactly the signed, unexpired cookies. *)
Lemma check_cookie_ok r conf now rc :
  r_sockaddr r <> None -> sentinel_pow_check_cookie r conf now = Some rc ->
  rc = NGX_OK <-> valid_cookie r conf now.
Proof.
  intros Hr Hc. split.
  - intros ->. unfold sentinel_pow_check_cookie in Hc.
    destruct (ngx_http_parse_cookie_lines r NGX_SENTINEL_POW_COOKIE) as [[|c val]|] eqn:Hp; try done.
    destruct (_ <=? _)%nat; [done|].
    destruct (memchr (c :: val) DOT) as [dot|] eqn:Em; [|done].
    apply memchr_split in Em as [Es Hd].
    destruct (_ =? _)%nat; cbn [negb] in Hc; [|done].
    destruct (ngx_atotm (take dot (c :: val))) as [e|] eqn:Ee; [|done].
    destruct (Z.leb_spec e now); [done|].
    destruct (sentinel_pow_cookie_mac r conf e) as [[want|]|] eqn:Em; try done.
    destruct (Z.eqb_spec (ngx_memn2cmp (drop (S dot) (c :: val)) want) 0) as [E|]; [|done].
    apply memn2cmp_eq in E. exists (take dot (c :: val)), want, e.
    rewrite <- E at 1. rewrite <- Es. by split_and!.
  - intros (digits & machex & e & Hp & Hd & He & Hlt & Hm).
    destruct (cookie_mac_total r conf e Hr (atotm_range _ _ He)) as (o & Eo & Hlen).
    rewrite Hm in Eo. injection Eo as <-.
    rewrite (check_value r conf now digits machex) in Hc
      by eauto using atotm_nonempty.
    rewrite He, Hm, (proj2 (Z.leb_gt _ _)) in Hc by done.
    rewrite (proj2 (memn2cmp_eq machex machex)) in Hc by done. cbn in Hc. congruence.
Qed.

Lemma check_cookie_total r conf now :
  r_sockaddr r <> None -> is_Some (sentinel_pow_check_cookie r conf now).
Proof.
  intros Hr. unfold sentinel_pow_check_cookie.
  destruct (ngx_http_parse_cookie_lines r NGX_SENTINEL_POW_COOKIE) as [[|c val]|]; try by eexists.
  destruct (_ <=? _)%nat; [by eexists|].
  destruct (memchr (c :: val) DOT); [|by eexists].
  destruct (negb _); [by eexists|].
  destruct (ngx_atotm _) as [e|] eqn:Ee; [|by eexists].
  destruct (e <=? now); [by eexists|].
  destruct (cookie_mac_total r conf e Hr (atotm_range _ _ Ee)) as ([m|] & -> & _);
    [destruct (_ =? 0)|]; by eexists.
Qed.

(** Setting the cookie never overflows its buffer, and what is set is the text
    of the cookie of this client expiring after the configured lifetime. *)
Lemma set_cookie_total env r conf now :
  r_sockaddr r <> None -> 0 <= now -> now + pow_ttl_of conf < 2 ^ 63 ->
  exists ck, sentinel_pow_set_cookie env r conf now = Some ck /\
    forall text, ck = SetCookie text -> exists machex,
      sentinel_pow_cookie_mac r conf (now + pow_ttl_of conf) = Some (Some machex) /\
      length machex = NGX_SENTINEL_POW_HEXLEN /\
      text = NGX_SENTINEL_POW_COOKIE ++ lit "=" ++ cookie_value (now + pow_ttl_of conf) machex
             ++ cookie_attributes (pow_ttl_of conf).
Proof.
  intros Hr Hn Hmax. pose proof (pow_ttl_pos conf). unfold sentinel_pow_set_cookie.
  destruct (cookie_mac_total r conf (now + pow_ttl_of conf) Hr ltac:(lia)) as ([m|] & -> & Hl);
    [|by eexists].
  specialize (Hl m eq_refl). destruct (negb _); [by eexists|]. destruct (negb _); [by eexists|].
  pose proof (dec_length (now + pow_ttl_of conf) ltac:(lia)).
  pose proof (dec_length (pow_ttl_of conf) ltac:(lia)).
  assert (length (NGX_SENTINEL_POW_COOKIE ++ lit "=" ++ cookie_value (now + pow_ttl_of conf) m
    ++ cookie_attributes (pow_ttl_of conf)) <= cookie_len)%nat as Hle.
  { unfold cookie_value, cookie_attributes, cookie_len, NGX_TIME_T_LEN.
    rewrite !length_app, Hl.
    change (length (lit "; Path=/; Max-Age=")) with 18%nat.
    change (length (lit "; HttpOnly")) with 10%nat.
    change (length (lit "; Path=/; Max-Age=; HttpOnly")) with 28%nat.
    change (length (lit "=")) with 1%nat. change (length [DOT]) with 1%nat. lia. }
  rewrite (proj2 (Nat.ltb_ge _ _)) by done.
  eexists. split; [done|]. intros text [= <-]. by exists m.
Qed.

Lemma pow_dispatch_total env r conf now :
  r_sockaddr r <> None -> 0 <= now -> now + pow_ttl_of conf < 2 ^ 63 ->
  exists res, sentinel_pow_dispatch env r conf now = Some res.
Proof.
  intros Hr Hn Hmax. pose proof (pow_ttl_pos conf). unfold sentinel_pow_dispatch.
  destruct (_ || _); [by eexists|]. destruct (check_cookie_total r conf now Hr) as [rc ->].
  case_bool_decide; [by eexists|].
  destruct (challenge_total r conf now Hr ltac:(lia)) as [[ch|] ->]; [|by eexists].
  destruct (set_cookie_total env r conf now Hr Hn Hmax) as (ck & -> & _).
  destruct (sentinel_pow_get_nonce r); [destruct (sentinel_pow_meets_difficulty _ _)|];
    [by eexists|..]; destruct (sentinel_pow_send_page env conf ch); by eexists.
Qed.

Lemma send_page_rc env conf ch :
  exists rc page, sentinel_pow_send_page env conf ch = (rc, page) /\ rc <> NGX_DECLINED /\
    (rc <> NGX_DONE <-> pw_page_alloc env = false).
Proof.
  unfold sentinel_pow_send_page. destruct (pw_page_alloc env); cbn [negb];
    [|by do 2 eexists; split_and!].
  by destruct (match pw_header env with NGX_ERROR | NGX_HTTP _ => true | _ => _ end);
    do 2 eexists; split_and!; try done; split.
Qed.

(** The challenge always answers, and takes the request over (the code
    [NGX_DONE]) unless the request carries an unexpired cookie signed for this
    address, or a nonce that solves this address's current puzzle, or no
    challenge can be computed, or the page cannot be allocated. *)
Lemma pow_dispatch_passes env r conf now :
  pow_enabled conf <> 0 -> pow_key conf <> [] -> r_sockaddr r <> None ->
  0 <= now -> now + pow_ttl_of conf < 2 ^ 63 ->
  exists res, sentinel_pow_dispatch env r conf now = Some res /\
    (pr_rc res <> NGX_DONE <->
       valid_cookie r conf now \/ solved r conf now \/
       sentinel_pow_challenge r conf now = Some None \/ pw_page_alloc env = false).
Proof.
  intros Hen Hsec Hr Hn Hmax. pose proof (pow_ttl_pos conf). unfold sentinel_pow_dispatch.
  rewrite (proj2 (Z.eqb_neq _ _)) by done.
  rewrite (proj2 (Nat.eqb_neq (length (pow_key conf)) 0)) by (by destruct (pow_key conf)).
  cbn [orb]. destruct (check_cookie_total r conf now Hr) as [rc Hrc]. rewrite Hrc.
  pose proof (check_cookie_ok r conf now rc Hr Hrc) as Hv.
  case_bool_decide as E.
  { eexists. split; [done|]. split; [by intros _; left; apply Hv|done]. }
  assert (~ valid_cookie r conf now) as Hnv by tauto.
  destruct (challenge_total r conf now Hr ltac:(lia)) as [[ch|] Hch]; rewrite Hch.
  2: { eexists. split; [done|]. split; [by auto|done]. }
  destruct (send_page_rc env conf ch) as (rc' & page & Hpage & _ & Hrc').
  destruct (sentinel_pow_get_nonce r) as [nonce|] eqn:En.
  - destruct (sentinel_pow_meets_difficulty _ _) eqn:Ed.
    + destruct (set_cookie_total env r conf now Hr Hn Hmax) as (ck & -> & _).
      eexists. split; [done|]. split; [|done]. intros _. right. left. by exists ch, nonce.
    + rewrite Hpage. eexists. split; [done|]. cbn [pr_rc]. rewrite Hrc'.
      split; [by auto|]. intros [?|[(ch' & n' & E1 & E2 & E3)|[?|?]]]; try done; congruence.
  - rewrite Hpage. eexists. split; [done|]. cbn [pr_rc]. rewrite Hrc'.
    split; [by auto|]. intros [?|[(ch' & n' & E1 & E2 & E3)|[?|?]]]; try done; congruence.
Qed.

Lemma digits_no_dot n : 0 <= n -> DOT ∉ ngx_dec n.
Proof.
  intros Hn Hin. pose proof (dec_digits n Hn) as Hd. rewrite Forall_forall in Hd.
  apply Hd in Hin. unfold digit in Hin. change (bval DOT) with 46 in Hin. lia.
Qed.

Lemma dec_nonempty n : 0 <= n < 2 ^ 64 -> ngx_dec n <> [].
Proof. intros Hn E. pose proof (dec_length n Hn) as Hl. rewrite E in Hl. simpl in Hl. lia. Qed.

(** C22. The cookie set for a solved puzzle is the cookie accepted later: any
    request from the same address that sends its value back passes the cookie
    check until the announced expiry, and fails it from then on. *)
Theorem pow_cookie_roundtrip env r conf now text r' t :
  r_sockaddr r <> None -> 0 <= now -> now + pow_ttl_of conf < 2 ^ 63 ->
  sentinel_pow_set_cookie env r conf now = Some (SetCookie text) ->
  exists value,
    text = NGX_SENTINEL_POW_COOKIE ++ lit "=" ++ value ++ cookie_attributes (pow_ttl_of conf) /\
    (pow_identity r' = pow_identity r ->
     ngx_http_parse_cookie_lines r' NGX_SENTINEL_POW_COOKIE = Some value ->
     sentinel_pow_check_cookie r' conf t
       = Some (if t <? now + pow_ttl_of conf then NGX_OK else NGX_ERROR)).
Proof.
  intros Hr Hn Hmax Hset. pose proof (pow_ttl_pos conf).
  destruct (set_cookie_total env r conf now Hr Hn Hmax) as (ck & E & Ht).
  rewrite E in Hset. apply (inj Some) in Hset.
  destruct (Ht text Hset) as (machex & Hm & Hl & ->).
  exists (cookie_value (now + pow_ttl_of conf) machex). split; [done|]. intros Hid Hp.
  unfold cookie_value in Hp. cbn [app] in Hp.
  rewrite (check_value r' conf t _ _ Hp);
    [|apply digits_no_dot; lia|done|apply dec_nonempty; lia].
  unfold ngx_atotm. rewrite atoi_dec by lia.
  assert (sentinel_pow_cookie_mac r' conf (now + pow_ttl_of conf) = Some (Some machex)) as ->.
  { unfold sentinel_pow_cookie_mac in *. by rewrite Hid. }
  rewrite (proj2 (memn2cmp_eq machex machex)) by done.
  destruct (Z.leb_spec (now + pow_ttl_of conf) t), (Z.ltb_spec t (now + pow_ttl_of conf));
    done || lia.
Qed.

(** The digits an attacker embeds in an IPv6 address. *)
Definition filler : bytes := lit "111111111111".

(** C38. The puzzle of one address is a pass for another: the keyed digests of
    the challenge and of the cookie share their key and have no domain
    separation, so the challenge text served (without any work) to the IPv6
    address whose bytes are an IPv4 address followed by twelve digits is the MAC
    of a bypass cookie for that IPv4 address, far in the future. *)
Theorem challenge_page_forges_cookie a conf r6 r4 now t challenge :
  r_sockaddr r6 = Some (AF_INET6 (be32 a ++ filler)) -> r_sockaddr r4 = Some (AF_INET a) ->
  0 <= now < 2 ^ 63 -> (length (ngx_dec (now / pow_ttl_of conf)) <= 6)%nat ->
  t < 111111111111 ->
  sentinel_pow_challenge r6 conf now = Some (Some challenge) ->
  ngx_http_parse_cookie_lines r4 NGX_SENTINEL_POW_COOKIE
    = Some (filler ++ ngx_dec (now / pow_ttl_of conf) ++ [DOT] ++ challenge) ->
  sentinel_pow_check_cookie r4 conf t = Some NGX_OK.
Proof.
  intros Ha6 Ha4 Hn Hlen Ht Hch Hp. set (b := now / pow_ttl_of conf) in *.
  pose proof (bucket_range conf now Hn) as Hb. fold b in Hb.
  assert (Forall digit (filler ++ ngx_dec b)) as Hd.
  { apply Forall_app. split; [|apply dec_digits; lia].
    repeat (constructor; [unfold digit; split; vm_compute; discriminate|]). constructor. }
  set (e := dec_value (filler ++ ngx_dec b)).
  assert (ngx_dec e = filler ++ ngx_dec b) as Ee by by apply dec_canonical.
  assert (e = dec_from 111111111111 (ngx_dec b)) as Ev.
  { unfold e, dec_value. by rewrite dec_from_app. }
  assert (111111111111 <= e < 2 ^ 63) as He.
  { pose proof (dec_digits b ltac:(lia)) as Hdb. rewrite Ev.
    split; [by apply dec_value_from|].
    eapply Z.lt_trans; [by apply dec_from_lt|].
    eapply Z.le_lt_trans; [apply Z.mul_le_mono_nonneg_l; [lia|]|].
    - apply (Z.pow_le_mono_r 10 _ 6); lia.
    - done. }
  rewrite (app_assoc filler), <- Ee in Hp. cbn [app] in Hp.
  destruct (cookie_mac_total r4 conf e ltac:(by rewrite Ha4) ltac:(lia)) as (o & Eo & Hol).
  assert (sentinel_pow_cookie_mac r4 conf e = Some (Some challenge)) as Em.
  { revert Hch. unfold sentinel_pow_challenge, sentinel_pow_cookie_mac, pow_identity.
    rewrite Ha6, Ha4. fold b. unfold pow_mac. rewrite Ee, <- app_assoc.
    change (length (be32 a ++ filler)) with 16%nat. change (length (be32 a)) with 4%nat.
    done. }
  rewrite Em in Eo. injection Eo as <-.
  rewrite (check_value r4 conf t _ _ Hp);
    [|apply digits_no_dot; lia|by apply Hol|apply dec_nonempty; lia].
  unfold ngx_atotm. rewrite atoi_dec, Em by lia.
  rewrite (proj2 (Z.leb_gt _ _)), (proj2 (memn2cmp_eq challenge challenge)) by (done || lia).
  done.
Qed.
End Props.

(** ** Witnesses *)
Import Concrete.

Definition demo_digest : bytes := replicate 2 NUL ++ replicate 30 (u_char 255).

Lemma pow_difficulty_is_numeric_bound_witness :
  sentinel_pow_meets_difficulty demo_digest 16 = true /\
  be_value demo_digest < 2 ^ (256 - 16).
Proof.
  assert (sentinel_pow_meets_difficulty demo_digest 16 = true) as Hm by by vm_compute.
  split; [exact Hm|].
  by apply (pow_difficulty_is_numeric_bound demo_digest 16); [vm_compute| |exact Hm].
Defined.

Definition demo_pow : pow_conf := PowConf 1 (Some (lit "secret")) 16 3600.

Definition demo_pow_env : pow_env := PowEnv true true true NGX_OK false.

(** A request from an address with a cookie. *)
Definition pow_request (sa : sockaddr) (cookie : option bytes) : request :=
  Request NGX_HTTP_GET NGX_HTTP_VERSION_11 (lit "/") [] [] None None cookie None None None None
    (lit "192.0.2.7") (Some sa) 0 200.

Lemma pow_cookie_roundtrip_witness :
  exists value,
    sentinel_pow_check_cookie (pow_request (AF_INET 3221225991) (Some value)) demo_pow 1003599
      = Some NGX_OK /\
    sentinel_pow_check_cookie (pow_request (AF_INET 3221225991) (Some value)) demo_pow 1003600
      = Some NGX_ERROR.
Proof.
  destruct (sentinel_pow_set_cookie demo_pow_env (pow_request (AF_INET 3221225991) None)
    demo_pow 1000000) as [[|text|]|] eqn:E;
    try (exfalso; revert E; vm_compute; discriminate).
  destruct (pow_cookie_roundtrip demo_pow_env (pow_request (AF_INET 3221225991) None) demo_pow
    1000000 text (pow_request (AF_INET 3221225991) None) 0) as (v0 & Ev & _);
    [done|done|by vm_compute|exact E|].
  exists v0. split.
  - destruct (pow_cookie_roundtrip demo_pow_env (pow_request (AF_INET 3221225991) None) demo_pow
      1000000 text (pow_request (AF_INET 3221225991) (Some v0)) 1003599) as (v & Ev' & Hc);
      [done|done|by vm_compute|exact E|].
    rewrite Ev in Ev'. do 2 apply app_inv_head in Ev'. apply app_inv_tail in Ev' as <-.
    by apply Hc.
  - destruct (pow_cookie_roundtrip demo_pow_env (pow_request (AF_INET 3221225991) None) demo_pow
      1000000 text (pow_request (AF_INET 3221225991) (Some v0)) 1003600) as (v & Ev' & Hc);
      [done|done|by vm_compute|exact E|].
    rewrite Ev in Ev'. do 2 apply app_inv_head in Ev'. apply app_inv_tail in Ev' as <-.
    by apply Hc.
Defined.

(** The victim 32.1.13.184 and the attacker's 2001:db8:3131:3131:3131:...; the
    challenge served at time 1000000000 is a cookie valid for millennia. *)
Definition demo_challenge : bytes :=
  match sentinel_pow_challenge (pow_request (AF_INET6 (be32 536939960 ++ filler)) None)
          demo_pow 1000000000 with
  | Some (Some c) => c
  | _ => []
  end.

Lemma challenge_page_forges_cookie_witness :
  sentinel_pow_check_cookie
    (pow_request (AF_INET 536939960)
       (Some (lit "111111111111277777." ++ demo_challenge))) demo_pow 4000000000
    = Some NGX_OK.
Proof.
  apply (challenge_page_forges_cookie 536939960 demo_pow
    (pow_request (AF_INET6 (be32 536939960 ++ filler)) None) _ 1000000000 4000000000
    demo_challenge); [done|done|done|vm_compute; lia|done|by vm_compute|by vm_compute].
Defined.
