(* ===== verification/Tarpit.v ===== *)
(** * Tarpit.v: the tarpit ([sentinel_tarpit.c])

    A tarpitted request holds one slot of a shared counter array, drips a few
    bytes per timer tick until its byte budget or its deadline, and gives the
    slot back in a pool cleanup.  The output filter, the event registration and
    the allocations are environment answers; times are in milliseconds. *)
From S2P Require Import Prelude Types Ngx Http.

Definition NGX_MAX_PROCESSES : nat := 1024.
Definition NGX_SENTINEL_TARPIT_TICK_MAX : nat := 65536.
Definition NGX_SENTINEL_TARPIT_TICK_BYTES : Z := 32.
Definition NGX_SENTINEL_TARPIT_MAZE_FRAG : nat := 64.

(** ** Data *)

(** [ngx_sentinel_tarpit_ctx_t]; the slot is an index of the counter array. *)
Record tarpit_ctx : Type := TarpitCtx {
  tp_deadline : Z;
  tp_bytes_sent : Z;
  tp_bytes_total : Z;
  tp_delay_ms : Z;
  tp_slot : nat;
  tp_rng : Z;
  tp_counted : bool;
  tp_maze : bool
}.

(** The static drip buffer: spaces and a final newline. *)
Definition ngx_sentinel_drip_buf : bytes :=
  replicate (NGX_SENTINEL_TARPIT_TICK_MAX - 1) Byte.x20 ++ [Byte.x0a].

(** ** Slots *)

(** [ngx_atomic_fetch_add] on a slot. *)
Definition slot_add (conns : list Z) (slot : nat) (n : Z) : list Z :=
  alter (fun v => wrap64 (v + n)) slot conns.

Definition sentinel_tarpit_cleanup (conns : list Z) (t : tarpit_ctx) : list Z * tarpit_ctx :=
  if negb (tp_counted t) then (conns, t)
  else (slot_add conns (tp_slot t) (-1),
        TarpitCtx (tp_deadline t) (tp_bytes_sent t) (tp_bytes_total t) (tp_delay_ms t)
          (tp_slot t) (tp_rng t) false (tp_maze t)).

(** The sum of the first [NGX_MAX_PROCESSES] counters. *)
Definition sum_conns (conns : list Z) : Z :=
  fold_left (fun sum v => wrap64 (sum + v)) (take NGX_MAX_PROCESSES conns) 0.

Definition sentinel_tarpit_sum (conns : option (list Z)) : Z :=
  match conns with None => 0 | Some c => sum_conns c end.

Definition worker_slot (ngx_worker : nat) : nat :=
  if (NGX_MAX_PROCESSES <=? ngx_worker)%nat then 0%nat else ngx_worker.

(** The two halves of one iteration of the reservation loop. *)
Definition reserve_check (conns : list Z) (max_conns : Z) : bool :=
  sum_conns conns <? max_conns.

Definition reserve_commit (conns : list Z) (slot : nat) : list Z := slot_add conns slot 1.

(** The loop: [view k] are the counters of the k-th iteration, [cas_ok k] tells
    whether its compare-and-set succeeds; [None] when [fuel] iterations all lose
    the race. *)
Fixpoint reserve_loop (fuel : nat) (view : nat -> list Z) (cas_ok : nat -> bool) (k : nat)
    (max_conns : Z) (slot : nat) : option (ngx_rc * list Z) :=
  match fuel with
  | O => None
  | S fuel' =>
      if negb (reserve_check (view k) max_conns) then Some (NGX_HTTP NGX_HTTP_CLOSE, view k)
      else if cas_ok k then Some (NGX_OK, reserve_commit (view k) slot)
      else reserve_loop fuel' view cas_ok (S k) max_conns slot
  end.

(** [sentinel_tarpit_reserve] of a worker that owns its slot: no other process
    writes it, so the first compare-and-set succeeds. *)
Definition sentinel_tarpit_reserve (conns : option (list Z)) (max_conns : Z) (worker : nat)
    : option (ngx_rc * option (list Z)) :=
  match conns with
  | None => Some (NGX_ERROR, None)
  | Some c =>
      if max_conns =? 0 then Some (NGX_ERROR, conns)
      else
        let! (rc, c') :=
          reserve_loop 1 (fun _ => c) (fun _ => true) 0 max_conns (worker_slot worker) in
        Some (rc, Some c')
  end.

(** ** Dripping *)

(** The sixteen steps of the generator, and the digits they give. *)
Fixpoint maze_token (n : nat) (rng : Z) : bytes * Z :=
  match n with
  | O => ([], rng)
  | S n' =>
      let rng := wrap32 (rng * 1664525 + 1013904223) in
      let '(rest, rng') := maze_token n' rng in
      (hex_char (Z.land (Z.shiftr rng 24) 15) :: rest, rng')
  end.

Definition QUOTE : Byte.byte := Byte.x22.

Definition sentinel_tarpit_maze_fragment (rng : Z) : bytes * Z :=
  let '(token, rng') := maze_token 16 rng in
  (lit "<a href=" ++ [QUOTE] ++ lit "/" ++ token ++ lit "/" ++ [QUOTE] ++ lit ">x</a>" ++ [Byte.x0a],
   rng').

(** What a tick leaves behind: the request finalized with a code, or waiting
    for its timer. [td_count] is [r->main->count]. *)
Inductive tick_result : Type :=
  | TickFinished (count : Z) (rc : ngx_rc)
  | TickWaiting (t : tarpit_ctx) (timer : Z).

Definition with_progress (t : tarpit_ctx) (sent rng : Z) : tarpit_ctx :=
  TarpitCtx (tp_deadline t) sent (tp_bytes_total t) (tp_delay_ms t) (tp_slot t) rng
    (tp_counted t) (tp_maze t).

Definition sentinel_tarpit_finish (count : Z) : tick_result :=
  TickFinished (count - 1) (NGX_HTTP NGX_HTTP_CLOSE).

(** The delay of the next timer, bounded by the remaining lifetime. *)
Definition tick_wait (t : tarpit_ctx) (now : Z) : Z :=
  if tp_deadline t <=? now then tp_delay_ms t
  else Z.min (tp_deadline t - now) (tp_delay_ms t).

(** The buffer of a tick and the next state of the generator. *)
Definition tick_buf (t : tarpit_ctx) : bytes * Z :=
  let left := tp_bytes_total t - tp_bytes_sent t in
  if tp_maze t then
    let '(frag, rng) := sentinel_tarpit_maze_fragment (tp_rng t) in
    let n := if Z.of_nat (length frag) <? left then Z.of_nat (length frag) else left in
    (take (Z.to_nat n) frag, rng)
  else
    let n := if NGX_SENTINEL_TARPIT_TICK_BYTES <? left
             then NGX_SENTINEL_TARPIT_TICK_BYTES else left in
    (take (Z.to_nat n) ngx_sentinel_drip_buf, tp_rng t).

(** One run of the write handler: the bytes given to the output filter and the
    outcome. [dead] is an error or close flag of the connection, [out] the
    filter's answer, [rearm] the success of [ngx_handle_write_event]; [count]
    is [r->main->count]. *)
Definition sentinel_tarpit_write_handler (tctx : option tarpit_ctx) (now : Z) (dead : bool)
    (out : ngx_rc) (rearm : bool) (count : Z) : bytes * tick_result :=
  match tctx with
  | None => ([], sentinel_tarpit_finish count)
  | Some t =>
      if (tp_deadline t <=? now) || (tp_bytes_total t <=? tp_bytes_sent t)
      then ([], sentinel_tarpit_finish count)
      else if dead then ([], sentinel_tarpit_finish count)
      else
        let '(buf, rng) := tick_buf t in
        if bool_decide (out = NGX_ERROR) then (buf, TickFinished (count - 1) NGX_ERROR)
        else if bool_decide (out = NGX_AGAIN) then
          if negb rearm then (buf, TickFinished (count - 1) NGX_ERROR)
          else (buf, TickWaiting (with_progress t (tp_bytes_sent t) rng) (tick_wait t now))
        else
          let sent := tp_bytes_sent t + Z.of_nat (length buf) in
          if (tp_bytes_total t <=? sent) || (tp_deadline t <=? now)
          then (buf, sentinel_tarpit_finish count)
          else (buf, TickWaiting (with_progress t sent rng) (tick_wait t now))
  end.

(** ** Entry *)

(** The environment of [sentinel_tarpit_start]; [ts_entropy] is the descriptor
    and address the generator is seeded with. *)
Record start_env : Type := StartEnv {
  ts_alloc : bool;
  ts_cleanup : bool;
  ts_header : ngx_rc;
  ts_entropy : Z
}.

(** The counters, the context the cleanup owns, whether the request's module
    context now points to it, the timer and [r->main->count]; [sr_finalized] is
    the code handed to [ngx_http_finalize_request]. *)
Record start_result : Type := StartResult {
  sr_rc : ngx_rc;
  sr_conns : option (list Z);
  sr_cleanup : option tarpit_ctx;
  sr_set_ctx : bool;
  sr_timer : option Z;
  sr_finalized : option ngx_rc;
  sr_count : Z
}.

Definition start_declined (conns : option (list Z)) (count : Z) : start_result :=
  StartResult NGX_DECLINED conns None false None None count.

Definition tarpit_new (lcf : tarpit_conf) (slot : nat) (now entropy : Z) : tarpit_ctx :=
  TarpitCtx (now + tarpit_max_lifetime lcf) 0 (tarpit_bytes lcf) (tarpit_delay lcf) slot
    (Z.lxor (wrap32 now) (wrap32 entropy)) true (negb (tarpit_maze lcf =? 0)).

Definition sentinel_tarpit_start (env : start_env) (lcf : tarpit_conf)
    (mcf : option (option (list Z))) (worker : nat) (now count : Z) : option start_result :=
  match mcf with
  | None => Some (start_declined None count)
  | Some conns =>
      let! (rc, conns') := sentinel_tarpit_reserve conns (tarpit_max_conns lcf) worker in
      if bool_decide (rc = NGX_HTTP NGX_HTTP_CLOSE)
      then Some (StartResult (NGX_HTTP NGX_HTTP_CLOSE) conns' None false None None count)
      else if bool_decide (rc = NGX_ERROR) then Some (start_declined conns' count)
      else
        let slot := worker_slot worker in
        let release := (fun c => slot_add c slot (-1)) <$> conns' in
        if negb (ts_alloc env) then Some (start_declined release count)
        else if negb (ts_cleanup env) then Some (start_declined release count)
        else
          let t := tarpit_new lcf slot now (ts_entropy env) in
          match ts_header env with
          | NGX_ERROR =>
              Some (StartResult NGX_DONE conns' (Some t) false None (Some NGX_ERROR) count)
          | NGX_HTTP _ =>
              Some (StartResult NGX_DONE conns' (Some t) false None (Some NGX_DONE) count)
          | _ =>
              Some (StartResult NGX_DONE conns' (Some t) true (Some (tp_delay_ms t)) None
                      (count + 1))
          end
  end.

Definition sentinel_tarpit_init_process (conns : option (list Z)) (worker : nat)
    : option (list Z) :=
  (fun c => <[worker_slot worker := 0]> c) <$> conns.
