(* ===== verification/TarpitProps.v ===== *)
(** * TarpitProps.v: properties of the tarpit

    The shared cap is a soft cap with a known overshoot under any interleaving
    of the workers, every reserved slot is given back exactly once, and no
    connection is held longer than configured. *)
From S2P Require Import Prelude Types Ngx Http NgxModel Tarpit SignalProps.

(** ** Counters *)

Definition zsum (l : list Z) : Z := foldr Z.add 0 l.

Lemma zsum_nonneg l : Forall (Z.le 0) l -> 0 <= zsum l.
Proof. induction 1; simpl; lia. Qed.

Lemma fold_wrap_sum l acc :
  Forall (Z.le 0) l -> 0 <= acc -> acc + zsum l < 2 ^ 64 ->
  fold_left (fun sum v => wrap64 (sum + v)) l acc = acc + zsum l.
Proof.
  intros Hl. revert acc. induction Hl as [|v l Hv Hl IH]; intros acc Ha Hs; simpl in *; [lia|].
  pose proof (zsum_nonneg l Hl). rewrite wrap_id by lia. rewrite IH by lia. lia.
Qed.

Lemma zsum_alter l i v n :
  l !! i = Some v -> zsum (<[i := v + n]> l) = zsum l + n.
Proof.
  revert i. induction l as [|x l IH]; intros [|i] Hi; simplify_eq/=; [lia|].
  rewrite IH by done. lia.
Qed.

Lemma lookup_le_zsum l i v : Forall (Z.le 0) l -> l !! i = Some v -> v <= zsum l.
Proof.
  intros Hl. revert i. induction Hl as [|x l Hx Hl IH]; intros [|i] Hi; simplify_eq/=.
  - pose proof (zsum_nonneg l Hl). lia.
  - specialize (IH i Hi). lia.
Qed.

Lemma slot_add_insert conns i v n :
  conns !! i = Some v -> 0 <= v + n < 2 ^ 64 -> slot_add conns i n = <[i := v + n]> conns.
Proof.
  intros Hi Hr. unfold slot_add. rewrite <- (wrap_id 64 (v + n)) by lia.
  apply list_eq. intros j. destruct (decide (i = j)) as [<-|].
  - by rewrite list_lookup_insert_eq, list_lookup_alter_eq, Hi by (by eapply lookup_lt_Some).
  - by rewrite list_lookup_insert_ne, list_lookup_alter_ne by done.
Qed.

(** ** The soft cap

    The system of [W] workers: the counters, the workers that have passed the
    check of their reservation loop and not yet incremented their slot, and the
    contexts of the tarpitted connections. *)
Section Cap.
Context (W : nat) (max_conns : Z).

Record cap_state : Type := CapState {
  cp_conns : list Z;
  cp_pending : gset nat;
  cp_held : list tarpit_ctx
}.

Inductive cap_step : cap_state -> cap_state -> Prop :=
  | cap_check conns pending held w :
      (w < W)%nat -> w ∉ pending -> reserve_check conns max_conns = true ->
      cap_step (CapState conns pending held) (CapState conns ({[w]} ∪ pending) held)
  | cap_commit conns pending held w lcf now entropy :
      w ∈ pending ->
      cap_step (CapState conns pending held)
        (CapState (reserve_commit conns (worker_slot w)) (pending ∖ {[w]})
                  (tarpit_new lcf (worker_slot w) now entropy :: held))
  | cap_release conns pending l1 t l2 :
      cap_step (CapState conns pending (l1 ++ t :: l2))
        (CapState (sentinel_tarpit_cleanup conns t).1 pending (l1 ++ l2)).

Definition cap_start : cap_state := CapState (replicate NGX_MAX_PROCESSES 0) ∅ [].

(** The number of connections that hold a slot. *)
Definition held_at (i : nat) (held : list tarpit_ctx) : Z :=
  Z.of_nat (length (filter (fun t => tp_slot t = i) held)).

Definition cap_ok (s : cap_state) : Prop :=
  length (cp_conns s) = NGX_MAX_PROCESSES /\
  cp_pending s ⊆ set_seq 0 W /\
  Forall (fun t => tp_counted t = true /\ (tp_slot t < NGX_MAX_PROCESSES)%nat) (cp_held s) /\
  (forall i, (i < NGX_MAX_PROCESSES)%nat -> cp_conns s !! i = Some (held_at i (cp_held s))) /\
  zsum (cp_conns s) = Z.of_nat (length (cp_held s)) /\
  Z.of_nat (length (cp_held s)) + Z.of_nat (size (cp_pending s)) <= max_conns + Z.of_nat W - 1.

Lemma worker_slot_lt w : (worker_slot w < NGX_MAX_PROCESSES)%nat.
Proof.
  unfold worker_slot. destruct (Nat.leb_spec NGX_MAX_PROCESSES w); [|done].
  unfold NGX_MAX_PROCESSES. lia.
Qed.

Lemma held_at_cons i t held :
  held_at i (t :: held) = held_at i held + (if decide (tp_slot t = i) then 1 else 0).
Proof. unfold held_at. rewrite filter_cons. case_decide; simpl; lia. Qed.

Lemma held_at_middle i t l1 l2 :
  held_at i (l1 ++ t :: l2) = held_at i (l1 ++ l2) + (if decide (tp_slot t = i) then 1 else 0).
Proof.
  unfold held_at. rewrite !filter_app, filter_cons, !length_app. case_decide; simpl; lia.
Qed.

Lemma held_at_le i held : 0 <= held_at i held <= Z.of_nat (length held).
Proof. unfold held_at. pose proof (length_filter (fun t => tp_slot t = i) held). lia. Qed.

(** Moving one counter with the connections that hold it. *)
Lemma slot_add_held conns held held' slot n :
  length conns = NGX_MAX_PROCESSES -> (slot < NGX_MAX_PROCESSES)%nat ->
  (forall i, (i < NGX_MAX_PROCESSES)%nat -> conns !! i = Some (held_at i held)) ->
  zsum conns = Z.of_nat (length held) ->
  (forall i, held_at i held' = held_at i held + (if decide (slot = i) then n else 0)) ->
  Z.of_nat (length held') = Z.of_nat (length held) + n -> Z.of_nat (length held') < 2 ^ 64 ->
  let conns' := slot_add conns slot n in
  length conns' = NGX_MAX_PROCESSES /\
  (forall i, (i < NGX_MAX_PROCESSES)%nat -> conns' !! i = Some (held_at i held')) /\
  zsum conns' = Z.of_nat (length held').
Proof.
  intros Hl Hslot Hc Hsum Hh Hlen Hmax. cbn zeta.
  assert (held_at slot held' = held_at slot held + n) as Hn
    by (rewrite Hh, decide_True by done; lia).
  pose proof (held_at_le slot held').
  rewrite (slot_add_insert conns slot (held_at slot held) n) by (auto || lia). split_and!.
  - by rewrite length_insert.
  - intros i Hi. rewrite Hh. case_decide as E.
    + subst i. rewrite list_lookup_insert_eq by lia. done.
    + rewrite list_lookup_insert_ne, Hc by done. f_equal. lia.
  - rewrite zsum_alter by auto. lia.
Qed.

Hypothesis W_pos : (1 <= W <= NGX_MAX_PROCESSES)%nat.
Hypothesis max_range : 1 <= max_conns /\ max_conns + Z.of_nat W < 2 ^ 64.

(** The sum of the counters never wraps. *)
Lemma sum_conns_held s : cap_ok s -> sum_conns (cp_conns s) = Z.of_nat (length (cp_held s)).
Proof.
  intros (Hl & _ & _ & Hc & Hsum & Hs). unfold sum_conns. rewrite take_ge by lia.
  rewrite fold_wrap_sum; [lia| |lia|lia].
  apply Forall_lookup. intros i v Hi.
  rewrite Hc in Hi by (rewrite <- Hl; by eapply lookup_lt_Some).
  injection Hi as <-. apply held_at_le.
Qed.

Lemma pending_size (p : gset nat) : p ⊆ set_seq 0 W -> (size p <= W)%nat.
Proof. intros Hp%subseteq_size. by rewrite size_set_seq in Hp. Qed.

Lemma cap_step_ok s s' : cap_ok s -> cap_step s s' -> cap_ok s'.
Proof.
  intros Hok Hstep. pose proof (sum_conns_held s Hok) as Hsc.
  destruct Hok as (Hl & Hp & Hf & Hc & Hsum & Hs).
  destruct Hstep as [conns pending held w Hw Hnp Hck|conns pending held w lcf now en Hw
    |conns pending l1 t l2]; unfold cap_ok; cbn [cp_conns cp_pending cp_held] in *.
  - unfold reserve_check in Hck. rewrite Hsc in Hck. apply Z.ltb_lt in Hck.
    assert ({[w]} ∪ pending ⊆ set_seq 0 W) as Hp'.
    { apply union_subseteq. split; [|done]. apply singleton_subseteq_l, elem_of_set_seq. lia. }
    pose proof (pending_size _ Hp'). split_and!; try done. lia.
  - pose proof (pending_size _ Hp).
    assert (size (pending ∖ {[w]}) + 1 = size pending)%nat as Hsz.
    { rewrite size_difference, size_singleton by (by apply singleton_subseteq_l).
      assert (size ({[w]} : gset nat) <= size pending)%nat as Hle
        by (by apply subseteq_size, singleton_subseteq_l).
      rewrite size_singleton in Hle. lia. }
    destruct (slot_add_held conns held (tarpit_new lcf (worker_slot w) now en :: held)
      (worker_slot w) 1) as (Hl' & Hc' & Hsum'); try done.
    { apply worker_slot_lt. } { intros i. apply held_at_cons. } { simpl. lia. } { simpl. lia. }
    split_and!; [done| | |done|done|].
    + etransitivity; [apply subseteq_difference_l|]; done.
    + constructor; [|done]. split; [done|apply worker_slot_lt].
    + simpl. lia.
  - pose proof (Forall_elt _ _ _ Hf) as [Hcount Hslot].
    rewrite Forall_app, Forall_cons in Hf. destruct Hf as (Hf1 & _ & Hf2).
    unfold sentinel_tarpit_cleanup. rewrite Hcount. cbn [negb fst].
    rewrite length_app in *. cbn [length] in *.
    destruct (slot_add_held conns (l1 ++ t :: l2) (l1 ++ l2) (tp_slot t) (-1))
      as (Hl' & Hc' & Hsum'); try done.
    { rewrite length_app. simpl. lia. }
    { intros i. rewrite held_at_middle. case_decide; lia. }
    { rewrite !length_app. simpl. lia. } { rewrite length_app. lia. }
    split_and!; try done; [by apply Forall_app|rewrite Hsum', length_app; lia|lia].
Qed.

(** C24. The connection cap is a soft cap with a bounded overshoot: from a fresh
    segment, whatever the interleaving of the workers' checks, increments and
    releases, the counters add up to exactly the number of tarpitted
    connections (no decrement underflows), and that number never exceeds the
    configured maximum by more than the number of workers minus one. *)
Theorem tarpit_cap_overshoot_is_bounded s :
  rtc cap_step cap_start s ->
  sum_conns (cp_conns s) = Z.of_nat (length (cp_held s)) /\
  Z.of_nat (length (cp_held s)) <= max_conns + Z.of_nat W - 1.
Proof.
  intros Hr. assert (cap_ok s) as Hok.
  { assert (cap_ok cap_start) as Hstart.
    { unfold cap_start. split_and!; cbn [cp_conns cp_pending cp_held].
      - apply length_replicate.
      - set_solver.
      - constructor.
      - intros i Hi. by rewrite lookup_replicate_2.
      - by vm_compute.
      - rewrite size_empty. simpl. lia. }
    induction Hr; eauto using cap_step_ok. }
  split; [by apply sum_conns_held|]. destruct Hok as (_ & _ & _ & _ & _ & Hs). lia.
Qed.
End Cap.

(** ** The life of a tarpitted request *)

(** What one invocation of the write handler meets. *)
Record tick_event : Type := TickEvent {
  ev_now : Z;
  ev_dead : bool;
  ev_out : ngx_rc;
  ev_rearm : bool
}.

Definition run_tick (t : tarpit_ctx) (e : tick_event) (count : Z) : bytes * tick_result :=
  sentinel_tarpit_write_handler (Some t) (ev_now e) (ev_dead e) (ev_out e) (ev_rearm e) count.

(** The context after a sequence of invocations. *)
Fixpoint run_ticks (t : tarpit_ctx) (evs : list tick_event) (count : Z) : tarpit_ctx :=
  match evs with
  | [] => t
  | e :: evs' =>
      match (run_tick t e count).2 with
      | TickFinished _ _ => t
      | TickWaiting t' _ => run_ticks t' evs' count
      end
  end.


(** C23. Every reserved slot is given back exactly once: however the setup of
    the tarpit goes wrong and whatever ticks follow a successful one, after the
    pool of the request is destroyed the counters are what they were before,
    and a second run of the cleanup changes nothing. *)
Theorem tarpit_slot_is_returned env lcf conns worker now count res evs :
  Forall (fun v => 0 <= v < 2 ^ 64) conns ->
  sentinel_tarpit_start env lcf (Some (Some conns)) worker now count = Some res ->
  match sr_cleanup res, sr_conns res with
  | None, Some c => c = conns
  | Some t, Some c =>
      let t' := run_ticks t evs (sr_count res) in
      let '(c', t'') := sentinel_tarpit_cleanup c t' in
      c' = conns /\ sentinel_tarpit_cleanup c' t'' = (c', t'')
  | _, None => False
  end.
Proof.
  intros Hr. unfold sentinel_tarpit_start, sentinel_tarpit_reserve.
  assert (forall slot, slot_add (slot_add conns slot 1) slot (-1) = conns) as Hback.
  { intros slot. unfold slot_add. apply list_eq. intros j.
    destruct (decide (slot = j)) as [<-|]; [|by rewrite !list_lookup_alter_ne].
    rewrite !list_lookup_alter_eq. destruct (conns !! slot) as [v|] eqn:Hv; [|done].
    rewrite Forall_lookup in Hr. specialize (Hr _ _ Hv). cbn. f_equal. unfold wrap.
    rewrite Zplus_mod_idemp_l. rewrite <- (Z.mod_small v (2 ^ 64)) at 2 by lia.
    f_equal. lia. }
  assert (forall t, tp_counted t = true -> forall t', t' = run_ticks t evs (sr_count res) ->
    tp_counted t' = true /\ tp_slot t' = tp_slot t) as Hrun.
  { generalize (sr_count res) as n. induction evs as [|e evs IH]; intros n t Ht t' ->; [done|].
    cbn [run_ticks]. destruct (run_tick t e n) as [b [|t1 w]] eqn:Et; cbn [snd]; [done|].
    assert (tp_counted t1 = true /\ tp_slot t1 = tp_slot t) as [Hc Hs].
    { revert Et. unfold run_tick, sentinel_tarpit_write_handler, sentinel_tarpit_finish.
      destruct (tick_buf t). repeat case_match; intros [= <- <- <-]; done. }
    rewrite <- Hs. by apply (IH n t1). }
  destruct (tarpit_max_conns lcf =? 0); [by intros [= <-]|]. cbn [reserve_loop].
  destruct (reserve_check conns (tarpit_max_conns lcf)); cbn [negb];
    [|rewrite bool_decide_true by done; by intros [= <-]].
  rewrite !bool_decide_false by done. unfold reserve_commit.
  destruct (ts_alloc env); cbn [negb]; [|intros [= <-]; apply Hback].
  destruct (ts_cleanup env); cbn [negb]; [|intros [= <-]; apply Hback].
  assert (forall t c', tp_counted t = true -> tp_slot t = worker_slot worker ->
    c' = slot_add conns (worker_slot worker) 1 ->
    let t' := run_ticks t evs (sr_count res) in
    let '(c1, t1) := sentinel_tarpit_cleanup c' t' in
    c1 = conns /\ sentinel_tarpit_cleanup c1 t1 = (c1, t1)) as Hfin.
  { intros t c' Hc Hs ->. cbn zeta. destruct (Hrun t Hc _ eq_refl) as [Hc' Hs'].
    unfold sentinel_tarpit_cleanup at 1. rewrite Hc', Hs', Hs. cbn [negb]. by split. }
  destruct (ts_header env); intros [= <-]; by apply Hfin.
Qed.






(** ** Witnesses *)

(** Two workers racing for a single connection slot: both are admitted. *)
Lemma tarpit_cap_overshoot_is_bounded_witness :
  exists s, rtc (cap_step 2 1) cap_start s /\ length (cp_held s) = 2%nat /\
  sum_conns (cp_conns s) = 2 /\ Z.of_nat (length (cp_held s)) <= 1 + 2 - 1.
Proof.
  eexists. assert (Hr : rtc (cap_step 2 1) cap_start
    (CapState (slot_add (slot_add (replicate NGX_MAX_PROCESSES 0) 0 1) 1 1)
       (({[1%nat]} ∪ ({[0%nat]} ∪ ∅)) ∖ {[0%nat]} ∖ {[1%nat]})
       [tarpit_new demo_tarpit 1 0 0; tarpit_new demo_tarpit 0 0 0])).
  { eapply rtc_l; [apply cap_check with (w := 0%nat); [lia|set_solver|by vm_compute]|].
    eapply rtc_l; [apply cap_check with (w := 1%nat); [lia|set_solver|by vm_compute]|].
    eapply rtc_l; [apply (cap_commit 2 1 _ _ _ 0 demo_tarpit 0 0); set_solver|].
    eapply rtc_l; [apply (cap_commit 2 1 _ _ _ 1 demo_tarpit 0 0); set_solver|].
    apply rtc_refl. }
  split; [exact Hr|]. split; [done|].
  pose proof (tarpit_cap_overshoot_is_bounded 2 1 ltac:(unfold NGX_MAX_PROCESSES; lia)
    ltac:(lia) _ Hr) as [E Hle].
  split; [exact E|exact Hle].
Defined.

Definition demo_env : start_env := StartEnv true true NGX_OK 7.

Definition demo_conns : list Z := [3; 0; 5].

Lemma tarpit_slot_is_returned_witness :
  exists c t, (sentinel_tarpit_cleanup c t).1 = demo_conns /\ c = [4; 0; 5].
Proof.
  exists [4; 0; 5], (tarpit_new demo_tarpit 0 1000 7).
  pose proof (tarpit_slot_is_returned demo_env demo_tarpit demo_conns 0 1000 1
    (StartResult NGX_DONE (Some [4; 0; 5]) (Some (tarpit_new demo_tarpit 0 1000 7)) true
       (Some 5000) None 2) []) as Hs.
  cbn [sr_cleanup sr_conns sr_count run_ticks] in Hs.
  destruct (sentinel_tarpit_cleanup [4; 0; 5] (tarpit_new demo_tarpit 0 1000 7)) as [c' t''] eqn:E.
  destruct Hs as [Hc _].
  - repeat (constructor; [lia|]). constructor.
  - by vm_compute.
  - split; [exact Hc|done].
Defined.

