(* ===== verification/Metrics.v ===== *)
(** * Metrics.v: the Prometheus counters ([sentinel_metrics.c])

    A flat array of counters in the shared segment, bumped by the preaccess
    handler and rendered by the status handler into a bounded buffer. *)
From S2P Require Import Prelude Types Ngx Http Tarpit.

(** [ngx_sentinel_metric_e] *)
Definition NGX_SENTINEL_M_REQUESTS : nat := 0.
Definition NGX_SENTINEL_M_VERDICT_ALLOW : nat := 1.
Definition NGX_SENTINEL_M_SIG_ERRRATE : nat := 5.
Definition NGX_SENTINEL_M_SIG_BLOCKED : nat := 6.
Definition NGX_SENTINEL_M_SIG_SCANNER : nat := 7.
Definition NGX_SENTINEL_M_SIG_BOT : nat := 8.
Definition NGX_SENTINEL_M_SIG_HEADER : nat := 9.
Definition NGX_SENTINEL_M_SIG_HONEYPOT : nat := 10.
Definition NGX_SENTINEL_M_SIG_VELOCITY : nat := 11.
Definition NGX_SENTINEL_M_SIG_ASN : nat := 12.
Definition NGX_SENTINEL_M_SIG_COHERENCE : nat := 13.
Definition NGX_SENTINEL_M_SIG_CROWDSEC : nat := 14.
Definition NGX_SENTINEL_M_SIG_JA3 : nat := 15.
Definition NGX_SENTINEL_M_SIG_JA4 : nat := 16.
Definition NGX_SENTINEL_M_SIG_JA4T : nat := 17.
Definition NGX_SENTINEL_M_SIG_C2IP : nat := 18.
Definition NGX_SENTINEL_M_SHADOW : nat := 19.
Definition NGX_SENTINEL_M_MAX : nat := 20.

(** The counters, [None] when the segment is absent. *)
Definition metrics : Type := option (list Z).

Definition sentinel_metric_inc (m : metrics) (idx : nat) : metrics :=
  (fun l => alter (fun v => wrap64 (v + 1)) idx l) <$> m.

Definition inc_if (b : bool) (idx : nat) (m : metrics) : metrics :=
  if b then sentinel_metric_inc m idx else m.

Definition sentinel_metrics_record (m : metrics) (i : inputs) (v : verdict) (shadow : Z)
    : metrics :=
  let m := sentinel_metric_inc m NGX_SENTINEL_M_REQUESTS in
  let m := sentinel_metric_inc m (NGX_SENTINEL_M_VERDICT_ALLOW + Z.to_nat (verdict_index v)) in
  let m := inc_if (0 <? errrate_count i) NGX_SENTINEL_M_SIG_ERRRATE m in
  let m := inc_if (errrate_blocked i) NGX_SENTINEL_M_SIG_BLOCKED m in
  let m := inc_if (scanner_path i) NGX_SENTINEL_M_SIG_SCANNER m in
  let m := inc_if (bot_ua i) NGX_SENTINEL_M_SIG_BOT m in
  let m := inc_if (header_anomaly i) NGX_SENTINEL_M_SIG_HEADER m in
  let m := inc_if (honeypot i) NGX_SENTINEL_M_SIG_HONEYPOT m in
  let m := inc_if (velocity_exceeded i) NGX_SENTINEL_M_SIG_VELOCITY m in
  let m := inc_if (datacenter_asn i) NGX_SENTINEL_M_SIG_ASN m in
  let m := inc_if (c2ip_flagged i) NGX_SENTINEL_M_SIG_C2IP m in
  let m := inc_if (ja3_flagged i) NGX_SENTINEL_M_SIG_JA3 m in
  let m := inc_if (ja4_flagged i) NGX_SENTINEL_M_SIG_JA4 m in
  let m := inc_if (ja4t_flagged i) NGX_SENTINEL_M_SIG_JA4T m in
  let m := inc_if (ua_incoherent i) NGX_SENTINEL_M_SIG_COHERENCE m in
  let m := inc_if (crowdsec_hit i) NGX_SENTINEL_M_SIG_CROWDSEC m in
  inc_if (negb (shadow =? 0)
          && (bool_decide (v = VERDICT_TARPIT) || bool_decide (v = VERDICT_BLOCK)))
    NGX_SENTINEL_M_SHADOW m.

(** ** Exposition *)

Definition sentinel_verdict_labels : list bytes :=
  [lit "allow"; lit "challenge"; lit "tarpit"; lit "block"].

Definition sentinel_signal_labels : list (nat * bytes) :=
  [ (NGX_SENTINEL_M_SIG_ERRRATE, lit "errrate"); (NGX_SENTINEL_M_SIG_BLOCKED, lit "blocked");
    (NGX_SENTINEL_M_SIG_SCANNER, lit "scanner"); (NGX_SENTINEL_M_SIG_BOT, lit "bot");
    (NGX_SENTINEL_M_SIG_HEADER, lit "header"); (NGX_SENTINEL_M_SIG_HONEYPOT, lit "honeypot");
    (NGX_SENTINEL_M_SIG_VELOCITY, lit "velocity"); (NGX_SENTINEL_M_SIG_ASN, lit "asn");
    (NGX_SENTINEL_M_SIG_COHERENCE, lit "coherence");
    (NGX_SENTINEL_M_SIG_CROWDSEC, lit "crowdsec"); (NGX_SENTINEL_M_SIG_JA3, lit "ja3");
    (NGX_SENTINEL_M_SIG_JA4, lit "ja4"); (NGX_SENTINEL_M_SIG_JA4T, lit "ja4t");
    (NGX_SENTINEL_M_SIG_C2IP, lit "c2ip") ].

Definition sentinel_metric_get (m : metrics) (idx : nat) : Z :=
  match m with None => 0 | Some l => default 0 (l !! idx) end.

(** [sentinel_tarpit_active] is the same sum as the tarpit's own. *)
Definition sentinel_tarpit_active (conns : option (list Z)) : Z := sentinel_tarpit_sum conns.

Definition SENTINEL_STATUS_BUFSZ : nat := 4096.

Section Status.
Context `{NgxFormat}.

(** [ngx_slprintf] up to [last]: the output is cut at the end of the buffer. *)
Definition slappend (p s : bytes) : bytes := p ++ take (SENTINEL_STATUS_BUFSZ - length p) s.

Definition sample (name : bytes) (value : Z) : bytes :=
  name ++ [Byte.x20] ++ ngx_dec value ++ [Byte.x0a].

Definition labelled (family label_name label : bytes) : bytes :=
  family ++ lit "{" ++ label_name ++ lit "=" ++ [QUOTE] ++ label ++ [QUOTE] ++ lit "}".

Definition header_lines (help type : string) : bytes :=
  lit help ++ [Byte.x0a] ++ lit type ++ [Byte.x0a].

(** The successive pieces of the body. *)
Definition status_pieces (m : metrics) (conns : option (list Z)) : list bytes :=
  [ header_lines "# HELP sentinel_requests_total Requests evaluated by sentinel."
      "# TYPE sentinel_requests_total counter"
    ++ sample (lit "sentinel_requests_total") (sentinel_metric_get m NGX_SENTINEL_M_REQUESTS);
    header_lines "# HELP sentinel_verdict_total Verdicts by band."
      "# TYPE sentinel_verdict_total counter" ]
  ++ imap (fun i l =>
       sample (labelled (lit "sentinel_verdict_total") (lit "v") l)
         (sentinel_metric_get m (NGX_SENTINEL_M_VERDICT_ALLOW + i))) sentinel_verdict_labels
  ++ [ header_lines "# HELP sentinel_signal_total Signal hits by source."
         "# TYPE sentinel_signal_total counter" ]
  ++ map (fun p =>
       sample (labelled (lit "sentinel_signal_total") (lit "s") p.2)
         (sentinel_metric_get m p.1)) sentinel_signal_labels
  ++ [ header_lines "# HELP sentinel_shadow_total Would-block decisions suppressed by shadow mode."
         "# TYPE sentinel_shadow_total counter"
       ++ sample (lit "sentinel_shadow_total") (sentinel_metric_get m NGX_SENTINEL_M_SHADOW);
       header_lines "# HELP sentinel_tarpit_active Connections currently held in a tarpit."
         "# TYPE sentinel_tarpit_active gauge"
       ++ sample (lit "sentinel_tarpit_active") (sentinel_tarpit_active conns) ].

Definition status_body (m : metrics) (conns : option (list Z)) : bytes :=
  fold_left slappend (status_pieces m conns) [].

Definition NGX_HTTP_NOT_ALLOWED : Z := 405.
Definition NGX_HTTP_INTERNAL_SERVER_ERROR : Z := 500.

(** The return code and the body handed to the output filter. *)
Definition sentinel_metrics_status_handler (r : request) (discard header output : ngx_rc)
    (alloc_body alloc_buf header_only : bool) (m : metrics) (conns : option (list Z))
    : ngx_rc * option bytes :=
  match r_method r with
  | NGX_HTTP_GET | NGX_HTTP_HEAD =>
      if negb (bool_decide (discard = NGX_OK)) then (discard, None)
      else if negb alloc_body then (NGX_HTTP NGX_HTTP_INTERNAL_SERVER_ERROR, None)
      else
        let stop := match header with NGX_ERROR | NGX_HTTP _ => true | _ => header_only end in
        if stop then (header, None)
        else if negb alloc_buf then (NGX_HTTP NGX_HTTP_INTERNAL_SERVER_ERROR, None)
        else (output, Some (status_body m conns))
  | _ => (NGX_HTTP NGX_HTTP_NOT_ALLOWED, None)
  end.
End Status.
