(* ===== verification/MetricsProps.v ===== *)
(** * MetricsProps.v: properties of the counters and of the status page

    The status body always fits its fixed buffer, whatever the counters hold. *)
From S2P Require Import Prelude Types Ngx Http NgxModel Tarpit Metrics.

Section Props.
Context `{NgxFormat} `{NgxParse} {FormatLaws : NgxFormatLaws}.

(** Every counter is a value of [ngx_atomic_uint_t]. *)
Definition counters_ok (m : metrics) : Prop :=
  match m with None => True | Some l => Forall (fun v => 0 <= v < 2 ^ 64) l end.

Lemma metric_get_range m idx : counters_ok m -> 0 <= sentinel_metric_get m idx < 2 ^ 64.
Proof.
  intros Hm. destruct m as [l|]; cbn [sentinel_metric_get]; [|done].
  destruct (l !! idx) as [v|] eqn:E; cbn [default]; [|done].
  cbn [counters_ok] in Hm. rewrite Forall_lookup in Hm. by apply (Hm _ _ E).
Qed.

Lemma tarpit_active_range conns : 0 <= sentinel_tarpit_active conns < 2 ^ 64.
Proof.
  destruct conns as [l|]; [|done]. unfold sentinel_tarpit_active, sentinel_tarpit_sum, sum_conns.
  generalize (take NGX_MAX_PROCESSES l). intros vs. destruct vs as [|v vs] using rev_ind; [done|].
  rewrite fold_left_app. by apply wrap_range.
Qed.

Lemma metric_inc_ok m idx : counters_ok m -> counters_ok (sentinel_metric_inc m idx).
Proof.
  destruct m as [l|]; cbn; [|done]. intros Hl. apply Forall_alter; [done|].
  intros. by apply wrap_range.
Qed.

Lemma inc_if_ok b m idx : counters_ok m -> counters_ok (inc_if b idx m).
Proof. destruct b; [apply metric_inc_ok|done]. Qed.

Lemma metrics_record_ok m i v shadow :
  counters_ok m -> counters_ok (sentinel_metrics_record m i v shadow).
Proof.
  intros Hm. unfold sentinel_metrics_record.
  by repeat first [apply inc_if_ok | apply metric_inc_ok].
Qed.

Lemma sample_length name v :
  0 <= v < 2 ^ 64 -> (length (sample name v) <= length name + 22)%nat.
Proof.
  intros Hv. pose proof (dec_length v Hv). unfold sample. rewrite !length_app. simpl. lia.
Qed.

Lemma slappend_fold pieces p :
  (length p + length (concat pieces) <= SENTINEL_STATUS_BUFSZ)%nat ->
  fold_left slappend pieces p = p ++ concat pieces.
Proof.
  revert p. induction pieces as [|s pieces IH]; intros p Hp; cbn [fold_left concat] in *.
  { by rewrite app_nil_r. }
  rewrite length_app in Hp. unfold slappend at 2. rewrite take_ge by lia.
  rewrite IH by (rewrite length_app; lia). by rewrite <- app_assoc.
Qed.

(** The length of a literal. *)
Ltac lit_length :=
  repeat match goal with
  | |- context [length (lit ?s)] =>
      let k := eval vm_compute in (length (lit s)) in change (length (lit s)) with k
  | Hs : context [length (lit ?s)] |- _ =>
      let k := eval vm_compute in (length (lit s)) in change (length (lit s)) with k in Hs
  end.

Lemma status_pieces_length m conns :
  counters_ok m -> (length (concat (status_pieces m conns)) <= SENTINEL_STATUS_BUFSZ)%nat.
Proof.
  intros Hm. unfold status_pieces, SENTINEL_STATUS_BUFSZ.
  cbn [sentinel_verdict_labels sentinel_signal_labels imap map concat app fst snd compose].
  rewrite !length_app.
  repeat match goal with
  | |- context [length (sample ?n ?v)] =>
      let Hs := fresh in
      pose proof (sample_length n v ltac:(apply metric_get_range, Hm || apply tarpit_active_range)) as Hs;
      revert Hs; generalize (length (sample n v)); intros
  end.
  unfold labelled, header_lines in *. rewrite !length_app in *. cbn [length] in *.
  lit_length. lia.
Qed.

(** C32. The status page is never truncated: whatever values the counters and the
    per-worker tarpit counts hold, the body is the concatenation of all its
    samples, inside the 4096 bytes of its buffer. *)
Theorem status_body_never_truncated m conns :
  counters_ok m ->
  status_body m conns = concat (status_pieces m conns) /\
  (length (status_body m conns) <= SENTINEL_STATUS_BUFSZ)%nat.
Proof.
  intros Hm. pose proof (status_pieces_length m conns Hm) as Hl.
  unfold status_body. rewrite slappend_fold by done. done.
Qed.
End Props.

Import Concrete.

Lemma status_body_never_truncated_witness :
  (length (status_body (Some (replicate NGX_SENTINEL_M_MAX (2 ^ 64 - 1)%Z))
             (Some [2 ^ 63; 2 ^ 63 - 1]%Z)) <= SENTINEL_STATUS_BUFSZ)%nat.
Proof.
  apply (status_body_never_truncated (Some (replicate NGX_SENTINEL_M_MAX (2 ^ 64 - 1)%Z))
    (Some [2 ^ 63; 2 ^ 63 - 1]%Z)).
  by repeat constructor.
Defined.
