(* ===== verification/Ja4h.v ===== *)
(** * Ja4h.v: the HTTP fingerprint ([sentinel_ja4h.c])

    The canonical string of a request and its digest.  The fixed buffer is
    explicit: an append that does not fit yields the all-zero fingerprint. *)
From S2P Require Import Prelude Types Ngx Http.

Definition NGX_SENTINEL_JA4H_MAX_HDRS : nat := 64.
Definition NGX_SENTINEL_JA4H_BIN_LEN : nat := 12.
Definition NGX_SENTINEL_JA4H_HEX_LEN : nat := NGX_SENTINEL_JA4H_BIN_LEN * 2.
Definition NGX_SENTINEL_JA4H_CANLEN : nat := 4096.

Definition ja4h_skip_names : list bytes := [lit "cookie"; lit "referer"].

Section Ja4h.
Context `{NgxHash} `{NgxParse} `{NgxSort}.

(** A counted name against a literal, ignoring case. *)
Definition name_is (name literal : bytes) : bool :=
  (length name =? length literal)%nat && (ngx_strncasecmp name literal (length literal) =? 0).

Definition ja4h_header_skip (name : bytes) : bool := existsb (name_is name) ja4h_skip_names.

Definition ja4h_strcmp (a b : bytes) : Z :=
  let min_len := if (length a <? length b)%nat then length a else length b in
  let rc := ngx_strncasecmp a b min_len in
  if negb (rc =? 0) then rc else Z.of_nat (length a) - Z.of_nat (length b).

(** One header of the walk: the two flags and the collected names. *)
Definition ja4h_walk (acc : bool * bool * list bytes) (h : header) : bool * bool * list bytes :=
  let '(cookie, referer, names) := acc in
  if h_hash h =? 0 then acc
  else
    let cookie' := cookie || name_is (h_key h) (lit "Cookie") in
    let referer' := referer || (negb (name_is (h_key h) (lit "Cookie"))
                                && name_is (h_key h) (lit "Referer")) in
    let names' := if negb (ja4h_header_skip (h_key h))
                     && (length names <? NGX_SENTINEL_JA4H_MAX_HDRS)%nat
                  then names ++ [h_key h] else names in
    (cookie', referer', names').

Definition ja4h_method (m : http_method) : bytes :=
  match m with
  | NGX_HTTP_GET => lit "ge" | NGX_HTTP_POST => lit "po" | NGX_HTTP_PUT => lit "pu"
  | NGX_HTTP_DELETE => lit "de" | NGX_HTTP_HEAD => lit "he" | NGX_HTTP_OPTIONS => lit "op"
  | NGX_HTTP_PATCH => lit "pa" | NGX_HTTP_METHOD_OTHER => lit "xx"
  end.

Definition ja4h_version (v : Z) : bytes :=
  if NGX_HTTP_VERSION_20 <=? v then lit "20"
  else if NGX_HTTP_VERSION_11 <=? v then lit "11" else lit "10".

(** The first tag of the language list, at most 32 bytes of it. *)
Fixpoint lang_tag (av : bytes) : bytes :=
  match av with
  | [] => []
  | c :: av' =>
      if (bval c =? 44) || (bval c =? 59) || (bval c =? 32) then [] else c :: lang_tag av'
  end.

Definition ja4h_lang (r : request) : bytes :=
  match r_accept_language r with None => [] | Some av => take 32 (lang_tag av) end.

(** [CANAPPEND_STR]: [None] is the overflow exit. *)
Definition canappend (p s : bytes) : option bytes :=
  if (NGX_SENTINEL_JA4H_CANLEN - 1 <=? length p + length s)%nat then None else Some (p ++ s).

Fixpoint canappend_names (first : bool) (p : bytes) (names : list bytes) : option bytes :=
  match names with
  | [] => Some p
  | name :: names' =>
      let! p := if first then Some p else canappend p (lit ",") in
      let! p := canappend p (map ngx_tolower name) in
      canappend_names false p names'
  end.

Definition flag_digit (b : bool) : Byte.byte := u_char (48 + (if b then 1 else 0)).

Definition ja4h_canonical (r : request) : option bytes :=
  let '(cookie, referer, names) :=
    fold_left ja4h_walk (concat (r_headers r)) (false, false, []) in
  let names := if (1 <? length names)%nat then ngx_qsort ja4h_strcmp names else names in
  let lang := ja4h_lang r in
  let! p := canappend [] (ja4h_method (r_method r)) in
  let! p := canappend p (lit "|") in
  let! p := canappend p (ja4h_version (r_http_version r)) in
  let! p := canappend p (lit "|") in
  let p := p ++ [flag_digit cookie; flag_digit referer] in
  let! p := canappend p (lit "|") in
  let cnt := if (99 <? length names)%nat then 99 else Z.of_nat (length names) in
  let p := p ++ [u_char (48 + cnt / 10); u_char (48 + cnt mod 10)] in
  let! p := canappend p (lit "|") in
  let! p := canappend_names true p names in
  let! p := canappend p (lit "|") in
  match lang with [] => Some p | _ => canappend p lang end.

Definition sentinel_ja4h_compute (r : request) : bytes :=
  match ja4h_canonical r with
  | None => replicate NGX_SENTINEL_JA4H_HEX_LEN Byte.x30
  | Some canon =>
      flat_map (fun c => [hex_char (Z.land (Z.shiftr (bval c) 4) 15);
                          hex_char (Z.land (bval c) 15)])
        (take NGX_SENTINEL_JA4H_BIN_LEN (SHA256 canon))
  end.
End Ja4h.
