(* ===== verification/Ja4hProps.v ===== *)
(** * Ja4hProps.v: properties of the HTTP fingerprint

    The fingerprint does not depend on the order or the case of the header
    names, and the canonical string stays inside its stack buffer, the appends
    that are not checked included. *)
From stdpp Require Import sorting.
From S2P Require Import Prelude Types Ngx Http NgxModel SignalProps Ja4h.

Section Props.
Context `{NgxHash} `{NgxParse} `{NgxSort} {HashLaws : NgxHashLaws} {SortLaws : NgxSortLaws}
        {ParseLaws : NgxParseLaws}.

(** A write of [n] bytes at offset [p] stays in the buffer when the terminating
    NUL still fits. *)
Definition in_buffer (p : bytes) : Prop := (length p < NGX_SENTINEL_JA4H_CANLEN)%nat.

Lemma canappend_spec p s q : canappend p s = Some q -> q = p ++ s /\ in_buffer q.
Proof.
  unfold canappend, in_buffer. case_match eqn:E; [done|]. intros [= <-].
  apply Nat.leb_gt in E. rewrite length_app. split; [done|]. lia.
Qed.

Lemma canappend_names_spec names first p q :
  in_buffer p -> canappend_names first p names = Some q -> in_buffer q.
Proof.
  revert first p. induction names as [|name names IH]; intros first p Hp; cbn [canappend_names].
  { by intros [= <-]. }
  destruct (if first then Some p else canappend p (lit ",")) as [p1|] eqn:E1; [|done].
  destruct (canappend p1 (map ngx_tolower name)) as [p2|] eqn:E2; [|done].
  apply canappend_spec in E2 as [_ Hp2]. by apply IH.
Qed.

(** ** The fingerprint depends on the set of header names only *)

Definition lower (s : bytes) : bytes := map ngx_tolower s.

(** The comparison of the sort is the lexicographic order of the lower-case names. *)
Lemma ja4h_strcmp_lower a b :
  no_nul a -> no_nul b -> Z.sgn (ja4h_strcmp a b) = Z.sgn (lexcmp (lower a) (lower b)).
Proof.
  intros Ha Hb. rewrite lexcmp_prefix. unfold lower. rewrite !length_map, !firstn_map.
  set (n := Nat.min (length a) (length b)).
  unfold ja4h_strcmp. replace (if (_ <? _)%nat then _ else _) with n
    by (subst n; case_match eqn:E; [apply Nat.ltb_lt in E|apply Nat.ltb_ge in E]; lia).
  pose proof (strncasecmp_sgn a b n ltac:(lia) ltac:(lia) Ha Hb) as Hs. cbn zeta.
  destruct (Z.eqb_spec (ngx_strncasecmp a b n) 0) as [E|E]; cbn [negb].
  - rewrite E in Hs. symmetry in Hs. change (Z.sgn 0) with 0 in Hs.
    rewrite Z.sgn_null_iff in Hs.
    by rewrite (proj2 (Z.eqb_eq _ _) Hs).
  - rewrite Hs. destruct (Z.eqb_spec (lexcmp (map ngx_tolower (take n a))
      (map ngx_tolower (take n b))) 0) as [E'|]; [|done].
    rewrite E' in Hs. change (Z.sgn 0) with 0 in Hs. by rewrite Z.sgn_null_iff in Hs.
Qed.

Lemma ja4h_strcmp_le a b :
  no_nul a -> no_nul b -> ja4h_strcmp a b <= 0 <-> lexcmp (lower a) (lower b) <= 0.
Proof. intros Ha Hb. pose proof (ja4h_strcmp_lower a b Ha Hb). lia. Qed.

Lemma lexcmp_le_trans a b c : lexcmp a b <= 0 -> lexcmp b c <= 0 -> lexcmp a c <= 0.
Proof.
  intros Hab Hbc.
  destruct (Z.eq_dec (lexcmp a b) 0) as [E%lexcmp_eq|]; [by subst|].
  destruct (Z.eq_dec (lexcmp b c) 0) as [E%lexcmp_eq|]; [by subst|].
  pose proof (lexcmp_trans a b c). lia.
Qed.

Lemma lexcmp_total a b : lexcmp a b <= 0 \/ lexcmp b a <= 0.
Proof. pose proof (lexcmp_antisym b a). lia. Qed.

Lemma lexcmp_le_antisym a b : lexcmp a b <= 0 -> lexcmp b a <= 0 -> a = b.
Proof. intros. apply lexcmp_eq. pose proof (lexcmp_antisym a b). lia. Qed.

(** Sorted lower-case names are determined by their multiset. *)
Lemma sorted_names l :
  Forall no_nul l ->
  StronglySorted (fun a b => lexcmp a b <= 0) (map lower (ngx_qsort ja4h_strcmp l)).
Proof.
  intros Hl. rewrite Forall_forall in Hl.
  assert (StronglySorted (fun a b => ja4h_strcmp a b <= 0) (ngx_qsort ja4h_strcmp l)) as Hs.
  { apply qsort_sorted.
    - intros a b Ha Hb. rewrite !ja4h_strcmp_le by auto. apply lexcmp_total.
    - intros a b c Ha Hb Hc. rewrite !ja4h_strcmp_le by auto. apply lexcmp_le_trans. }
  assert (forall x, x ∈ ngx_qsort ja4h_strcmp l -> no_nul x) as Hn.
  { intros x. rewrite qsort_permutation. apply Hl. }
  induction Hs as [|x s Hs IH Hx]; simpl; constructor.
  - apply IH. set_solver.
  - rewrite Forall_forall in *. intros y (z & -> & Hz)%list_elem_of_fmap.
    apply ja4h_strcmp_le; [apply Hn; set_solver..|by apply Hx].
Qed.

Lemma sorted_names_eq l1 l2 :
  Forall no_nul l1 -> Forall no_nul l2 -> map lower l1 ≡ₚ map lower l2 ->
  map lower (ngx_qsort ja4h_strcmp l1) = map lower (ngx_qsort ja4h_strcmp l2).
Proof.
  intros Hl1 Hl2 Hp. eapply StronglySorted_unique_strong; [|by apply sorted_names..|].
  - intros x1 x2 _ _. apply lexcmp_le_antisym.
  - by rewrite !qsort_permutation.
Qed.

(** The keys of the live headers. *)
Definition live_keys (hs : list header) : list bytes :=
  map h_key (List.filter (fun h => negb (h_hash h =? 0)) hs).

(** The decisions of the walk on a lower-case key. *)
Definition is_name (literal x : bytes) : bool := bool_decide (x = lower literal).
Definition is_skipped (x : bytes) : bool := existsb (fun s => is_name s x) ja4h_skip_names.
Definition is_referer (x : bytes) : bool :=
  negb (is_name (lit "Cookie") x) && is_name (lit "Referer") x.

Lemma name_is_lower k literal :
  no_nul k -> no_nul literal -> name_is k literal = is_name literal (lower k).
Proof.
  intros Hk Hl. apply eq_true_iff_eq. unfold is_name. rewrite bool_decide_eq_true.
  by apply nocase_eq.
Qed.

Lemma header_skip_lower k : no_nul k -> ja4h_header_skip k = is_skipped (lower k).
Proof.
  intros Hk. unfold ja4h_header_skip, is_skipped, ja4h_skip_names. cbn [existsb].
  by rewrite !name_is_lower by (done || by apply (bool_decide_unpack _)).
Qed.

Definition listed (hs : list header) : list bytes :=
  List.filter (fun k => negb (is_skipped (lower k))) (live_keys hs).

(** The walk collects the flags and the names of the live headers. *)
Lemma walk_spec hs cookie referer names :
  Forall (fun h => no_nul (h_key h)) hs ->
  (length names + length (listed hs) <= NGX_SENTINEL_JA4H_MAX_HDRS)%nat ->
  fold_left ja4h_walk hs (cookie, referer, names) =
    (cookie || existsb (is_name (lit "Cookie")) (map lower (live_keys hs)),
     referer || existsb is_referer (map lower (live_keys hs)),
     names ++ listed hs).
Proof.
  intros Hn. revert cookie referer names.
  induction Hn as [|h hs Hh Hn IH]; intros cookie referer names; cbn [fold_left].
  { by rewrite !orb_false_r, app_nil_r. }
  unfold listed, live_keys. cbn [List.filter map].
  unfold ja4h_walk at 2. destruct (h_hash h =? 0); cbn [negb map]; [apply IH|].
  rewrite !name_is_lower, header_skip_lower by (done || by apply (bool_decide_unpack _)).
  cbn [List.filter existsb map].
  fold (live_keys hs). fold (is_referer (lower (h_key h))).
  destruct (is_skipped (lower (h_key h))) eqn:Es; cbn [negb andb]; fold (listed hs).
  - intros Hl. by rewrite IH, <- !orb_assoc.
  - cbn [length]. intros Hl.
    rewrite (proj2 (Nat.ltb_lt _ _)) by lia.
    rewrite IH by (rewrite length_app; simpl; lia). by rewrite <- !orb_assoc, <- app_assoc.
Qed.

Lemma existsb_perm {A} (f : A -> bool) l1 l2 : l1 ≡ₚ l2 -> existsb f l1 = existsb f l2.
Proof.
  intros Hp. apply eq_true_iff_eq. rewrite !existsb_exists.
  split; intros (x & Hx & Hf); exists x; split; try done;
    [by rewrite <- Hp | by rewrite Hp].
Qed.

Lemma listed_lower hs :
  map lower (listed hs) = List.filter (fun x => negb (is_skipped x)) (map lower (live_keys hs)).
Proof.
  unfold listed. induction (live_keys hs) as [|k ks IH]; simpl; [done|].
  destruct (is_skipped (lower k)); simpl; [done|]. by rewrite IH.
Qed.

Lemma filter_perm {A} (f : A -> bool) l1 l2 :
  l1 ≡ₚ l2 -> List.filter f l1 ≡ₚ List.filter f l2.
Proof.
  induction 1; simpl; repeat case_match; eauto using Permutation.
Qed.

(** Only the lower-case names enter the canonical string. *)
Lemma canappend_names_lower names1 names2 first p :
  map lower names1 = map lower names2 ->
  canappend_names first p names1 = canappend_names first p names2.
Proof.
  revert names2 first p. induction names1 as [|n1 names1 IH]; intros [|n2 names2] first p;
    try done. cbn [map canappend_names]. intros [= Hn Hns]. fold (lower n1) (lower n2).
  rewrite Hn. destruct (if first then _ else _); [|done].
  destruct (canappend _ (lower n2)); [|done]. by apply IH.
Qed.

Lemma listed_no_nul hs : Forall (fun h => no_nul (h_key h)) hs -> Forall no_nul (listed hs).
Proof.
  intros Hn. rewrite !Forall_forall in *. intros k Hk.
  unfold listed, live_keys in Hk. rewrite list_elem_of_In, filter_In, in_map_iff in Hk.
  destruct Hk as ((h & <- & Hh) & _). rewrite filter_In in Hh.
  apply Hn. rewrite list_elem_of_In. apply Hh.
Qed.

(** The names the canonical string holds, in lower case. *)
Lemma canonical_names l1 l2 :
  Forall no_nul l1 -> Forall no_nul l2 -> map lower l1 ≡ₚ map lower l2 ->
  map lower (if (1 <? length l1)%nat then ngx_qsort ja4h_strcmp l1 else l1) =
  map lower (if (1 <? length l2)%nat then ngx_qsort ja4h_strcmp l2 else l2).
Proof.
  intros Hl1 Hl2 Hp. assert (length l1 = length l2) as Hlen.
  { apply Permutation_length in Hp. by rewrite !length_map in Hp. }
  rewrite Hlen. destruct (Nat.ltb_spec 1 (length l2)); [by apply sorted_names_eq|].
  destruct l1 as [|x1 [|]], l2 as [|x2 [|]]; simpl in *; try lia; [done|].
  by apply Permutation_singleton_r in Hp.
Qed.

(** C30. The fingerprint does not depend on the order in which the client sends
    its headers, nor on the case of their names: two requests with the same
    method, version and language, whose live headers have the same names up to
    order and case, have the same JA4H value (as long as the names fit the 64
    slots of the array). *)
Theorem ja4h_ignores_order_and_case r1 r2 :
  Forall (fun h => no_nul (h_key h)) (concat (r_headers r1)) ->
  Forall (fun h => no_nul (h_key h)) (concat (r_headers r2)) ->
  map lower (live_keys (concat (r_headers r1))) ≡ₚ map lower (live_keys (concat (r_headers r2))) ->
  (length (listed (concat (r_headers r1))) <= NGX_SENTINEL_JA4H_MAX_HDRS)%nat ->
  r_method r1 = r_method r2 -> r_http_version r1 = r_http_version r2 ->
  r_accept_language r1 = r_accept_language r2 ->
  sentinel_ja4h_compute r1 = sentinel_ja4h_compute r2.
Proof.
  intros Hn1 Hn2 Hp Hl Hm Hv Ha.
  assert (map lower (listed (concat (r_headers r1)))
          ≡ₚ map lower (listed (concat (r_headers r2)))) as Hlist
    by (rewrite !listed_lower; by apply filter_perm).
  assert (length (listed (concat (r_headers r1))) = length (listed (concat (r_headers r2))))
    as Hlen by (apply Permutation_length in Hlist; by rewrite !length_map in Hlist).
  unfold sentinel_ja4h_compute. f_equal.
  assert (ja4h_canonical r1 = ja4h_canonical r2) as ->; [|done].
  unfold ja4h_canonical, ja4h_lang. rewrite Hm, Hv, Ha.
  rewrite !walk_spec by (done || simpl; lia). cbn [orb app].
  rewrite (existsb_perm _ _ _ Hp), (existsb_perm is_referer _ _ Hp).
  pose proof (canonical_names _ _ (listed_no_nul _ Hn1) (listed_no_nul _ Hn2) Hlist) as Hc.
  revert Hc. set (s1 := if (1 <? _)%nat then _ else _). set (s2 := if (1 <? _)%nat then _ else _).
  intros Hc. assert (length s1 = length s2) as ->.
  { apply (f_equal length) in Hc. by rewrite !length_map in Hc. }
  do 6 (destruct (canappend _ _); [|done]). by rewrite (canappend_names_lower _ s2).
Qed.

(** The hexadecimal digits. *)
Lemma ja4h_hex_length r : length (sentinel_ja4h_compute r) = NGX_SENTINEL_JA4H_HEX_LEN.
Proof.
  unfold sentinel_ja4h_compute. destruct (ja4h_canonical r) as [canon|]; [|done].
  pose proof (SHA256_length canon) as Hl.
  assert (length (take NGX_SENTINEL_JA4H_BIN_LEN (SHA256 canon)) = NGX_SENTINEL_JA4H_BIN_LEN)
    as Ht by (rewrite length_take, Hl; vm_compute; done).
  revert Ht. generalize (take NGX_SENTINEL_JA4H_BIN_LEN (SHA256 canon)) as d.
  unfold NGX_SENTINEL_JA4H_HEX_LEN. generalize NGX_SENTINEL_JA4H_BIN_LEN as n.
  intros n d <-. induction d; simpl; lia.
Qed.

(** The canonical string never reaches the end of its 4096-byte stack buffer
    (the digits appended without a check and the final NUL included), whatever
    the headers are, and the fingerprint is always 24 bytes long. *)
Theorem ja4h_stays_in_buffer r :
  (forall p, ja4h_canonical r = Some p -> in_buffer p) /\
  length (sentinel_ja4h_compute r) = NGX_SENTINEL_JA4H_HEX_LEN.
Proof.
  split.
  - intros p. unfold ja4h_canonical.
    destruct (fold_left ja4h_walk _ _) as [[cookie referer] names].
    do 6 (destruct (canappend _ _) as [?|]; [|done]).
    destruct (canappend_names _ _ _) as [p5|]; [|done].
    destruct (canappend p5 _) as [p6|] eqn:E6; [|done]. apply canappend_spec in E6 as [_ E6].
    destruct (ja4h_lang r); [by intros [= <-]|]. intros E. apply (canappend_spec _ _ _ E).
  - apply ja4h_hex_length.
Qed.
End Props.

Import Concrete.

(** Two requests that differ in the order and the case of their header names. *)
Definition shuffled_request : request :=
  Request NGX_HTTP_GET NGX_HTTP_VERSION_11 (lit "/other") []
    [[Header 1 (lit "X-B") []; Header 0 (lit "gone") []]; [Header 1 (lit "x-a") []]]
    None None None None None None None (lit "192.0.2.7") None 0 200.

Definition ordered_request : request :=
  Request NGX_HTTP_GET NGX_HTTP_VERSION_11 (lit "/") []
    [[Header 1 (lit "X-A") (lit "1"); Header 1 (lit "x-b") []]]
    None None None None None None None (lit "192.0.2.8") None 0 200.

Lemma ja4h_ignores_order_and_case_witness :
  sentinel_ja4h_compute shuffled_request = sentinel_ja4h_compute ordered_request.
Proof.
  apply (ja4h_ignores_order_and_case shuffled_request ordered_request).
  - by apply (bool_decide_unpack _).
  - by apply (bool_decide_unpack _).
  - apply perm_swap.
  - vm_compute. lia.
  - done.
  - done.
  - done.
Defined.
