(* ===== verification/Core.v ===== *)
(** * Core.v: the request handlers ([ngx_http_sentinel_module.c])

    The request context and its lazy computation, the PREACCESS handler that
    turns a verdict into an action, the LOG handler that records events, and the
    variables.  The world is the shared memory a request can touch; [None] is a
    fault.  The module context of a request is one pointer, which either the
    request context or the tarpit context occupies. *)
From S2P Require Import Prelude Types Ngx Http Shm Score Signals Feed Fcrdns Ring Redis Cssink.
From S2P Require Import Pow Tarpit Metrics Ja4h.

Section Core.
Context `{NgxHash} `{NgxCompare} `{NgxSlab} `{NgxRbtree} `{NgxParse} `{NgxInet} `{NgxHttp}
        `{NgxFormat} `{NgxHmac} `{NgxQuery} `{NgxSort}.

(** ** State *)

(** The shared memory: the four kinds of zones (the arrays of
    [ngx_sentinel_main_conf_t]), the counters of the tarpit segment, and the
    push rings of the worker with the index of the zone each is armed for. *)
Record world : Type := World {
  wd_zones : list zone;
  wd_vel : list zone;
  wd_cs : list zone;
  wd_fcrdns : list zone;
  wd_conns : option (list Z);
  wd_metrics : metrics;
  wd_redis : option nat * ring;
  wd_sink : option nat * ring
}.

(** [ngx_sentinel_ctx_t] *)
Record req_ctx : Type := ReqCtx {
  cx_inputs : inputs;
  cx_score : Z;
  cx_verdict : verdict;
  cx_throttled : bool;
  cx_shielded : bool;
  cx_pow_state : pow_state
}.

(** The module context of a request. *)
Inductive ctx_slot : Type :=
  | SlotEmpty
  | SlotCtx (c : req_ctx)
  | SlotTarpit (t : tarpit_ctx).

(** The outcomes of the allocations and calls of one request, the clocks and
    the presence of a resolver. *)
Record req_env : Type := ReqEnv {
  en_ctx_alloc : bool;
  en_now : Z;
  en_msec : Z;
  en_worker : nat;
  en_resolver : bool;
  en_dns_alloc : bool;
  en_dns_start : bool;
  en_dns_addr : bool;
  en_pow : pow_env;
  en_tarpit : start_env;
  en_count : Z;
  en_var_alloc : bool
}.

(** ** Zones *)

Definition zone_at (l : list zone) (ref : zone_ref) : option zone :=
  match ref with None => None | Some i => l !! i end.

Definition zone_put (l : list zone) (ref : zone_ref) (z : option zone) : list zone :=
  match ref, z with Some i, Some z => <[i := z]> l | _, _ => l end.

(** The reverse-DNS signal tests its zone pointer against both NULL and
    [NGX_CONF_UNSET_PTR]. *)
Definition set_ref (ref : option zone_ref) : zone_ref :=
  match ref with Some z => z | None => None end.

(** ** Gathering the signals *)

(** The velocity signal tests its zone against NULL only: a pointer that is still
    [NGX_CONF_UNSET_PTR] is followed once the client has an address. *)
Definition velocity_at (r : request) (lcf : loc_conf) (vels : list zone) (now : Z)
    : option (bool * list zone) :=
  match vel_zone lcf with
  | None => match r_addr_text r with [] => Some (false, vels) | _ => None end
  | Some vref =>
      let! (vel, z) :=
        sentinel_velocity_signal (Some r) (Some lcf) (zone_at vels vref) now in
      Some (vel, zone_put vels vref z)
  end.

Definition ngx_sentinel_get_ctx (env : req_env) (r : request) (lcf : loc_conf)
    (slot : ctx_slot) (w : world)
    : option (option req_ctx * ctx_slot * world * option resolution) :=
  match slot with
  | SlotCtx c => Some (Some c, slot, w, None)
  | SlotTarpit _ => None
  | SlotEmpty =>
      if negb (en_ctx_alloc env) then Some (None, slot, w, None)
      else
        let now := en_now env in
        let ja4h := sentinel_ja4h_compute r in
        let! (er, z) := sentinel_errrate_signal r (zone_at (wd_zones w) (lcf_zone lcf)) now in
        let '(count, blocked, scanner) := er in
        let zones := zone_put (wd_zones w) (lcf_zone lcf) z in
        let '(bot, good) := sentinel_botua_signal r in
        let header := sentinel_header_signal (Some r) in
        let honeypot := sentinel_honeypot_signal (Some r) (Some lcf) in
        let allow := sentinel_allowlist_signal (Some r) (Some lcf) in
        let! (vel, vels) := velocity_at r lcf (wd_vel w) now in
        let asn := sentinel_asn_signal (Some r) (Some lcf) in
        let c2ip := sentinel_c2ip_signal (Some r) (Some lcf) in
        let ja3 := sentinel_ja3_signal (Some r) (Some lcf) in
        let ja4 := sentinel_ja4_signal (Some r) (Some lcf) in
        let ja4t := sentinel_ja4t_signal (Some r) (Some lcf) in
        let coh := sentinel_coherence_signal (Some r) in
        let fref := set_ref (fcrdns_zone (lcf_fcrdns lcf)) in
        let! (fc, z) :=
          sentinel_fcrdns_signal (Some r) (Some lcf) (zone_at (wd_fcrdns w) fref) good
            (en_resolver env) now (en_dns_alloc env) (en_dns_start env) (en_dns_addr env) in
        let '(verified, spoofed, res) := fc in
        let fcs := zone_put (wd_fcrdns w) fref z in
        let! (cs, z) :=
          sentinel_crowdsec_signal r (zone_at (wd_cs w) (cs_zone_of lcf)) now in
        let '(hit, action) := cs in
        let css := zone_put (wd_cs w) (cs_zone_of lcf) z in
        let i := Inputs ja4h count blocked scanner bot good verified spoofed header honeypot
                   vel asn coh ja3 ja4 ja4t c2ip allow hit action in
        let! score := sentinel_score_compute (Some i) (Some (lcf_weights lcf)) in
        let c := ReqCtx i score (sentinel_score_to_verdict score (lcf_threshold lcf))
                   false false POW_OFF in
        Some (Some c, SlotCtx c,
              World zones vels css fcs (wd_conns w) (wd_metrics w) (wd_redis w) (wd_sink w), res)
  end.

(** ** PREACCESS *)

(** What the handler did to the request besides its return code. *)
Record effects : Type := Effects {
  ef_limit_rate : option Z;
  ef_pow : option pow_result;
  ef_tarpit : option start_result
}.

Definition no_effects : effects := Effects None None None.

Definition with_flags (c : req_ctx) (throttled shielded : bool) (ps : pow_state) : req_ctx :=
  ReqCtx (cx_inputs c) (cx_score c) (cx_verdict c) throttled shielded ps.

Definition with_metrics (w : world) (m : metrics) : world :=
  World (wd_zones w) (wd_vel w) (wd_cs w) (wd_fcrdns w) (wd_conns w) m (wd_redis w) (wd_sink w).

Definition with_conns (w : world) (conns : option (list Z)) : world :=
  World (wd_zones w) (wd_vel w) (wd_cs w) (wd_fcrdns w) conns (wd_metrics w) (wd_redis w)
    (wd_sink w).

(** The BLOCK case: the soft ban and the two pushes, before the status. *)
Definition block_softban (env : req_env) (r : request) (lcf : loc_conf) (w : world)
    : option world :=
  if (0 <? block_ttl lcf) && bool_decide (is_Some (lcf_zone lcf))
     && negb (length (r_addr_text r) =? 0)%nat
  then
    let! (_, z) := sentinel_shm_softban_set (zone_at (wd_zones w) (lcf_zone lcf))
                     (SHA256 (r_addr_text r)) (en_now env) (block_ttl lcf) in
    Some (World (zone_put (wd_zones w) (lcf_zone lcf) z) (wd_vel w) (wd_cs w) (wd_fcrdns w)
            (wd_conns w) (wd_metrics w) (wd_redis w) (wd_sink w))
  else Some w.

Definition block_push (env : req_env) (r : request) (lcf : loc_conf) (hit : bool) (w : world)
    : world :=
  let local := negb hit && negb (length (r_addr_text r) =? 0)%nat in
  let redis :=
    if negb (length (redis_host (lcf_redis lcf)) =? 0)%nat && local
    then (fst (wd_redis w),
          sentinel_redis_enqueue_ban (fst (wd_redis w)) (lcf_redis lcf) (snd (wd_redis w))
            (r_addr_text r) NGX_SENTINEL_CS_BAN (en_now env + redis_ttl (lcf_redis lcf)))
    else wd_redis w in
  let sink :=
    if negb (length (cs_sink_path (lcf_sink lcf)) =? 0)%nat && local
    then (fst (wd_sink w),
          sentinel_cssink_enqueue_ban (fst (wd_sink w)) (lcf_sink lcf) (snd (wd_sink w))
            (r_addr_text r) NGX_SENTINEL_CS_BAN (en_now env + cs_sink_ttl (lcf_sink lcf)))
    else wd_sink w in
  World (wd_zones w) (wd_vel w) (wd_cs w) (wd_fcrdns w) (wd_conns w) (wd_metrics w) redis sink.

(** The dispatch of an enforced verdict. *)
Definition enforce (env : req_env) (r : request) (lcf : loc_conf) (c : req_ctx) (w : world)
    : option (ngx_rc * ctx_slot * world * effects) :=
  match cx_verdict c with
  | VERDICT_ALLOW => Some (NGX_DECLINED, SlotCtx c, w, no_effects)
  | VERDICT_CHALLENGE =>
      let! p := sentinel_pow_dispatch (en_pow env) r (lcf_pow lcf) (en_now env) in
      let c := with_flags c (cx_throttled c) (cx_shielded c) (pr_state p) in
      Some (if bool_decide (pr_rc p = NGX_DONE) then NGX_DONE else NGX_DECLINED,
            SlotCtx c, w, Effects None (Some p) None)
  | VERDICT_TARPIT =>
      if 0 <? throttle_rate lcf
      then Some (NGX_DECLINED, SlotCtx (with_flags c true (cx_shielded c) (cx_pow_state c)), w,
                 Effects (Some (throttle_rate lcf)) None None)
      else if negb (shield lcf =? 0)
      then Some (NGX_DECLINED, SlotCtx (with_flags c (cx_throttled c) true (cx_pow_state c)), w,
                 no_effects)
      else if tarpit_max_conns (lcf_tarpit lcf) =? 0
      then Some (NGX_HTTP NGX_HTTP_CLOSE, SlotCtx c, w, no_effects)
      else
        let! s := sentinel_tarpit_start (en_tarpit env) (lcf_tarpit lcf) (Some (wd_conns w))
                    (en_worker env) (en_msec env) (en_count env) in
        let slot := match sr_set_ctx s, sr_cleanup s with
                    | true, Some t => SlotTarpit t
                    | _, _ => SlotCtx c
                    end in
        let rc := if bool_decide (sr_rc s = NGX_DONE) then NGX_DONE
                  else if bool_decide (sr_rc s = NGX_HTTP NGX_HTTP_CLOSE)
                  then NGX_HTTP NGX_HTTP_CLOSE else NGX_DECLINED in
        Some (rc, slot, with_conns w (sr_conns s), Effects None None (Some s))
  | VERDICT_BLOCK =>
      let! w := block_softban env r lcf w in
      Some (NGX_HTTP (block_status lcf), SlotCtx c,
            block_push env r lcf (crowdsec_hit (cx_inputs c)) w, no_effects)
  end.

Definition ngx_sentinel_preaccess_handler (env : req_env) (r : request) (lcf : loc_conf)
    (slot : ctx_slot) (w : world)
    : option (ngx_rc * ctx_slot * world * effects * option resolution) :=
  if enabled lcf =? 0 then Some (NGX_DECLINED, slot, w, no_effects, None)
  else
    let! (o, slot, w, res) := ngx_sentinel_get_ctx env r lcf slot w in
    match o with
    | None => Some (NGX_DECLINED, slot, w, no_effects, res)
    | Some c =>
        let w := with_metrics w (sentinel_metrics_record (wd_metrics w) (cx_inputs c)
                                   (cx_verdict c) (shadow lcf)) in
        if negb (shadow lcf =? 0) then Some (NGX_DECLINED, slot, w, no_effects, res)
        else
          let! (rc, slot, w, ef) := enforce env r lcf c w in
          Some (rc, slot, w, ef, res)
    end.

(** ** LOG *)

(** The velocity zone is tested against NULL only. *)
Definition ngx_sentinel_log_handler (now : Z) (r : request) (lcf : loc_conf) (w : world)
    : option (ngx_rc * world) :=
  if enabled lcf =? 0 then Some (NGX_OK, w)
  else if (length (r_addr_text r) =? 0)%nat then Some (NGX_OK, w)
  else
    let key := SHA256 (r_addr_text r) in
    let! vref := vel_zone lcf in
    let! vels :=
      match zone_at (wd_vel w) vref with
      | None => Some (wd_vel w)
      | Some z =>
          let! (_, z') := sentinel_shm_errrate_record (Some z) key now in
          Some (zone_put (wd_vel w) vref z')
      end in
    let w := World (wd_zones w) vels (wd_cs w) (wd_fcrdns w) (wd_conns w) (wd_metrics w)
               (wd_redis w) (wd_sink w) in
    match zone_at (wd_zones w) (lcf_zone lcf) with
    | None => Some (NGX_OK, w)
    | Some z =>
        let status := if negb (r_err_status r =? 0) then r_err_status r else r_status r in
        if status <? 400 then Some (NGX_OK, w)
        else
          let! (_, z') := sentinel_shm_errrate_record (Some z) key now in
          Some (NGX_OK, World (zone_put (wd_zones w) (lcf_zone lcf) z') (wd_vel w) (wd_cs w)
                          (wd_fcrdns w) (wd_conns w) (wd_metrics w) (wd_redis w) (wd_sink w))
    end.

(** ** Variables *)

(** The value of a variable: not found, an allocation error, or its text. *)
Inductive var_value : Type :=
  | VarNotFound
  | VarError
  | VarText (v : bytes).

Definition bit_text (b : bool) : bytes := if b then lit "1" else lit "0".

(** The body every handler shares: compute the context, then read it. *)
Definition var_of (f : req_ctx -> var_value) (env : req_env) (r : request) (lcf : loc_conf)
    (slot : ctx_slot) (w : world) : option (var_value * ctx_slot * world) :=
  let! (o, slot, w, _) := ngx_sentinel_get_ctx env r lcf slot w in
  Some (match o with None => VarNotFound | Some c => f c end, slot, w).

Definition var_number (env : req_env) (n : Z) : var_value :=
  if en_var_alloc env then VarText (ngx_dec n) else VarError.

Definition var_bit (f : inputs -> bool) (c : req_ctx) : var_value :=
  VarText (bit_text (f (cx_inputs c))).

Definition verdict_strings : list bytes :=
  [lit "allow"; lit "challenge"; lit "tarpit"; lit "block"].

Definition sentinel_cs_action_strings : list bytes :=
  [lit "none"; lit "ban"; lit "captcha"; lit "throttle"].

Definition ngx_sentinel_var_score (env : req_env) :=
  var_of (fun c => var_number env (cx_score c)) env.

Definition ngx_sentinel_var_verdict :=
  var_of (fun c => VarText (nth (Z.to_nat (verdict_index (cx_verdict c))) verdict_strings [])).

Definition ngx_sentinel_var_ja4h := var_of (fun c => VarText (ja4h (cx_inputs c))).
Definition ngx_sentinel_var_header := var_of (var_bit header_anomaly).
Definition ngx_sentinel_var_honeypot := var_of (var_bit honeypot).
Definition ngx_sentinel_var_velocity := var_of (var_bit velocity_exceeded).
Definition ngx_sentinel_var_asn := var_of (var_bit datacenter_asn).
Definition ngx_sentinel_var_c2ip := var_of (var_bit c2ip_flagged).
Definition ngx_sentinel_var_ja3 := var_of (var_bit ja3_flagged).
Definition ngx_sentinel_var_ja4 := var_of (var_bit ja4_flagged).
Definition ngx_sentinel_var_ja4t := var_of (var_bit ja4t_flagged).
Definition ngx_sentinel_var_coherence := var_of (var_bit ua_incoherent).

Definition ngx_sentinel_var_fcrdns :=
  var_of (fun c => VarText
    (if fcrdns_verified (cx_inputs c) then lit "verified"
     else if fcrdns_spoofed (cx_inputs c) then lit "spoofed" else lit "pending")).

Definition ngx_sentinel_var_allowlist := var_of (var_bit allowlisted).
Definition ngx_sentinel_var_bot := var_of (var_bit bot_ua).
Definition ngx_sentinel_var_shield := var_of (fun c => VarText (bit_text (cx_shielded c))).
Definition ngx_sentinel_var_throttled := var_of (fun c => VarText (bit_text (cx_throttled c))).

Definition ngx_sentinel_var_pow :=
  var_of (fun c => VarText
    (match cx_pow_state c with
     | POW_VERIFIED => lit "verified"
     | POW_CHALLENGE => lit "challenge"
     | POW_OFF => lit "off"
     end)).

Definition ngx_sentinel_var_scanner := var_of (var_bit scanner_path).

Definition ngx_sentinel_var_errrate (env : req_env) :=
  var_of (fun c => var_number env (errrate_count (cx_inputs c))) env.

Definition ngx_sentinel_var_crowdsec := var_of (var_bit crowdsec_hit).

Definition ngx_sentinel_var_crowdsec_action :=
  var_of (fun c =>
    let act := crowdsec_action (cx_inputs c) in
    let act := if Z.of_nat (length sentinel_cs_action_strings) <=? act
               then NGX_SENTINEL_CS_NONE else act in
    VarText (nth (Z.to_nat act) sentinel_cs_action_strings [])).
End Core.
