(* ===== verification/CoreProps.v ===== *)
(** * CoreProps.v: properties of the request handlers

    Processing a request never faults and keeps the shared memory well formed; a
    trusted client is never refused; shadow mode only observes; a ban learnt
    from outside is not published again; and the variables after a tarpit read
    the wrong context. *)
From S2P Require Import Prelude Types Ngx Http NgxModel Score Shm ShmTree ShmSpec ShmOps ShmRate.
From S2P Require Import ShmProps Signals SignalProps Feed Fcrdns Ring Redis Cssink Pow PowProps.
From S2P Require Import Tarpit TarpitProps Metrics Ja4h Core.

Section Props.
Context `{NgxHash} `{NgxCompare} `{NgxSlab} `{NgxRbtree} `{NgxParse} `{NgxInet} `{NgxHttp}
        `{NgxFormat} `{NgxHmac} `{NgxQuery} `{NgxSort}.
Context {HashLaws : NgxHashLaws} {CmpLaws : NgxCompareLaws} {SlabLaws : NgxSlabLaws}
        {RbLaws : NgxRbtreeLaws} {ParseLaws : NgxParseLaws} {FormatLaws : NgxFormatLaws}.

(** ** The invariant of the shared memory *)

(** A rate zone at time [now], and a decision table. *)
Definition rate_zone_ok (now : Z) (z : zone) : Prop :=
  match z with
  | Zone _ None => True
  | Zone zc (Some sh) => zone_ok zc /\ z_threshold zc < 2 ^ 63 /\ wf (node_ok zc now) sh
  end.

Definition table_ok (z : zone) : Prop :=
  match z with Zone _ None => True | Zone _ (Some sh) => wf (fun _ => True) sh end.

Definition world_ok (now : Z) (w : world) : Prop :=
  Forall (rate_zone_ok now) (wd_zones w) /\ Forall (rate_zone_ok now) (wd_vel w) /\
  Forall table_ok (wd_cs w) /\ Forall table_ok (wd_fcrdns w).

(** Up to the time [T], the parameters of a rate zone keep the size of a node and
    the end of a ban inside their types: the configuration parser only bounds
    both below [2^63]. *)
Definition zone_fits (T : Z) (zc : zone_conf) : Prop := ring_fits zc /\ T + z_block zc < 2 ^ 63.

Definition zones_fit (T : Z) (l : list zone) : Prop := Forall (zone_fits T) (zone_conf_of <$> l).

Definition world_fits (T : Z) (w : world) : Prop :=
  zones_fit T (wd_zones w) /\ zones_fit T (wd_vel w).

(** What the configuration merge guarantees of a location. *)
Definition lcf_ok (lcf : loc_conf) : Prop :=
  weights_ok (lcf_weights lcf) /\ vel_zone lcf <> None.

Definition opt_ok (P : zone -> Prop) (z : option zone) : Prop := forall x, z = Some x -> P x.

Lemma zone_at_ok P l ref : Forall P l -> opt_ok P (zone_at l ref).
Proof.
  intros Hl x. unfold zone_at. destruct ref as [i|]; [|done].
  rewrite Forall_lookup in Hl. apply Hl.
Qed.

Lemma zone_put_ok P l ref z : Forall P l -> opt_ok P z -> Forall P (zone_put l ref z).
Proof.
  intros Hl Hz. unfold zone_put. destruct ref, z as [z|]; try done.
  apply Forall_insert; [done|]. by apply Hz.
Qed.

(** *** The parameters of the zones never change *)

Definition same_confs (l l' : list zone) : Prop := zone_conf_of <$> l' = zone_conf_of <$> l.

Lemma zones_fit_at T l ref z : zones_fit T l -> zone_at l ref = Some z -> zone_fits T (zone_conf_of z).
Proof.
  unfold zones_fit, zone_at. rewrite Forall_fmap. destruct ref as [i|]; [|done].
  intros Hl Hi. by apply (Forall_lookup_1 _ _ _ _ Hl Hi).
Qed.

Lemma with_zone_conf {A} z (err : A) body r z' :
  with_zone z err body = Some (r, z') -> zone_conf_of <$> z' = zone_conf_of <$> z.
Proof.
  unfold with_zone. destruct z as [[zc [sh|]]|]; [|by intros [= _ <-]..].
  destruct (body zc sh) as [[? ?]|]; [|done]. by intros [= _ <-].
Qed.

Lemma errrate_lookup_conf z key now res z' :
  sentinel_shm_errrate_lookup z key now = Some (res, z') -> zone_conf_of <$> z' = zone_conf_of <$> z.
Proof. apply with_zone_conf. Qed.

Lemma errrate_record_conf z key now res z' :
  sentinel_shm_errrate_record z key now = Some (res, z') -> zone_conf_of <$> z' = zone_conf_of <$> z.
Proof. apply with_zone_conf. Qed.

Lemma softban_set_conf z key now ttl rc z' :
  sentinel_shm_softban_set z key now ttl = Some (rc, z') -> zone_conf_of <$> z' = zone_conf_of <$> z.
Proof.
  unfold sentinel_shm_softban_set. destruct (ttl <=? 0); [by intros [= _ <-]|].
  apply with_zone_conf.
Qed.

Definition same_zones (w w' : world) : Prop :=
  same_confs (wd_zones w) (wd_zones w') /\ same_confs (wd_vel w) (wd_vel w').

Lemma world_fits_same T w w' : same_zones w w' -> world_fits T w -> world_fits T w'.
Proof. unfold same_zones, same_confs, world_fits, zones_fit. intros [-> ->]. done. Qed.

Lemma world_fits_mono T t w : t <= T -> world_fits T w -> world_fits t w.
Proof.
  intros Ht [Hz Hv]. split; (eapply Forall_impl; [eassumption|]); intros zc [? ?]; (split; [done|lia]).
Qed.

Lemma zone_put_conf l ref z :
  zone_conf_of <$> z = zone_conf_of <$> zone_at l ref -> same_confs l (zone_put l ref z).
Proof.
  unfold same_confs, zone_put, zone_at. destruct ref as [i|]; [|done]. destruct z as [z|]; [|done].
  destruct (l !! i) as [z0|] eqn:E; [|done]. intros [= Hz].
  rewrite list_fmap_insert, Hz. apply list_insert_id. by rewrite list_lookup_fmap, E.
Qed.

Lemma rate_zone_ok_mono t now z : t <= now -> rate_zone_ok t z -> rate_zone_ok now z.
Proof.
  intros Ht. destruct z as [zc [sh|]]; [|done]. intros (Hz & Hm & Hwf). split_and!; try done.
  eapply wf_mono; [|exact Hwf]. intros n. by apply node_ok_mono.
Qed.

Lemma digest_short b : Z.of_nat (length (SHA256 b)) < 65536.
Proof. rewrite SHA256_length. unfold NGX_SENTINEL_DIGEST_LEN. lia. Qed.

(** ** The operations on a zone of a well-formed world *)

Lemma rate_lookup_total now key z :
  opt_ok (rate_zone_ok now) z -> 0 <= now ->
  exists rc c b z', sentinel_shm_errrate_lookup z key now = Some ((rc, c, b), z') /\
    0 <= c < 2 ^ 63 /\ opt_ok (rate_zone_ok now) z'.
Proof.
  intros Hz Hnow. destruct z as [[zc [sh|]]|]; [|by do 4 eexists; split..].
  destruct (Hz _ eq_refl) as (Hzc & Hm & Hwf).
  destruct (lookup_locked_refines zc sh key now now) as (sh' & E & Hwf' & _); [done..|].
  unfold sentinel_shm_errrate_lookup, with_zone. rewrite E.
  destruct (lookup_spec_rate zc now (live zc now sh key)) as [[rc c] b] eqn:Es.
  do 4 eexists. split; [done|]. split.
  - pose proof (live_range zc now sh key Hzc Hwf). destruct Hzc as (_ & _ & Ht).
    revert Es. unfold lookup_spec_rate. destruct (live zc now sh key) as [u wd].
    cbn [fst snd] in *. destruct (now <? u); intros [= <- <- <-]; lia.
  - by intros x [= <-].
Qed.

Lemma rate_record_total now key z :
  opt_ok (rate_zone_ok now) z -> opt_ok (fun z => zone_fits now (zone_conf_of z)) z ->
  0 <= now -> Z.of_nat (length key) < 65536 ->
  exists res z', sentinel_shm_errrate_record z key now = Some (res, z') /\
    opt_ok (rate_zone_ok now) z'.
Proof.
  intros Hz Hf Hnow Hk. destruct z as [[zc [sh|]]|]; [|by do 2 eexists; split..].
  destruct (Hz _ eq_refl) as (Hzc & Hm & Hwf). destruct (Hf _ eq_refl) as [Hring Hmax].
  destruct (record_locked_refines zc sh key now now) as (res & sh' & E & Hwf' & _); [done..|].
  unfold sentinel_shm_errrate_record, with_zone. rewrite E.
  do 2 eexists. split; [done|]. by intros x [= <-].
Qed.

Lemma softban_total now key z ttl :
  opt_ok (rate_zone_ok now) z -> opt_ok (fun z => ring_fits (zone_conf_of z)) z ->
  0 <= now -> now + ttl < 2 ^ 63 -> Z.of_nat (length key) < 65536 ->
  exists rc z', sentinel_shm_softban_set z key now ttl = Some (rc, z') /\
    opt_ok (rate_zone_ok now) z'.
Proof.
  intros Hz Hf Hnow Hmax Hk. unfold sentinel_shm_softban_set.
  destruct (Z.leb_spec ttl 0); [by do 2 eexists|].
  destruct z as [[zc [sh|]]|]; [|by do 2 eexists; split..].
  destruct (Hz _ eq_refl) as (Hzc & Hm & Hwf). pose proof (Hf _ eq_refl) as Hring.
  destruct (softban_locked_refines zc sh key now now ttl) as (rc & sh' & E & Hwf' & _);
    [done..|]. unfold with_zone. rewrite E.
  do 2 eexists. split; [done|]. by intros x [= <-].
Qed.

(** The decision the CrowdSec table holds for the client. *)
Definition client_decision (w : world) (lcf : loc_conf) (r : request) (now : Z) : option Z :=
  match zone_at (wd_cs w) (cs_zone_of lcf), r_addr_text r with
  | Some (Zone _ (Some sh)), _ :: _ => active now sh (SHA256 (r_addr_text r))
  | _, _ => None
  end.

Lemma table_lookup_total now key z :
  opt_ok table_ok z ->
  exists rc a z', sentinel_shm_crowdsec_lookup z key now = Some ((rc, a), z') /\
    opt_ok table_ok z' /\
    match z with
    | Some (Zone _ (Some sh)) =>
        (rc, a) = match active now sh key with
                  | Some a => (NGX_BUSY, a) | None => (NGX_OK, NGX_SENTINEL_CS_NONE) end
    | _ => rc = NGX_ERROR
    end.
Proof.
  intros Hz. destruct z as [[zc [sh|]]|]; [|by do 3 eexists; split_and!..].
  destruct (crowdsec_lookup_active zc sh key now (Hz _ eq_refl)) as (sh' & E & Hwf & _).
  unfold sentinel_shm_crowdsec_lookup, with_zone. rewrite E.
  destruct (match active now sh key with Some _ => _ | None => _ end) as [rc a].
  do 3 eexists. split_and!; try done. by intros x [= <-].
Qed.

Lemma crowdsec_signal_total w lcf r now :
  Forall table_ok (wd_cs w) ->
  exists hit a z',
    sentinel_crowdsec_signal r (zone_at (wd_cs w) (cs_zone_of lcf)) now
      = Some ((hit, a), z') /\ opt_ok table_ok z' /\
    hit = bool_decide (is_Some (client_decision w lcf r now)).
Proof.
  intros Hw. pose proof (zone_at_ok table_ok _ (cs_zone_of lcf) Hw) as Hz.
  unfold sentinel_crowdsec_signal, client_decision.
  destruct (zone_at (wd_cs w) (cs_zone_of lcf)) as [z|] eqn:Ez; [|by do 3 eexists; split_and!].
  destruct (r_addr_text r) as [|c addr].
  { do 3 eexists. split_and!; try done. by destruct z as [? []]. }
  destruct (table_lookup_total now (SHA256 (c :: addr)) (Some z) Hz)
    as (rc & a & z' & E & Hz' & Hr).
  unfold sentinel_feed_digest. rewrite E. destruct z as [zc [sh|]].
  - destruct (active now sh (SHA256 (c :: addr))); injection Hr as -> ->;
      by do 3 eexists; split_and!.
  - subst rc. rewrite bool_decide_true by done. by do 3 eexists; split_and!.
Qed.

Lemma fcrdns_signal_total r lcf z known resolver now a1 a2 a3 :
  opt_ok table_ok z ->
  exists v sp res z', sentinel_fcrdns_signal (Some r) (Some lcf) z known resolver now a1 a2 a3
      = Some ((v, sp, res), z') /\ opt_ok table_ok z'.
Proof.
  intros Hz. unfold sentinel_fcrdns_signal. destruct z as [z|]; [|do 4 eexists; split; [reflexivity|done]].
  destruct known; cbn [negb]; [|do 4 eexists; split; [reflexivity|done]].
  destruct (length (r_addr_text r) =? 0)%nat; [do 4 eexists; split; [reflexivity|done]|].
  destruct (r_sockaddr r) as [sa|]; [|do 4 eexists; split; [reflexivity|done]].
  destruct (address_bytes sa) as [b|]; [|do 4 eexists; split; [reflexivity|done]].
  destruct (table_lookup_total now (SHA256 b) (Some z) Hz) as (rc & a & z' & E & Hz' & _).
  unfold sentinel_shm_fcrdns_get. rewrite E.
  repeat case_match; (do 4 eexists; split; [reflexivity|done]).
Qed.

Lemma errrate_signal_total r z now :
  opt_ok (rate_zone_ok now) z -> 0 <= now ->
  exists count blocked scanner z',
    sentinel_errrate_signal r z now = Some ((count, blocked, scanner), z') /\
    0 <= count < 2 ^ 63 /\ opt_ok (rate_zone_ok now) z'.
Proof.
  intros Hz Hnow. unfold sentinel_errrate_signal.
  destruct z as [z|]; [|do 4 eexists; split_and!; try done; lia].
  destruct (r_addr_text r) as [|ch addr]; [do 4 eexists; split_and!; try done; lia|].
  destruct (rate_lookup_total now (SHA256 (ch :: addr)) (Some z) Hz Hnow)
    as (rc & c & b & z' & -> & Hc & Hz').
  case_bool_decide; do 4 eexists; split_and!; try done; lia.
Qed.

Lemma velocity_signal_total r lcf z now :
  opt_ok (rate_zone_ok now) z -> 0 <= now ->
  exists v z', sentinel_velocity_signal (Some r) (Some lcf) z now = Some (v, z') /\
    opt_ok (rate_zone_ok now) z'.
Proof.
  intros Hz Hnow. unfold sentinel_velocity_signal. destruct z as [z|]; [|by do 2 eexists].
  destruct (r_addr_text r) as [|ch addr]; [by do 2 eexists|].
  destruct (rate_lookup_total now (SHA256 (ch :: addr)) (Some z) Hz Hnow)
    as (rc & c & b & z' & -> & _ & Hz').
  case_bool_decide; by do 2 eexists.
Qed.

Lemma velocity_at_total r lcf vels now :
  Forall (rate_zone_ok now) vels -> vel_zone lcf <> None -> 0 <= now ->
  exists v vels', velocity_at r lcf vels now = Some (v, vels') /\ Forall (rate_zone_ok now) vels'.
Proof.
  intros Hv Hvel Hnow. unfold velocity_at. destruct (vel_zone lcf) as [vref|]; [|done].
  destruct (velocity_signal_total r lcf (zone_at vels vref) now) as (v & z & -> & Hz);
    [by apply zone_at_ok|done|].
  do 2 eexists. split; [done|]. by apply zone_put_ok.
Qed.

Lemma velocity_at_confs r lcf vels now v vels' :
  velocity_at r lcf vels now = Some (v, vels') -> same_confs vels vels'.
Proof.
  unfold velocity_at. destruct (vel_zone lcf) as [vref|].
  - destruct (sentinel_velocity_signal _ _ _ _) as [[x z]|] eqn:E; [|done]. intros [= _ <-].
    apply zone_put_conf. revert E. unfold sentinel_velocity_signal.
    destruct (zone_at vels vref) as [z0|]; [|by intros [= _ <-]].
    destruct (r_addr_text r); [by intros [= _ <-]|].
    destruct (sentinel_shm_errrate_lookup _ _ _) as [[[[rc ?] ?] z1]|] eqn:E; [|done].
    apply errrate_lookup_conf in E. case_bool_decide; by intros [= _ <-].
  - destruct (r_addr_text r); [|done]. by intros [= _ <-].
Qed.

Lemma errrate_signal_conf r z now res z' :
  sentinel_errrate_signal r z now = Some (res, z') -> zone_conf_of <$> z' = zone_conf_of <$> z.
Proof.
  unfold sentinel_errrate_signal. destruct z as [z|]; [|by intros [= _ <-]].
  destruct (r_addr_text r); [by intros [= _ <-]|].
  destruct (sentinel_shm_errrate_lookup _ _ _) as [[[[rc ?] ?] z1]|] eqn:E; [|done].
  apply errrate_lookup_conf in E. case_bool_decide; by intros [= _ <-].
Qed.

(** ** The request context *)

(** The part of the world a computation of the context leaves alone. *)
Definition same_outside (w w' : world) : Prop :=
  wd_conns w' = wd_conns w /\ wd_metrics w' = wd_metrics w /\
  wd_redis w' = wd_redis w /\ wd_sink w' = wd_sink w.

(** What the context of a request says, in terms of the request and the
    configuration. *)
Definition ctx_describes (w : world) (lcf : loc_conf) (r : request) (now : Z) (c : req_ctx)
    : Prop :=
  crowdsec_hit (cx_inputs c) = bool_decide (is_Some (client_decision w lcf r now)) /\
  allowlisted (cx_inputs c) = sentinel_allowlist_signal (Some r) (Some lcf) /\
  cx_score c = (if short_circuit (cx_inputs c) then 0
                else sat (weighted_sum (cx_inputs c) (lcf_weights lcf))) /\
  cx_verdict c = sentinel_score_to_verdict (cx_score c) (lcf_threshold lcf).

Lemma get_ctx_total env r lcf w :
  world_ok (en_now env) w -> lcf_ok lcf -> 0 <= en_now env -> en_ctx_alloc env = true ->
  exists c w' res,
    ngx_sentinel_get_ctx env r lcf SlotEmpty w = Some (Some c, SlotCtx c, w', res) /\
    world_ok (en_now env) w' /\ same_outside w w' /\
    ctx_describes w lcf r (en_now env) c.
Proof.
  intros (Hz & Hv & Hc & Hf) [Hw Hvel] Hnow Ha. unfold ngx_sentinel_get_ctx. rewrite Ha.
  cbn [negb].
  destruct (errrate_signal_total r (zone_at (wd_zones w) (lcf_zone lcf)) (en_now env))
    as (count & blocked & scanner & z1 & -> & Hcount & Hz1); [by apply zone_at_ok|done|].
  destruct (sentinel_botua_signal r) as [bot good].
  destruct (velocity_at_total r lcf (wd_vel w) (en_now env)) as (vel & vels & -> & Hz2); [done..|].
  destruct (fcrdns_signal_total r lcf
    (zone_at (wd_fcrdns w) (set_ref (fcrdns_zone (lcf_fcrdns lcf)))) good (en_resolver env)
    (en_now env) (en_dns_alloc env) (en_dns_start env) (en_dns_addr env))
    as (v & sp & res & z3 & -> & Hz3); [by apply zone_at_ok|].
  destruct (crowdsec_signal_total w lcf r (en_now env) Hc) as (hit & a & z4 & -> & Hz4 & Hhit).
  rewrite score_compute_sat by done.
  do 3 eexists. split; [reflexivity|]. split_and!; try done.
  split_and!; first [done|by apply zone_put_ok].
Qed.

Lemma get_ctx_confs env r lcf slot w o slot' w' res :
  ngx_sentinel_get_ctx env r lcf slot w = Some (o, slot', w', res) -> same_zones w w'.
Proof.
  unfold ngx_sentinel_get_ctx. destruct slot as [|c|t]; [|by intros [= _ _ <- _]|done].
  destruct (en_ctx_alloc env); cbn [negb]; [|by intros [= _ _ <- _]].
  destruct (sentinel_errrate_signal _ _ _) as [[[[count blocked] scanner] z1]|] eqn:E1; [|done].
  destruct (sentinel_botua_signal r) as [bot good].
  destruct (velocity_at _ _ _ _) as [[vel vels]|] eqn:E2; [|done].
  destruct (sentinel_fcrdns_signal _ _ _ _ _ _ _ _ _) as [[[[v sp] res0] z3]|]; [|done].
  destruct (sentinel_crowdsec_signal _ _ _) as [[[hit a] z4]|]; [|done].
  destruct (sentinel_score_compute _ _) as [score|]; [|done]. intros [= _ _ <- _]. split.
  - by eapply zone_put_conf, errrate_signal_conf.
  - by eapply velocity_at_confs.
Qed.

Lemma log_handler_confs now r lcf w rc w' :
  ngx_sentinel_log_handler now r lcf w = Some (rc, w') -> same_zones w w'.
Proof.
  unfold ngx_sentinel_log_handler. destruct (enabled lcf =? 0); [by intros [= _ <-]|].
  destruct (length (r_addr_text r) =? 0)%nat; [by intros [= _ <-]|].
  destruct (vel_zone lcf) as [v|]; [|done].
  match goal with |- context [match ?m with Some vels => _ | None => None end] =>
    destruct m as [vels|] eqn:Ev; [|done] end.
  assert (same_confs (wd_vel w) vels) as Hv.
  { revert Ev. destruct (zone_at (wd_vel w) v) as [z|] eqn:Ez; [|by intros [= <-]].
    destruct (sentinel_shm_errrate_record _ _ _) as [[x z']|] eqn:Er; [|done]. intros [= <-].
    apply zone_put_conf. rewrite Ez. by eapply errrate_record_conf. }
  cbn [wd_zones]. destruct (zone_at (wd_zones w) (lcf_zone lcf)) as [z|] eqn:Ez; [|by intros [= _ <-]].
  destruct (_ <? 400); [by intros [= _ <-]|].
  destruct (sentinel_shm_errrate_record _ _ _) as [[x z']|] eqn:Er; [|done]. intros [= _ <-].
  split; [|done]. apply zone_put_conf. rewrite Ez. by eapply errrate_record_conf.
Qed.

Lemma tarpit_start_total env conf conns worker now count :
  is_Some (sentinel_tarpit_start env conf (Some conns) worker now count).
Proof.
  unfold sentinel_tarpit_start, sentinel_tarpit_reserve. destruct conns as [c|].
  - destruct (tarpit_max_conns conf =? 0); cbn [reserve_loop];
      [|destruct (reserve_check c (tarpit_max_conns conf)); cbn [negb]];
      repeat case_match; by eexists.
  - by eexists.
Qed.

Lemma log_handler_total w lcf r t later :
  world_ok t w -> world_fits later w -> lcf_ok lcf -> 0 <= t <= later ->
  exists w', ngx_sentinel_log_handler later r lcf w = Some (NGX_OK, w') /\ world_ok later w'.
Proof.
  intros (Hz & Hv & Hc & Hf) [Hfz Hfv] [_ Hvel] Ht.
  assert (Forall (rate_zone_ok later) (wd_zones w)) as Hz'
    by (eapply Forall_impl; [exact Hz|]; intros z; apply rate_zone_ok_mono; lia).
  assert (Forall (rate_zone_ok later) (wd_vel w)) as Hv'
    by (eapply Forall_impl; [exact Hv|]; intros z; apply rate_zone_ok_mono; lia).
  unfold ngx_sentinel_log_handler. destruct (enabled lcf =? 0); [by eexists|].
  destruct (length (r_addr_text r) =? 0)%nat; [by eexists|].
  destruct (vel_zone lcf) as [vref|]; [|done].
  assert (exists vels,
    match zone_at (wd_vel w) vref with
    | None => Some (wd_vel w)
    | Some z =>
        let! (_, z') := sentinel_shm_errrate_record (Some z) (SHA256 (r_addr_text r)) later in
        Some (zone_put (wd_vel w) vref z')
    end = Some vels /\ Forall (rate_zone_ok later) vels) as (vels & -> & Hvels).
  { destruct (zone_at (wd_vel w) vref) as [z|] eqn:Ez; [|by eexists].
    destruct (rate_record_total later (SHA256 (r_addr_text r)) (Some z)) as (res & z' & -> & Hok);
      [rewrite <- Ez; by apply zone_at_ok|intros ? [= <-]; exact (zones_fit_at _ _ _ _ Hfv Ez)|lia
      |apply digest_short|].
    eexists. split; [done|]. by apply zone_put_ok. }
  cbn [wd_zones]. destruct (zone_at (wd_zones w) (lcf_zone lcf)) as [z|] eqn:Ez;
    [|by eexists].
  destruct (_ <? 400); [by eexists|].
  destruct (rate_record_total later (SHA256 (r_addr_text r)) (Some z)) as (res & z' & -> & Hok);
    [rewrite <- Ez; by apply zone_at_ok|intros ? [= <-]; exact (zones_fit_at _ _ _ _ Hfz Ez)|lia
    |apply digest_short|].
  eexists. split; [done|]. split_and!; try done. by apply zone_put_ok.
Qed.

(** ** Enforcement *)

Lemma block_softban_confs env r lcf w w' :
  block_softban env r lcf w = Some w' -> same_zones w w'.
Proof.
  unfold block_softban. destruct (_ && _ && _); [|by intros [= <-]].
  destruct (sentinel_shm_softban_set _ _ _ _) as [[rc z]|] eqn:E; [|done]. intros [= <-].
  split; [|done]. by eapply zone_put_conf, softban_set_conf.
Qed.

Lemma enforce_confs env r lcf c w rc slot w' ef :
  enforce env r lcf c w = Some (rc, slot, w', ef) -> same_zones w w'.
Proof.
  unfold enforce. destruct (cx_verdict c).
  - by intros [= _ _ <- _].
  - destruct (sentinel_pow_dispatch _ _ _ _); [|done]. by intros [= _ _ <- _].
  - destruct (0 <? throttle_rate lcf); [by intros [= _ _ <- _]|].
    destruct (negb (shield lcf =? 0)); [by intros [= _ _ <- _]|].
    destruct (tarpit_max_conns (lcf_tarpit lcf) =? 0); [by intros [= _ _ <- _]|].
    destruct (sentinel_tarpit_start _ _ _ _ _ _); [|done]. intros [= _ _ <- _]. by split.
  - destruct (block_softban env r lcf w) as [w1|] eqn:E; [|done]. apply block_softban_confs in E.
    intros [= _ _ <- _]. exact E.
Qed.

Lemma preaccess_confs env r lcf slot w rc slot' w' ef res :
  ngx_sentinel_preaccess_handler env r lcf slot w = Some (rc, slot', w', ef, res) ->
  same_zones w w'.
Proof.
  unfold ngx_sentinel_preaccess_handler. destruct (enabled lcf =? 0); [by intros [= _ _ <- _ _]|].
  destruct (ngx_sentinel_get_ctx env r lcf slot w) as [[[[o s1] w1] res1]|] eqn:Eg; [|done].
  apply get_ctx_confs in Eg as [Hz Hv]. destruct o as [c|]; [|by intros [= _ _ <- _ _]].
  destruct (negb (shadow lcf =? 0)); [by intros [= _ _ <- _ _]|].
  destruct (enforce _ _ _ _ _) as [[[[rc2 s2] w2] ef2]|] eqn:Ee; [|done].
  apply enforce_confs in Ee as [Hz2 Hv2]. intros [= _ _ <- _ _].
  unfold same_zones, same_confs in *. cbn in Hz2, Hv2. by rewrite Hz2, Hv2.
Qed.

Lemma enforce_total env r lcf c w :
  world_ok (en_now env) w -> world_fits (en_now env) w -> 0 <= en_now env ->
  r_sockaddr r <> None ->
  en_now env + pow_ttl_of (lcf_pow lcf) < 2 ^ 63 -> en_now env + block_ttl lcf < 2 ^ 63 ->
  exists rc slot w' ef, enforce env r lcf c w = Some (rc, slot, w', ef) /\
    world_ok (en_now env) w'.
Proof.
  intros Hw Hfits Hnow Hr Hmax Hban. unfold enforce. destruct (cx_verdict c).
  - by do 4 eexists.
  - assert (exists p, sentinel_pow_dispatch (en_pow env) r (lcf_pow lcf) (en_now env) = Some p)
      as [p ->] by by apply pow_dispatch_total.
    by do 4 eexists.
  - destruct (0 <? throttle_rate lcf); [by do 4 eexists|].
    destruct (negb (shield lcf =? 0)); [by do 4 eexists|].
    destruct (tarpit_max_conns (lcf_tarpit lcf) =? 0); [by do 4 eexists|].
    destruct (tarpit_start_total (en_tarpit env) (lcf_tarpit lcf) (wd_conns w)
      (en_worker env) (en_msec env) (en_count env)) as [s ->].
    by do 4 eexists.
  - unfold block_softban.
    destruct (_ && _ && _); [|by do 4 eexists].
    pose proof Hw as (Hz & Hv & Hc & Hf).
    destruct (softban_total (en_now env) (SHA256 (r_addr_text r))
      (zone_at (wd_zones w) (lcf_zone lcf)) (block_ttl lcf)) as (rc & z & -> & Hz');
      [by apply zone_at_ok|intros ? E; by eapply zones_fit_at, E; apply Hfits|done|done
      |apply digest_short|].
    do 4 eexists. split; [done|]. split_and!; try done. by apply zone_put_ok.
Qed.

(** The PREACCESS handler returns, for a slot that holds no tarpit context. *)
Lemma preaccess_total env r lcf slot w :
  world_ok (en_now env) w -> world_fits (en_now env) w -> lcf_ok lcf -> 0 <= en_now env ->
  r_sockaddr r <> None -> (forall t, slot <> SlotTarpit t) ->
  en_now env + pow_ttl_of (lcf_pow lcf) < 2 ^ 63 -> en_now env + block_ttl lcf < 2 ^ 63 ->
  exists rc slot' w' ef res,
    ngx_sentinel_preaccess_handler env r lcf slot w = Some (rc, slot', w', ef, res) /\
    world_ok (en_now env) w'.
Proof.
  intros Hw Hfits Hl Hnow Hr Hslot Hmax Hban. unfold ngx_sentinel_preaccess_handler.
  destruct (enabled lcf =? 0); [by do 5 eexists|].
  assert (exists o slot' w' res, ngx_sentinel_get_ctx env r lcf slot w = Some (o, slot', w', res) /\
    world_ok (en_now env) w') as (o & s1 & w1 & res & E & Hw1).
  { destruct slot as [|c|t]; [|by do 4 eexists|by destruct (Hslot t)].
    destruct (en_ctx_alloc env) eqn:Ea.
    - destruct (get_ctx_total env r lcf w Hw Hl Hnow Ea) as (c & w1 & res & -> & Hw1 & _).
      by do 4 eexists.
    - unfold ngx_sentinel_get_ctx. rewrite Ea. by do 4 eexists. }
  rewrite E. apply get_ctx_confs in E.
  destruct o as [c|]; [|by do 5 eexists]. destruct (negb (shadow lcf =? 0)); [by do 5 eexists|].
  destruct (enforce_total env r lcf c (with_metrics w1 (sentinel_metrics_record (wd_metrics w1)
    (cx_inputs c) (cx_verdict c) (shadow lcf)))) as (rc & s2 & w2 & ef & -> & Hw2);
    [exact Hw1|by apply (world_fits_same _ w)|done..|].
  by do 5 eexists.
Qed.

(** The two handlers return. *)
Lemma handlers_total T env r lcf slot w :
  world_ok (en_now env) w -> world_fits T w -> lcf_ok lcf -> 0 <= en_now env <= T ->
  r_sockaddr r <> None -> (forall t, slot <> SlotTarpit t) ->
  T + pow_ttl_of (lcf_pow lcf) < 2 ^ 63 -> T + block_ttl lcf < 2 ^ 63 ->
  exists rc slot' w' ef res,
    ngx_sentinel_preaccess_handler env r lcf slot w = Some (rc, slot', w', ef, res) /\
    world_ok (en_now env) w' /\
    forall later, en_now env <= later <= T ->
      exists w'', ngx_sentinel_log_handler later r lcf w' = Some (NGX_OK, w'') /\
        world_ok later w''.
Proof.
  intros Hw Hfits Hl Hnow Hr Hslot Hmax Hban.
  destruct (preaccess_total env r lcf slot w) as (rc & s1 & w1 & ef & res & E & Hw1); try done; try lia.
  { eapply world_fits_mono; [|exact Hfits]. lia. }
  exists rc, s1, w1, ef, res. split; [done|]. split; [done|]. intros later Hlater.
  apply (log_handler_total _ _ _ (en_now env)); try done; [|lia].
  apply (world_fits_mono T); [lia|]. by eapply world_fits_same, Hfits; eapply preaccess_confs.
Qed.

(** C2. Processing a request never faults and keeps the shared memory well
    formed: for every request with a socket address whose module context is not
    yet taken by a tarpit, every valid location and every outcome of the
    allocations, the PREACCESS handler and (at any later time up to [T]) the LOG
    handler return, without an out-of-bounds access or overflow in any signal, in
    the score, in the challenge, in the tarpit or in a zone, and every zone is well
    formed afterwards.  The bounds that the configuration does not enforce are
    hypotheses: the thresholds of the zones are below [2^60], and the block times
    of the zones, [sentinel_block_ttl] and [sentinel_pow_ttl] do not carry the
    time [T] past the end of [time_t]. *)
Theorem request_processing_is_safe T env r lcf slot w :
  world_ok (en_now env) w -> world_fits T w -> lcf_ok lcf -> 0 <= en_now env <= T ->
  r_sockaddr r <> None -> (forall t, slot <> SlotTarpit t) ->
  T + pow_ttl_of (lcf_pow lcf) < 2 ^ 63 -> T + block_ttl lcf < 2 ^ 63 ->
  exists rc slot' w' ef res,
    ngx_sentinel_preaccess_handler env r lcf slot w = Some (rc, slot', w', ef, res) /\
    world_ok (en_now env) w' /\
    forall later, en_now env <= later <= T ->
      exists w'', ngx_sentinel_log_handler later r lcf w' = Some (NGX_OK, w'') /\
        world_ok later w''.
Proof. apply handlers_total. Qed.

(** A computed context on the way of a handler result. *)
Lemma preaccess_cases env r lcf w rc slot w' ef res :
  world_ok (en_now env) w -> lcf_ok lcf -> 0 <= en_now env ->
  ngx_sentinel_preaccess_handler env r lcf SlotEmpty w = Some (rc, slot, w', ef, res) ->
  (rc = NGX_DECLINED /\ ef = no_effects /\ slot = SlotEmpty /\ w' = w) \/
  exists c w1, ngx_sentinel_get_ctx env r lcf SlotEmpty w = Some (Some c, SlotCtx c, w1, res) /\
    same_outside w w1 /\ ctx_describes w lcf r (en_now env) c /\
    let w2 := with_metrics w1 (sentinel_metrics_record (wd_metrics w1) (cx_inputs c)
                                 (cx_verdict c) (shadow lcf)) in
    if shadow lcf =? 0 then enforce env r lcf c w2 = Some (rc, slot, w', ef)
    else rc = NGX_DECLINED /\ ef = no_effects /\ slot = SlotCtx c /\ w' = w2.
Proof.
  intros Hw Hl Hnow. unfold ngx_sentinel_preaccess_handler.
  destruct (enabled lcf =? 0); [intros [= <- <- <- <- _]; by left|].
  destruct (en_ctx_alloc env) eqn:Ea.
  2: { unfold ngx_sentinel_get_ctx. rewrite Ea. cbn [negb]. intros [= <- <- <- <- _]. by left. }
  destruct (get_ctx_total env r lcf w Hw Hl Hnow Ea) as (c & w1 & res1 & E & _ & Hs & Hd).
  rewrite E. intros Hrest. right. exists c, w1.
  destruct (shadow lcf =? 0); cbn [negb] in Hrest.
  - destruct (enforce _ _ _ _ _) as [[[[rc1 slot1] w2] ef1]|] eqn:Ee; [|done].
    injection Hrest as <- <- <- <- <-. by split_and!.
  - injection Hrest as <- <- <- <- <-. by split_and!.
Qed.

(** C6. A trusted client is never refused or slowed down: with three positive
    thresholds, when the address is on the allow list, no CrowdSec decision is in
    force for it and the PREACCESS handler computes the context of the request,
    it passes the request on whatever the other signals say, starts no challenge,
    no throttling and no tarpit, and publishes no ban.  (A threshold of 0 catches
    the score 0 of a trusted client too.) *)
Theorem trusted_client_is_never_refused env r lcf w rc slot w' ef res :
  world_ok (en_now env) w -> lcf_ok lcf -> 0 <= en_now env ->
  0 < thr_challenge (lcf_threshold lcf) -> 0 < thr_tarpit (lcf_threshold lcf) ->
  0 < thr_block (lcf_threshold lcf) ->
  sentinel_allowlist_signal (Some r) (Some lcf) = true ->
  client_decision w lcf r (en_now env) = None ->
  ngx_sentinel_preaccess_handler env r lcf SlotEmpty w = Some (rc, slot, w', ef, res) ->
  rc = NGX_DECLINED /\ ef = no_effects /\ wd_conns w' = wd_conns w /\
  wd_redis w' = wd_redis w /\ wd_sink w' = wd_sink w.
Proof.
  intros Hw Hl Hnow Hc Ht Hb Hallow Hcs Hpre.
  destruct (preaccess_cases _ _ _ _ _ _ _ _ _ Hw Hl Hnow Hpre)
    as [(-> & -> & _ & ->)|(c & w1 & _ & (Hconns & _ & Hredis & Hsink) & Hd & Hrest)]; [done|].
  destruct Hd as (Hhit & Hal & Hscore & Hverdict).
  rewrite Hcs, bool_decide_false in Hhit by (by intros [? [=]]).
  rewrite Hallow in Hal.
  assert (short_circuit (cx_inputs c) = true) as Hsc.
  { unfold short_circuit. rewrite Hal, Hhit. cbn. by rewrite orb_true_r. }
  rewrite Hsc in Hscore. rewrite Hscore in Hverdict.
  assert (cx_verdict c = VERDICT_ALLOW) as Hv.
  { rewrite Hverdict. unfold sentinel_score_to_verdict.
    by rewrite !(proj2 (Z.leb_gt _ _)) by done. }
  cbn zeta in Hrest. destruct (shadow lcf =? 0).
  - unfold enforce in Hrest. rewrite Hv in Hrest. injection Hrest as <- _ <- <-. by split_and!.
  - destruct Hrest as (-> & -> & _ & ->). by split_and!.
Qed.

Lemma block_push_hit env r lcf w : block_push env r lcf true w = w.
Proof. unfold block_push. cbn [negb andb]. rewrite !andb_false_r. by destruct w. Qed.

Lemma softban_outside env r lcf w w' :
  block_softban env r lcf w = Some w' -> same_outside w w'.
Proof.
  unfold block_softban. destruct (_ && _ && _); [|by intros [= <-]].
  destruct (sentinel_shm_softban_set _ _ _ _) as [[rc z]|]; [|done]. by intros [= <-].
Qed.

(** What a push does to a ring: the address is enqueued when the feature is on
    ([on] is the Redis host or the path of the sink), the worker is armed for the
    ring of this location, and the address fits an entry. *)
Definition ban_pushed (on : bytes) (armed zone : option nat) (r : ring) (ip : bytes) (expiry : Z)
    : ring :=
  if decide (on <> [] /\ is_Some zone /\ armed = zone /\
             (0 < length ip < NGX_SOCKADDR_STRLEN)%nat)
  then ring_enqueue r (PushEntry ip NGX_SENTINEL_CS_BAN expiry) else r.

Lemma redis_push_spec armed conf r ip expiry :
  redis_host conf <> [] ->
  sentinel_redis_enqueue_ban armed conf r ip NGX_SENTINEL_CS_BAN expiry
    = ban_pushed (redis_host conf) armed (redis_push_zone conf) r ip expiry.
Proof.
  intros Hon. unfold sentinel_redis_enqueue_ban, ban_pushed.
  destruct armed as [a|], (redis_push_zone conf) as [z|];
    try by rewrite decide_False by (intros (_ & Hz & He & _); first [done|by destruct Hz as [? [=]]]).
  destruct (Nat.eqb_spec a z) as [->|Hne]; cbn [negb];
    [|rewrite decide_False; [done|]; intros (_ & _ & [= ?] & _); done].
  destruct (Nat.eqb_spec (length ip) 0), (Nat.leb_spec NGX_SOCKADDR_STRLEN (length ip));
    cbn [orb]; case_decide as Hd; try done; (destruct Hd as (_ & _ & _ & ?); lia) ||
    (destruct Hd; split_and!; first [done|lia|by eexists]).
Qed.

Lemma sink_push_spec armed conf r ip expiry :
  cs_sink_path conf <> [] ->
  sentinel_cssink_enqueue_ban armed conf r ip NGX_SENTINEL_CS_BAN expiry
    = ban_pushed (cs_sink_path conf) armed (cs_sink_zone conf) r ip expiry.
Proof.
  intros Hon. unfold sentinel_cssink_enqueue_ban, ban_pushed.
  destruct armed as [a|], (cs_sink_zone conf) as [z|];
    try by rewrite decide_False by (intros (_ & Hz & He & _); first [done|by destruct Hz as [? [=]]]).
  destruct (Nat.eqb_spec a z) as [->|Hne]; cbn [negb];
    [|rewrite decide_False; [done|]; intros (_ & _ & [= ?] & _); done].
  destruct (Nat.eqb_spec (length ip) 0), (Nat.leb_spec NGX_SOCKADDR_STRLEN (length ip));
    cbn [orb]; case_decide as Hd; try done; (destruct Hd as (_ & _ & _ & ?); lia) ||
    (destruct Hd; split_and!; first [done|lia|by eexists]).
Qed.

Lemma ban_pushed_off on armed zone r ip expiry :
  on = [] \/ ip = [] -> ban_pushed on armed zone r ip expiry = r.
Proof.
  intros Hor. unfold ban_pushed. apply decide_False.
  intros (? & _ & _ & ?). destruct Hor as [->| ->]; [done|]. simpl in *. lia.
Qed.

(** The two pushes of a ban that no decision table holds. *)
Lemma block_push_local env r lcf w :
  let w' := block_push env r lcf false w in
  wd_redis w' = ((wd_redis w).1,
    ban_pushed (redis_host (lcf_redis lcf)) (wd_redis w).1 (redis_push_zone (lcf_redis lcf))
      (wd_redis w).2 (r_addr_text r) (en_now env + redis_ttl (lcf_redis lcf))) /\
  wd_sink w' = ((wd_sink w).1,
    ban_pushed (cs_sink_path (lcf_sink lcf)) (wd_sink w).1 (cs_sink_zone (lcf_sink lcf))
      (wd_sink w).2 (r_addr_text r) (en_now env + cs_sink_ttl (lcf_sink lcf))).
Proof.
  unfold block_push. cbn [negb andb wd_redis wd_sink].
  destruct (Nat.eqb_spec (length (r_addr_text r)) 0) as [Ea%nil_length_inv|Ea]; cbn [negb].
  { rewrite !andb_false_r, !ban_pushed_off by by right. by destruct (wd_redis w), (wd_sink w). }
  rewrite !andb_true_r. split.
  - destruct (Nat.eqb_spec (length (redis_host (lcf_redis lcf))) 0) as [E%nil_length_inv|E]; cbn [negb].
    + rewrite ban_pushed_off by by left. by destruct (wd_redis w).
    + by rewrite redis_push_spec by (by intros E2; rewrite E2 in E).
  - destruct (Nat.eqb_spec (length (cs_sink_path (lcf_sink lcf))) 0) as [E%nil_length_inv|E]; cbn [negb].
    + rewrite ban_pushed_off by by left. by destruct (wd_sink w).
    + by rewrite sink_push_spec by (by intros E2; rewrite E2 in E).
Qed.

(** The verdict is enforced and is BLOCK, and no decision of the tables is in force:
    the ban originates here. *)
Definition bans_locally (w : world) (lcf : loc_conf) (r : request) (now : Z) (slot : ctx_slot)
    : Prop :=
  shadow lcf = 0 /\ client_decision w lcf r now = None /\
  exists c, slot = SlotCtx c /\ cx_verdict c = VERDICT_BLOCK.

(** C9. A ban is published by the host it originates from, and by no other.  For a
    request whose context is computed by the PREACCESS handler: when the verdict
    left in the module context is an enforced BLOCK and no CrowdSec decision
    (loaded from the feed or pulled from a peer) is in force for the client, the
    request is refused with the configured status and its address is pushed to
    Redis and to the decision sink, each with its configured lifetime and exactly
    when the feature is on, the worker is armed for the ring of the location and
    the address is not empty and fits an entry; in every other case (an external
    decision, another verdict, shadow mode) both rings are left as they were, so
    no ban circulates. *)
Theorem external_ban_is_not_republished env r lcf w rc slot w' ef res :
  world_ok (en_now env) w -> lcf_ok lcf -> 0 <= en_now env ->
  ngx_sentinel_preaccess_handler env r lcf SlotEmpty w = Some (rc, slot, w', ef, res) ->
  (~ bans_locally w lcf r (en_now env) slot ->
   wd_redis w' = wd_redis w /\ wd_sink w' = wd_sink w) /\
  (bans_locally w lcf r (en_now env) slot ->
   rc = NGX_HTTP (block_status lcf) /\
   wd_redis w' = ((wd_redis w).1,
     ban_pushed (redis_host (lcf_redis lcf)) (wd_redis w).1 (redis_push_zone (lcf_redis lcf))
       (wd_redis w).2 (r_addr_text r) (en_now env + redis_ttl (lcf_redis lcf))) /\
   wd_sink w' = ((wd_sink w).1,
     ban_pushed (cs_sink_path (lcf_sink lcf)) (wd_sink w).1 (cs_sink_zone (lcf_sink lcf))
       (wd_sink w).2 (r_addr_text r) (en_now env + cs_sink_ttl (lcf_sink lcf)))).
Proof.
  intros Hw Hl Hnow Hpre.
  destruct (preaccess_cases _ _ _ _ _ _ _ _ _ Hw Hl Hnow Hpre)
    as [(_ & _ & -> & ->)|(c & w1 & _ & (_ & _ & Hredis & Hsink) & (Hhit & _) & Hrest)].
  { split; [done|]. by intros (_ & _ & ? & [=] & _). }
  cbn zeta in Hrest. destruct (Z.eqb_spec (shadow lcf) 0) as [Hsh|Hsh].
  2: { destruct Hrest as (_ & _ & _ & ->). split; [done|]. by intros (? & _). }
  unfold enforce in Hrest. destruct (cx_verdict c) eqn:Ev.
  - injection Hrest as _ <- <- _. split; [done|]. intros (_ & _ & ? & [= <-] & ?). congruence.
  - destruct (sentinel_pow_dispatch _ _ _ _); [|done]. injection Hrest as _ <- <- _.
    split; [done|]. intros (_ & _ & ? & [= <-] & Hv). cbn in Hv. congruence.
  - assert (wd_redis w' = wd_redis w /\ wd_sink w' = wd_sink w /\
      forall c', slot = SlotCtx c' -> cx_verdict c' = VERDICT_TARPIT) as (? & ? & Hv).
    { repeat (case_match; try done); injection Hrest as _ <- <- _;
        (split_and!; [done|done|]); intros c' [= <-]; done. }
    split; [done|]. intros (_ & _ & c' & Hc & Hb). specialize (Hv c' Hc). congruence.
  - destruct (block_softban env r lcf _) as [w3|] eqn:Eb; [|done].
    apply softban_outside in Eb as (_ & _ & Er & Es). cbn in Er, Es.
    injection Hrest as <- <- <- _. rewrite Hredis in Er. rewrite Hsink in Es.
    destruct (client_decision w lcf r (en_now env)) as [d|] eqn:Ed.
    + rewrite Hhit, bool_decide_true, block_push_hit by by eexists. split; [done|].
      intros (_ & Hd & _). congruence.
    + rewrite Hhit, bool_decide_false by (by intros [? [=]]). split.
      * intros Hn. destruct Hn. split_and!; [done|done|by exists c].
      * intros _. split; [done|]. rewrite <- Er, <- Es. apply block_push_local.
Qed.

(** C8. Shadow mode only observes: the request always passes, no ban, throttle,
    challenge or tarpit is applied to it, no counter slot and no ring changes,
    and the shared zones are exactly what reading the signals left. *)
Theorem shadow_mode_only_observes env r lcf w rc slot w' ef res :
  world_ok (en_now env) w -> lcf_ok lcf -> 0 <= en_now env -> shadow lcf <> 0 ->
  ngx_sentinel_preaccess_handler env r lcf SlotEmpty w = Some (rc, slot, w', ef, res) ->
  rc = NGX_DECLINED /\ ef = no_effects /\ wd_conns w' = wd_conns w /\
  wd_redis w' = wd_redis w /\ wd_sink w' = wd_sink w /\
  (w' = w \/ exists c w1 m,
     ngx_sentinel_get_ctx env r lcf SlotEmpty w = Some (Some c, SlotCtx c, w1, res) /\
     slot = SlotCtx c /\ w' = with_metrics w1 m).
Proof.
  intros Hw Hl Hnow Hsh Hpre.
  destruct (preaccess_cases _ _ _ _ _ _ _ _ _ Hw Hl Hnow Hpre)
    as [(-> & -> & _ & ->)|(c & w1 & Hctx & (Hconns & _ & Hredis & Hsink) & _ & Hrest)].
  { split_and!; try done. by left. }
  cbn zeta in Hrest. rewrite (proj2 (Z.eqb_neq _ _)) in Hrest by done.
  destruct Hrest as (-> & -> & -> & ->). split_and!; try done.
  right. by do 3 eexists.
Qed.

(** C21. A challenged client passes only with a signed cookie or a solved puzzle,
    or on one of two failures: with the challenge configured, enforcing the verdict
    CHALLENGE always answers, changes nothing of the shared memory, and lets the
    request through exactly when the request carries an unexpired cookie signed
    for this address, or a nonce that solves this address's current puzzle, or no
    challenge can be computed at all, or the page cannot be allocated (the handler
    passes every code but [NGX_DONE] on); otherwise the page takes the request
    over. *)
Theorem pow_pass_needs_cookie_or_work env r lcf c w :
  let conf := lcf_pow lcf in
  let now := en_now env in
  cx_verdict c = VERDICT_CHALLENGE ->
  pow_enabled conf <> 0 -> pow_key conf <> [] -> r_sockaddr r <> None ->
  0 <= now -> now + pow_ttl_of conf < 2 ^ 63 ->
  exists rc slot ef, enforce env r lcf c w = Some (rc, slot, w, ef) /\
    (rc = NGX_DECLINED \/ rc = NGX_DONE) /\
    (rc = NGX_DECLINED <->
       valid_cookie r conf now \/ solved r conf now \/
       sentinel_pow_challenge r conf now = Some None \/ pw_page_alloc (en_pow env) = false).
Proof.
  cbv zeta. intros Hv Hen Hkey Hr Hnow Hmax. unfold enforce. rewrite Hv.
  destruct (pow_dispatch_passes (en_pow env) r (lcf_pow lcf) (en_now env))
    as (p & -> & Hp); [done..|].
  do 3 eexists. split; [reflexivity|]. rewrite <- Hp.
  case_bool_decide as E; (split; [by auto|]); by split.
Qed.

(** C40. The variables of a tarpitted request read the wrong object: the tarpit
    replaces the module context of the request by its own, so once a tarpit has
    started every variable of the module (a log format uses them) interprets
    the tarpit context as a request context. *)
Theorem variables_after_tarpit_are_confused env r lcf c w conns :
  cx_verdict c = VERDICT_TARPIT -> throttle_rate lcf <= 0 -> shield lcf = 0 ->
  tarpit_max_conns (lcf_tarpit lcf) <> 0 -> wd_conns w = Some conns ->
  reserve_check conns (tarpit_max_conns (lcf_tarpit lcf)) = true ->
  ts_alloc (en_tarpit env) = true -> ts_cleanup (en_tarpit env) = true ->
  ts_header (en_tarpit env) = NGX_OK ->
  exists slot w' ef, enforce env r lcf c w = Some (NGX_DONE, slot, w', ef) /\
    forall f env' w2, var_of f env' r lcf slot w2 = None.
Proof.
  intros Hv Hthr Hsh Hmax Hconns Hck Ha Hcl Hh. unfold enforce.
  rewrite Hv, Hsh, (proj2 (Z.ltb_ge 0 (throttle_rate lcf))) by done. cbn [Z.eqb negb].
  rewrite (proj2 (Z.eqb_neq (tarpit_max_conns (lcf_tarpit lcf)) 0)) by done.
  unfold sentinel_tarpit_start, sentinel_tarpit_reserve. rewrite Hconns.
  rewrite (proj2 (Z.eqb_neq (tarpit_max_conns (lcf_tarpit lcf)) 0)) by done.
  cbn [reserve_loop]. rewrite Hck. cbn [negb].
  rewrite !bool_decide_false by done. rewrite Ha, Hcl, Hh. cbn [negb].
  do 3 eexists. split; [reflexivity|]. done.
Qed.
End Props.

(** ** Witnesses *)
Import Concrete.

Definition demo_req_env : req_env :=
  ReqEnv true 1000 1000000 0 false true true true demo_pow_env demo_env 1 true.

(** A decision of the feed against the client of the demo request. *)
Definition demo_table : shctx :=
  match crowdsec_upsert_locked (SHA256 (lit "192.0.2.7")) 5000 NGX_SENTINEL_CS_BAN 1 900 false
          demo_empty with
  | Some (_, sh) => sh
  | None => demo_empty
  end.

Definition demo_world (table : shctx) : world :=
  World [Zone demo_conf (Some demo_one)] [] [Zone (ZoneConf 60 0 0) (Some table)] []
    (Some [0; 0]) None (Some 1%nat, ring_init) (None, ring_init).

(** The demo configuration with a CrowdSec zone and Redis, an allow list, and a
    mode. *)
Definition demo_core_lcf (allow : list sockaddr) (mode : Z) : loc_conf :=
  LocConf 1 mode 1 (Some 0%nat) (Some None) [] default_threshold default_weights
    (CsConf (Some (Some 0%nat)) [] 10 3600 600 16777216) [] allow None []
    demo_deny (DenyConf None []) (DenyConf None []) None None
    (FcrdnsConf (Some None) [] 3600 []) demo_tarpit 403 0 0 0
    (PowConf 0 (Some []) 16 3600)
    (RedisConf (lit "192.0.2.53") 6379 (Some []) (Some (lit "sentinel")) 10 3600 (Some 1%nat))
    (SinkConf [] 10 3600 (Some (lit "sentinel/http-abuse")) None).

Lemma demo_table_wf : wf (fun _ => True) demo_table.
Proof.
  destruct (crowdsec_upsert_abs demo_empty (SHA256 (lit "192.0.2.7")) 5000
    NGX_SENTINEL_CS_BAN 1 900 false) as (rc & sh' & E & Hwf & _);
    [apply wf_empty|by vm_compute|].
  unfold demo_table. by rewrite E.
Qed.

Lemma demo_world_ok table :
  wf (fun _ => True) table -> world_ok (en_now demo_req_env) (demo_world table).
Proof.
  intros Ht. split_and!; cbn [demo_world wd_zones wd_vel wd_cs wd_fcrdns];
    repeat first [apply Forall_nil_2 | apply Forall_cons_2]; [|exact Ht].
  split_and!; [apply demo_conf_ok|by vm_compute|apply demo_one_wf].
Qed.

Lemma demo_world_fits table : world_fits 2000000 (demo_world table).
Proof. split; repeat constructor. Qed.

Lemma request_processing_is_safe_witness :
  exists rc slot w' ef res,
    ngx_sentinel_preaccess_handler demo_req_env demo_request (demo_core_lcf [] 0) SlotEmpty
      (demo_world demo_table) = Some (rc, slot, w', ef, res).
Proof.
  destruct (request_processing_is_safe 2000000 demo_req_env demo_request (demo_core_lcf [] 0)
    SlotEmpty (demo_world demo_table)) as (rc & slot & w' & ef & res & E & _ & _).
  - apply demo_world_ok, demo_table_wf.
  - apply demo_world_fits.
  - split; [apply default_weights_ok|done].
  - done.
  - done.
  - done.
  - by vm_compute.
  - by vm_compute.
  - by exists rc, slot, w', ef, res.
Defined.

(** The handler's result on a concrete input, without evaluating the world. *)
Lemma demo_result lcf table :
  lcf_ok lcf -> wf (fun _ => True) table -> pow_ttl_of (lcf_pow lcf) = 3600 -> block_ttl lcf = 0 ->
  exists rc slot w' ef res,
    ngx_sentinel_preaccess_handler demo_req_env demo_request lcf SlotEmpty (demo_world table)
      = Some (rc, slot, w', ef, res).
Proof.
  intros Hl Ht Hp Hb.
  destruct (preaccess_total demo_req_env demo_request lcf SlotEmpty (demo_world table))
    as (rc & slot & w' & ef & res & E & _); try done.
  - by apply demo_world_ok.
  - apply (world_fits_mono 2000000); [by vm_compute|apply demo_world_fits].
  - rewrite Hp. by vm_compute.
  - rewrite Hb. by vm_compute.
  - by exists rc, slot, w', ef, res.
Qed.

Lemma demo_lcf_ok allow mode : lcf_ok (demo_core_lcf allow mode).
Proof. split; [apply default_weights_ok|done]. Qed.

Lemma trusted_client_is_never_refused_witness :
  exists slot w' res,
    ngx_sentinel_preaccess_handler demo_req_env demo_request
      (demo_core_lcf [AF_INET 3221225991] 0) SlotEmpty (demo_world demo_empty)
      = Some (NGX_DECLINED, slot, w', no_effects, res).
Proof.
  destruct (demo_result (demo_core_lcf [AF_INET 3221225991] 0) demo_empty)
    as (rc & slot & w' & ef & res & E); [apply demo_lcf_ok|apply wf_empty|done|done|].
  destruct (trusted_client_is_never_refused demo_req_env demo_request (demo_core_lcf [AF_INET 3221225991] 0)
    (demo_world demo_empty) rc slot w' ef res
    (demo_world_ok demo_empty (wf_empty _ _)) (demo_lcf_ok [AF_INET 3221225991] 0)
    ltac:(done) ltac:(done) ltac:(done) ltac:(done) ltac:(by vm_compute) ltac:(by vm_compute) E)
    as (-> & -> & _).
  by exists slot, w', res.
Defined.

Lemma external_ban_is_not_republished_witness :
  exists rc slot w' ef res,
    ngx_sentinel_preaccess_handler demo_req_env demo_request (demo_core_lcf [] 0) SlotEmpty
      (demo_world demo_table) = Some (rc, slot, w', ef, res) /\
    wd_redis w' = (Some 1%nat, ring_init).
Proof.
  destruct (demo_result (demo_core_lcf [] 0) demo_table)
    as (rc & slot & w' & ef & res & E); [apply demo_lcf_ok|apply demo_table_wf|done|done|].
  exists rc, slot, w', ef, res. split; [exact E|].
  destruct (external_ban_is_not_republished demo_req_env demo_request (demo_core_lcf [] 0)
    (demo_world demo_table) rc slot w' ef res
    (demo_world_ok demo_table demo_table_wf) (demo_lcf_ok [] 0) ltac:(done) E) as [Hd _].
  destruct Hd as [Hr _]; [|exact Hr].
  assert (client_decision (demo_world demo_table) (demo_core_lcf [] 0) demo_request
            (en_now demo_req_env)
          = Some 1) as Ed by (vm_compute; reflexivity).
  intros (_ & Hn & _). rewrite Ed in Hn. discriminate Hn.
Defined.

Lemma shadow_mode_only_observes_witness :
  exists slot w' res,
    ngx_sentinel_preaccess_handler demo_req_env demo_request (demo_core_lcf [] 1) SlotEmpty
      (demo_world demo_table) = Some (NGX_DECLINED, slot, w', no_effects, res).
Proof.
  destruct (demo_result (demo_core_lcf [] 1) demo_table)
    as (rc & slot & w' & ef & res & E); [apply demo_lcf_ok|apply demo_table_wf|done|done|].
  destruct (shadow_mode_only_observes demo_req_env demo_request (demo_core_lcf [] 1)
    (demo_world demo_table) rc slot w' ef res
    (demo_world_ok demo_table demo_table_wf) (demo_lcf_ok [] 1) ltac:(done) ltac:(done) E)
    as (-> & -> & _).
  by exists slot, w', res.
Defined.

(** The demo configuration with the challenge on, and a challenged client that
    brings neither a cookie nor a solution. *)
Definition demo_pow_lcf : loc_conf :=
  LocConf 1 0 1 (Some 0%nat) (Some None) [] default_threshold default_weights
    (CsConf (Some (Some 0%nat)) [] 10 3600 600 16777216) [] [] None []
    demo_deny (DenyConf None []) (DenyConf None []) None None
    (FcrdnsConf (Some None) [] 3600 []) demo_tarpit 403 0 0 0 demo_pow
    (RedisConf [] 6379 (Some []) (Some (lit "sentinel")) 10 3600 None)
    (SinkConf [] 10 3600 (Some (lit "sentinel/http-abuse")) None).

Lemma pow_pass_needs_cookie_or_work_witness :
  exists slot ef,
    enforce demo_req_env (pow_request (AF_INET 3221225991) None) demo_pow_lcf
      (ReqCtx inputs_none 45 VERDICT_CHALLENGE false false POW_OFF) (demo_world demo_empty)
      = Some (NGX_DONE, slot, demo_world demo_empty, ef).
Proof.
  destruct (pow_pass_needs_cookie_or_work demo_req_env (pow_request (AF_INET 3221225991) None)
    demo_pow_lcf (ReqCtx inputs_none 45 VERDICT_CHALLENGE false false POW_OFF)
    (demo_world demo_empty)) as (rc & slot & ef & E & [->| ->] & Hiff);
    [done|done|done|done|done|by vm_compute| |by exists slot, ef].
  exfalso. destruct (proj1 Hiff eq_refl) as [(d & m & e & Ep & _)|[(ch & n & _ & En & _)|[Ec|Ea]]].
  - discriminate Ep.
  - discriminate En.
  - by vm_compute in Ec.
  - discriminate Ea.
Defined.

Definition demo_tarpit_ctx : req_ctx :=
  ReqCtx inputs_none 65 VERDICT_TARPIT false false POW_OFF.

Lemma variables_after_tarpit_are_confused_witness :
  exists slot w' ef,
    enforce demo_req_env demo_request (demo_core_lcf [] 0) demo_tarpit_ctx
      (demo_world demo_table) = Some (NGX_DONE, slot, w', ef) /\
    ngx_sentinel_var_verdict demo_req_env demo_request (demo_core_lcf [] 0) slot w' = None.
Proof.
  destruct (variables_after_tarpit_are_confused demo_req_env demo_request (demo_core_lcf [] 0)
    demo_tarpit_ctx (demo_world demo_table) [0; 0]) as (slot & w' & ef & E & Hv);
    [done|done|done|done|done|by vm_compute|done|done|done|].
  exists slot, w', ef. split; [exact E|]. apply Hv.
Defined.
