(* ===== verification/Conf.v ===== *)
(** * Conf.v: creating and merging the configuration

    The main configuration with its arrays of zone declarations, the location
    configuration before any directive, and [ngx_sentinel_merge_loc_conf] of
    [ngx_http_sentinel_module.c] with its bounds checks and its zone bindings.

    The elements of a zone array live in a heap keyed by the array's block and
    the index in it, because a shared-memory zone keeps a pointer to an element
    while [ngx_array_push] may move the array to a new block. *)
From coqutil Require Import Datatypes.RecordSetters.
From S2P Require Import Prelude Types Ngx Http Shm Fcrdns.
Import DoubleBraceUpdate.

(** ** Results of configuration functions *)

Inductive conf_error : Type :=
  | NGX_CONF_ERROR            (** logged by the handler *)
  | conf_is_duplicate         (** ["is duplicate"] *)
  | conf_slot_error.          (** an error of one of nginx's own slot functions *)

Inductive conf_result (A : Type) : Type :=
  | conf_ok (a : A)
  | conf_err (e : conf_error).
Arguments conf_ok {A} a.
Arguments conf_err {A} e.

Notation "'conf!' x := e 'in' k" :=
  (match e with conf_ok x => k | conf_err err => conf_err err end)
  (at level 10, x pattern at level 0, e at level 100, k at level 200) : sentinel_scope.

(** [if (bad) { ngx_conf_log_error(...); return NGX_CONF_ERROR; }] *)
Notation "'reject' b ; k" := (if b then conf_err NGX_CONF_ERROR else k)
  (at level 10, b at level 99, k at level 200) : sentinel_scope.

(** ** Shared-memory zones of the cycle *)

(** An element of a zone array: the block of the array and the index. *)
Notation elt_ptr := (nat * nat)%type.

Inductive shm_init : Type :=
  | init_shm_zone | init_redis_zone | init_cssink_zone | init_tarpit_zone.

Record shm_zone : Type := ShmZone {
  sz_name : bytes;
  sz_size : Z;
  sz_init : option shm_init;
  sz_data : option elt_ptr
}.

(** ** nginx's configuration functions *)
Inductive cidr_family : Type := CIDR_INET | CIDR_INET6 | CIDR_OTHER.

Class NgxConf `{NgxHttp} : Type := {
  ngx_pagesize : Z;
  ngx_conf_merge_value : Z -> Z -> Z -> Z;
  ngx_conf_merge_size_value : Z -> Z -> Z -> Z;
  ngx_conf_merge_ptr_value : option zone_ref -> option zone_ref -> zone_ref -> option zone_ref;
  ngx_conf_merge_str_value : option bytes -> option bytes -> bytes -> option bytes;
  (** The slot functions: the value of the field and the argument of the
      directive; [None] is an error string. *)
  ngx_conf_set_flag_slot : Z -> bytes -> option Z;
  ngx_conf_set_num_slot : Z -> bytes -> option Z;
  ngx_conf_set_sec_slot : Z -> bytes -> option Z;
  ngx_conf_set_size_slot : Z -> bytes -> option Z;
  ngx_conf_set_str_slot : option bytes -> bytes -> option (option bytes);
  (** [None] is [NGX_ERROR]. *)
  ngx_parse_size : bytes -> option Z;
  ngx_ptocidr : bytes -> option cidr;
  family_of : cidr -> cidr_family;
  cidr_in : cidr -> Z * Z;
  cidr_in6 : cidr -> bytes * bytes;
  ngx_radix_tree_create : option radix32;
  ngx_radix_tree_create6 : option radix128;
  ngx_radix32tree_insert : radix32 -> Z -> Z -> Z -> option radix32;
  ngx_radix128tree_insert : radix128 -> bytes -> bytes -> Z -> option radix128;
  ngx_http_compile_complex_value : bytes -> option complex_value;
  (** The index of the zone of that name, created if there is none. *)
  ngx_shared_memory_add : list shm_zone -> bytes -> Z -> option (nat * list shm_zone);
  ngx_align : Z -> Z -> Z;
  (** The sizes of [ngx_sentinel_redis_shctx_t] and of
      [ngx_sentinel_cssink_shctx_t], which depend on the layout. *)
  sizeof_redis_shctx : Z;
  sizeof_cssink_shctx : Z;
  (** Whether pushing onto an array of [nelts] elements moves it, given the
      number of elements it was created for. *)
  ngx_array_moves : nat -> nat -> bool
}.

Class NgxConfLaws `{NgxConf} : Prop := {
  pagesize_pos : 0 < ngx_pagesize;
  merge_value_eq : forall c p d, ngx_conf_merge_value c p d =
    if c =? NGX_CONF_UNSET then if p =? NGX_CONF_UNSET then d else p else c;
  merge_size_value_eq : forall c p d, ngx_conf_merge_size_value c p d =
    if c =? NGX_CONF_UNSET_SIZE then if p =? NGX_CONF_UNSET_SIZE then d else p else c;
  merge_ptr_value_eq : forall c p d, ngx_conf_merge_ptr_value c p d =
    match c, p with Some _, _ => c | None, Some _ => p | None, None => Some d end;
  merge_str_value_eq : forall c p d, ngx_conf_merge_str_value c p d =
    match c, p with Some _, _ => c | None, Some _ => p | None, None => Some d end;
  flag_slot_range : forall c a v, ngx_conf_set_flag_slot c a = Some v -> v = 0 \/ v = 1;
  num_slot_range : forall c a v, ngx_conf_set_num_slot c a = Some v -> 0 <= v < 2 ^ 63;
  sec_slot_range : forall c a v, ngx_conf_set_sec_slot c a = Some v -> 0 <= v < 2 ^ 63;
  size_slot_range : forall c a v, ngx_conf_set_size_slot c a = Some v -> 0 <= v < 2 ^ 63;
  parse_size_range : forall a v, ngx_parse_size a = Some v -> 0 <= v < 2 ^ 63;
  (** An existing zone is returned as it is, a new one is added at the end. *)
  shm_add_spec : forall l name size i l',
    ngx_shared_memory_add l name size = Some (i, l') ->
    (exists z, l !! i = Some z /\ sz_name z = name /\ l' = l) \/
    (i = length l /\ l' = l ++ [ShmZone name size None None] /\
     forall z, z ∈ l -> sz_name z <> name)
}.

Section Conf.
Context `{NgxSlab} `{NgxConf}.

(** ** The main configuration *)

Record zone_elt : Type := ZoneElt {
  ze_name : bytes;
  ze_zone : zone;
  ze_shm : option nat
}.

(** An array: its block, its number of elements and its initial capacity. *)
Record zone_array : Type := ZoneArray {
  za_block : nat;
  za_nelts : nat;
  za_init : nat
}.

(** [ngx_sentinel_main_conf_t] *)
Record main_conf : Type := MainConf {
  zones : zone_array;
  cs_zones : zone_array;
  vel_zones : zone_array;
  fcrdns_zones : zone_array
}.

(** The state of the configuration phase: the main configuration, the elements
    of its arrays, the next free block, and the shared zones of the cycle. *)
Record conf_state : Type := ConfState {
  cf_main : main_conf;
  cf_heap : gmap elt_ptr zone_elt;
  cf_next : nat;
  cf_shm : list shm_zone
}.

Definition ngx_sentinel_create_main_conf : conf_state :=
  ConfState (MainConf (ZoneArray 0 0 4) (ZoneArray 1 0 2) (ZoneArray 2 0 2) (ZoneArray 3 0 2))
    ∅ 4 [].

(** The element [&elts[i]] of an array. *)
Definition array_elt (st : conf_state) (a : zone_array) (i : nat) : option zone_elt :=
  cf_heap st !! (za_block a, i).

(** ** The location configuration before any directive *)
Definition ngx_sentinel_create_loc_conf : loc_conf :=
  {| enabled := NGX_CONF_UNSET; shadow := NGX_CONF_UNSET; fail_open := NGX_CONF_UNSET;
     lcf_zone := None; vel_zone := None; vel_zone_name := [];
     lcf_threshold := Threshold NGX_CONF_UNSET NGX_CONF_UNSET NGX_CONF_UNSET;
     lcf_weights :=
       {| w_errrate := NGX_CONF_UNSET; w_blocked := NGX_CONF_UNSET;
          w_scanner := NGX_CONF_UNSET; w_bot := NGX_CONF_UNSET;
          w_header := NGX_CONF_UNSET; w_honeypot := NGX_CONF_UNSET;
          w_velocity := NGX_CONF_UNSET; w_asn := NGX_CONF_UNSET;
          w_coherence := NGX_CONF_UNSET; w_ja3 := NGX_CONF_UNSET;
          w_ja4 := NGX_CONF_UNSET; w_ja4t := NGX_CONF_UNSET;
          w_c2ip := NGX_CONF_UNSET; w_crowdsec := NGX_CONF_UNSET |};
     lcf_cs := CsConf None [] NGX_CONF_UNSET NGX_CONF_UNSET NGX_CONF_UNSET NGX_CONF_UNSET_SIZE;
     decoy_paths := []; allow_cidrs := []; asn_source := None; asn_list := [];
     lcf_ja3 := DenyConf None []; lcf_ja4 := DenyConf None []; lcf_ja4t := DenyConf None [];
     c2ip_tree := None; c2ip_tree6 := None;
     lcf_fcrdns := FcrdnsConf None [] NGX_CONF_UNSET [];
     lcf_tarpit := TarpitConf NGX_CONF_UNSET NGX_CONF_UNSET NGX_CONF_UNSET NGX_CONF_UNSET
                     NGX_CONF_UNSET;
     block_status := NGX_CONF_UNSET; block_ttl := NGX_CONF_UNSET;
     throttle_rate := NGX_CONF_UNSET_SIZE; shield := NGX_CONF_UNSET;
     lcf_pow := PowConf NGX_CONF_UNSET None NGX_CONF_UNSET NGX_CONF_UNSET;
     lcf_redis := RedisConf [] NGX_CONF_UNSET None None NGX_CONF_UNSET NGX_CONF_UNSET None;
     lcf_sink := SinkConf [] NGX_CONF_UNSET NGX_CONF_UNSET None None |}.

(** ** The constants of the merge *)
Definition NGX_SENTINEL_CROWDSEC_DEFAULT_INTERVAL : Z := 10.
Definition NGX_SENTINEL_CROWDSEC_MIN_INTERVAL : Z := 1.
Definition NGX_SENTINEL_CROWDSEC_MAX_INTERVAL : Z := 3600.
Definition NGX_SENTINEL_CROWDSEC_DEFAULT_TTL : Z := 3600.
Definition NGX_SENTINEL_CROWDSEC_MIN_TTL : Z := 60.
Definition NGX_SENTINEL_CROWDSEC_MAX_TTL : Z := 86400.
Definition NGX_SENTINEL_CROWDSEC_DEFAULT_STALE : Z := 600.
Definition NGX_SENTINEL_CROWDSEC_MIN_STALE : Z := 30.
Definition NGX_SENTINEL_CROWDSEC_MAX_STALE : Z := 86400.
Definition NGX_SENTINEL_CROWDSEC_DEFAULT_MAXBYTES : Z := 16 * 1024 * 1024.
Definition NGX_SENTINEL_CROWDSEC_MAX_MAXBYTES : Z := 64 * 1024 * 1024.
Definition NGX_SENTINEL_REDIS_DEFAULT_INTERVAL : Z := 10.
Definition NGX_SENTINEL_REDIS_MIN_INTERVAL : Z := 1.
Definition NGX_SENTINEL_REDIS_MAX_INTERVAL : Z := 3600.
Definition NGX_SENTINEL_REDIS_DEFAULT_TTL : Z := 3600.
Definition NGX_SENTINEL_REDIS_MIN_TTL : Z := 60.
Definition NGX_SENTINEL_REDIS_MAX_TTL : Z := 86400.
Definition NGX_SENTINEL_REDIS_DEFAULT_PORT : Z := 6379.
Definition NGX_SENTINEL_REDIS_DEFAULT_PREFIX : bytes := lit "sentinel".
Definition NGX_SENTINEL_CSSINK_INTERVAL : Z := 10.
Definition NGX_SENTINEL_CSSINK_TTL : Z := 3600.
Definition NGX_SENTINEL_CSSINK_SCENARIO : bytes := lit "sentinel/http-abuse".
Definition NGX_SENTINEL_TARPIT_MAX_MSEC : Z := 600000.
Definition NGX_SENTINEL_DEFAULT_BLOCK_STATUS : Z := 403.

(** [v < lo || v > hi] *)
Definition outside (lo hi v : Z) : bool := (v <? lo) || (hi <? v).

(** ** Merging, section by section *)

Definition merge_flags (prev conf : loc_conf) : loc_conf :=
  conf {{ enabled := ngx_conf_merge_value (enabled conf) (enabled prev) 0;
          shadow := ngx_conf_merge_value (shadow conf) (shadow prev) 1;
          fail_open := ngx_conf_merge_value (fail_open conf) (fail_open prev) 1 }}.

Definition merge_threshold (prev conf : threshold) : threshold :=
  let merge f := ngx_conf_merge_value (f conf) (f prev) (f default_threshold) in
  Threshold (merge thr_challenge) (merge thr_tarpit) (merge thr_block).

Definition merge_weights (prev conf : weights) : weights :=
  let merge f := ngx_conf_merge_value (f conf) (f prev) (f default_weights) in
  {| w_errrate := merge w_errrate; w_blocked := merge w_blocked;
     w_scanner := merge w_scanner; w_bot := merge w_bot;
     w_header := merge w_header; w_honeypot := merge w_honeypot;
     w_velocity := merge w_velocity; w_asn := merge w_asn;
     w_coherence := merge w_coherence; w_ja3 := merge w_ja3;
     w_ja4 := merge w_ja4; w_ja4t := merge w_ja4t;
     w_c2ip := merge w_c2ip; w_crowdsec := merge w_crowdsec |}.

(** [if (conf->x.nelts == 0 && prev->x.nelts > 0) { conf->x = prev->x; }], for an
    array or a string. *)
Definition inherit {A} (prev conf : list A) : list A :=
  match conf with [] => prev | _ => conf end.

(** [if (conf->x == NULL) { conf->x = prev->x; }] *)
Definition inherit_ptr {A} (prev conf : option A) : option A :=
  match conf with None => prev | Some _ => conf end.

(** The scan of a zone array for a name. *)
Definition same_zone_name (a b : bytes) : bool :=
  (length a =? length b)%nat && (strncmp a b (length b) =? 0).

Fixpoint find_zone_from (st : conf_state) (a : zone_array) (name : bytes) (i n : nat)
    : option nat :=
  match n with
  | O => None
  | S n' =>
      match array_elt st a i with
      | Some z => if same_zone_name (ze_name z) name then Some i
                  else find_zone_from st a name (S i) n'
      | None => find_zone_from st a name (S i) n'
      end
  end.

Definition find_zone (st : conf_state) (a : zone_array) (name : bytes) : option nat :=
  find_zone_from st a name 0 (za_nelts a).

Definition merge_fcrdns (st : conf_state) (prev conf : fcrdns_conf)
    : conf_result fcrdns_conf :=
  let ttl := ngx_conf_merge_value (fcrdns_ttl conf) (fcrdns_ttl prev)
               NGX_SENTINEL_FCRDNS_DEFAULT_TTL in
  let z := ngx_conf_merge_ptr_value (fcrdns_zone conf) (fcrdns_zone prev) None in
  let suffixes := inherit (fcrdns_suffixes prev) (fcrdns_suffixes conf) in
  let name := inherit (fcrdns_zone_name prev) (fcrdns_zone_name conf) in
  match name with
  | [] => conf_ok (FcrdnsConf z name ttl suffixes)
  | _ =>
      match find_zone st (fcrdns_zones (cf_main st)) name with
      | None => conf_err NGX_CONF_ERROR
      | Some i => conf_ok (FcrdnsConf (Some (Some i)) name ttl suffixes)
      end
  end.

Definition merge_velocity (st : conf_state) (prev conf : loc_conf) : conf_result loc_conf :=
  let z := ngx_conf_merge_ptr_value (vel_zone conf) (vel_zone prev) None in
  let name := inherit (vel_zone_name prev) (vel_zone_name conf) in
  match name with
  | [] => conf_ok (conf {{ vel_zone := z; vel_zone_name := name }})
  | _ =>
      match find_zone st (vel_zones (cf_main st)) name with
      | None => conf_err NGX_CONF_ERROR
      | Some i => conf_ok (conf {{ vel_zone := Some (Some i); vel_zone_name := name }})
      end
  end.

Definition merge_deny (prev conf : deny_conf) : deny_conf :=
  DenyConf (inherit_ptr (deny_source prev) (deny_source conf))
    (inherit (deny_list prev) (deny_list conf)).

Definition merge_lists (prev conf : loc_conf) : loc_conf :=
  conf {{ decoy_paths := inherit (decoy_paths prev) (decoy_paths conf);
          allow_cidrs := inherit (allow_cidrs prev) (allow_cidrs conf);
          asn_source := inherit_ptr (asn_source prev) (asn_source conf);
          asn_list := inherit (asn_list prev) (asn_list conf);
          c2ip_tree := inherit_ptr (c2ip_tree prev) (c2ip_tree conf);
          c2ip_tree6 := inherit_ptr (c2ip_tree6 prev) (c2ip_tree6 conf);
          lcf_ja3 := merge_deny (lcf_ja3 prev) (lcf_ja3 conf);
          lcf_ja4 := merge_deny (lcf_ja4 prev) (lcf_ja4 conf);
          lcf_ja4t := merge_deny (lcf_ja4t prev) (lcf_ja4t conf) }}.

(** [w_crowdsec] is the merged CrowdSec weight. *)
Definition merge_crowdsec (w_crowdsec : Z) (prev conf : cs_conf) : conf_result cs_conf :=
  let cs := CsConf
    (ngx_conf_merge_ptr_value (cs_zone conf) (cs_zone prev) None)
    (inherit (cs_feed prev) (cs_feed conf))
    (ngx_conf_merge_value (cs_interval conf) (cs_interval prev)
       NGX_SENTINEL_CROWDSEC_DEFAULT_INTERVAL)
    (ngx_conf_merge_value (cs_default_ttl conf) (cs_default_ttl prev)
       NGX_SENTINEL_CROWDSEC_DEFAULT_TTL)
    (ngx_conf_merge_value (cs_stale_after conf) (cs_stale_after prev)
       NGX_SENTINEL_CROWDSEC_DEFAULT_STALE)
    (ngx_conf_merge_size_value (cs_max_bytes conf) (cs_max_bytes prev)
       NGX_SENTINEL_CROWDSEC_DEFAULT_MAXBYTES) in
  reject (outside 0 NGX_SENTINEL_SCORE_MAX w_crowdsec);
  reject (outside NGX_SENTINEL_CROWDSEC_MIN_INTERVAL NGX_SENTINEL_CROWDSEC_MAX_INTERVAL
            (cs_interval cs));
  reject (outside NGX_SENTINEL_CROWDSEC_MIN_TTL NGX_SENTINEL_CROWDSEC_MAX_TTL
            (cs_default_ttl cs));
  reject (outside NGX_SENTINEL_CROWDSEC_MIN_STALE NGX_SENTINEL_CROWDSEC_MAX_STALE
            (cs_stale_after cs));
  reject (outside ngx_pagesize NGX_SENTINEL_CROWDSEC_MAX_MAXBYTES (cs_max_bytes cs));
  conf_ok cs.

(** The push zone is inherited with the host only. *)
Definition merge_redis (prev conf : redis_conf) : conf_result redis_conf :=
  let '(host, push) :=
    match redis_host conf with
    | [] => (redis_host prev, inherit_ptr (redis_push_zone prev) (redis_push_zone conf))
    | h => (h, redis_push_zone conf)
    end in
  let rd := RedisConf host
    (ngx_conf_merge_value (redis_port conf) (redis_port prev) NGX_SENTINEL_REDIS_DEFAULT_PORT)
    (ngx_conf_merge_str_value (redis_password conf) (redis_password prev) [])
    (ngx_conf_merge_str_value (redis_prefix conf) (redis_prefix prev)
       NGX_SENTINEL_REDIS_DEFAULT_PREFIX)
    (ngx_conf_merge_value (redis_interval conf) (redis_interval prev)
       NGX_SENTINEL_REDIS_DEFAULT_INTERVAL)
    (ngx_conf_merge_value (redis_ttl conf) (redis_ttl prev) NGX_SENTINEL_REDIS_DEFAULT_TTL)
    push in
  match host with
  | [] => conf_ok rd
  | _ =>
      reject (outside NGX_SENTINEL_REDIS_MIN_INTERVAL NGX_SENTINEL_REDIS_MAX_INTERVAL
                (redis_interval rd));
      reject (outside NGX_SENTINEL_REDIS_MIN_TTL NGX_SENTINEL_REDIS_MAX_TTL (redis_ttl rd));
      conf_ok rd
  end.

Definition merge_sink (prev conf : sink_conf) : conf_result sink_conf :=
  let '(path, z) :=
    match cs_sink_path conf with
    | [] => (cs_sink_path prev, inherit_ptr (cs_sink_zone prev) (cs_sink_zone conf))
    | p => (p, cs_sink_zone conf)
    end in
  let sk := SinkConf path
    (ngx_conf_merge_value (cs_sink_interval conf) (cs_sink_interval prev)
       NGX_SENTINEL_CSSINK_INTERVAL)
    (ngx_conf_merge_value (cs_sink_ttl conf) (cs_sink_ttl prev) NGX_SENTINEL_CSSINK_TTL)
    (ngx_conf_merge_str_value (cs_sink_scenario conf) (cs_sink_scenario prev)
       NGX_SENTINEL_CSSINK_SCENARIO) z in
  match path with
  | [] => conf_ok sk
  | _ =>
      reject (outside 1 3600 (cs_sink_interval sk));
      reject (outside 60 86400 (cs_sink_ttl sk));
      conf_ok sk
  end.

Definition merge_tarpit (prev conf : tarpit_conf) : conf_result tarpit_conf :=
  let merge f d := ngx_conf_merge_value (f conf) (f prev) d in
  let tp := TarpitConf (merge tarpit_max_conns 256) (merge tarpit_delay 5000)
              (merge tarpit_bytes 1024) (merge tarpit_max_lifetime 30000)
              (merge tarpit_maze 0) in
  reject (outside 0 65536 (tarpit_max_conns tp));
  reject (outside 100 60000 (tarpit_delay tp));
  reject (outside 1 65536 (tarpit_bytes tp));
  reject (outside 1000 NGX_SENTINEL_TARPIT_MAX_MSEC (tarpit_max_lifetime tp));
  conf_ok tp.

Definition merge_block (prev conf : loc_conf) : conf_result loc_conf :=
  let status := ngx_conf_merge_value (block_status conf) (block_status prev)
                  NGX_SENTINEL_DEFAULT_BLOCK_STATUS in
  reject (negb (status =? NGX_HTTP_CLOSE) && outside 400 599 status);
  let ttl := ngx_conf_merge_value (block_ttl conf) (block_ttl prev) 0 in
  reject (ttl <? 0);
  conf_ok (conf {{ block_status := status;
                   block_ttl := ttl;
                   throttle_rate := ngx_conf_merge_size_value (throttle_rate conf)
                                      (throttle_rate prev) 0;
                   shield := ngx_conf_merge_value (shield conf) (shield prev) 0 }}).

Definition merge_pow (prev conf : pow_conf) : conf_result pow_conf :=
  let pw := PowConf
    (ngx_conf_merge_value (pow_enabled conf) (pow_enabled prev) 0)
    (ngx_conf_merge_str_value (pow_secret conf) (pow_secret prev) [])
    (ngx_conf_merge_value (pow_difficulty conf) (pow_difficulty prev) 16)
    (ngx_conf_merge_value (pow_ttl conf) (pow_ttl prev) 3600) in
  reject (outside 1 32 (pow_difficulty pw));
  reject (pow_ttl pw <? 1);
  conf_ok pw.

(** The error-rate zone: the parent's, else the first declared one. *)
Definition merge_zone (st : conf_state) (prev conf : loc_conf) : zone_ref :=
  match inherit_ptr (lcf_zone prev) (lcf_zone conf) with
  | Some i => Some i
  | None => if (0 <? za_nelts (zones (cf_main st)))%nat then Some 0%nat else None
  end.

(** The decision zone is bound when a feed or Redis is configured. *)
Definition bind_cs_zone (st : conf_state) (conf : loc_conf) : conf_result cs_conf :=
  let cs := lcf_cs conf in
  match cs_zone cs with
  | Some None =>
      if negb (length (cs_feed cs) =? 0)%nat || negb (length (redis_host (lcf_redis conf)) =? 0)%nat
      then if (0 <? za_nelts (cs_zones (cf_main st)))%nat
           then conf_ok (cs {{ cs_zone := Some (Some 0%nat) }})
           else conf_err NGX_CONF_ERROR
      else conf_ok cs
  | _ => conf_ok cs
  end.

Definition set_interval (t : Z) (z : zone_elt) : zone_elt :=
  let zc := zone_conf_of (ze_zone z) in
  ZoneElt (ze_name z) (Zone (ZoneConf t (z_block zc) (z_threshold zc)) (zone_sh (ze_zone z)))
    (ze_shm z).

(** [conf->cs_zone->interval = conf->cs_stale_after;] *)
Definition set_cs_interval (st : conf_state) (cs : cs_conf) : conf_state :=
  match cs_zone cs with
  | Some (Some i) =>
      st {{ cf_heap ::= alter (set_interval (cs_stale_after cs))
                          (za_block (cs_zones (cf_main st)), i) }}
  | _ => st
  end.

Definition ngx_sentinel_merge_loc_conf (st : conf_state) (prev conf : loc_conf)
    : conf_result (loc_conf * conf_state) :=
  let conf := merge_flags prev conf in
  let conf := conf {{ lcf_threshold := merge_threshold (lcf_threshold prev) (lcf_threshold conf);
                      lcf_weights := merge_weights (lcf_weights prev) (lcf_weights conf) }} in
  conf! fc := merge_fcrdns st (lcf_fcrdns prev) (lcf_fcrdns conf) in
  let conf := conf {{ lcf_fcrdns := fc }} in
  conf! conf := merge_velocity st prev conf in
  let conf := merge_lists prev conf in
  conf! cs := merge_crowdsec (w_crowdsec (lcf_weights conf)) (lcf_cs prev) (lcf_cs conf) in
  conf! rd := merge_redis (lcf_redis prev) (lcf_redis conf) in
  conf! sk := merge_sink (lcf_sink prev) (lcf_sink conf) in
  conf! tp := merge_tarpit (lcf_tarpit prev) (lcf_tarpit conf) in
  let conf := conf {{ lcf_cs := cs; lcf_redis := rd; lcf_sink := sk; lcf_tarpit := tp }} in
  conf! conf := merge_block prev conf in
  conf! pw := merge_pow (lcf_pow prev) (lcf_pow conf) in
  let conf := conf {{ lcf_pow := pw; lcf_zone := merge_zone st prev conf }} in
  conf! cs := bind_cs_zone st conf in
  conf_ok (conf {{ lcf_cs := cs }}, set_cs_interval st cs).
End Conf.
