(* ===== verification/Directives.v ===== *)
(** * Directives.v: the directive handlers and the command table

    Every handler of [ngx_http_sentinel_module.c], nginx's slot functions applied
    to the fields the command table names, and the table itself.  A handler
    that fails leaves no configuration: nginx abandons the file.  [alloc] tells
    whether the pool allocations of the directive succeed. *)
From coqutil Require Import Datatypes.RecordSetters.
From S2P Require Import Prelude Types Ngx Http Shm Fcrdns Conf.
Import DoubleBraceUpdate.

Section Directives.
Context `{NgxSlab} `{NgxConf} `{NgxParse}.

(** ** Location directives *)

(** [ngx_strcmp(value[1].data, literal) == 0] *)
Definition is_literal (v literal : bytes) : bool :=
  strcmp v literal =? 0.

(** [ngx_strncmp(arg.data, literal, sizeof(literal) - 1) == 0] *)
Definition has_key (arg key : bytes) : bool := strncmp arg key (length key) =? 0.

Definition ngx_sentinel_set_mode (v : bytes) (lcf : loc_conf) : conf_result loc_conf :=
  if is_literal v (lit "shadow") then conf_ok (lcf {{ shadow := 1 }})
  else if is_literal v (lit "enforce") then conf_ok (lcf {{ shadow := 0 }})
  else conf_err NGX_CONF_ERROR.

Definition ngx_sentinel_set_fail (v : bytes) (lcf : loc_conf) : conf_result loc_conf :=
  if is_literal v (lit "open") then conf_ok (lcf {{ fail_open := 1 }})
  else if is_literal v (lit "closed") then conf_ok (lcf {{ fail_open := 0 }})
  else conf_err NGX_CONF_ERROR.

(** The number after a [key=]. *)
Definition key_number (arg key : bytes) : option Z := ngx_atoi (drop (length key) arg).

Definition threshold_arg (arg : bytes) (t : threshold) : conf_result threshold :=
  let bad := conf_err NGX_CONF_ERROR in
  if has_key arg (lit "challenge=") then
    match key_number arg (lit "challenge=") with
    | Some v => conf_ok (t {{ thr_challenge := v }}) | None => bad end
  else if has_key arg (lit "tarpit=") then
    match key_number arg (lit "tarpit=") with
    | Some v => conf_ok (t {{ thr_tarpit := v }}) | None => bad end
  else if has_key arg (lit "block=") then
    match key_number arg (lit "block=") with
    | Some v => conf_ok (t {{ thr_block := v }}) | None => bad end
  else bad.

Fixpoint threshold_args (args : list bytes) (t : threshold) : conf_result threshold :=
  match args with
  | [] => conf_ok t
  | arg :: args' => conf! t := threshold_arg arg t in threshold_args args' t
  end.

Definition ngx_sentinel_set_threshold (args : list bytes) (lcf : loc_conf)
    : conf_result loc_conf :=
  conf! t := threshold_args args (lcf_threshold lcf) in conf_ok (lcf {{ lcf_threshold := t }}).

(** [v = ngx_atoi(...); if (v == NGX_ERROR || v < lo || v > hi)] *)
Definition bounded_number (lo hi : Z) (v : bytes) : conf_result Z :=
  match ngx_atoi v with
  | None => conf_err NGX_CONF_ERROR
  | Some n => reject (outside lo hi n); conf_ok n
  end.

Definition ngx_sentinel_set_tarpit_delay (v : bytes) (lcf : loc_conf) : conf_result loc_conf :=
  conf! n := bounded_number 100 60000 v in
  conf_ok (lcf {{ lcf_tarpit -> tarpit_delay := n }}).

Definition ngx_sentinel_set_tarpit_bytes (v : bytes) (lcf : loc_conf) : conf_result loc_conf :=
  conf! n := bounded_number 1 65536 v in
  conf_ok (lcf {{ lcf_tarpit -> tarpit_bytes := n }}).

Definition ngx_sentinel_set_tarpit_lifetime (v : bytes) (lcf : loc_conf)
    : conf_result loc_conf :=
  conf! n := bounded_number 1000 NGX_SENTINEL_TARPIT_MAX_MSEC v in
  conf_ok (lcf {{ lcf_tarpit -> tarpit_max_lifetime := n }}).

(** The loops that push every argument onto an array: [item] checks and converts
    one argument. *)
Fixpoint push_args {A} (alloc : bool) (item : bytes -> conf_result A) (args : list bytes)
    (l : list A) : conf_result (list A) :=
  match args with
  | [] => conf_ok l
  | v :: args' =>
      conf! x := item v in
      reject (negb alloc);
      push_args alloc item args' (l ++ [x])
  end.

Definition nonempty_arg (v : bytes) : conf_result bytes :=
  match v with [] => conf_err NGX_CONF_ERROR | _ => conf_ok v end.

Definition sentinel_conf_honeypot (alloc : bool) (args : list bytes) (lcf : loc_conf)
    : conf_result loc_conf :=
  conf! l := push_args alloc nonempty_arg args (decoy_paths lcf) in
  conf_ok (lcf {{ decoy_paths := l }}).

Definition allow_arg (v : bytes) : conf_result cidr :=
  conf! v := nonempty_arg v in
  match ngx_ptocidr v with None => conf_err NGX_CONF_ERROR | Some c => conf_ok c end.

Definition sentinel_conf_allowlist (alloc : bool) (args : list bytes) (lcf : loc_conf)
    : conf_result loc_conf :=
  conf! l := push_args alloc allow_arg args (allow_cidrs lcf) in
  conf_ok (lcf {{ allow_cidrs := l }}).

(** Compiling a source variable into an unset field. *)
Definition compile_source (alloc : bool) (current : option complex_value) (v : bytes)
    : conf_result (option complex_value) :=
  match current with
  | Some _ => conf_err conf_is_duplicate
  | None =>
      reject (negb alloc);
      match ngx_http_compile_complex_value v with
      | None => conf_err NGX_CONF_ERROR
      | Some cv => conf_ok (Some cv)
      end
  end.

Definition sentinel_conf_asn_source (alloc : bool) (v : bytes) (lcf : loc_conf)
    : conf_result loc_conf :=
  conf! s := compile_source alloc (asn_source lcf) v in conf_ok (lcf {{ asn_source := s }}).

Definition asn_arg (v : bytes) : conf_result Z :=
  match ngx_atoi v with
  | None => conf_err NGX_CONF_ERROR
  | Some n => reject (n <=? 0); conf_ok n
  end.

Definition sentinel_conf_datacenter_asn (alloc : bool) (args : list bytes) (lcf : loc_conf)
    : conf_result loc_conf :=
  conf! l := push_args alloc asn_arg args (asn_list lcf) in
  conf_ok (lcf {{ asn_list := l }}).

(** One address of the C2 deny list, inserted into the tree of its family, which
    is created on its first use. *)
Definition c2ip_arg (v : bytes) (lcf : loc_conf) : conf_result loc_conf :=
  match ngx_ptocidr v with
  | None => conf_err NGX_CONF_ERROR
  | Some c =>
      match family_of c with
      | CIDR_INET =>
          match inherit_ptr ngx_radix_tree_create (c2ip_tree lcf) with
          | None => conf_err NGX_CONF_ERROR
          | Some t =>
              match ngx_radix32tree_insert t (cidr_in c).1 (cidr_in c).2 1 with
              | None => conf_err NGX_CONF_ERROR
              | Some t' => conf_ok (lcf {{ c2ip_tree := Some t' }})
              end
          end
      | CIDR_INET6 =>
          match inherit_ptr ngx_radix_tree_create6 (c2ip_tree6 lcf) with
          | None => conf_err NGX_CONF_ERROR
          | Some t =>
              match ngx_radix128tree_insert t (cidr_in6 c).1 (cidr_in6 c).2 1 with
              | None => conf_err NGX_CONF_ERROR
              | Some t' => conf_ok (lcf {{ c2ip_tree6 := Some t' }})
              end
          end
      | CIDR_OTHER => conf_err NGX_CONF_ERROR
      end
  end.

Fixpoint sentinel_conf_c2ip_deny (args : list bytes) (lcf : loc_conf) : conf_result loc_conf :=
  match args with
  | [] => conf_ok lcf
  | v :: args' => conf! lcf := c2ip_arg v lcf in sentinel_conf_c2ip_deny args' lcf
  end.

Definition sentinel_conf_ja3_source (alloc : bool) (v : bytes) (lcf : loc_conf)
    : conf_result loc_conf :=
  conf! s := compile_source alloc (deny_source (lcf_ja3 lcf)) v in
  conf_ok (lcf {{ lcf_ja3 -> deny_source := s }}).

Definition sentinel_conf_ja3_deny (alloc : bool) (args : list bytes) (lcf : loc_conf)
    : conf_result loc_conf :=
  conf! l := push_args alloc nonempty_arg args (deny_list (lcf_ja3 lcf)) in
  conf_ok (lcf {{ lcf_ja3 -> deny_list := l }}).

Definition sentinel_conf_ja4_source (alloc : bool) (v : bytes) (lcf : loc_conf)
    : conf_result loc_conf :=
  conf! s := compile_source alloc (deny_source (lcf_ja4 lcf)) v in
  conf_ok (lcf {{ lcf_ja4 -> deny_source := s }}).

Definition sentinel_conf_ja4_deny (alloc : bool) (args : list bytes) (lcf : loc_conf)
    : conf_result loc_conf :=
  conf! l := push_args alloc nonempty_arg args (deny_list (lcf_ja4 lcf)) in
  conf_ok (lcf {{ lcf_ja4 -> deny_list := l }}).

Definition sentinel_conf_ja4t_source (alloc : bool) (v : bytes) (lcf : loc_conf)
    : conf_result loc_conf :=
  conf! s := compile_source alloc (deny_source (lcf_ja4t lcf)) v in
  conf_ok (lcf {{ lcf_ja4t -> deny_source := s }}).

Definition sentinel_conf_ja4t_deny (alloc : bool) (args : list bytes) (lcf : loc_conf)
    : conf_result loc_conf :=
  conf! l := push_args alloc nonempty_arg args (deny_list (lcf_ja4t lcf)) in
  conf_ok (lcf {{ lcf_ja4t -> deny_list := l }}).

Definition ngx_sentinel_set_velocity_bind (v : bytes) (lcf : loc_conf) : conf_result loc_conf :=
  conf_ok (lcf {{ vel_zone_name := v }}).

Definition ngx_sentinel_set_fcrdns (v : bytes) (lcf : loc_conf) : conf_result loc_conf :=
  match fcrdns_zone_name (lcf_fcrdns lcf) with
  | [] => conf_ok (lcf {{ lcf_fcrdns -> fcrdns_zone_name := v }})
  | _ => conf_err conf_is_duplicate
  end.

Definition ngx_sentinel_set_fcrdns_suffix (alloc : bool) (args : list bytes) (lcf : loc_conf)
    : conf_result loc_conf :=
  conf! l := push_args alloc conf_ok args (fcrdns_suffixes (lcf_fcrdns lcf)) in
  conf_ok (lcf {{ lcf_fcrdns -> fcrdns_suffixes := l }}).

Definition ngx_sentinel_set_crowdsec_feed (alloc : bool) (v : bytes) (lcf : loc_conf)
    : conf_result loc_conf :=
  conf! v := nonempty_arg v in
  reject (negb alloc);
  conf_ok (lcf {{ lcf_cs -> cs_feed := v }}).

(** ** Directives that declare shared memory *)

(** [ngx_array_push]: the elements move to a new block when the array has to
    grow. *)
Definition move_elts (h : gmap elt_ptr zone_elt) (old new n : nat) : gmap elt_ptr zone_elt :=
  foldr (fun i h' => match h !! (old, i) with Some e => <[(new, i) := e]> h' | None => h' end)
    h (seq 0 n).

Definition array_push (st : conf_state) (a : zone_array) (e : zone_elt)
    : elt_ptr * zone_array * gmap elt_ptr zone_elt * nat :=
  let '(block, heap, next) :=
    if ngx_array_moves (za_nelts a) (za_init a)
    then (cf_next st, move_elts (cf_heap st) (za_block a) (cf_next st) (za_nelts a),
          S (cf_next st))
    else (za_block a, cf_heap st, cf_next st) in
  ((block, za_nelts a), ZoneArray block (S (za_nelts a)) (za_init a),
   <[(block, za_nelts a) := e]> heap, next).

(** [shm->init = ...; shm->data = ...;] *)
Definition bind_shm (init : shm_init) (data : option elt_ptr) (z : shm_zone) : shm_zone :=
  ShmZone (sz_name z) (sz_size z) (Some init) data.

(** The [name:size] argument. *)
Definition parse_name_size (v : bytes) : option (bytes * Z) :=
  match memchr v (u_char 58) with
  | None => None
  | Some colon =>
      match ngx_parse_size (drop (S colon) v) with
      | None => None
      | Some size => if size <? ngx_pagesize then None else Some (take colon v, size)
      end
  end.

Inductive array_id : Type := A_ZONES | A_VELOCITY | A_CROWDSEC | A_FCRDNS.

Definition get_array (m : main_conf) (id : array_id) : zone_array :=
  match id with
  | A_ZONES => zones m | A_VELOCITY => vel_zones m
  | A_CROWDSEC => cs_zones m | A_FCRDNS => fcrdns_zones m
  end.

Definition set_array (m : main_conf) (id : array_id) (a : zone_array) : main_conf :=
  match id with
  | A_ZONES => m {{ zones := a }} | A_VELOCITY => m {{ vel_zones := a }}
  | A_CROWDSEC => m {{ cs_zones := a }} | A_FCRDNS => m {{ fcrdns_zones := a }}
  end.

(** The common part of the four zone directives: push an element, add the shared
    zone and let its [data] point to the element. *)
Definition declare_zone (alloc : bool) (id : array_id) (name : bytes) (size : Z)
    (zc : zone_conf) (st : conf_state) : conf_result conf_state :=
  reject (negb alloc);
  match ngx_shared_memory_add (cf_shm st) name size with
  | None => conf_err NGX_CONF_ERROR
  | Some (i, shm) =>
      let '(ptr, a, heap, next) :=
        array_push st (get_array (cf_main st) id) (ZoneElt name (Zone zc None) (Some i)) in
      conf_ok (ConfState (set_array (cf_main st) id a) heap next
                 (alter (bind_shm init_shm_zone (Some ptr)) i shm))
  end.

Definition NGX_SENTINEL_DEFAULT_INTERVAL : Z := 300.
Definition NGX_SENTINEL_DEFAULT_BLOCK : Z := 3600.
Definition NGX_SENTINEL_VELOCITY_DEFAULT_THRESHOLD : Z := 100.
Definition NGX_SENTINEL_VELOCITY_DEFAULT_WINDOW : Z := 10.

Definition ngx_sentinel_set_zone (alloc : bool) (v : bytes) (st : conf_state)
    : conf_result conf_state :=
  match parse_name_size v with
  | None => conf_err NGX_CONF_ERROR
  | Some (name, size) =>
      declare_zone alloc A_ZONES name size
        (ZoneConf NGX_SENTINEL_DEFAULT_INTERVAL NGX_SENTINEL_DEFAULT_BLOCK
           NGX_SENTINEL_MAX_WINDOW_EVENTS) st
  end.

Definition velocity_arg (arg : bytes) (zc : zone_conf) : conf_result zone_conf :=
  let positive key (k : Z -> zone_conf) :=
    match key_number arg key with
    | None => conf_err NGX_CONF_ERROR
    | Some n => reject (n <? 1); conf_ok (k n)
    end in
  if has_key arg (lit "rate=") then
    positive (lit "rate=") (fun n => ZoneConf (z_interval zc) (z_block zc) n)
  else if has_key arg (lit "window=") then
    positive (lit "window=") (fun n => ZoneConf n (z_block zc) (z_threshold zc))
  else if has_key arg (lit "block=") then
    positive (lit "block=") (fun n => ZoneConf (z_interval zc) n (z_threshold zc))
  else conf_err NGX_CONF_ERROR.

Fixpoint velocity_args (args : list bytes) (zc : zone_conf) : conf_result zone_conf :=
  match args with
  | [] => conf_ok zc
  | arg :: args' => conf! zc := velocity_arg arg zc in velocity_args args' zc
  end.

Definition ngx_sentinel_set_velocity_zone (alloc : bool) (args : list bytes)
    (st : conf_state) : conf_result conf_state :=
  match args with
  | [] => conf_err conf_slot_error
  | v :: params =>
      match parse_name_size v with
      | None => conf_err NGX_CONF_ERROR
      | Some (name, size) =>
          conf! zc := velocity_args params
            (ZoneConf NGX_SENTINEL_VELOCITY_DEFAULT_WINDOW NGX_SENTINEL_DEFAULT_BLOCK
               NGX_SENTINEL_VELOCITY_DEFAULT_THRESHOLD) in
          declare_zone alloc A_VELOCITY name size zc st
      end
  end.

Definition ngx_sentinel_set_crowdsec_zone (alloc : bool) (v : bytes) (st : conf_state)
    : conf_result conf_state :=
  match parse_name_size v with
  | None => conf_err NGX_CONF_ERROR
  | Some (name, size) =>
      declare_zone alloc A_CROWDSEC name size
        (ZoneConf NGX_SENTINEL_CROWDSEC_DEFAULT_STALE 0 0) st
  end.

Definition ngx_sentinel_set_fcrdns_zone (alloc : bool) (v : bytes) (st : conf_state)
    : conf_result conf_state :=
  match parse_name_size v with
  | None => conf_err NGX_CONF_ERROR
  | Some (name, size) =>
      declare_zone alloc A_FCRDNS name size (ZoneConf NGX_SENTINEL_FCRDNS_DEFAULT_TTL 0 0) st
  end.

(** The host and the port of [host[:port]]. *)
Definition redis_endpoint (v : bytes) : conf_result (bytes * Z) :=
  match memchr v (u_char 58) with
  | None => conf_ok (v, NGX_SENTINEL_REDIS_DEFAULT_PORT)
  | Some colon =>
      conf! pstr := nonempty_arg (drop (S colon) v) in
      conf! port := bounded_number 1 65535 pstr in
      conf_ok (take colon v, port)
  end.

Definition ring_zone (prefix v : bytes) (size : Z) (init : shm_init) (shm : list shm_zone)
    : conf_result (nat * list shm_zone) :=
  match ngx_shared_memory_add shm (prefix ++ v)
          (ngx_align (size + 4 * ngx_pagesize) ngx_pagesize) with
  | None => conf_err NGX_CONF_ERROR
  | Some (i, shm) => conf_ok (i, alter (bind_shm init None) i shm)
  end.

Definition ngx_sentinel_set_redis (alloc : bool) (v : bytes) (lcf : loc_conf)
    (shm : list shm_zone) : conf_result (loc_conf * list shm_zone) :=
  match redis_host (lcf_redis lcf) with
  | _ :: _ => conf_err conf_is_duplicate
  | [] =>
      conf! v := nonempty_arg v in
      conf! (host, port) := redis_endpoint v in
      conf! host := nonempty_arg host in
      reject (negb alloc);
      conf! (i, shm) := ring_zone (lit "sentinel_redis_push_") v sizeof_redis_shctx
                           init_redis_zone shm in
      conf_ok (lcf {{ lcf_redis -> redis_host := host; lcf_redis -> redis_port := port;
                      lcf_redis -> redis_push_zone := Some i }}, shm)
  end.

Definition ngx_sentinel_set_cs_sink (alloc : bool) (v : bytes) (lcf : loc_conf)
    (shm : list shm_zone) : conf_result (loc_conf * list shm_zone) :=
  match cs_sink_path (lcf_sink lcf) with
  | _ :: _ => conf_err conf_is_duplicate
  | [] =>
      conf! v := nonempty_arg v in
      reject (negb alloc);
      conf! (i, shm) := ring_zone (lit "sentinel_cs_sink_") v sizeof_cssink_shctx
                           init_cssink_zone shm in
      conf_ok (lcf {{ lcf_sink -> cs_sink_path := v; lcf_sink -> cs_sink_zone := Some i }}, shm)
  end.

(** ** The command table *)

(** The state a directive acts on: the configuration phase, the location
    configuration of the current block, and whether the location's content
    handler is the status page. *)
Record cmd_state : Type := CmdState {
  cm_conf : conf_state;
  cm_loc : loc_conf;
  cm_status : bool
}.

Inductive conf_context : Type := NGX_HTTP_MAIN_CONF | NGX_HTTP_SRV_CONF | NGX_HTTP_LOC_CONF.

(** A handler by the number of arguments the table declares ([NGX_CONF_TAKE1] and
    [NGX_CONF_FLAG], [NGX_CONF_1MORE], [NGX_CONF_NOARGS]). *)
Inductive handler : Type :=
  | take1 (f : bytes -> cmd_state -> conf_result cmd_state)
  | more1 (f : list bytes -> cmd_state -> conf_result cmd_state)
  | noargs (f : cmd_state -> conf_result cmd_state).

Record command : Type := Command {
  cmd_name : bytes;
  cmd_contexts : list conf_context;
  cmd_handler : handler
}.

Definition everywhere : list conf_context :=
  [NGX_HTTP_MAIN_CONF; NGX_HTTP_SRV_CONF; NGX_HTTP_LOC_CONF].

Definition on_loc (f : loc_conf -> conf_result loc_conf) (s : cmd_state)
    : conf_result cmd_state :=
  conf! l := f (cm_loc s) in conf_ok (s {{ cm_loc := l }}).

Definition on_main (f : conf_state -> conf_result conf_state) (s : cmd_state)
    : conf_result cmd_state :=
  conf! st := f (cm_conf s) in conf_ok (s {{ cm_conf := st }}).

Definition on_both (f : loc_conf -> list shm_zone -> conf_result (loc_conf * list shm_zone))
    (s : cmd_state) : conf_result cmd_state :=
  conf! (l, shm) := f (cm_loc s) (cf_shm (cm_conf s)) in
  conf_ok (s {{ cm_loc := l; cm_conf -> cf_shm := shm }}).

Definition loc1 (name : string) (f : bytes -> loc_conf -> conf_result loc_conf) : command :=
  Command (lit name) everywhere (take1 (fun v => on_loc (f v))).

Definition locs (name : string) (f : list bytes -> loc_conf -> conf_result loc_conf) : command :=
  Command (lit name) everywhere (more1 (fun args => on_loc (f args))).

(** A slot function applied to the field at the offset of the table. *)
Definition slot {A} (name : string) (conv : A -> bytes -> option A) (get : loc_conf -> A)
    (set : A -> loc_conf -> loc_conf) : command :=
  loc1 name (fun v l =>
    match conv (get l) v with
    | None => conf_err conf_slot_error
    | Some x => conf_ok (set x l)
    end).

Definition weight_slot (name : string) (get : weights -> Z) (set : Z -> weights -> weights)
    : command :=
  slot name ngx_conf_set_num_slot (fun l => get (lcf_weights l))
    (fun n l => l {{ lcf_weights ::= set n }}).

Definition ngx_sentinel_set_status (s : cmd_state) : conf_result cmd_state :=
  conf_ok (s {{ cm_status := true }}).

Section Table.
Variable alloc : bool.

Definition commands_scoring : list command :=
  [ slot "sentinel" ngx_conf_set_flag_slot enabled (fun n l => l {{ enabled := n }});
    loc1 "sentinel_mode" ngx_sentinel_set_mode;
    Command (lit "sentinel_zone") [NGX_HTTP_MAIN_CONF]
      (take1 (fun v => on_main (ngx_sentinel_set_zone alloc v)));
    loc1 "sentinel_fail" ngx_sentinel_set_fail;
    locs "sentinel_threshold" ngx_sentinel_set_threshold;
    weight_slot "sentinel_weight_errrate" w_errrate (fun n w => w {{ w_errrate := n }});
    weight_slot "sentinel_weight_blocked" w_blocked (fun n w => w {{ w_blocked := n }});
    weight_slot "sentinel_weight_scanner" w_scanner (fun n w => w {{ w_scanner := n }});
    weight_slot "sentinel_weight_bot" w_bot (fun n w => w {{ w_bot := n }});
    weight_slot "sentinel_weight_header" w_header (fun n w => w {{ w_header := n }});
    weight_slot "sentinel_weight_honeypot" w_honeypot (fun n w => w {{ w_honeypot := n }});
    Command (lit "sentinel_velocity_zone") [NGX_HTTP_MAIN_CONF]
      (more1 (fun args => on_main (ngx_sentinel_set_velocity_zone alloc args)));
    weight_slot "sentinel_weight_velocity" w_velocity (fun n w => w {{ w_velocity := n }});
    weight_slot "sentinel_weight_asn" w_asn (fun n w => w {{ w_asn := n }});
    weight_slot "sentinel_weight_coherence" w_coherence (fun n w => w {{ w_coherence := n }}) ].

Definition commands_signals : list command :=
  [ loc1 "sentinel_asn" (sentinel_conf_asn_source alloc);
    locs "sentinel_datacenter_asn" (sentinel_conf_datacenter_asn alloc);
    weight_slot "sentinel_weight_c2ip" w_c2ip (fun n w => w {{ w_c2ip := n }});
    locs "sentinel_c2ip_deny" sentinel_conf_c2ip_deny;
    weight_slot "sentinel_weight_ja3" w_ja3 (fun n w => w {{ w_ja3 := n }});
    loc1 "sentinel_ja3" (sentinel_conf_ja3_source alloc);
    locs "sentinel_ja3_deny" (sentinel_conf_ja3_deny alloc);
    weight_slot "sentinel_weight_ja4" w_ja4 (fun n w => w {{ w_ja4 := n }});
    loc1 "sentinel_ja4" (sentinel_conf_ja4_source alloc);
    locs "sentinel_ja4_deny" (sentinel_conf_ja4_deny alloc);
    weight_slot "sentinel_weight_ja4t" w_ja4t (fun n w => w {{ w_ja4t := n }});
    loc1 "sentinel_ja4t" (sentinel_conf_ja4t_source alloc);
    locs "sentinel_ja4t_deny" (sentinel_conf_ja4t_deny alloc);
    loc1 "sentinel_velocity" ngx_sentinel_set_velocity_bind;
    locs "sentinel_honeypot" (sentinel_conf_honeypot alloc);
    locs "sentinel_allowlist" (sentinel_conf_allowlist alloc) ].

Definition commands_enforcement : list command :=
  [ slot "sentinel_tarpit_max_conns" ngx_conf_set_num_slot
      (fun l => tarpit_max_conns (lcf_tarpit l))
      (fun n l => l {{ lcf_tarpit -> tarpit_max_conns := n }});
    loc1 "sentinel_tarpit_delay" ngx_sentinel_set_tarpit_delay;
    loc1 "sentinel_tarpit_bytes" ngx_sentinel_set_tarpit_bytes;
    loc1 "sentinel_tarpit_max_lifetime" ngx_sentinel_set_tarpit_lifetime;
    slot "sentinel_tarpit_maze" ngx_conf_set_flag_slot (fun l => tarpit_maze (lcf_tarpit l))
      (fun n l => l {{ lcf_tarpit -> tarpit_maze := n }});
    slot "sentinel_block_status" ngx_conf_set_num_slot block_status
      (fun n l => l {{ block_status := n }});
    slot "sentinel_block_ttl" ngx_conf_set_num_slot block_ttl (fun n l => l {{ block_ttl := n }});
    slot "sentinel_throttle_rate" ngx_conf_set_size_slot throttle_rate
      (fun n l => l {{ throttle_rate := n }});
    slot "sentinel_shield" ngx_conf_set_flag_slot shield (fun n l => l {{ shield := n }});
    slot "sentinel_pow" ngx_conf_set_flag_slot (fun l => pow_enabled (lcf_pow l))
      (fun n l => l {{ lcf_pow -> pow_enabled := n }});
    slot "sentinel_pow_secret" ngx_conf_set_str_slot (fun l => pow_secret (lcf_pow l))
      (fun s l => l {{ lcf_pow -> pow_secret := s }});
    slot "sentinel_pow_difficulty" ngx_conf_set_num_slot (fun l => pow_difficulty (lcf_pow l))
      (fun n l => l {{ lcf_pow -> pow_difficulty := n }});
    slot "sentinel_pow_ttl" ngx_conf_set_sec_slot (fun l => pow_ttl (lcf_pow l))
      (fun n l => l {{ lcf_pow -> pow_ttl := n }}) ].

Definition commands_feeds : list command :=
  [ Command (lit "sentinel_crowdsec_zone") [NGX_HTTP_MAIN_CONF]
      (take1 (fun v => on_main (ngx_sentinel_set_crowdsec_zone alloc v)));
    Command (lit "sentinel_fcrdns_zone") [NGX_HTTP_MAIN_CONF]
      (take1 (fun v => on_main (ngx_sentinel_set_fcrdns_zone alloc v)));
    loc1 "sentinel_fcrdns" ngx_sentinel_set_fcrdns;
    slot "sentinel_fcrdns_ttl" ngx_conf_set_sec_slot (fun l => fcrdns_ttl (lcf_fcrdns l))
      (fun n l => l {{ lcf_fcrdns -> fcrdns_ttl := n }});
    locs "sentinel_fcrdns_verify_suffix" (ngx_sentinel_set_fcrdns_suffix alloc);
    loc1 "sentinel_crowdsec_feed" (ngx_sentinel_set_crowdsec_feed alloc);
    slot "sentinel_crowdsec_interval" ngx_conf_set_sec_slot (fun l => cs_interval (lcf_cs l))
      (fun n l => l {{ lcf_cs -> cs_interval := n }});
    slot "sentinel_crowdsec_default_ttl" ngx_conf_set_sec_slot
      (fun l => cs_default_ttl (lcf_cs l)) (fun n l => l {{ lcf_cs -> cs_default_ttl := n }});
    slot "sentinel_crowdsec_stale_after" ngx_conf_set_sec_slot
      (fun l => cs_stale_after (lcf_cs l)) (fun n l => l {{ lcf_cs -> cs_stale_after := n }});
    slot "sentinel_crowdsec_max_bytes" ngx_conf_set_size_slot (fun l => cs_max_bytes (lcf_cs l))
      (fun n l => l {{ lcf_cs -> cs_max_bytes := n }}) ].

Definition commands_sharing : list command :=
  [ Command (lit "sentinel_redis") everywhere
      (take1 (fun v => on_both (ngx_sentinel_set_redis alloc v)));
    slot "sentinel_redis_password" ngx_conf_set_str_slot (fun l => redis_password (lcf_redis l))
      (fun s l => l {{ lcf_redis -> redis_password := s }});
    slot "sentinel_redis_prefix" ngx_conf_set_str_slot (fun l => redis_prefix (lcf_redis l))
      (fun s l => l {{ lcf_redis -> redis_prefix := s }});
    slot "sentinel_redis_interval" ngx_conf_set_sec_slot (fun l => redis_interval (lcf_redis l))
      (fun n l => l {{ lcf_redis -> redis_interval := n }});
    slot "sentinel_redis_ttl" ngx_conf_set_sec_slot (fun l => redis_ttl (lcf_redis l))
      (fun n l => l {{ lcf_redis -> redis_ttl := n }});
    weight_slot "sentinel_weight_crowdsec" w_crowdsec (fun n w => w {{ w_crowdsec := n }});
    Command (lit "sentinel_cs_sink_path") everywhere
      (take1 (fun v => on_both (ngx_sentinel_set_cs_sink alloc v)));
    slot "sentinel_cs_sink_interval" ngx_conf_set_sec_slot (fun l => cs_sink_interval (lcf_sink l))
      (fun n l => l {{ lcf_sink -> cs_sink_interval := n }});
    slot "sentinel_cs_sink_ttl" ngx_conf_set_sec_slot (fun l => cs_sink_ttl (lcf_sink l))
      (fun n l => l {{ lcf_sink -> cs_sink_ttl := n }});
    slot "sentinel_cs_sink_scenario" ngx_conf_set_str_slot
      (fun l => cs_sink_scenario (lcf_sink l))
      (fun s l => l {{ lcf_sink -> cs_sink_scenario := s }});
    Command (lit "sentinel_status") [NGX_HTTP_LOC_CONF] (noargs ngx_sentinel_set_status) ].

Definition ngx_sentinel_commands : list command :=
  commands_scoring ++ commands_signals ++ commands_enforcement ++ commands_feeds
  ++ commands_sharing.

(** One directive of the file: its arguments fit the arity of the table. *)
Inductive directive (s s' : cmd_state) : Prop :=
  | directive_take1 c f v :
      c ∈ ngx_sentinel_commands -> cmd_handler c = take1 f -> f v s = conf_ok s' ->
      directive s s'
  | directive_more1 c f v args :
      c ∈ ngx_sentinel_commands -> cmd_handler c = more1 f -> f (v :: args) s = conf_ok s' ->
      directive s s'
  | directive_noargs c f :
      c ∈ ngx_sentinel_commands -> cmd_handler c = noargs f -> f s = conf_ok s' ->
      directive s s'.
End Table.
End Directives.
