(* ===== verification/ConfModel.v ===== *)
(** * ConfModel.v: a concrete instance of the configuration interface

    An executable model of nginx's slot functions, size parser and shared-zone
    registry, with the proof of the laws of [Conf.v]; the witnesses of the
    configuration phase run on it. *)
From S2P Require Import Prelude Types Ngx Http NgxModel Shm Conf.
Import Concrete.

Module ConcreteConf.

Definition merge_int (unset c p d : Z) : Z :=
  if c =? unset then if p =? unset then d else p else c.

Definition merge_opt {A} (c p : option A) (d : A) : option A :=
  match c, p with Some _, _ => c | None, Some _ => p | None, None => Some d end.

(** A slot is written once. *)
Definition num_slot (unset c : Z) (v : bytes) : option Z :=
  if c =? unset then ngx_atoi v else None.

Definition flag_slot (c : Z) (v : bytes) : option Z :=
  if negb (c =? NGX_CONF_UNSET) then None
  else if decide (v = lit "on") then Some 1
  else if decide (v = lit "off") then Some 0 else None.

Definition str_slot (c : option bytes) (v : bytes) : option (option bytes) :=
  match c with Some _ => None | None => Some (Some v) end.

Definition named_zone (name : bytes) (z : shm_zone) : Prop := sz_name z = name.
#[local] Instance named_zone_dec name z : Decision (named_zone name z).
Proof. unfold named_zone. apply _. Defined.

(** The zone of that name, or a new one; a different size is an error. *)
Definition shm_add (l : list shm_zone) (name : bytes) (size : Z)
    : option (nat * list shm_zone) :=
  match list_find (named_zone name) l with
  | Some (i, z) => if sz_size z =? size then Some (i, l) else None
  | None => Some (length l, l ++ [ShmZone name size None None])
  end.

(** Whether an array of capacity [cap] that doubles when it is full has no room
    for one more element. *)
Fixpoint array_full (fuel cap n : nat) : bool :=
  match fuel with
  | O => false
  | S f => if (n <? cap)%nat then false else if (n =? cap)%nat then true
           else array_full f (2 * cap) n
  end.

#[export] Instance conf : NgxConf := {|
  ngx_pagesize := 4096;
  ngx_conf_merge_value := merge_int NGX_CONF_UNSET;
  ngx_conf_merge_size_value := merge_int NGX_CONF_UNSET_SIZE;
  ngx_conf_merge_ptr_value := merge_opt;
  ngx_conf_merge_str_value := merge_opt;
  ngx_conf_set_flag_slot := flag_slot;
  ngx_conf_set_num_slot := num_slot NGX_CONF_UNSET;
  ngx_conf_set_sec_slot := num_slot NGX_CONF_UNSET;
  ngx_conf_set_size_slot := num_slot NGX_CONF_UNSET_SIZE;
  ngx_conf_set_str_slot := str_slot;
  ngx_parse_size := ngx_atoi;
  ngx_ptocidr := fun v => AF_INET <$> ngx_inet_addr v;
  family_of := fun c => match c with
                        | AF_INET _ => CIDR_INET | AF_INET6 _ => CIDR_INET6
                        | AF_OTHER => CIDR_OTHER end;
  cidr_in := fun c => match c with AF_INET a => (a, 2 ^ 32 - 1) | _ => (0, 0) end;
  cidr_in6 := fun c => match c with AF_INET6 b => (b, b) | _ => ([], []) end;
  ngx_radix_tree_create := Some ∅;
  ngx_radix_tree_create6 := Some ∅;
  ngx_radix32tree_insert := fun t a _ v => Some (<[a := v]> t);
  ngx_radix128tree_insert := fun t a _ v => Some (<[a := v]> t);
  ngx_http_compile_complex_value := fun v => Some (fun _ => Some v);
  ngx_shared_memory_add := shm_add;
  ngx_align := fun d a => (d + a - 1) / a * a;
  sizeof_redis_shctx := 262208;
  sizeof_cssink_shctx := 262208;
  ngx_array_moves := fun n cap => array_full (S n) cap n
|}.

Lemma num_slot_range unset c v n : num_slot unset c v = Some n -> 0 <= n < 2 ^ 63.
Proof. unfold num_slot. case_match; [apply atoi_range|done]. Qed.

#[export] Instance conf_laws : NgxConfLaws.
Proof.
  split; try done; try (intros ???; apply num_slot_range).
  - intros c v x. cbn. unfold flag_slot. repeat case_match; intros [=]; auto.
  - intros v n. apply atoi_range.
  - intros l name size i l'. cbn. unfold shm_add.
    destruct (list_find (named_zone name) l) as [[j z]|] eqn:E.
    + apply list_find_Some in E as (Hj & Hz & _). case_match; [|done].
      intros [= <- <-]. left. by exists z.
    + intros [= <- <-]. right. split_and!; [done..|].
      apply list_find_None in E. by rewrite Forall_forall in E.
Qed.
End ConcreteConf.
