(* ===== verification/ConfProps.v ===== *)
(** * ConfProps.v: properties of the configuration phase

    Whatever directives a configuration file holds, a location configuration
    that survives the merge satisfies the bounds every other component assumes. *)
From coqutil Require Import Datatypes.RecordSetters.
From S2P Require Import Prelude Types Ngx Http NgxModel Score Shm ShmTree ShmSpec ShmOps ShmRate.
From S2P Require Import Fcrdns Core CoreProps Conf Directives.
Import DoubleBraceUpdate.

(** Case analysis on the checks of a configuration function that succeeds. *)
Ltac conf_cases :=
  repeat match goal with
  | |- match ?e with conf_ok _ => _ | conf_err _ => _ end = conf_ok _ -> _ =>
      let E := fresh "E" in destruct e eqn:E; [|done]
  | |- match ?e with _ => _ end = conf_ok _ -> _ =>
      let E := fresh "E" in destruct e eqn:E; try done
  end.

(** The elements of a list of a known shape. *)
Ltac split_all H :=
  lazymatch type of H with
  | Forall _ (_ :: _) => let H1 := fresh in apply Forall_cons_1 in H as [H1 H]; split_all H
  | _ => idtac
  end.

Section Props.
Context `{NgxSlab} `{NgxConf} `{NgxParse}.
Context {ConfLaws : NgxConfLaws} {ParseLaws : NgxParseLaws}.

(** ** What directives can write *)

(** The fields that [ngx_conf_set_num_slot] and [ngx_atoi] write without a check
    of the module, and the flags. *)
Definition conf_numbers (l : loc_conf) : list Z :=
  let w := lcf_weights l in
  let t := lcf_threshold l in
  [ w_errrate w; w_blocked w; w_scanner w; w_bot w; w_header w; w_honeypot w; w_velocity w;
    w_asn w; w_coherence w; w_ja3 w; w_ja4 w; w_ja4t w; w_c2ip w; w_crowdsec w;
    thr_challenge t; thr_tarpit t; thr_block t ].

Definition conf_flags (l : loc_conf) : list Z :=
  [ enabled l; shadow l; fail_open l; shield l; pow_enabled (lcf_pow l);
    tarpit_maze (lcf_tarpit l) ].

Definition number_ok (n : Z) : Prop := n = NGX_CONF_UNSET \/ 0 <= n < 2 ^ 63.
Definition flag_ok (n : Z) : Prop := n = NGX_CONF_UNSET \/ n = 0 \/ n = 1.
Definition size_ok (n : Z) : Prop := n = NGX_CONF_UNSET_SIZE \/ 0 <= n < 2 ^ 63.
Definition port_ok (n : Z) : Prop := n = NGX_CONF_UNSET \/ 1 <= n <= 65535.

Definition raw_ok (l : loc_conf) : Prop :=
  Forall number_ok (conf_numbers l) /\ Forall flag_ok (conf_flags l) /\
  size_ok (throttle_rate l) /\ port_ok (redis_port (lcf_redis l)).

Definition loc_handler_ok (f : loc_conf -> conf_result loc_conf) : Prop :=
  forall l l', raw_ok l -> f l = conf_ok l' -> raw_ok l'.

(** A handler that keeps a property of the state, and a table of such handlers. *)
Definition keeps (P : cmd_state -> Prop) (f : cmd_state -> conf_result cmd_state) : Prop :=
  forall s s', P s -> f s = conf_ok s' -> P s'.

Definition handler_keeps (P : cmd_state -> Prop) (h : handler) : Prop :=
  match h with
  | take1 f => forall v, keeps P (f v)
  | more1 f => forall args, keeps P (f args)
  | noargs f => keeps P f
  end.

Lemma directive_keeps P alloc s s' :
  Forall (fun c => handler_keeps P (cmd_handler c)) (ngx_sentinel_commands alloc) ->
  P s -> directive alloc s s' -> P s'.
Proof.
  rewrite Forall_forall. intros Ht Hs Hd.
  destruct Hd as [c f v Hin Ec Hf|c f v args Hin Ec Hf|c f Hin Ec Hf];
    specialize (Ht c Hin); cbn beta in Ht; rewrite Ec in Ht; cbn in Ht;
    eapply Ht; eassumption.
Qed.

Notation cmd_handler_ok := (keeps (fun s => raw_ok (cm_loc s))).

Definition command_ok (c : command) : Prop :=
  handler_keeps (fun s => raw_ok (cm_loc s)) (cmd_handler c).

Lemma on_loc_ok f : loc_handler_ok f -> cmd_handler_ok (on_loc f).
Proof.
  intros Hf s s' Hs. unfold on_loc. destruct (f (cm_loc s)) as [l|] eqn:E; [|done].
  intros [= <-]. by apply (Hf _ _ Hs).
Qed.

Lemma on_main_ok f : cmd_handler_ok (on_main f).
Proof. intros s s' Hs. unfold on_main. destruct (f _); [|done]. by intros [= <-]. Qed.

Lemma loc1_ok name f : (forall v, loc_handler_ok (f v)) -> command_ok (loc1 name f).
Proof. intros Hf v. apply on_loc_ok, Hf. Qed.

Lemma locs_ok name f : (forall args, loc_handler_ok (f args)) -> command_ok (locs name f).
Proof. intros Hf args. apply on_loc_ok, Hf. Qed.

(** A slot is sound when its conversion yields values the field may hold. *)
Lemma slot_ok {A} name (conv : A -> bytes -> option A) get set :
  (forall l c v x, raw_ok l -> conv c v = Some x -> raw_ok (set x l)) ->
  command_ok (slot name conv get set).
Proof.
  intros Hs. apply loc1_ok. intros v l l' Hl. destruct (conv (get l) v) as [x|] eqn:E; [|done].
  intros [= <-]. by eapply Hs.
Qed.

Lemma num_slot_ok c v x : ngx_conf_set_num_slot c v = Some x -> number_ok x.
Proof. intros E. right. by eapply num_slot_range. Qed.

Lemma flag_slot_ok c v x : ngx_conf_set_flag_slot c v = Some x -> flag_ok x.
Proof. intros E. right. by eapply flag_slot_range. Qed.

Lemma size_slot_ok c v x : ngx_conf_set_size_slot c v = Some x -> size_ok x.
Proof. intros E. right. by eapply size_slot_range. Qed.

Lemma atoi_ok v n : ngx_atoi v = Some n -> number_ok n.
Proof. intros E. right. by eapply atoi_range. Qed.

Lemma flag_0 : flag_ok 0.
Proof. by right; left. Qed.

Lemma flag_1 : flag_ok 1.
Proof. by right; right. Qed.

Hint Resolve flag_0 flag_1 num_slot_ok flag_slot_ok size_slot_ok atoi_ok : conf.

(** Updating one field of a configuration keeps the others. *)
Lemma raw_intro l :
  Forall number_ok (conf_numbers l) -> Forall flag_ok (conf_flags l) ->
  size_ok (throttle_rate l) -> port_ok (redis_port (lcf_redis l)) -> raw_ok l.
Proof. by unfold raw_ok. Qed.

Ltac raw_list H :=
  first
    [ exact H
    | cbn in H |- *; unfold constant; split_all H; repeat apply Forall_cons_2;
      try apply Forall_nil_2; first [assumption | by eauto with conf] ].

Ltac raw_field :=
  match goal with Hr : raw_ok _ |- raw_ok _ =>
    let Hn := fresh in let Hf := fresh in let Hs := fresh in let Hp := fresh in
    destruct Hr as (Hn & Hf & Hs & Hp); unfold conf_numbers, conf_flags in Hn, Hf;
    apply raw_intro; unfold conf_numbers, conf_flags;
    [raw_list Hn | raw_list Hf | first [exact Hs | cbn; by eauto with conf]
    | first [exact Hp | cbn; by eauto with conf]]
  end.

Ltac loc_handler :=
  let l := fresh "l" in let Hl := fresh "Hl" in
  intros l ? Hl; cbv beta delta [ngx_sentinel_set_mode ngx_sentinel_set_fail
    ngx_sentinel_set_tarpit_delay ngx_sentinel_set_tarpit_bytes
    ngx_sentinel_set_tarpit_lifetime sentinel_conf_honeypot sentinel_conf_allowlist
    sentinel_conf_asn_source sentinel_conf_datacenter_asn sentinel_conf_ja3_source
    sentinel_conf_ja3_deny sentinel_conf_ja4_source sentinel_conf_ja4_deny
    sentinel_conf_ja4t_source sentinel_conf_ja4t_deny ngx_sentinel_set_velocity_bind
    ngx_sentinel_set_fcrdns ngx_sentinel_set_fcrdns_suffix ngx_sentinel_set_crowdsec_feed];
  conf_cases; intros [= <-]; raw_field.

Lemma threshold_args_ok args t t' :
  number_ok (thr_challenge t) -> number_ok (thr_tarpit t) -> number_ok (thr_block t) ->
  threshold_args args t = conf_ok t' ->
  number_ok (thr_challenge t') /\ number_ok (thr_tarpit t') /\ number_ok (thr_block t').
Proof.
  revert t. induction args as [|arg args IH]; intros t Hc Ht Hb; cbn [threshold_args].
  { by intros [= <-]. }
  destruct (threshold_arg arg t) as [t1|] eqn:E; [|done]. apply IH; revert E;
    unfold threshold_arg, key_number; cbv zeta; conf_cases; intros [= <-]; cbn; eauto with conf.
Qed.

Lemma set_threshold_ok args : loc_handler_ok (ngx_sentinel_set_threshold args).
Proof.
  intros l l' Hl. unfold ngx_sentinel_set_threshold.
  destruct (threshold_args args (lcf_threshold l)) as [t|] eqn:E; [|done]. intros [= <-].
  destruct Hl as (Hn & Hf & Hs & Hp). unfold conf_numbers in Hn. rewrite !Forall_cons in Hn.
  apply threshold_args_ok in E; [|tauto..].
  apply raw_intro; [|done..]. unfold conf_numbers. cbn. rewrite !Forall_cons. tauto.
Qed.

Lemma c2ip_deny_ok args : loc_handler_ok (sentinel_conf_c2ip_deny args).
Proof.
  induction args as [|v args IH]; intros l l' Hl; cbn [sentinel_conf_c2ip_deny].
  { by intros [= <-]. }
  destruct (c2ip_arg v l) as [l1|] eqn:E; [|done]. apply IH. revert E. unfold c2ip_arg.
  conf_cases; intros [= <-]; exact Hl.
Qed.

Lemma endpoint_ok v host port : redis_endpoint v = conf_ok (host, port) -> port_ok port.
Proof.
  unfold redis_endpoint, bounded_number, outside. conf_cases.
  - intros [= <- <-]. revert E1. conf_cases. intros [= <-].
    apply orb_false_iff in E2 as [?%Z.ltb_ge ?%Z.ltb_ge]. right. lia.
  - intros [= <- <-]. right. by vm_compute.
Qed.

Lemma set_redis_ok alloc v : cmd_handler_ok (on_both (ngx_sentinel_set_redis alloc v)).
Proof.
  intros s s' Hs. unfold on_both.
  destruct (ngx_sentinel_set_redis _ _ _ _) as [[l shm]|] eqn:E; [|done]. intros [= <-].
  cbn. revert E. unfold ngx_sentinel_set_redis. destruct (redis_host _); [|done].
  destruct (nonempty_arg v) as [v'|]; [|done].
  destruct (redis_endpoint v') as [[host port]|] eqn:Ep; [|done].
  apply endpoint_ok in Ep. conf_cases. intros [= <- <-].
  destruct Hs as (Hn & Hf & Hsz & _). by apply raw_intro.
Qed.

Lemma set_cs_sink_ok alloc v : cmd_handler_ok (on_both (ngx_sentinel_set_cs_sink alloc v)).
Proof.
  intros s s' Hs. unfold on_both.
  destruct (ngx_sentinel_set_cs_sink _ _ _ _) as [[l shm]|] eqn:E; [|done]. intros [= <-].
  cbn. revert E. unfold ngx_sentinel_set_cs_sink. conf_cases. by intros [= <- <-].
Qed.

Hint Resolve set_threshold_ok c2ip_deny_ok set_redis_ok set_cs_sink_ok on_main_ok : conf.

Ltac command_row :=
  lazymatch goal with
  | |- command_ok (Command _ _ _) => intros ?; eauto with conf
  | |- command_ok (weight_slot _ _ _) => apply slot_ok; intros l c v x Hl E; cbv beta; raw_field
  | |- command_ok (slot _ _ _ _) => apply slot_ok; intros l c v x Hl E; cbv beta; raw_field
  | |- command_ok (loc1 _ _) => apply loc1_ok; intros ?; first [by eauto with conf | loc_handler]
  | |- command_ok (locs _ _) => apply locs_ok; intros ?; first [by eauto with conf | loc_handler]
  end.

Ltac command_table := repeat apply Forall_cons_2; try apply Forall_nil_2; command_row.

Lemma commands_scoring_ok alloc : Forall command_ok (commands_scoring alloc).
Proof. command_table. Qed.

Lemma commands_signals_ok alloc : Forall command_ok (commands_signals alloc).
Proof. command_table. Qed.

Lemma commands_enforcement_ok : Forall command_ok commands_enforcement.
Proof. command_table. Qed.

Lemma commands_feeds_ok alloc : Forall command_ok (commands_feeds alloc).
Proof. command_table. Qed.

Lemma commands_sharing_ok alloc : Forall command_ok (commands_sharing alloc).
Proof.
  command_table. by intros s' Hs [= <-].
Qed.

Lemma directive_ok alloc s s' : raw_ok (cm_loc s) -> directive alloc s s' -> raw_ok (cm_loc s').
Proof.
  apply (directive_keeps (fun s => raw_ok (cm_loc s))).
  unfold ngx_sentinel_commands. rewrite !Forall_app.
  split_and!; auto using commands_scoring_ok, commands_signals_ok, commands_enforcement_ok,
    commands_feeds_ok, commands_sharing_ok.
Qed.

(** ** Merging *)

(** A block of the file being read: any state of the configuration phase, with
    the configuration of a new block, and then directives. *)
Inductive parsed : cmd_state -> Prop :=
  | parsed_new st status : parsed (CmdState st ngx_sentinel_create_loc_conf status)
  | parsed_directive alloc s s' : parsed s -> directive alloc s s' -> parsed s'.

(** What a block can inherit from: the configuration of the http block, or a
    merged configuration of an enclosing block. *)
Inductive inherited : loc_conf -> Prop :=
  | inherited_main s : parsed s -> inherited (cm_loc s)
  | inherited_merged st prev s l st' :
      inherited prev -> parsed s ->
      ngx_sentinel_merge_loc_conf st prev (cm_loc s) = conf_ok (l, st') -> inherited l.

Lemma create_raw_ok : raw_ok ngx_sentinel_create_loc_conf.
Proof. apply raw_intro; repeat constructor. Qed.

Lemma parsed_ok s : parsed s -> raw_ok (cm_loc s).
Proof. induction 1; [apply create_raw_ok|by eapply directive_ok]. Qed.

(** What the merge guarantees. *)
Definition cs_valid (c : cs_conf) : Prop :=
  1 <= cs_interval c <= 3600 /\ 60 <= cs_default_ttl c <= 86400 /\
  30 <= cs_stale_after c <= 86400 /\ ngx_pagesize <= cs_max_bytes c <= 64 * 1024 * 1024 /\
  cs_zone c <> None.

Definition tarpit_valid (t : tarpit_conf) : Prop :=
  0 <= tarpit_max_conns t <= 65536 /\ 100 <= tarpit_delay t <= 60000 /\
  1 <= tarpit_bytes t <= 65536 /\ 1000 <= tarpit_max_lifetime t <= 600000.

Definition redis_valid (r : redis_conf) : Prop :=
  redis_password r <> None /\ redis_prefix r <> None /\ 1 <= redis_port r <= 65535 /\
  (redis_host r <> [] -> 1 <= redis_interval r <= 3600 /\ 60 <= redis_ttl r <= 86400).

Definition sink_valid (s : sink_conf) : Prop :=
  cs_sink_scenario s <> None /\
  (cs_sink_path s <> [] -> 1 <= cs_sink_interval s <= 3600 /\ 60 <= cs_sink_ttl s <= 86400).

Definition conf_valid (l : loc_conf) : Prop :=
  lcf_ok l /\ Forall (fun n => 0 <= n < 2 ^ 63) (conf_numbers l) /\
  Forall (fun n => n = 0 \/ n = 1) (conf_flags l) /\
  cs_valid (lcf_cs l) /\ tarpit_valid (lcf_tarpit l) /\ redis_valid (lcf_redis l) /\
  sink_valid (lcf_sink l) /\
  (block_status l = NGX_HTTP_CLOSE \/ 400 <= block_status l <= 599) /\ 0 <= block_ttl l /\
  0 <= throttle_rate l < 2 ^ 63 /\
  1 <= pow_difficulty (lcf_pow l) <= 32 /\ 1 <= pow_ttl (lcf_pow l) /\
  pow_secret (lcf_pow l) <> None /\ fcrdns_zone (lcf_fcrdns l) <> None /\
  ((cs_feed (lcf_cs l) <> [] \/ redis_host (lcf_redis l) <> []) ->
   exists i, cs_zone (lcf_cs l) = Some (Some i)).

Lemma outside_false lo hi v : outside lo hi v = false -> lo <= v <= hi.
Proof. unfold outside. rewrite orb_false_iff, !Z.ltb_ge. lia. Qed.

(** The merge of unchecked fields, whose defaults are in range. *)
Lemma merge_number c p d :
  number_ok c -> number_ok p -> 0 <= d < 2 ^ 63 -> 0 <= ngx_conf_merge_value c p d < 2 ^ 63.
Proof.
  unfold number_ok. rewrite merge_value_eq. intros Hc Hp Hd.
  destruct (Z.eqb_spec c NGX_CONF_UNSET); [destruct (Z.eqb_spec p NGX_CONF_UNSET)|]; lia.
Qed.

Lemma merge_flag c p d :
  flag_ok c -> flag_ok p -> d = 0 \/ d = 1 ->
  ngx_conf_merge_value c p d = 0 \/ ngx_conf_merge_value c p d = 1.
Proof.
  unfold flag_ok. rewrite merge_value_eq. intros Hc Hp Hd.
  destruct (Z.eqb_spec c NGX_CONF_UNSET); [destruct (Z.eqb_spec p NGX_CONF_UNSET)|]; lia.
Qed.

Lemma merge_port c p : port_ok c -> port_ok p ->
  1 <= ngx_conf_merge_value c p NGX_SENTINEL_REDIS_DEFAULT_PORT <= 65535.
Proof.
  unfold port_ok, NGX_SENTINEL_REDIS_DEFAULT_PORT. rewrite merge_value_eq. intros Hc Hp.
  destruct (Z.eqb_spec c NGX_CONF_UNSET); [destruct (Z.eqb_spec p NGX_CONF_UNSET)|]; lia.
Qed.

Lemma merge_size c p d :
  size_ok c -> size_ok p -> 0 <= d < 2 ^ 63 -> 0 <= ngx_conf_merge_size_value c p d < 2 ^ 63.
Proof.
  unfold size_ok. rewrite merge_size_value_eq. intros Hc Hp Hd.
  destruct (Z.eqb_spec c NGX_CONF_UNSET_SIZE);
    [destruct (Z.eqb_spec p NGX_CONF_UNSET_SIZE)|]; lia.
Qed.

Lemma merge_ptr_set c p d : ngx_conf_merge_ptr_value c p d <> None.
Proof. rewrite merge_ptr_value_eq. by destruct c, p. Qed.

Lemma merge_str_set c p d : ngx_conf_merge_str_value c p d <> None.
Proof. rewrite merge_str_value_eq. by destruct c, p. Qed.

(** The merged numbers and flags. *)
Lemma merge_numbers prev conf :
  raw_ok prev -> raw_ok conf ->
  Forall (fun n => 0 <= n < 2 ^ 63)
    (conf_numbers (conf {{ lcf_threshold :=
                             merge_threshold (lcf_threshold prev) (lcf_threshold conf);
                           lcf_weights := merge_weights (lcf_weights prev) (lcf_weights conf) }})).
Proof.
  intros (Hp & _) (Hc & _). unfold conf_numbers in *. split_all Hp. split_all Hc. cbn.
  unfold constant. cbn. repeat apply Forall_cons_2; try apply Forall_nil_2;
    (apply merge_number; [assumption|assumption|by vm_compute]).
Qed.

Lemma merge_weights_ok prev conf :
  raw_ok prev -> raw_ok conf ->
  w_crowdsec (merge_weights (lcf_weights prev) (lcf_weights conf)) <= NGX_SENTINEL_SCORE_MAX ->
  weights_ok (merge_weights (lcf_weights prev) (lcf_weights conf)).
Proof.
  intros Hp Hc Hm. pose proof (merge_numbers _ _ Hp Hc) as Hn.
  unfold conf_numbers in Hn. cbn in Hn. unfold constant in Hn. split_all Hn. unfold weights_ok.
  split_and!; first [assumption | eapply proj1; eassumption | eapply proj2; eassumption].
Qed.

Lemma merge_crowdsec_valid w prev conf cs :
  merge_crowdsec w prev conf = conf_ok cs ->
  w <= NGX_SENTINEL_SCORE_MAX /\ cs_valid cs.
Proof.
  unfold merge_crowdsec. cbv zeta. conf_cases. intros [= <-].
  repeat match goal with E : outside _ _ _ = false |- _ => apply outside_false in E end.
  split; [lia|]. unfold cs_valid. cbn in *.
  unfold NGX_SENTINEL_CROWDSEC_MIN_INTERVAL, NGX_SENTINEL_CROWDSEC_MAX_INTERVAL,
    NGX_SENTINEL_CROWDSEC_MIN_TTL, NGX_SENTINEL_CROWDSEC_MAX_TTL,
    NGX_SENTINEL_CROWDSEC_MIN_STALE, NGX_SENTINEL_CROWDSEC_MAX_STALE,
    NGX_SENTINEL_CROWDSEC_MAX_MAXBYTES in *.
  split_and!; try lia. apply merge_ptr_set.
Qed.

Lemma merge_tarpit_valid prev conf tp : merge_tarpit prev conf = conf_ok tp -> tarpit_valid tp.
Proof.
  unfold merge_tarpit. cbv zeta. conf_cases. intros [= <-].
  repeat match goal with E : outside _ _ _ = false |- _ => apply outside_false in E end.
  unfold tarpit_valid. cbn in *. unfold NGX_SENTINEL_TARPIT_MAX_MSEC in *. lia.
Qed.

Lemma merge_redis_valid prev conf rd :
  port_ok (redis_port prev) -> port_ok (redis_port conf) ->
  merge_redis prev conf = conf_ok rd -> redis_valid rd.
Proof.
  intros Hp Hc. unfold merge_redis.
  destruct (match redis_host conf with [] => _ | _ => _ end) as [host push]. cbv zeta.
  assert (forall b, redis_valid (RedisConf [] (ngx_conf_merge_value (redis_port conf)
    (redis_port prev) NGX_SENTINEL_REDIS_DEFAULT_PORT)
    (ngx_conf_merge_str_value (redis_password conf) (redis_password prev) [])
    (ngx_conf_merge_str_value (redis_prefix conf) (redis_prefix prev)
       NGX_SENTINEL_REDIS_DEFAULT_PREFIX) b.1 b.2 push)) as Hoff.
  { intros b. unfold redis_valid. cbn.
    split_and!; try apply merge_str_set; try done; by apply merge_port. }
  conf_cases; intros [= <-].
  - apply (Hoff (_, _)).
  - repeat match goal with E : outside _ _ _ = false |- _ => apply outside_false in E end.
    unfold redis_valid. cbn in *.
    unfold NGX_SENTINEL_REDIS_MIN_INTERVAL, NGX_SENTINEL_REDIS_MAX_INTERVAL,
      NGX_SENTINEL_REDIS_MIN_TTL, NGX_SENTINEL_REDIS_MAX_TTL in *.
    split_and!; try apply merge_str_set; try (by apply merge_port); done.
Qed.

Lemma merge_sink_valid prev conf sk : merge_sink prev conf = conf_ok sk -> sink_valid sk.
Proof.
  unfold merge_sink.
  destruct (match cs_sink_path conf with [] => _ | _ => _ end) as [path z]. cbv zeta.
  conf_cases; intros [= <-]; unfold sink_valid; cbn in *;
    repeat match goal with E : outside _ _ _ = false |- _ => apply outside_false in E end;
    (split; [apply merge_str_set|done]).
Qed.

Lemma merge_fcrdns_zone st prev conf fc :
  merge_fcrdns st prev conf = conf_ok fc -> fcrdns_zone fc <> None.
Proof.
  unfold merge_fcrdns. cbv zeta. conf_cases; intros [= <-]; cbn; [apply merge_ptr_set|done].
Qed.

Lemma merge_velocity_fields st prev conf l :
  merge_velocity st prev conf = conf_ok l ->
  vel_zone l <> None /\
  exists z name, l = conf {{ vel_zone := z; vel_zone_name := name }}.
Proof.
  unfold merge_velocity. cbv zeta.
  conf_cases; intros [= <-]; (split; [|by do 2 eexists]); [apply merge_ptr_set|done].
Qed.

Lemma merge_block_fields prev conf l :
  merge_block prev conf = conf_ok l ->
  (block_status l = NGX_HTTP_CLOSE \/ 400 <= block_status l <= 599) /\ 0 <= block_ttl l /\
  throttle_rate l = ngx_conf_merge_size_value (throttle_rate conf) (throttle_rate prev) 0 /\
  shield l = ngx_conf_merge_value (shield conf) (shield prev) 0 /\
  exists st ttl r s,
    l = conf {{ block_status := st; block_ttl := ttl; throttle_rate := r; shield := s }}.
Proof.
  unfold merge_block. cbv zeta. conf_cases. intros [= <-].
  split_and!; try done; [|by apply Z.ltb_ge in E0|by do 4 eexists].
  cbn in *. unfold constant. apply andb_false_iff in E as [E|E].
  - left. apply negb_false_iff in E. by apply Z.eqb_eq in E.
  - right. by apply outside_false in E.
Qed.

Lemma merge_pow_valid prev conf pw :
  merge_pow prev conf = conf_ok pw ->
  1 <= pow_difficulty pw <= 32 /\ 1 <= pow_ttl pw /\ pow_secret pw <> None.
Proof.
  unfold merge_pow. cbv zeta. conf_cases. intros [= <-]. cbn in *.
  apply outside_false in E. apply Z.ltb_ge in E0. split_and!; try lia. apply merge_str_set.
Qed.

Lemma bind_cs_zone_fields st conf cs :
  bind_cs_zone st conf = conf_ok cs -> cs_valid (lcf_cs conf) ->
  cs_valid cs /\
  (cs_feed cs <> [] \/ redis_host (lcf_redis conf) <> [] ->
   exists i, cs_zone cs = Some (Some i)).
Proof.
  unfold bind_cs_zone. cbv zeta. intros E Hv. pose proof Hv as (? & ? & ? & ? & Hz). revert E.
  conf_cases; intros [= <-]; try (split; [done|]; intros; by eexists); try done.
  apply orb_false_iff in E1 as [Ef Er]. apply negb_false_iff, Nat.eqb_eq in Ef, Er.
  apply nil_length_inv in Ef, Er. split; [done|]. intros [?|?]; congruence.
Qed.

Lemma merge_loc_valid st prev conf l st' :
  raw_ok prev -> raw_ok conf ->
  ngx_sentinel_merge_loc_conf st prev conf = conf_ok (l, st') -> conf_valid l.
Proof.
  intros Hp Hc. unfold ngx_sentinel_merge_loc_conf. cbv zeta. conf_cases. intros [= <- _].
  pose proof (merge_weights_ok _ _ Hp Hc) as Hw.
  pose proof (merge_numbers _ _ Hp Hc) as Ht.
  destruct Hp as (_ & Hpf & Hps & Hpp), Hc as (_ & Hcf & Hcs & Hcp).
  unfold conf_flags in Hpf, Hcf. rewrite !Forall_cons in Hpf, Hcf.
  apply merge_fcrdns_zone in E.
  apply merge_velocity_fields in E0 as (Hvel & z & name & ->).
  apply merge_crowdsec_valid in E1 as [Hcw Hcsv].
  apply merge_redis_valid in E2; [|done|done].
  apply merge_sink_valid in E3. apply merge_tarpit_valid in E4 as Htp.
  assert (tarpit_maze a4 = 0 \/ tarpit_maze a4 = 1) as Hmaze.
  { revert E4. unfold merge_tarpit. cbv zeta. conf_cases. intros [= <-]. cbn.
    apply merge_flag; [tauto|tauto|by left]. }
  apply merge_block_fields in E5 as (Hst & Httl & Hthr & Hsh & status & ttl & r & s & ->).
  assert (pow_enabled a6 = 0 \/ pow_enabled a6 = 1) as Hpe.
  { revert E6. unfold merge_pow. cbv zeta. conf_cases. intros [= <-]. cbn.
    apply merge_flag; [tauto|tauto|by left]. }
  apply merge_pow_valid in E6.
  apply bind_cs_zone_fields in E7 as [Hcs7 Hbind]; [|exact Hcsv].
  unfold conf_valid, lcf_ok. cbn in *; unfold constant in *; cbn in *. subst r s.
  split_and!; try done; try tauto.
  - unfold conf_flags. rewrite !Forall_cons. split_and!; try apply Forall_nil_2; try done;
      (apply merge_flag; [tauto|tauto|first [by left|by right]]).
  - by apply merge_size.
  - by apply merge_size.
Qed.

Lemma valid_raw_ok l : conf_valid l -> raw_ok l.
Proof.
  intros (_ & Hn & Hf & _ & _ & (_ & _ & Hp & _) & _ & _ & _ & Ht & _).
  apply raw_intro; [| |by right|by right].
  - eapply Forall_impl; [exact Hn|]. by right.
  - eapply Forall_impl; [exact Hf|]. by right.
Qed.

Lemma inherited_ok l : inherited l -> raw_ok l.
Proof.
  induction 1 as [s Hs|st prev s l st' Hp IH Hs E]; [by apply parsed_ok|].
  eapply valid_raw_ok, merge_loc_valid; [exact IH|by apply parsed_ok|exact E].
Qed.

(** C10. A configuration that survives the merge is inside the bounds the merge
    enforces, whatever directives the file holds at every level and whatever the
    enclosing blocks set: the weights and thresholds are what the scoring needs,
    the numbers are not negative, the flags are 0 or 1, the feed, Redis, sink and
    tarpit parameters are in their documented ranges, the difficulty is at most
    32, the refusal status is a 4xx or 5xx, every zone pointer is resolved, and a
    feed or a Redis server comes with a decision zone.  The merge bounds neither
    the length of the Redis prefix, nor [sentinel_pow_ttl],
    [sentinel_block_ttl] and the lifetime of a resolver verdict from above; the
    theorems on the handlers that need such a bound have it as a hypothesis. *)
Theorem merged_configuration_is_valid st prev s l st' :
  inherited prev -> parsed s ->
  ngx_sentinel_merge_loc_conf st prev (cm_loc s) = conf_ok (l, st') -> conf_valid l.
Proof. intros Hp Hs. apply merge_loc_valid; [by apply inherited_ok|by apply parsed_ok]. Qed.
End Props.
