(* ===== verification/ConfZones.v ===== *)
(** * ConfZones.v: from the declared zones to the shared memory of a worker

    The invariant of the configuration phase on its zone arrays, the start-up
    that gives every declared zone its table, and the world the request
    handlers then run in: a zone array that has to grow detaches the zones
    declared before, and a configured server handles requests without a fault. *)
From coqutil Require Import Datatypes.RecordSetters.
From S2P Require Import Prelude Types Ngx Http Shm ShmTree ShmSpec ShmRate ShmProps Signals Fcrdns.
From S2P Require Import SignalProps Ring Metrics Pow Core CoreProps NgxModel Conf ConfModel.
From S2P Require Import Directives ConfProps.
Import DoubleBraceUpdate.

Section Zones.
Context `{NgxSlab} `{NgxConf} `{NgxParse}.
Context {ConfLaws : NgxConfLaws} {ParseLaws : NgxParseLaws}.

(** ** Start-up

    nginx calls the [init] callback of every shared zone with the [data] pointer
    the directive left in it; the segments are new, and [pool] is the slab
    pool nginx has laid out in each. *)
Definition init_elt (pool : slab_pool) (e : zone_elt) : zone_elt :=
  ZoneElt (ze_name e) (sentinel_shm_init_zone (ze_zone e) None None pool true true).2 (ze_shm e).

Definition init_zone (pool : bytes -> slab_pool) (z : shm_zone)
    (h : gmap elt_ptr zone_elt) : gmap elt_ptr zone_elt :=
  match sz_init z, sz_data z with
  | Some init_shm_zone, Some p => alter (init_elt (pool (sz_name z))) p h
  | _, _ => h
  end.

Definition init_zones (pool : bytes -> slab_pool) (st : conf_state) : gmap elt_ptr zone_elt :=
  foldr (init_zone pool) (cf_heap st) (cf_shm st).

(** The zones of an array after start-up. *)
Definition array_zones (h : gmap elt_ptr zone_elt) (a : zone_array) : list zone :=
  omap (fun i => ze_zone <$> h !! (za_block a, i)) (seq 0 (za_nelts a)).

(** ** The invariant of the configuration phase *)

Definition rate_conf_ok (zc : zone_conf) : Prop := zone_ok zc /\ z_threshold zc < 2 ^ 63.

(** The elements of the error-rate and velocity arrays have sound parameters. *)
Definition elt_ok (id : array_id) (e : zone_elt) : Prop :=
  match id with
  | A_ZONES | A_VELOCITY => rate_conf_ok (zone_conf_of (ze_zone e))
  | A_CROWDSEC | A_FCRDNS => True
  end.

Definition block_of (st : conf_state) (id : array_id) : nat :=
  za_block (get_array (cf_main st) id).

Definition nelts_of (st : conf_state) (id : array_id) : nat :=
  za_nelts (get_array (cf_main st) id).

Record conf_wf (st : conf_state) : Prop := ConfWf {
  wf_blocks : forall id, (block_of st id < cf_next st)%nat;
  wf_distinct : forall id id', block_of st id = block_of st id' -> id = id';
  wf_elts : forall id i, (i < nelts_of st id)%nat ->
    exists e, cf_heap st !! (block_of st id, i) = Some e /\ elt_ok id e;
  wf_heap : forall p e, cf_heap st !! p = Some e ->
    (p.1 < cf_next st)%nat /\ zone_sh (ze_zone e) = None;
  wf_shm : forall z p, z ∈ cf_shm st -> sz_data z = Some p -> (p.1 < cf_next st)%nat
}.

#[local] Instance array_id_eq_dec : EqDecision array_id.
Proof. solve_decision. Defined.

Lemma get_set_array m id a id' :
  get_array (set_array m id a) id' = if decide (id = id') then a else get_array m id'.
Proof. by destruct id, id'. Qed.

(** Moving copies the elements to the new block and keeps the old ones. *)
Lemma move_elts_lookup h old new n p :
  (forall i, h !! (new, i) = None) -> old <> new ->
  move_elts h old new n !! p =
    if decide (p.1 = new /\ (p.2 < n)%nat) then h !! (old, p.2) else h !! p.
Proof.
  intros Hnew Hne. unfold move_elts.
  assert (forall k m, foldr (fun i h' => match h !! (old, i) with
                                         | Some e => <[(new, i) := e]> h' | None => h' end)
                        h (seq k m) !! p =
          if decide (p.1 = new /\ (k <= p.2 < k + m)%nat) then h !! (old, p.2) else h !! p)
    as Hgen.
  { intros k m. revert k. induction m as [|m IH]; intros k; cbn [seq foldr].
    { rewrite decide_False by lia. done. }
    specialize (IH (S k)). destruct p as [b j]. cbn [fst snd] in *.
    destruct (h !! (old, k)) as [e|] eqn:Ek.
    - destruct (decide ((new, k) = (b, j))) as [E|E].
      + injection E as <- <-. rewrite lookup_insert_eq, decide_True by lia. done.
      + rewrite lookup_insert_ne, IH by done.
        destruct (decide (b = new /\ _)) as [[-> Hj]|Hn];
          [rewrite decide_True by lia; done|].
        rewrite decide_False; [done|]. intros [-> Hj].
        assert (j = k) as -> by lia. done.
    - rewrite IH. destruct (decide (b = new /\ (S k <= j < S k + m)%nat)) as [[-> Hj]|Hn];
        [rewrite decide_True by lia; done|].
      destruct (decide (b = new /\ (k <= j < k + S m)%nat)) as [[-> Hj]|Hn']; [|done].
      assert (j = k) as -> by lia. by rewrite Ek. }
  rewrite (Hgen 0%nat n). destruct p as [b j]. cbn [fst snd].
  destruct (decide (b = new /\ (0 <= j < 0 + n)%nat)), (decide (b = new /\ (j < n)%nat));
    try done; lia.
Qed.

(** Adding a shared zone and binding it. *)
Lemma shm_add_data l name size k shm init data (n : nat) :
  (forall z p, z ∈ l -> sz_data z = Some p -> (p.1 < n)%nat) ->
  ngx_shared_memory_add l name size = Some (k, shm) ->
  forall z p, z ∈ alter (bind_shm init data) k shm -> sz_data z = Some p ->
    (p.1 < n)%nat \/ data = Some p.
Proof.
  intros Hl Eadd.
  assert (forall z p, z ∈ shm -> sz_data z = Some p -> (p.1 < n)%nat) as Hshm.
  { destruct (shm_add_spec _ _ _ _ _ Eadd) as [(z' & _ & _ & ->)|(_ & -> & _)]; [exact Hl|].
    intros z p [Hz|Hz%list_elem_of_singleton]%elem_of_app; [by apply Hl|by subst]. }
  intros z p [j Hz]%list_elem_of_lookup Hdata. destruct (decide (j = k)) as [->|].
  - rewrite list_lookup_alter_eq in Hz. apply fmap_Some in Hz as (z0 & _ & ->). by right.
  - rewrite list_lookup_alter_ne in Hz by done. left.
    eapply Hshm; [by eapply list_elem_of_lookup_2|done].
Qed.

Lemma array_push_spec st id e ptr a' heap next :
  conf_wf st -> array_push st (get_array (cf_main st) id) e = (ptr, a', heap, next) ->
  ptr = (za_block a', nelts_of st id) /\ za_nelts a' = S (nelts_of st id) /\
  (cf_next st <= next)%nat /\ (za_block a' < next)%nat /\
  (za_block a' = if ngx_array_moves (nelts_of st id) (za_init (get_array (cf_main st) id))
                 then cf_next st else block_of st id) /\
  heap !! ptr = Some e /\
  (forall i, (i < nelts_of st id)%nat ->
     heap !! (za_block a', i) = cf_heap st !! (block_of st id, i)) /\
  (forall id' i, id' <> id -> heap !! (block_of st id', i) = cf_heap st !! (block_of st id', i)) /\
  (forall p e', heap !! p = Some e' ->
     (p.1 < next)%nat /\ (e' = e \/ exists p', cf_heap st !! p' = Some e')).
Proof.
  intros [Hb Hd He Hh Hs]. unfold array_push, nelts_of. fold (block_of st id).
  set (a := get_array (cf_main st) id). pose proof (Hb id) as Hbid.
  destruct (ngx_array_moves (za_nelts a) (za_init a)); intros [= <- <- <- <-];
    cbn [za_block za_nelts]; split_and!; try done; try lia.
  - by rewrite lookup_insert_eq.
  - intros i Hi. rewrite lookup_insert_ne by (intros [= ?]; lia).
    rewrite move_elts_lookup; [|intros j; destruct (cf_heap st !! _) as [e'|] eqn:E|];
      [by rewrite decide_True| |done|lia].
    apply Hh in E as [E _]. cbn in E. lia.
  - intros id' i Hid. pose proof (Hb id') as Hb'. rewrite lookup_insert_ne by (intros [= ?]; lia).
    rewrite move_elts_lookup; [|intros j; destruct (cf_heap st !! (_, j)) as [e'|] eqn:E|];
      [rewrite decide_False; [done|cbn; lia]| |done|lia].
    apply Hh in E as [E _]. cbn in E. lia.
  - intros p e' Hp. rewrite lookup_insert_Some in Hp. destruct Hp as [[<- <-]|[_ Hp]];
      [split; [cbn; lia|by left]|].
    rewrite move_elts_lookup in Hp; [|intros j; destruct (cf_heap st !! _) as [e1|] eqn:E|];
      [| |done|lia].
    2: { apply Hh in E as [E _]. cbn in E. lia. }
    destruct (decide _) as [[Hp1 _]|_]; [split; [lia|]|split; [apply Hh in Hp as [? _]; lia|]];
      right; by eexists.
  - by rewrite lookup_insert_eq.
  - intros i Hi. by rewrite lookup_insert_ne by (intros [= ?]; lia).
  - intros id' i Hid. rewrite lookup_insert_ne; [done|]. intros [= E _].
    by apply Hd in E.
  - intros p e' Hp. rewrite lookup_insert_Some in Hp. destruct Hp as [[<- <-]|[_ Hp]];
      [split; [done|by left]|].
    split; [by apply Hh in Hp as [? _]|]. right. by eexists.
Qed.

(** Declaring a zone keeps the invariant. *)
Lemma declare_zone_wf alloc id name size zc st st' :
  conf_wf st -> (forall i, elt_ok id (ZoneElt name (Zone zc None) i)) ->
  declare_zone alloc id name size zc st = conf_ok st' -> conf_wf st'.
Proof.
  intros Hwf Hok. unfold declare_zone. destruct (negb alloc); [done|].
  destruct (ngx_shared_memory_add (cf_shm st) name size) as [[k shm]|] eqn:Eadd; [|done].
  destruct (array_push _ _ _) as [[[ptr a'] heap] next] eqn:Epush. intros [= <-].
  apply array_push_spec in Epush
    as (-> & Hn & Hnext & Hblk & Ea & Hnew & Hold & Hother & Hheap); [|done].
  destruct Hwf as [Hb Hd He Hh Hs].
  assert (forall id', id' <> id -> za_block a' <> block_of st id') as Hdiff.
  { intros id' Hid E. rewrite E in Ea. case_match; [pose proof (Hb id'); lia|].
    by apply Hd in Ea. }
  split; unfold block_of, nelts_of in *; cbn [cf_main cf_heap cf_next cf_shm].
  - intros id'. rewrite get_set_array. case_decide; [done|]. specialize (Hb id'). lia.
  - intros id1 id2. rewrite !get_set_array. repeat case_decide; subst; try done; intros E.
    + by apply Hdiff in E.
    + symmetry in E. by apply Hdiff in E.
    + by apply Hd.
  - intros id' i. rewrite get_set_array. case_decide as Eid; subst.
    + rewrite Hn. intros Hi. destruct (decide (i = za_nelts (get_array (cf_main st) id'))) as [->|].
      * eexists. split; [exact Hnew|apply Hok].
      * rewrite Hold by lia. apply He. lia.
    + intros Hi. rewrite Hother by done. by apply He.
  - intros p e Hp. apply Hheap in Hp as [Hp [->|[p' He']]]; [done|].
    split; [done|]. by apply Hh in He' as [_ ?].
  - intros z p Hz Hdata. destruct (shm_add_data _ _ _ _ _ _ _ _ Hs Eadd _ _ Hz Hdata) as [?|E].
    + lia.
    + by injection E as <-.
Qed.

(** ** Every directive keeps the invariant *)

Notation keeps_wf := (keeps (fun s => conf_wf (cm_conf s))).

Lemma on_loc_wf f : keeps_wf (on_loc f).
Proof. intros s s' Hs. unfold on_loc. conf_cases. by intros [= <-]. Qed.

Lemma on_main_wf (f : conf_state -> conf_result conf_state) :
  (forall st st', conf_wf st -> f st = conf_ok st' -> conf_wf st') -> keeps_wf (on_main f).
Proof. intros Hf s s' Hs. unfold on_main. conf_cases. intros [= <-]. by apply (Hf _ _ Hs). Qed.

Lemma on_both_wf f :
  (forall l shm l' shm', f l shm = conf_ok (l', shm') ->
     exists k name size init, exists shm1,
       ngx_shared_memory_add shm name size = Some (k, shm1) /\
       shm' = alter (bind_shm init None) k shm1) ->
  keeps_wf (on_both f).
Proof.
  intros Hf s s' [Hb Hd He Hh Hs]. unfold on_both.
  destruct (f _ _) as [[l shm]|] eqn:E; [|done]. intros [= <-].
  destruct (Hf _ _ _ _ E) as (k & name & size & init & shm1 & Eadd & ->).
  split; cbn; try done. intros z p Hz Hdata.
  by destruct (shm_add_data _ _ _ _ _ _ _ _ Hs Eadd _ _ Hz Hdata).
Qed.

Lemma ring_zone_add prefix v size init shm i shm' :
  ring_zone prefix v size init shm = conf_ok (i, shm') ->
  exists k name sz ini, exists shm1,
    ngx_shared_memory_add shm name sz = Some (k, shm1) /\ shm' = alter (bind_shm ini None) k shm1.
Proof.
  unfold ring_zone. destruct (ngx_shared_memory_add _ _ _) as [[k shm1]|] eqn:E; [|done].
  intros [= <- <-]. by do 5 eexists.
Qed.

Lemma set_redis_wf alloc v : keeps_wf (on_both (ngx_sentinel_set_redis alloc v)).
Proof.
  apply on_both_wf. intros l shm l' shm'. unfold ngx_sentinel_set_redis.
  conf_cases. intros [= _ <-]. subst. by eapply ring_zone_add.
Qed.

Lemma set_cs_sink_wf alloc v : keeps_wf (on_both (ngx_sentinel_set_cs_sink alloc v)).
Proof.
  apply on_both_wf. intros l shm l' shm'. unfold ngx_sentinel_set_cs_sink.
  conf_cases. intros [= _ <-]. subst. by eapply ring_zone_add.
Qed.

(** The parameters of a velocity zone are positive. *)
Lemma velocity_args_ok args zc zc' :
  rate_conf_ok zc -> velocity_args args zc = conf_ok zc' -> rate_conf_ok zc'.
Proof.
  revert zc. induction args as [|arg args IH]; intros zc Hzc; cbn [velocity_args].
  { by intros [= <-]. }
  destruct (velocity_arg arg zc) as [zc1|] eqn:E; [|done]. apply IH. revert E.
  unfold velocity_arg, key_number. cbv zeta.
  destruct Hzc as ((Hi & Hb & Ht) & Hm).
  conf_cases; intros [= <-];
    match goal with Ha : ngx_atoi _ = Some _, Hz : (_ <? 1) = false |- _ =>
      apply atoi_range in Ha; apply Z.ltb_ge in Hz end;
    unfold rate_conf_ok, zone_ok; cbn; lia.
Qed.

Lemma set_zone_wf alloc v st st' :
  conf_wf st -> ngx_sentinel_set_zone alloc v st = conf_ok st' -> conf_wf st'.
Proof.
  intros Hst. unfold ngx_sentinel_set_zone. conf_cases. subst.
  apply declare_zone_wf; [done|]. intros i. by vm_compute.
Qed.

Lemma set_velocity_zone_wf alloc args st st' :
  conf_wf st -> ngx_sentinel_set_velocity_zone alloc args st = conf_ok st' -> conf_wf st'.
Proof.
  intros Hst. unfold ngx_sentinel_set_velocity_zone. conf_cases. subst.
  apply declare_zone_wf; [done|]. intros i. eapply velocity_args_ok; [|exact E2]. by vm_compute.
Qed.

Lemma set_crowdsec_zone_wf alloc v st st' :
  conf_wf st -> ngx_sentinel_set_crowdsec_zone alloc v st = conf_ok st' -> conf_wf st'.
Proof.
  intros Hst. unfold ngx_sentinel_set_crowdsec_zone. conf_cases. subst.
  by apply declare_zone_wf.
Qed.

Lemma set_fcrdns_zone_wf alloc v st st' :
  conf_wf st -> ngx_sentinel_set_fcrdns_zone alloc v st = conf_ok st' -> conf_wf st'.
Proof.
  intros Hst. unfold ngx_sentinel_set_fcrdns_zone. conf_cases. subst.
  by apply declare_zone_wf.
Qed.

Lemma directive_wf alloc s s' :
  conf_wf (cm_conf s) -> directive alloc s s' -> conf_wf (cm_conf s').
Proof.
  apply (directive_keeps (fun s => conf_wf (cm_conf s))).
  unfold ngx_sentinel_commands. rewrite !Forall_app. split_and!;
    repeat apply Forall_cons_2; try apply Forall_nil_2; cbn; intros ?;
    try apply on_loc_wf; try (apply on_main_wf; intros ??);
    eauto using set_redis_wf, set_cs_sink_wf, set_zone_wf, set_velocity_zone_wf,
      set_crowdsec_zone_wf, set_fcrdns_zone_wf.
  by intros s2 Hs [= <-].
Qed.

(** The configuration phase of a whole file: directives of any block, and merges
    of location configurations, which write the interval of the decision zone. *)
Definition merge_step (st st' : conf_state) : Prop :=
  exists prev s l, inherited prev /\ parsed s /\
    ngx_sentinel_merge_loc_conf st prev (cm_loc s) = conf_ok (l, st').

Definition directive_step (st st' : conf_state) : Prop :=
  exists alloc s s', directive alloc s s' /\ st = cm_conf s /\ st' = cm_conf s'.

Definition config_run (st : conf_state) : Prop :=
  rtc (fun a b => directive_step a b \/ merge_step a b) ngx_sentinel_create_main_conf st.

Lemma create_main_wf : conf_wf ngx_sentinel_create_main_conf.
Proof.
  split; unfold block_of, nelts_of; cbn.
  - intros []; cbn; lia.
  - by intros [] [].
  - intros []; cbn; lia.
  - by intros p e.
  - set_solver.
Qed.

(** Writing a positive interval keeps the parameters of every element sound. *)
Lemma set_cs_interval_wf st cs :
  conf_wf st -> 0 < cs_stale_after cs -> conf_wf (set_cs_interval st cs).
Proof.
  intros Hwf Hpos. unfold set_cs_interval. destruct (cs_zone cs) as [[i|]|]; [|done..].
  destruct st as [main heap next shm], Hwf as [Hb Hd He Hh Hs].
  unfold block_of, nelts_of in *. cbn in *.
  set (p0 := (za_block (cs_zones main), i)) in *.
  assert (forall p e, alter (set_interval (cs_stale_after cs)) p0 heap !! p = Some e ->
    exists e0, heap !! p = Some e0 /\ (e = e0 \/ e = set_interval (cs_stale_after cs) e0))
    as Halter.
  { intros p e. destruct (decide (p = p0)) as [->|].
    - rewrite lookup_alter_eq. intros (e0 & ? & ->)%fmap_Some. exists e0. auto.
    - rewrite lookup_alter_ne by done. eauto. }
  split; unfold block_of, nelts_of; cbn; try done.
  - intros id j Hj. destruct (He id j Hj) as (e & Ee & Hok). unfold constant.
    destruct (decide ((za_block (get_array main id), j) = p0)) as [E|].
    + rewrite E, lookup_alter_eq, <- E. cbn in *. rewrite Ee. eexists. split; [done|].
      destruct id; cbn in *; try done; destruct Hok as ((? & ? & ?) & ?);
        repeat split; cbn; lia.
    + rewrite lookup_alter_ne by done. by eexists.
  - intros p e Hp. apply Halter in Hp as (e0 & Hp & [->| ->]); by apply Hh in Hp.
Qed.

Lemma config_run_wf st : config_run st -> conf_wf st.
Proof.
  intros Hrun. eapply (rtc_ind_r (fun st => conf_wf st) _); [apply create_main_wf| |exact Hrun].
  clear st Hrun. intros st st' _ [Hd|(prev & s & l & Hp & Hs & E)] IH.
  - destruct Hd as (alloc & s & s' & Hd & -> & ->). by eapply directive_wf.
  - assert (conf_valid l) as Hv
      by (eapply merge_loc_valid; [by apply inherited_ok|by apply parsed_ok|exact E]).
    destruct Hv as (_ & _ & _ & (_ & _ & Hstale & _) & _). revert E.
    unfold ngx_sentinel_merge_loc_conf. cbv zeta. conf_cases.
    intros [= <- <-]. apply set_cs_interval_wf; [done|]. cbn in Hstale. unfold constant in Hstale. lia.
Qed.

(** ** The tables after start-up *)

Lemma init_zones_lookup pool st p :
  init_zones pool st !! p = None /\ cf_heap st !! p = None \/
  exists e e', init_zones pool st !! p = Some e' /\ cf_heap st !! p = Some e /\
    zone_conf_of (ze_zone e') = zone_conf_of (ze_zone e) /\ ze_name e' = ze_name e /\
    (zone_sh (ze_zone e') = zone_sh (ze_zone e) \/
     exists pl, zone_sh (ze_zone e') = Some (empty_shctx pl)).
Proof.
  unfold init_zones. induction (cf_shm st) as [|z l IH]; cbn [foldr].
  { destruct (cf_heap st !! p) as [e|]; [right|by left]. exists e, e. by split_and!; [..|left]. }
  revert IH. generalize (foldr (init_zone pool) (cf_heap st) l). intros h IH.
  unfold init_zone. destruct (sz_init z) as [[]|]; try exact IH.
  destruct (sz_data z) as [q|]; [|exact IH]. destruct (decide (p = q)) as [->|].
  - rewrite lookup_alter_eq. destruct IH as [[-> ->]|(e & e' & -> & -> & Hc & Hn & _)];
      [by left|]. right. eexists e, _. split_and!; try done. right. by eexists.
  - by rewrite lookup_alter_ne.
Qed.

(** An element no shared zone points to keeps an empty [sh]. *)
Lemma init_zones_untouched pool st p e :
  (forall z, z ∈ cf_shm st -> sz_data z <> Some p) ->
  init_zones pool st !! p = Some e -> cf_heap st !! p = Some e.
Proof.
  intros Hp. unfold init_zones.
  assert (forall h, (forall z, z ∈ cf_shm st -> sz_data z <> Some p) ->
    foldr (init_zone pool) h (cf_shm st) !! p = h !! p) as ->; [|done|exact Hp].
  intros h. induction (cf_shm st) as [|z l IH]; intros Hl; cbn [foldr]; [done|].
  assert (forall z, z ∈ l -> sz_data z <> Some p) as Hl' by set_solver.
  specialize (IH Hl'). revert IH. generalize (foldr (init_zone pool) h l). intros h' IH.
  unfold init_zone. destruct (sz_init z) as [[]|]; auto. destruct (sz_data z) as [q|] eqn:E; auto.
  rewrite lookup_alter_ne; [auto|]. intros ->. by apply (Hl z); [set_solver|].
Qed.

(** The world of a worker at start-up. *)
Definition start_world (pool : bytes -> slab_pool) (st : conf_state)
    (conns : option (list Z)) (m : metrics) (redis sink : option nat * ring) : world :=
  let h := init_zones pool st in
  World (array_zones h (zones (cf_main st))) (array_zones h (vel_zones (cf_main st)))
    (array_zones h (cs_zones (cf_main st))) (array_zones h (fcrdns_zones (cf_main st)))
    conns m redis sink.

Lemma array_zones_ok (P : zone -> Prop) pool st id :
  conf_wf st ->
  (forall e e', elt_ok id e -> zone_sh (ze_zone e) = None ->
     zone_conf_of (ze_zone e') = zone_conf_of (ze_zone e) ->
     (zone_sh (ze_zone e') = None \/ exists pl, zone_sh (ze_zone e') = Some (empty_shctx pl)) ->
     P (ze_zone e')) ->
  Forall P (array_zones (init_zones pool st) (get_array (cf_main st) id)).
Proof.
  intros [_ _ He Hh _] HP. rewrite Forall_forall. intros z Hz.
  unfold array_zones in Hz. apply list_elem_of_omap in Hz as (i & Hi & Ez).
  apply elem_of_seq in Hi. destruct (He id i) as (e0 & Ee & Hok); [unfold nelts_of; lia|].
  unfold block_of in Ee.
  destruct (init_zones_lookup pool st (za_block (get_array (cf_main st) id), i))
    as [[_ E]|(e & e' & Ei & Eh & Hc & _ & Hsh)]; [congruence|].
  rewrite Ei in Ez. injection Ez as <-. rewrite Eh in Ee. injection Ee as ->.
  pose proof (Hh _ _ Eh) as [_ Hnone]. eapply (HP e0); [done|done|done|].
  destruct Hsh as [->|Hsh]; [by left|by right].
Qed.

End Zones.

(** ** The server that is started *)
Section Server.
Context `{NgxHash} `{NgxCompare} `{NgxSlab} `{NgxRbtree} `{NgxParse} `{NgxInet}
        `{NgxFormat} `{NgxHmac} `{NgxQuery} `{NgxSort} `{NgxConf}.
Context {HashLaws : NgxHashLaws} {CmpLaws : NgxCompareLaws} {SlabLaws : NgxSlabLaws}
        {RbLaws : NgxRbtreeLaws} {ParseLaws : NgxParseLaws} {FormatLaws : NgxFormatLaws}
        {ConfLaws : NgxConfLaws}.

Lemma array_zones_rate_ok now pool st id :
  id = A_ZONES \/ id = A_VELOCITY -> conf_wf st ->
  Forall (rate_zone_ok now) (array_zones (init_zones pool st) (get_array (cf_main st) id)).
Proof.
  intros Hid Hwf. apply array_zones_ok; [done|].
  intros e [name [zc sh] k] Hok _ Hc Hsh. cbn in *. subst zc.
  assert (rate_conf_ok (zone_conf_of (ze_zone e))) as [Hz Hm] by by destruct Hid; subst id.
  destruct Hsh as [->|[pl ->]]; [done|]. split_and!; [done..|apply wf_empty].
Qed.

Lemma array_zones_table_ok pool st id :
  conf_wf st ->
  Forall table_ok (array_zones (init_zones pool st) (get_array (cf_main st) id)).
Proof.
  intros Hwf. apply array_zones_ok; [done|]. intros e [name [zc sh] k] _ _ _ Hsh. cbn in *.
  destruct Hsh as [->|[pl ->]]; [done|apply wf_empty].
Qed.

(** Whatever the file declares, the world at start-up is well formed. *)
Lemma start_world_ok now pool st conns m redis sink :
  config_run st -> world_ok now (start_world pool st conns m redis sink).
Proof.
  intros Hwf%config_run_wf. split_and!; cbn [start_world wd_zones wd_vel wd_cs wd_fcrdns].
  - apply (array_zones_rate_ok now pool st A_ZONES); [by left|done].
  - apply (array_zones_rate_ok now pool st A_VELOCITY); [by right|done].
  - by apply (array_zones_table_ok pool st A_CROWDSEC).
  - by apply (array_zones_table_ok pool st A_FCRDNS).
Qed.

(** C37. A zone array that has to grow detaches the zones declared before: when a
    further [sentinel_velocity_zone] moves the array to a new block, the shared
    zones keep pointing to the old elements, so after start-up every earlier
    element of the array, the one a location binds to, has no table, and the
    velocity signal of such a location never fires. *)
Theorem growing_zone_array_detaches_zones alloc args st st' pool i e :
  config_run st -> ngx_sentinel_set_velocity_zone alloc args st = conf_ok st' ->
  ngx_array_moves (nelts_of st A_VELOCITY) (za_init (vel_zones (cf_main st))) = true ->
  (i < nelts_of st A_VELOCITY)%nat ->
  init_zones pool st' !! (block_of st' A_VELOCITY, i) = Some e ->
  zone_sh (ze_zone e) = None /\
  forall r lcf now, sentinel_velocity_signal (Some r) (Some lcf) (Some (ze_zone e)) now =
    Some (false, Some (ze_zone e)).
Proof.
  intros Hwf%config_run_wf Hset Hmove Hi He.
  assert (zone_sh (ze_zone e) = None) as Hsh.
  { revert Hset. unfold ngx_sentinel_set_velocity_zone. conf_cases. subst.
    unfold declare_zone. conf_cases. subst. intros [= <-].
    match goal with Ep : array_push _ _ _ = _ |- _ =>
      apply (array_push_spec st A_VELOCITY) in Ep
        as (-> & _ & _ & _ & Ea & _ & Hold & _); [|done] end.
    cbn [get_array] in Ea. rewrite Hmove in Ea.
    unfold block_of in He. cbn in He. unfold constant in He. cbn in He.
    match goal with Eadd : ngx_shared_memory_add _ _ _ = Some _ |- _ =>
      pose proof (shm_add_data _ _ _ _ _ init_shm_zone (Some (za_block z0, nelts_of st A_VELOCITY))
        _ (wf_shm _ Hwf) Eadd) as Hdata end.
    apply (init_zones_untouched pool (ConfState (cf_main st) g n0
      (alter (bind_shm init_shm_zone (Some (za_block z0, nelts_of st A_VELOCITY))) n l2))) in He.
    - cbn in He. rewrite Hold in He by done. by apply (wf_heap _ Hwf) in He as [_ ?].
    - intros w Hw Hp. destruct (Hdata w _ Hw Hp) as [Hlt|[= Heq]].
      + cbn in Hlt. lia.
      + lia. }
  split; [done|]. intros r lcf now. destruct (ze_zone e) as [zc sh]. cbn in Hsh. subst sh.
  unfold sentinel_velocity_signal. by destruct (r_addr_text r).
Qed.

(** A server started from any configuration file that nginx accepts handles
    every first request without a fault up to the time [T]: the tables that
    start-up lays out for the declared zones and the bounds the merge enforces
    are what the request path needs, so both handlers return and leave every zone
    well formed, provided that the block times, lifetimes and thresholds the
    parser leaves unbounded fit their types. *)
Theorem configured_server_is_safe T st prev s l st' pool conns m redis sink env r :
  config_run st -> inherited prev -> parsed s ->
  ngx_sentinel_merge_loc_conf st prev (cm_loc s) = conf_ok (l, st') ->
  world_fits T (start_world pool st' conns m redis sink) ->
  0 <= en_now env <= T -> r_sockaddr r <> None ->
  T + pow_ttl_of (lcf_pow l) < 2 ^ 63 -> T + block_ttl l < 2 ^ 63 ->
  exists rc slot w' ef res,
    ngx_sentinel_preaccess_handler env r l SlotEmpty
      (start_world pool st' conns m redis sink) = Some (rc, slot, w', ef, res) /\
    world_ok (en_now env) w' /\
    forall later, en_now env <= later <= T ->
      exists w'', ngx_sentinel_log_handler later r l w' = Some (NGX_OK, w'') /\
        world_ok later w''.
Proof.
  intros Hrun Hp Hs E Hfits Hnow Hr Hmax Hban. apply handlers_total; try done.
  - apply start_world_ok. eapply rtc_r; [exact Hrun|]. right. by exists prev, s, l.
  - eapply merge_loc_valid; [by apply inherited_ok|by apply parsed_ok|exact E].
Qed.
End Server.

(** ** Witnesses *)
Import Concrete ConcreteConf.

Definition demo_pools (name : bytes) : @slab_pool slab := fresh_pool 8.

(** The state a directive leaves, the previous one if it fails. *)
Definition run_step (st : conf_state) (f : conf_state -> conf_result conf_state) : conf_state :=
  match f st with conf_ok st' => st' | conf_err _ => st end.

Definition accepts (f : conf_state -> conf_result conf_state) (st : conf_state) : bool :=
  match f st with conf_ok _ => true | conf_err _ => false end.

Lemma run_step_ok f st : accepts f st = true -> f st = conf_ok (run_step st f).
Proof. unfold accepts, run_step. by destruct (f st). Qed.

Definition run_main (fs : list (conf_state -> conf_result conf_state)) : conf_state :=
  fold_left run_step fs ngx_sentinel_create_main_conf.

(** A directive of the http block whose success is a step of the configuration. *)
Definition main_directive (f : conf_state -> conf_result conf_state) : Prop :=
  forall st st', f st = conf_ok st' -> directive_step st st'.

Lemma run_main_run fs : Forall main_directive fs -> config_run (run_main fs).
Proof.
  unfold config_run, run_main. generalize ngx_sentinel_create_main_conf.
  intros st Hfs. revert st. induction Hfs as [|f fs Hf Hfs IH]; intros st; cbn [fold_left].
  { apply rtc_refl. }
  destruct (accepts f st) eqn:E.
  - apply (rtc_l _ _ (run_step st f)); [left; by apply Hf, run_step_ok|apply IH].
  - unfold run_step at 2. unfold accepts in E. destruct (f st); [done|apply IH].
Qed.

Lemma velocity_directive v args :
  main_directive (ngx_sentinel_set_velocity_zone true (v :: args)).
Proof.
  intros st st' E. exists true, (CmdState st ngx_sentinel_create_loc_conf false),
    (CmdState st' ngx_sentinel_create_loc_conf false).
  split; [|done]. eapply (directive_more1 _ _ _ _ _ v args);
    [by apply (list_elem_of_lookup_2 _ 11)|reflexivity|].
  cbn [cm_conf]. unfold on_main. cbn [cm_conf]. by rewrite E.
Qed.

Lemma zone_directive v : main_directive (ngx_sentinel_set_zone true v).
Proof.
  intros st st' E. exists true, (CmdState st ngx_sentinel_create_loc_conf false),
    (CmdState st' ngx_sentinel_create_loc_conf false).
  split; [|done]. eapply (directive_take1 _ _ _ _ _ v);
    [by apply (list_elem_of_lookup_2 _ 2)|reflexivity|].
  cbn [cm_conf]. unfold on_main. cbn [cm_conf]. by rewrite E.
Qed.

Definition velocity_a : conf_state -> conf_result conf_state :=
  ngx_sentinel_set_velocity_zone true [lit "a:8192"; lit "rate=20"].
Definition velocity_b : conf_state -> conf_result conf_state :=
  ngx_sentinel_set_velocity_zone true [lit "b:8192"; lit "window=60"].

Definition two_velocity_zones : conf_state := run_main [velocity_a; velocity_b].

Lemma two_velocity_zones_run : config_run two_velocity_zones.
Proof. apply run_main_run. repeat constructor; apply velocity_directive. Qed.

Definition velocity_c : conf_state -> conf_result conf_state :=
  ngx_sentinel_set_velocity_zone true [lit "c:8192"].

Definition three_velocity_zones : conf_state := run_step two_velocity_zones velocity_c.

Lemma three_velocity_zones_elt :
  exists e, init_zones demo_pools three_velocity_zones
              !! (block_of three_velocity_zones A_VELOCITY, 0%nat) = Some e.
Proof.
  destruct (init_zones_lookup demo_pools three_velocity_zones
    (block_of three_velocity_zones A_VELOCITY, 0%nat)) as [[_ E]|(e0 & e & E & _)];
    [|by exists e].
  assert (match cf_heap three_velocity_zones
            !! (block_of three_velocity_zones A_VELOCITY, 0%nat) with
          | Some _ => true | None => false end = true) as E' by (vm_compute; reflexivity).
  by rewrite E in E'.
Qed.

Lemma growing_zone_array_detaches_zones_witness :
  exists e, init_zones demo_pools three_velocity_zones
              !! (block_of three_velocity_zones A_VELOCITY, 0%nat) = Some e /\
    zone_sh (ze_zone e) = None.
Proof.
  destruct three_velocity_zones_elt as (e & E). exists e. split; [exact E|].
  refine (proj1 (growing_zone_array_detaches_zones true [lit "c:8192"] two_velocity_zones
    three_velocity_zones demo_pools 0 e two_velocity_zones_run _ _ _ E)).
  - apply (run_step_ok velocity_c). by vm_compute.
  - by vm_compute.
  - vm_compute. lia.
Defined.

(** A configuration with an error-rate zone and one enforcing location. *)
Definition one_zone : conf_state := run_main [ngx_sentinel_set_zone true (lit "main:65536")].

Lemma one_zone_run : config_run one_zone.
Proof. apply run_main_run. repeat constructor. apply zone_directive. Qed.

(** [sentinel on; sentinel_mode enforce;] *)
Definition demo_block_of (st : conf_state) : cmd_state :=
  CmdState st (ngx_sentinel_create_loc_conf {{ enabled := 1; shadow := 0 }}) false.

Lemma demo_block_of_parsed st : parsed (demo_block_of st).
Proof.
  apply (parsed_directive true
    (CmdState st (ngx_sentinel_create_loc_conf {{ enabled := 1 }}) false)).
  - apply (parsed_directive true _ _ (parsed_new st false)).
    eapply (directive_take1 _ _ _ _ _ (lit "on"));
      [by apply (list_elem_of_lookup_2 _ 0)|reflexivity|reflexivity].
  - eapply (directive_take1 _ _ _ _ _ (lit "enforce"));
      [by apply (list_elem_of_lookup_2 _ 1)|reflexivity|reflexivity].
Qed.

Definition demo_block : cmd_state := demo_block_of one_zone.

(** The configured parameters of the zones the workers start with. *)
Definition demo_confs (st : conf_state) : list zone_conf * list zone_conf :=
  let w := start_world demo_pools st None None (None, ring_init) (None, ring_init) in
  (zone_conf_of <$> wd_zones w, zone_conf_of <$> wd_vel w).

Lemma demo_merge :
  exists l st', ngx_sentinel_merge_loc_conf one_zone ngx_sentinel_create_loc_conf
                  (cm_loc demo_block) = conf_ok (l, st') /\
    enabled l = 1 /\ lcf_zone l = Some 0%nat /\ pow_ttl_of (lcf_pow l) = 3600 /\
    block_ttl l = 0 /\ fcrdns_ttl_of (lcf_fcrdns l) = 3600 /\
    demo_confs st' = ([ZoneConf 300 3600 64], []).
Proof.
  set (m := ngx_sentinel_merge_loc_conf _ _ _).
  assert (match m with
          | conf_ok (l, st') => Some (enabled l, lcf_zone l, pow_ttl_of (lcf_pow l), block_ttl l,
                                      fcrdns_ttl_of (lcf_fcrdns l), demo_confs st')
          | conf_err _ => None
          end = Some (1, Some 0%nat, 3600, 0, 3600, ([ZoneConf 300 3600 64], []))) as E
    by (vm_compute; reflexivity).
  clearbody m. destruct m as [[l st']|]; [|done]. injection E as E1 E2 E3 E4 E5 E6 E7.
  exists l, st'. split_and!; try done. unfold demo_confs. by f_equal.
Qed.

Lemma demo_confs_fit st conns m redis sink :
  demo_confs st = ([ZoneConf 300 3600 64], []) ->
  world_fits 2000000 (start_world demo_pools st conns m redis sink).
Proof.
  intros [= E1 E2]. split; unfold zones_fit.
  - cbn [start_world wd_zones] in *. rewrite E1. repeat constructor.
  - cbn [start_world wd_vel] in *. rewrite E2. constructor.
Qed.

Lemma merged_configuration_is_valid_witness :
  exists l st', ngx_sentinel_merge_loc_conf one_zone ngx_sentinel_create_loc_conf
                  (cm_loc demo_block) = conf_ok (l, st') /\ conf_valid l.
Proof.
  destruct demo_merge as (l & st' & E & _). exists l, st'. split; [exact E|].
  apply (merged_configuration_is_valid one_zone ngx_sentinel_create_loc_conf demo_block l st');
    [|apply demo_block_of_parsed|exact E].
  apply (inherited_main (CmdState one_zone ngx_sentinel_create_loc_conf false)), parsed_new.
Defined.

Lemma configured_server_is_safe_witness :
  exists l st' rc slot w' ef res,
    ngx_sentinel_merge_loc_conf one_zone ngx_sentinel_create_loc_conf
      (cm_loc demo_block) = conf_ok (l, st') /\
    ngx_sentinel_preaccess_handler demo_req_env demo_request l SlotEmpty
      (start_world demo_pools st' (Some [0; 0]) None (None, ring_init)
         (None, ring_init)) = Some (rc, slot, w', ef, res).
Proof.
  destruct demo_merge as (l & st' & E & _ & _ & Httl & Hban & _ & Hconfs).
  destruct (configured_server_is_safe 2000000 one_zone ngx_sentinel_create_loc_conf demo_block l st'
    demo_pools (Some [0; 0]) None (None, ring_init) (None, ring_init)
    demo_req_env demo_request) as (rc & slot & w' & ef & res & Hpre & _).
  - apply one_zone_run.
  - apply (inherited_main (CmdState one_zone ngx_sentinel_create_loc_conf false)), parsed_new.
  - apply demo_block_of_parsed.
  - exact E.
  - by apply demo_confs_fit.
  - done.
  - done.
  - rewrite Httl. by vm_compute.
  - rewrite Hban. by vm_compute.
  - by exists l, st', rc, slot, w', ef, res.
Defined.
