(* ===== verification/Init.v ===== *)
(** * Init.v: registration and process start ([ngx_http_sentinel_module.c])

    The variable table, the postconfiguration step that registers the two
    handlers and the tarpit segment, the callback that lays the counters out in
    that segment, and what a worker arms when it starts. *)
From coqutil Require Import Datatypes.RecordSetters.
From S2P Require Import Prelude Types Ngx Http Shm Feed Ring Redis Cssink Pow Tarpit Metrics.
From S2P Require Import Core Conf Directives.
Import DoubleBraceUpdate.

(** ** Variables *)
Section Variables.
Context `{NgxHash} `{NgxCompare} `{NgxSlab} `{NgxRbtree} `{NgxParse} `{NgxInet} `{NgxHttp}
        `{NgxFormat} `{NgxHmac} `{NgxQuery} `{NgxSort}.

(** A get handler. *)
Definition get_handler : Type :=
  req_env -> request -> loc_conf -> ctx_slot -> world -> option (var_value * ctx_slot * world).

Definition ngx_sentinel_vars : list (bytes * get_handler) :=
  [ (lit "sentinel_score", ngx_sentinel_var_score);
    (lit "sentinel_verdict", ngx_sentinel_var_verdict);
    (lit "sentinel_ja4h", ngx_sentinel_var_ja4h);
    (lit "sentinel_header_anomaly", ngx_sentinel_var_header);
    (lit "sentinel_honeypot", ngx_sentinel_var_honeypot);
    (lit "sentinel_velocity", ngx_sentinel_var_velocity);
    (lit "sentinel_asn", ngx_sentinel_var_asn);
    (lit "sentinel_c2ip", ngx_sentinel_var_c2ip);
    (lit "sentinel_ja3", ngx_sentinel_var_ja3);
    (lit "sentinel_ja4", ngx_sentinel_var_ja4);
    (lit "sentinel_ja4t", ngx_sentinel_var_ja4t);
    (lit "sentinel_coherence", ngx_sentinel_var_coherence);
    (lit "sentinel_fcrdns", ngx_sentinel_var_fcrdns);
    (lit "sentinel_allowlist", ngx_sentinel_var_allowlist);
    (lit "sentinel_bot", ngx_sentinel_var_bot);
    (lit "sentinel_shield", ngx_sentinel_var_shield);
    (lit "sentinel_throttled", ngx_sentinel_var_throttled);
    (lit "sentinel_pow", ngx_sentinel_var_pow);
    (lit "sentinel_scanner", ngx_sentinel_var_scanner);
    (lit "sentinel_errrate", ngx_sentinel_var_errrate);
    (lit "sentinel_crowdsec", ngx_sentinel_var_crowdsec);
    (lit "sentinel_crowdsec_action", ngx_sentinel_var_crowdsec_action) ].

(** The registration loop: [add_ok] tells for which names
    [ngx_http_add_variable] succeeds, [reg] are the variables registered so
    far. *)
Fixpoint add_variables (add_ok : bytes -> bool) (vars reg : list (bytes * get_handler))
    : ngx_rc * list (bytes * get_handler) :=
  match vars with
  | [] => (NGX_OK, reg)
  | (name, h) :: vars' =>
      if add_ok name then add_variables add_ok vars' (reg ++ [(name, h)])
      else (NGX_ERROR, reg)
  end.

Definition ngx_sentinel_add_variables (add_ok : bytes -> bool)
    (reg : list (bytes * get_handler)) : ngx_rc * list (bytes * get_handler) :=
  add_variables add_ok ngx_sentinel_vars reg.
End Variables.

(** ** Postconfiguration *)
Section Postconfiguration.
Context `{NgxSlab} `{NgxConf}.

Inductive phase_handler : Type :=
  | ngx_sentinel_preaccess_handler_pt
  | ngx_sentinel_log_handler_pt.

(** The handler arrays of the two phases. *)
Record phases : Type := Phases {
  NGX_HTTP_PREACCESS_PHASE : list phase_handler;
  NGX_HTTP_LOG_PHASE : list phase_handler
}.

(** [shm->data] is the main configuration of the cycle, of which there is only
    one: it is not an element of a zone array. *)
Definition ngx_sentinel_init_tarpit_shm (st : conf_state) : ngx_rc * conf_state :=
  match ngx_shared_memory_add (cf_shm st) (lit "sentinel_tarpit_conns") (8 * ngx_pagesize) with
  | None => (NGX_ERROR, st)
  | Some (i, shm) =>
      (NGX_OK, st {{ cf_shm := alter (bind_shm init_tarpit_zone None) i shm }})
  end.

(** [push1] and [push2] are the outcomes of the two [ngx_array_push]. *)
Definition ngx_sentinel_init (push1 push2 : bool) (st : conf_state) (ph : phases)
    : ngx_rc * conf_state * phases :=
  if negb push1 then (NGX_ERROR, st, ph)
  else
    let ph := Phases (NGX_HTTP_PREACCESS_PHASE ph ++ [ngx_sentinel_preaccess_handler_pt])
                (NGX_HTTP_LOG_PHASE ph) in
    if negb push2 then (NGX_ERROR, st, ph)
    else
      let ph := Phases (NGX_HTTP_PREACCESS_PHASE ph)
                  (NGX_HTTP_LOG_PHASE ph ++ [ngx_sentinel_log_handler_pt]) in
      let '(rc, st) := ngx_sentinel_init_tarpit_shm st in
      (if bool_decide (rc = NGX_OK) then NGX_OK else NGX_ERROR, st, ph).
End Postconfiguration.

(** ** The counter segment

    [ngx_slab_alloc] answers a block that was not allocated before, or [None];
    [slab_room] are the bytes the pool can still give. *)
Class NgxSlabAlloc `{NgxSlab} : Type := {
  ngx_slab_alloc : slab_pool -> Z -> option (addr * slab_pool);
  slab_room : slab_pool -> Z
}.

Class NgxSlabAllocLaws `{NgxSlabAlloc} : Prop := {
  slab_alloc_fresh : forall s n a s',
    ngx_slab_alloc s n = Some (a, s') ->
    a ∉ slab_live s /\ slab_live s' = {[a]} ∪ slab_live s;
  slab_alloc_room : forall s n a s',
    ngx_slab_alloc s n = Some (a, s') -> slab_room s' + n <= slab_room s;
  slab_room_nonneg : forall s, 0 <= slab_room s
}.

Section Segment.
Context `{NgxSlabAlloc}.

(** [sizeof(ngx_atomic_t)] of a 64-bit platform. *)
Definition sizeof_atomic : Z := 8.

Definition SEGMENT_WORDS : nat := NGX_MAX_PROCESSES + NGX_SENTINEL_M_MAX.

(** The segment: its slab pool, [shpool->data], and the words of its blocks. *)
Record segment : Type := Segment {
  sg_pool : slab_pool;
  sg_data : option addr;
  sg_blocks : gmap addr (list Z)
}.

(** The callback: [shm_exists] is [shm_zone->shm.exists]; the result is the block
    [mcf->tarpit_conns] points to, [mcf->metrics] pointing [NGX_MAX_PROCESSES]
    words behind it.  [None] is arithmetic on a NULL [shpool->data]. *)
Definition ngx_sentinel_tarpit_shm_init (shm_exists : bool) (mcf : option addr) (s : segment)
    : option (ngx_rc * option addr * segment) :=
  if shm_exists then
    let! base := sg_data s in Some (NGX_OK, Some base, s)
  else
    match ngx_slab_alloc (sg_pool s) (sizeof_atomic * Z.of_nat SEGMENT_WORDS) with
    | None => Some (NGX_ERROR, mcf, s)
    | Some (a, pool) =>
        Some (NGX_OK, Some a,
              Segment pool (Some a) (<[a := replicate SEGMENT_WORDS 0]> (sg_blocks s)))
    end.

(** The two arrays behind the pointers of a configuration. *)
Definition counters_at (mcf : option addr) (s : segment) : option (list Z) :=
  let! a := mcf in (take NGX_MAX_PROCESSES) <$> (sg_blocks s !! a).

Definition metrics_at (mcf : option addr) (s : segment) : metrics :=
  let! a := mcf in (drop NGX_MAX_PROCESSES) <$> (sg_blocks s !! a).
End Segment.

(** ** Process start *)
Section Start.
Context `{NgxHash} `{NgxHttp}.

(** The outcomes of the allocations at the start of a worker, and whether the
    ring of the sink is there. *)
Record start_allocs : Type := StartAllocs {
  sa_push : nat -> bool;
  sa_timers : bool;
  sa_redis : bool;
  sa_sink_ctx : bool;
  sa_sink_set : bool;
  sa_sink_ring : bool
}.

(** What a worker runs with: the counters, the armed feeds, its Redis instance
    and its sink instance. *)
Record process : Type := Process {
  ps_conns : option (list Z);
  ps_feeds : list (loc_conf * feed_timer * Z);
  ps_redis : option (loc_conf * redis_ctx);
  ps_sink : option (loc_conf * sink_ctx * Z)
}.

(** Each of the four initialisers always answers [NGX_OK], so no early return is
    taken.  A server is its configuration and its static locations. *)
Definition ngx_sentinel_init_process (al : start_allocs)
    (servers : list (option loc_conf * location_tree)) (conns : option (list Z))
    (worker : nat) : ngx_rc * process :=
  let conns := sentinel_tarpit_init_process conns worker in
  let feeds := sentinel_crowdsec_init_process (sa_push al) (sa_timers al) (servers.*2) in
  let redis := sentinel_redis_init_process servers (sa_redis al) in
  let sink := sentinel_cssink_init_process servers (sa_sink_ctx al) (sa_sink_set al)
                (Z.of_nat worker) (sa_sink_ring al) in
  (NGX_OK, Process conns feeds redis sink).
End Start.
