(* ===== verification/InitProps.v ===== *)
(** * InitProps.v: properties of registration and process start

    The variables of a request all read the one context its first access
    computed.  A reload that nginx does not flag as such leaves the tarpit
    counters behind, and a few of them exhaust the segment. *)
From S2P Require Import Prelude Types Ngx Http NgxModel Score Shm ShmTree ShmSpec ShmOps ShmRate.
From S2P Require Import ShmProps Signals SignalProps Feed Fcrdns Ring Redis Cssink Pow PowProps.
From S2P Require Import Tarpit TarpitProps Metrics Ja4h Core CoreProps Conf Directives Init.

(** ** Variables *)
Section Variables.
Context `{NgxHash} `{NgxCompare} `{NgxSlab} `{NgxRbtree} `{NgxParse} `{NgxInet} `{NgxHttp}
        `{NgxFormat} `{NgxHmac} `{NgxQuery} `{NgxSort}.
Context {HashLaws : NgxHashLaws} {CmpLaws : NgxCompareLaws} {SlabLaws : NgxSlabLaws}
        {RbLaws : NgxRbtreeLaws} {ParseLaws : NgxParseLaws} {FormatLaws : NgxFormatLaws}.

(** The variables that report what PREACCESS decided to do. *)
Definition flag_vars : list bytes :=
  [lit "sentinel_shield"; lit "sentinel_throttled"; lit "sentinel_pow"].

(** A get handler reads a text off the request context; except for the three
    flag variables, the text ignores the flags PREACCESS sets. *)
Definition reads_context (name : bytes) (h : get_handler) : Prop :=
  exists f : req_ctx -> bytes,
    (forall env r lcf slot w, en_var_alloc env = true ->
       h env r lcf slot w = var_of (fun c => VarText (f c)) env r lcf slot w) /\
    (name ∉ flag_vars -> forall c th sh ps, f (with_flags c th sh ps) = f c).

Lemma var_text_reads name f :
  (forall c th sh ps, f (with_flags c th sh ps) = f c) ->
  reads_context name (var_of (fun c => VarText (f c))).
Proof. intros Hf. by exists f. Qed.

Lemma var_flag_reads name f :
  name ∈ flag_vars -> reads_context name (var_of (fun c => VarText (f c))).
Proof. intros Hn. by exists f. Qed.

Lemma var_number_reads name n :
  (forall c th sh ps, n (with_flags c th sh ps) = n c) ->
  reads_context name (fun env => var_of (fun c => var_number env (n c)) env).
Proof.
  intros Hn. exists (fun c => ngx_dec (n c)). split; [|intros _ c th sh ps; by rewrite Hn].
  intros env r lcf slot w Ha. unfold var_of, var_number. by rewrite Ha.
Qed.

Lemma vars_read_context name h : (name, h) ∈ ngx_sentinel_vars -> reads_context name h.
Proof.
  assert (Forall (fun p => reads_context p.1 p.2) ngx_sentinel_vars) as Hall.
  { repeat (apply Forall_cons_2;
      [cbn [fst snd]; first [apply var_flag_reads; by apply (bool_decide_unpack _)
                            |apply var_text_reads; done|apply var_number_reads; done]|]).
    apply Forall_nil_2. }
  rewrite Forall_forall in Hall. apply (Hall (name, h)).
Qed.

(** PREACCESS either hands the slot to the tarpit or keeps the request context,
    with its three flags possibly changed. *)
Lemma enforce_slot env r lcf c w rc slot w' ef :
  enforce env r lcf c w = Some (rc, slot, w', ef) ->
  (exists t, slot = SlotTarpit t) \/
  exists th sh ps, slot = SlotCtx (with_flags c th sh ps).
Proof.
  assert (exists th sh ps, SlotCtx c = SlotCtx (with_flags c th sh ps)) as Hsame.
  { exists (cx_throttled c), (cx_shielded c), (cx_pow_state c). by destruct c. }
  unfold enforce. intros E.
  repeat (case_match; simplify_option_eq; try (by right; eauto)); by left; eauto.
Qed.

(** C31. The variables of a request all describe the one context its first access
    computed: whichever variable comes first, it has a value and leaves the
    shared memory well formed; from then on every variable of the table (that
    one included) has the same value whenever it is read, whatever happens to the
    shared memory and the clock in the meantime, and reading it changes nothing.
    When PREACCESS acts on the verdict between two reads, either the tarpit takes
    the slot, or every variable but the three that report PREACCESS's own decision
    ([$sentinel_shield], [$sentinel_throttled], [$sentinel_pow]) keeps its
    value. *)
Theorem variables_read_one_context env r lcf w name h :
  world_ok (en_now env) w -> lcf_ok lcf -> 0 <= en_now env ->
  en_ctx_alloc env = true -> en_var_alloc env = true -> (name, h) ∈ ngx_sentinel_vars ->
  exists t c w', h env r lcf SlotEmpty w = Some (VarText t, SlotCtx c, w') /\
    world_ok (en_now env) w' /\
    h env r lcf (SlotCtx c) w' = Some (VarText t, SlotCtx c, w') /\
    forall name2 h2, (name2, h2) ∈ ngx_sentinel_vars -> exists t2,
      (forall env2 w2, en_var_alloc env2 = true ->
         h2 env2 r lcf (SlotCtx c) w2 = Some (VarText t2, SlotCtx c, w2)) /\
      (name2 ∉ flag_vars -> forall env3 w3 rc slot w4 ef,
         enforce env3 r lcf c w3 = Some (rc, slot, w4, ef) ->
         (exists k, slot = SlotTarpit k) \/
         forall env5 w5, en_var_alloc env5 = true ->
           h2 env5 r lcf slot w5 = Some (VarText t2, slot, w5)).
Proof.
  intros Hw Hl Hnow Hctx Hvar Hin.
  destruct (get_ctx_total env r lcf w Hw Hl Hnow Hctx) as (c & w' & res & E & Hw' & _).
  destruct (vars_read_context _ _ Hin) as (f & Hf & _).
  exists (f c), c, w'. rewrite !Hf by done. unfold var_of. rewrite E.
  split_and!; try done.
  intros name2 h2 Hin2. destruct (vars_read_context _ _ Hin2) as (f2 & Hf2 & Hflag).
  exists (f2 c). split; [intros env2 w2 Ha; by rewrite Hf2|].
  intros Hn env3 w3 rc slot w4 ef [?|(th & sh & ps & ->)]%enforce_slot; [by left|].
  right. intros env5 w5 Ha. rewrite Hf2 by done. unfold var_of. cbn. by rewrite Hflag.
Qed.
End Variables.

(** ** The counter segment *)
Section Segment.
Context `{NgxSlabAlloc} {AllocLaws : NgxSlabAllocLaws}.

(** The blocks of the segment are allocated in its pool. *)
Definition segment_ok (s : segment) : Prop := dom (sg_blocks s) ⊆ slab_live (sg_pool s).

Lemma shm_init_fresh mcf s rc mcf' s' :
  segment_ok s -> ngx_sentinel_tarpit_shm_init false mcf s = Some (rc, mcf', s') ->
  (rc = NGX_ERROR /\ mcf' = mcf /\ s' = s) \/
  (exists a pool,
     rc = NGX_OK /\ mcf' = Some a /\ sg_blocks s !! a = None /\
     ngx_slab_alloc (sg_pool s) (sizeof_atomic * Z.of_nat SEGMENT_WORDS) = Some (a, pool) /\
     s' = Segment pool (Some a) (<[a := replicate SEGMENT_WORDS 0]> (sg_blocks s)) /\
     segment_ok s').
Proof.
  intros Hok. unfold ngx_sentinel_tarpit_shm_init.
  destruct (ngx_slab_alloc _ _) as [[a pool]|] eqn:E; intros [= <- <- <-]; [right|by left].
  destruct (slab_alloc_fresh _ _ _ _ E) as [Hfresh Hlive].
  exists a, pool. split_and!; try done.
  - apply not_elem_of_dom. set_solver.
  - unfold segment_ok in *. simpl. rewrite dom_insert_L, Hlive. set_solver.
Qed.

(** C35. A reload forgets the tarpitted connections: the callback reuses the
    counters only when nginx flags the segment as existing, which on Unix it
    does not do for the segment of a reloaded configuration.  Without the flag
    a successful callback gives the new configuration another block with all
    counters zero, while the connections the old workers still hold are counted
    in the old block only; so the new workers see no held connection, the cap
    starts from zero and the metrics restart. *)
Theorem reload_forgets_tarpitted_connections mcf old s conns mcf' s' :
  segment_ok s -> counters_at old s = Some conns ->
  ngx_sentinel_tarpit_shm_init false mcf s = Some (NGX_OK, mcf', s') ->
  mcf' <> old /\ counters_at old s' = Some conns /\
  counters_at mcf' s' = Some (replicate NGX_MAX_PROCESSES 0) /\
  metrics_at mcf' s' = Some (replicate NGX_SENTINEL_M_MAX 0) /\
  sentinel_tarpit_active (counters_at mcf' s') = 0.
Proof.
  intros Hok Hold Hinit.
  destruct (shm_init_fresh _ _ _ _ _ Hok Hinit)
    as [(E & _)|(a & pool & _ & -> & Hnone & _ & -> & _)]; [done|].
  destruct old as [b|]; [|done]. cbn [counters_at] in Hold.
  assert (a <> b) as Hab by (intros ->; by rewrite Hnone in Hold).
  assert (counters_at (Some a) (Segment pool (Some a)
    (<[a := replicate SEGMENT_WORDS 0]> (sg_blocks s))) = Some (replicate NGX_MAX_PROCESSES 0))
    as Hnew.
  { cbn [counters_at sg_blocks]. rewrite lookup_insert_eq. cbn [fmap option_fmap option_map].
    by rewrite take_replicate, Nat.min_l by (vm_compute; lia). }
  rewrite Hnew. split_and!.
  - congruence.
  - cbn [counters_at sg_blocks]. by rewrite lookup_insert_ne.
  - done.
  - cbn [metrics_at sg_blocks]. rewrite lookup_insert_eq. cbn [fmap option_fmap option_map].
    by rewrite drop_replicate.
  - by vm_compute.
Qed.

(** Successive configuration loads without the flag. *)
Fixpoint loads (n : nat) (s : segment) : option segment :=
  match n with
  | O => Some s
  | S n' =>
      match ngx_sentinel_tarpit_shm_init false None s with
      | Some (NGX_OK, _, s') => loads n' s'
      | _ => None
      end
  end.

(** Either all [n] loads succeed, and took their bytes from the pool, or one
    fails after fewer. *)
Lemma loads_room n s :
  (exists s', loads n s = Some s' /\
     slab_room (sg_pool s') + Z.of_nat n * (sizeof_atomic * Z.of_nat SEGMENT_WORDS)
       <= slab_room (sg_pool s)) \/
  (exists k s', (k < n)%nat /\ loads k s = Some s' /\
     forall mcf, ngx_sentinel_tarpit_shm_init false mcf s' = Some (NGX_ERROR, mcf, s')).
Proof.
  revert s. induction n as [|n IH]; intros s.
  { left. exists s. split; [done|lia]. }
  destruct (ngx_slab_alloc (sg_pool s) (sizeof_atomic * Z.of_nat SEGMENT_WORDS))
    as [[a pool]|] eqn:E.
  - set (s1 := Segment pool (Some a) (<[a := replicate SEGMENT_WORDS 0]> (sg_blocks s))).
    assert (forall k, loads (S k) s = loads k s1) as Hl.
    { intros k. cbn [loads]. unfold ngx_sentinel_tarpit_shm_init. by rewrite E. }
    apply slab_alloc_room in E.
    destruct (IH s1) as [(s' & Hs & Hroom)|(k & s' & Hk & Hs & Hf)].
    + left. exists s'. rewrite Hl. split; [done|].
      cbn [s1 sg_pool] in Hroom. rewrite Nat2Z.inj_succ. lia.
    + right. exists (S k), s'. rewrite Hl. split_and!; [lia|done..].
  - right. exists 0%nat, s. split_and!; [lia|done|]. intros mcf.
    unfold ngx_sentinel_tarpit_shm_init. by rewrite E.
Qed.

(** C36. A few reloads exhaust the segment: the block of the previous
    configuration is never given back, so in the eight pages the module asks for
    (of 4096 bytes) the callback fails after at most three successful loads,
    and with it the whole reload, until nginx is restarted. *)
Theorem reloads_exhaust_segment s :
  slab_room (sg_pool s) <= 8 * 4096 ->
  exists k s', (k <= 3)%nat /\ loads k s = Some s' /\
    forall mcf, ngx_sentinel_tarpit_shm_init false mcf s' = Some (NGX_ERROR, mcf, s').
Proof.
  intros Hroom. destruct (loads_room 4 s) as [(s' & _ & Hr)|(k & s' & Hk & Hs & Hf)].
  - pose proof (slab_room_nonneg (sg_pool s')).
    change (sizeof_atomic * Z.of_nat SEGMENT_WORDS) with 8352 in Hr. lia.
  - exists k, s'. split_and!; [lia|done..].
Qed.
End Segment.

(** ** Witnesses *)
Import Concrete.
Import CoreProps.

#[local] Instance demo_slab_alloc : NgxSlabAlloc := {|
  ngx_slab_alloc := fun s n =>
    if (0 <=? n) && (n <=? 8352) then pool_calloc s n else None;
  slab_room := fun s => 8352 * Z.of_nat (p_max s - base.size (p_live s))
|}.

#[local] Instance demo_slab_alloc_laws : NgxSlabAllocLaws.
Proof.
  assert (forall s n a s', pool_calloc s n = Some (a, s') ->
    p_next s ∉ p_live s /\ (base.size (p_live s) < p_max s)%nat /\
    a = p_next s /\ s' = Pool (Pos.succ (p_next s)) ({[p_next s]} ∪ p_live s) (p_max s))
    as Hcalloc.
  { intros s n a s'. unfold pool_calloc. case_decide as E; [|done]. intros [= <- <-].
    by destruct E. }
  split.
  - intros s n a s'. unfold ngx_slab_alloc, demo_slab_alloc. case_match; [|done].
    intros E. by destruct (Hcalloc _ _ _ _ E) as (Hn & _ & -> & ->).
  - intros s n a s'. unfold ngx_slab_alloc, slab_room, demo_slab_alloc.
    destruct ((0 <=? n) && (n <=? 8352)) eqn:Hn; [|done].
    apply andb_prop in Hn as [_ Hn%Z.leb_le].
    intros E. destruct (Hcalloc _ _ _ _ E) as (Hl & Hs & _ & ->). cbn [p_live p_max].
    rewrite size_union, size_singleton by set_solver. lia.
  - intros s. unfold slab_room, demo_slab_alloc. lia.
Qed.

(** A fresh segment, and one whose counters hold a connection. *)
Definition demo_segment : segment := Segment (fresh_pool 3) None ∅.

Definition demo_held : list Z := 1 :: replicate (SEGMENT_WORDS - 1) 0.

Definition demo_used : segment :=
  Segment (Pool 2 {[1%positive]} 3) (Some 1%positive) {[1%positive := demo_held]}.

Lemma variables_read_one_context_witness :
  exists t c w',
    ngx_sentinel_var_verdict demo_req_env demo_request (demo_core_lcf [] 0) SlotEmpty
      (demo_world demo_table) = Some (VarText t, SlotCtx c, w').
Proof.
  destruct (variables_read_one_context demo_req_env demo_request (demo_core_lcf [] 0)
    (demo_world demo_table) (lit "sentinel_verdict") ngx_sentinel_var_verdict
    (demo_world_ok demo_table demo_table_wf) (demo_lcf_ok [] 0)) as (t & c & w' & E & _).
  - done.
  - done.
  - done.
  - apply list_elem_of_further, list_elem_of_here.
  - by exists t, c, w'.
Defined.

Lemma demo_reload :
  ngx_sentinel_tarpit_shm_init false None demo_used
  = Some (NGX_OK, Some 2%positive,
      Segment (Pool 3 ({[2%positive]} ∪ {[1%positive]}) 3) (Some 2%positive)
        (<[2%positive := replicate SEGMENT_WORDS 0]> (sg_blocks demo_used))).
Proof.
  unfold ngx_sentinel_tarpit_shm_init, ngx_slab_alloc, demo_slab_alloc.
  change ((0 <=? _) && (_ <=? 8352)) with true. cbn [sg_pool demo_used].
  unfold pool_calloc. cbn [p_next p_live p_max].
  rewrite decide_True by (split; [set_solver|rewrite size_singleton; lia]). done.
Qed.

Lemma reload_forgets_tarpitted_connections_witness :
  exists mcf' s',
    ngx_sentinel_tarpit_shm_init false None demo_used = Some (NGX_OK, mcf', s') /\
    sentinel_tarpit_active (counters_at (Some 1%positive) demo_used) = 1 /\
    sentinel_tarpit_active (counters_at mcf' s') = 0.
Proof.
  pose proof demo_reload as E. do 2 eexists. split; [exact E|]. split; [by vm_compute|].
  eapply (reload_forgets_tarpitted_connections None (Some 1%positive) demo_used); [|done|exact E].
  unfold segment_ok, demo_used. cbn [sg_blocks sg_pool]. rewrite dom_singleton_L. done.
Defined.

Lemma reloads_exhaust_segment_witness :
  exists k s', (k <= 3)%nat /\ loads k demo_segment = Some s' /\
    forall mcf, ngx_sentinel_tarpit_shm_init false mcf s' = Some (NGX_ERROR, mcf, s').
Proof. apply (reloads_exhaust_segment demo_segment). by vm_compute. Defined.
