(* ===== verification/System.v ===== *)
(** * System.v: the worker processes of a server, together

    One state for the whole server: the clock, the shared memory, the worker
    processes with what [ngx_sentinel_init_process] armed in each, the requests
    in flight and the file system.  [handle] runs the handler an event calls:
    a request enters PREACCESS, a variable is read, a request ends (LOG, then
    its pool cleanups), a timer fires, the resolver or hiredis calls back, a
    worker dies and is started again.  A worker is single-threaded: while it
    applies a feed no other handler of it runs, but the other workers' handlers
    run between the critical sections of the load.

    A step is one handler, or one critical section of a load.  A request that is
    tarpitted sums the counters of all workers without a lock: what it reads of
    the other workers is part of the event, so the race between the check of the
    cap and the reservation is possible here too. *)
From S2P Require Import Prelude Types Ngx Http Shm Feed FeedConc Fcrdns Ring Redis Cssink Pow.
From S2P Require Import Tarpit Metrics Core Init.

Section System.
Context `{NgxHash} `{NgxCompare} `{NgxSlab} `{NgxRbtree} `{NgxParse} `{NgxInet} `{NgxHttp}
        `{NgxFormat} `{NgxHmac} `{NgxQuery} `{NgxSort}.

(** ** State *)

(** A feed being applied: the index of the timer that loads it, the zone, the
    lifetime and the time the pass uses, the phase, and what the timer remembers
    once the load is done. *)
Record load : Type := Load {
  ld_timer : nat;
  ld_zone : zone_ref;
  ld_ttl : Z;
  ld_now : Z;
  ld_phase : loader;
  ld_done : feed_timer
}.

(** A worker process: its armed feed timers, the load it is busy with, its Redis
    instance with the addresses of the GETs in flight, its sink instance, and its
    resolutions in flight with the zone each was started for. *)
Record worker : Type := Worker {
  wk_feeds : list (loc_conf * feed_timer * Z);
  wk_load : option load;
  wk_redis : option (loc_conf * redis_ctx);
  wk_gets : list bytes;
  wk_sink : option (loc_conf * sink_ctx * Z);
  wk_dns : list (zone_ref * resolution)
}.

(** A request between PREACCESS and the end of its pool: the tarpit context its
    pool cleanup owns (the one its module context points to, when it does) and
    [r->main->count]. *)
Record inflight : Type := Inflight {
  fl_worker : nat;
  fl_request : request;
  fl_lcf : loc_conf;
  fl_slot : ctx_slot;
  fl_cleanup : option tarpit_ctx;
  fl_count : Z
}.

Record server : Type := Server {
  sv_now : Z;
  sv_msec : Z;
  sv_world : world;
  sv_workers : list worker;
  sv_requests : list inflight;
  sv_files : files
}.

(** ** Small steps shared by the handlers *)

(** The worker [i], unless it is busy applying a feed. *)
Definition idle (s : server) (i : nat) : option worker :=
  match sv_workers s !! i with
  | Some wk => match wk_load wk with None => Some wk | Some _ => None end
  | None => None
  end.

Definition put_worker (s : server) (i : nat) (wk : worker) : server :=
  Server (sv_now s) (sv_msec s) (sv_world s) (<[i := wk]> (sv_workers s)) (sv_requests s)
    (sv_files s).

Definition put_world (s : server) (w : world) : server :=
  Server (sv_now s) (sv_msec s) w (sv_workers s) (sv_requests s) (sv_files s).

Definition put_requests (s : server) (l : list inflight) : server :=
  Server (sv_now s) (sv_msec s) (sv_world s) (sv_workers s) l (sv_files s).

Definition put_files (s : server) (fs : files) : server :=
  Server (sv_now s) (sv_msec s) (sv_world s) (sv_workers s) (sv_requests s) fs.

Definition with_feeds (wk : worker) (l : list (loc_conf * feed_timer * Z)) : worker :=
  Worker l (wk_load wk) (wk_redis wk) (wk_gets wk) (wk_sink wk) (wk_dns wk).

Definition with_load (wk : worker) (ld : option load) : worker :=
  Worker (wk_feeds wk) ld (wk_redis wk) (wk_gets wk) (wk_sink wk) (wk_dns wk).

Definition with_gets (wk : worker) (l : list bytes) : worker :=
  Worker (wk_feeds wk) (wk_load wk) (wk_redis wk) l (wk_sink wk) (wk_dns wk).

Definition with_redis (wk : worker) (rc : loc_conf * redis_ctx) : worker :=
  Worker (wk_feeds wk) (wk_load wk) (Some rc) (wk_gets wk) (wk_sink wk) (wk_dns wk).

Definition with_sink (wk : worker) (sc : loc_conf * sink_ctx * Z) : worker :=
  Worker (wk_feeds wk) (wk_load wk) (wk_redis wk) (wk_gets wk) (Some sc) (wk_dns wk).

Definition with_dns (wk : worker) (l : list (zone_ref * resolution)) : worker :=
  Worker (wk_feeds wk) (wk_load wk) (wk_redis wk) (wk_gets wk) (wk_sink wk) l.

(** A resolution a request started. *)
Definition add_dns (wk : worker) (lcf : loc_conf) (res : option resolution) : worker :=
  match res with
  | Some x => with_dns wk (wk_dns wk ++ [(set_ref (fcrdns_zone (lcf_fcrdns lcf)), x)])
  | None => wk
  end.

(** The environment of a handler that runs now, in worker [i]. *)
Definition env_at (s : server) (i : nat) (env : req_env) : req_env :=
  ReqEnv (en_ctx_alloc env) (sv_now s) (sv_msec s) i (en_resolver env) (en_dns_alloc env)
    (en_dns_start env) (en_dns_addr env) (en_pow env) (en_tarpit env) (en_count env)
    (en_var_alloc env).

Definition with_status (r : request) (err_status status : Z) : request :=
  Request (r_method r) (r_http_version r) (r_uri r) (r_args r) (r_headers r) (r_host r)
    (r_user_agent r) (r_accept r) (r_accept_language r) (r_accept_encoding r)
    (r_content_length r) (r_transfer_encoding r) (r_addr_text r) (r_sockaddr r)
    err_status status.

Definition with_cs (w : world) (ref : zone_ref) (z : option zone) : world :=
  World (wd_zones w) (wd_vel w) (zone_put (wd_cs w) ref z) (wd_fcrdns w) (wd_conns w)
    (wd_metrics w) (wd_redis w) (wd_sink w).

Definition with_fcrdns (w : world) (ref : zone_ref) (z : option zone) : world :=
  World (wd_zones w) (wd_vel w) (wd_cs w) (zone_put (wd_fcrdns w) ref z) (wd_conns w)
    (wd_metrics w) (wd_redis w) (wd_sink w).

(** The rings of the segments of the two pushes. *)
Definition with_rings (w : world) (redis sink : ring) : world :=
  World (wd_zones w) (wd_vel w) (wd_cs w) (wd_fcrdns w) (wd_conns w) (wd_metrics w)
    ((wd_redis w).1, redis) ((wd_sink w).1, sink).

(** The addresses of the GETs among the commands hiredis was given. *)
Definition gets_of (cmds : list redis_command) : list bytes :=
  omap (fun c => match c with CmdGet _ ip => Some ip | _ => None end) cmds.

(** ** Requests *)

(** The counters as the sum of a reservation reads them, one after the other and
    without a lock: its own slot, which no other process writes, and for the
    others whatever [seen] they held when they were read. *)
Definition seen_conns (seen : nat -> Z) (slot : nat) (conns : option (list Z)) : option (list Z) :=
  imap (fun j v => if (j =? slot)%nat then v else seen j) <$> conns.

(** The counters after a handler that has written its own slot only. *)
Definition own_slot (slot : nat) (conns conns' : option (list Z)) : option (list Z) :=
  match conns, conns' with
  | Some c, Some c' =>
      match c' !! slot with Some v => Some (<[slot := v]> c) | None => conns end
  | _, _ => conns
  end.

(** The PREACCESS handler, whose reservation reads the other workers' counters
    [seen]: between these reads and the compare-and-set of its own slot the
    other workers may reserve and release slots. *)
Definition on_request (s : server) (i : nat) (seen : nat -> Z) (env : req_env) (r : request)
    (lcf : loc_conf) : option server :=
  match idle s i with
  | None => Some s
  | Some wk =>
      let conns := wd_conns (sv_world s) in
      let! (_, slot, w, ef, res) :=
        ngx_sentinel_preaccess_handler (env_at s i env) r lcf SlotEmpty
          (with_conns (sv_world s) (seen_conns seen (worker_slot i) conns)) in
      let w := with_conns w (own_slot (worker_slot i) conns (wd_conns w)) in
      let fl := match ef_tarpit ef with
                | Some t => Inflight i r lcf slot (sr_cleanup t) (sr_count t)
                | None => Inflight i r lcf slot None (en_count env)
                end in
      Some (put_requests (put_world (put_worker s i (add_dns wk lcf res)) w)
              (sv_requests s ++ [fl]))
  end.

(** A variable whose value is [f] of the request context; a request without a
    context computes it here. *)
Definition on_variable (s : server) (k : nat) (f : req_ctx -> var_value) (env : req_env)
    : option server :=
  match sv_requests s !! k with
  | None => Some s
  | Some (Inflight i r lcf slot c count) =>
      match idle s i with
      | None => Some s
      | Some wk =>
          let! (o, slot, w, res) :=
            ngx_sentinel_get_ctx (env_at s i env) r lcf slot (sv_world s) in
          Some (put_requests (put_world (put_worker s i (add_dns wk lcf res)) w)
                  (<[k := Inflight i r lcf slot c count]> (sv_requests s)))
      end
  end.

(** The end of a request: the LOG phase, then the cleanups of its pool. *)
Definition close_request (s : server) (k : nat) (fl : inflight) (err_status status : Z)
    : option server :=
  let r := with_status (fl_request fl) err_status status in
  let! (_, w) := ngx_sentinel_log_handler (sv_now s) r (fl_lcf fl) (sv_world s) in
  let w := match fl_cleanup fl with
           | Some t => with_conns w ((fun c => (sentinel_tarpit_cleanup c t).1) <$> wd_conns w)
           | None => w
           end in
  Some (put_requests (put_world s w) (delete k (sv_requests s))).

Definition on_close (s : server) (k : nat) (err_status status : Z) : option server :=
  match sv_requests s !! k with
  | None => Some s
  | Some fl =>
      match idle s (fl_worker fl) with
      | None => Some s
      | Some _ => close_request s k fl err_status status
      end
  end.

(** The write handler of a tarpitted request, called by its timer or by the
    socket; the context is one object, which the pool cleanup also points to. *)
Definition on_drip (s : server) (k : nat) (dead : bool) (out : ngx_rc) (rearm : bool)
    (err_status status : Z) : option server :=
  match sv_requests s !! k with
  | Some (Inflight i r lcf (SlotTarpit t) c count as fl) =>
      match idle s i with
      | None => Some s
      | Some _ =>
          match (sentinel_tarpit_write_handler (Some t) (sv_msec s) dead out rearm count).2 with
          | TickWaiting t' _ =>
              Some (put_requests s
                      (<[k := Inflight i r lcf (SlotTarpit t') (Some t') count]> (sv_requests s)))
          | TickFinished _ _ => close_request s k fl err_status status
          end
      end
  | _ => Some s
  end.

(** ** Feeds *)

(** What the tick finds when it looks at the file: what the timer remembers, and
    the contents to parse with their modification time. *)
Definition feed_ready (lcf : loc_conf) (z : option zone) (t : feed_timer) (fs : feed_file)
    (now : Z) : feed_timer * option (bytes * Z) :=
  if (length (cs_feed (lcf_cs lcf)) =? 0)%nat || bool_decide (z = None) then (t, None)
  else
    match ff_stat fs with
    | None => (FeedTimer (ft_last_mtime t) true (ft_stale_logged t), None)
    | Some (mtime, fsize) =>
        let t := FeedTimer (ft_last_mtime t) false (ft_stale_logged t) in
        if cs_stale_after (lcf_cs lcf) <? now - mtime
        then (FeedTimer (ft_last_mtime t) false true, None)
        else
          let t := FeedTimer (ft_last_mtime t) false false in
          if negb (ft_last_mtime t =? 0) && (mtime =? ft_last_mtime t) then (t, None)
          else if fsize =? 0 then (t, None)
          else if cs_max_bytes (lcf_cs lcf) <? fsize then (t, None)
          else if negb (ff_pool_ok fs && ff_open_ok fs && ff_buf_ok fs) then (t, None)
          else
            match ff_read fs with
            | None => (t, None)
            | Some buf =>
                if Z.of_nat (length buf) <? fsize then (t, None) else (t, Some (buf, mtime))
            end
    end.

(** The lines of a buffer that will be applied to the zone, when it is attached
    and the buffer is accepted. *)
Definition feed_lines (z : option zone) (buf : bytes) : option (list bytes) :=
  match z with
  | Some (Zone _ (Some _)) => match buf with [] => None | _ => feed_validate buf end
  | _ => None
  end.

(** The feed timer [j] of worker [i] fires: an accepted file starts a load. *)
Definition on_feed (s : server) (i j : nat) (fs : feed_file) : option server :=
  match idle s i with
  | None => Some s
  | Some wk =>
      match wk_feeds wk !! j with
      | None => Some s
      | Some (lcf, t, _) =>
          let z := zone_at (wd_cs (sv_world s)) (cs_zone_of lcf) in
          let '(t, job) := feed_ready lcf z t fs (sv_now s) in
          let delay := cs_interval (lcf_cs lcf) * 1000 in
          let wk := with_feeds wk (<[j := (lcf, t, delay)]> (wk_feeds wk)) in
          Some (put_worker s i
            match job with
            | None => wk
            | Some (buf, mtime) =>
                match feed_lines z buf with
                | None => wk
                | Some lines =>
                    with_load wk
                      (Some (Load j (cs_zone_of lcf) (cs_default_ttl (lcf_cs lcf)) (sv_now s)
                               (LBump lines)
                               (FeedTimer mtime (ft_missing_logged t) (ft_stale_logged t))))
                end
            end)
      end
  end.

(** One critical section of the load of worker [i]. *)
Definition on_load (s : server) (i : nat) : option server :=
  match sv_workers s !! i with
  | None => Some s
  | Some wk =>
      match wk_load wk with
      | None => Some s
      | Some (Load j ref ttl now ph done) =>
          match zone_at (wd_cs (sv_world s)) ref with
          | Some (Zone zc (Some sh)) =>
              let! (ph, sh) := loader_step ttl now ph sh in
              let wk :=
                match ph with
                | LDone =>
                    with_load (with_feeds wk (alter (fun e => (e.1.1, done, e.2)) j (wk_feeds wk)))
                      None
                | _ => with_load wk (Some (Load j ref ttl now ph done))
                end in
              Some (put_world (put_worker s i wk)
                      (with_cs (sv_world s) ref (Some (Zone zc (Some sh)))))
          | _ => None
          end
      end
  end.

(** ** Resolver *)

Definition on_ptr (s : server) (i k : nat) (answer : option bytes) (alloc_ok forward_ok : bool)
    : option server :=
  match idle s i with
  | None => Some s
  | Some wk =>
      match wk_dns wk !! k with
      | Some (ref, WaitPtr c) =>
          let! (next, z) :=
            sentinel_fcrdns_ptr_handler (zone_at (wd_fcrdns (sv_world s)) ref) c (sv_now s)
              answer alloc_ok forward_ok in
          let dns := match next with
                     | Some x => <[k := (ref, x)]> (wk_dns wk)
                     | None => delete k (wk_dns wk)
                     end in
          Some (put_world (put_worker s i (with_dns wk dns)) (with_fcrdns (sv_world s) ref z))
      | _ => Some s
      end
  end.

Definition on_fwd (s : server) (i k : nat) (answer : option (list sockaddr)) : option server :=
  match idle s i with
  | None => Some s
  | Some wk =>
      match wk_dns wk !! k with
      | Some (ref, WaitForward c _) =>
          let! z :=
            sentinel_fcrdns_fwd_handler (zone_at (wd_fcrdns (sv_world s)) ref) c (sv_now s)
              answer in
          Some (put_world (put_worker s i (with_dns wk (delete k (wk_dns wk))))
                  (with_fcrdns (sv_world s) ref z))
      | _ => Some s
      end
  end.

(** ** Redis *)

(** An event of the Redis instance of worker [i]: [f] is what its handler does to
    the instance, the ring the worker drains, and the commands it issues. *)
Definition on_redis (s : server) (i : nat)
    (f : redis_conf -> redis_ctx -> option ring ->
         option (redis_ctx * option ring * list redis_command)) : option server :=
  match idle s i with
  | None => Some s
  | Some wk =>
      match wk_redis wk with
      | None => Some s
      | Some (lcf, rc) =>
          let w := sv_world s in
          let ring := (wd_redis w).2 in
          let push := match (wd_redis w).1 with Some _ => Some ring | None => None end in
          let! (rc, push, cmds) := f (lcf_redis lcf) rc push in
          let wk := with_gets (with_redis wk (lcf, rc)) (wk_gets wk ++ gets_of cmds) in
          Some (put_world (put_worker s i wk) (with_rings w (default ring push) (wd_sink w).2))
      end
  end.

(** The timer is consumed when it fires. *)
Definition redis_timer_event (ok : redis_command -> bool) (outcome : connect_outcome) (now : Z)
    (conf : redis_conf) (rc : redis_ctx) (push : option ring)
    : option (redis_ctx * option ring * list redis_command) :=
  match rs_timer rc with
  | None => Some (rc, push, [])
  | Some _ =>
      sentinel_redis_timer_handler ok false conf (set_timer rc None) push outcome now
  end.

Definition redis_connect_event (status_ok : bool) (conf : redis_conf) (rc : redis_ctx)
    (push : option ring) : option (redis_ctx * option ring * list redis_command) :=
  Some (if bool_decide (rs_state rc = REDIS_CONNECTING)
        then sentinel_redis_on_connect false rc status_ok else rc, push, []).

(** A disconnect may come at any time, and so may the NULL reply of a command
    that was pending when its context was freed: hiredis delivers both from
    [redisAsyncFree], also after a teardown has reset the context. *)
Definition redis_disconnect_event (conf : redis_conf) (rc : redis_ctx) (push : option ring)
    : option (redis_ctx * option ring * list redis_command) :=
  Some (sentinel_redis_on_disconnect false rc, push, []).

Definition redis_auth_event (reply : option redis_reply) (conf : redis_conf) (rc : redis_ctx)
    (push : option ring) : option (redis_ctx * option ring * list redis_command) :=
  Some (if rs_auth rc || bool_decide (reply = None)
        then sentinel_redis_auth_reply false rc reply else rc, push, []).

Definition redis_scan_event (ok : redis_command -> bool) (reply : option redis_reply)
    (alloc_ok : bool) (conf : redis_conf) (rc : redis_ctx) (push : option ring)
    : option (redis_ctx * option ring * list redis_command) :=
  if rs_inflight rc || bool_decide (reply = None)
  then let! (rc, cmds) := sentinel_redis_scan_reply ok conf rc reply alloc_ok in
       Some (rc, push, cmds)
  else Some (rc, push, []).

(** The reply to the [k]-th GET in flight. *)
Definition on_get (s : server) (i k : nat) (reply : option redis_reply) : option server :=
  match idle s i with
  | None => Some s
  | Some wk =>
      match wk_redis wk, wk_gets wk !! k with
      | Some (lcf, _), Some ip =>
          let ref := cs_zone_of lcf in
          let! z := sentinel_redis_get_reply (zone_at (wd_cs (sv_world s)) ref) reply ip
                      (sv_now s) in
          Some (put_world (put_worker s i (with_gets wk (delete k (wk_gets wk))))
                  (with_cs (sv_world s) ref z))
      | _, _ => Some s
      end
  end.

(** ** Sink *)

Definition on_sink (s : server) (i : nat) (io : sink_io) : option server :=
  match idle s i with
  | None => Some s
  | Some wk =>
      match wk_sink wk with
      | None => Some s
      | Some (lcf, sc, d) =>
          let w := sv_world s in
          let '(ring, sc, (_, fs), t) :=
            sentinel_cssink_timer_handler false io (lcf_sink lcf) (wd_sink w).2 sc (sv_now s)
              (sv_files s) in
          Some (put_files
                  (put_world (put_worker s i (with_sink wk (lcf, sc, default d t)))
                     (with_rings w (wd_redis w).2 ring)) fs)
      end
  end.

(** ** Processes *)

Definition worker_of (p : process) : worker :=
  Worker (ps_feeds p) None (ps_redis p) [] (ps_sink p) [].

Section Processes.
Variable servers : list (option loc_conf * location_tree).

(** A worker process starts in slot [i]. *)
Definition start_process (al : start_allocs) (i : nat) (conns : option (list Z))
    : worker * option (list Z) :=
  let '(_, p) := ngx_sentinel_init_process al servers conns i in (worker_of p, ps_conns p).

(** The master starts the workers [i], [i + 1], ... *)
Fixpoint start_processes (al : nat -> start_allocs) (n i : nat) (conns : option (list Z))
    : list worker * option (list Z) :=
  match n with
  | O => ([], conns)
  | S n' =>
      let '(wk, conns) := start_process (al i) i conns in
      let '(wks, conns) := start_processes al n' (S i) conns in
      (wk :: wks, conns)
  end.

Definition start_server (al : nat -> start_allocs) (n : nat) (now msec : Z) (w : world)
    (fs : files) : server :=
  let '(wks, conns) := start_processes al n 0 (wd_conns w) in
  Server now msec (with_conns w conns) wks [] fs.

(** Worker [i] dies outside a critical section, with its requests, whose pool
    cleanups never run, and a new process starts in its slot. *)
Definition on_respawn (s : server) (i : nat) (al : start_allocs) : option server :=
  match sv_workers s !! i with
  | None => Some s
  | Some _ =>
      let '(wk, conns) := start_process al i (wd_conns (sv_world s)) in
      Some (put_requests (put_world (put_worker s i wk) (with_conns (sv_world s) conns))
              (filter (fun fl => fl_worker fl <> i) (sv_requests s)))
  end.

(** ** Events *)

Inductive event : Type :=
  | EvClock (now msec : Z)
  | EvRequest (i : nat) (seen : nat -> Z) (env : req_env) (r : request) (lcf : loc_conf)
  | EvVariable (k : nat) (f : req_ctx -> var_value) (env : req_env)
  | EvClose (k : nat) (err_status status : Z)
  | EvDrip (k : nat) (dead : bool) (out : ngx_rc) (rearm : bool) (err_status status : Z)
  | EvFeed (i j : nat) (fs : feed_file)
  | EvLoad (i : nat)
  | EvPtr (i k : nat) (answer : option bytes) (alloc_ok forward_ok : bool)
  | EvFwd (i k : nat) (answer : option (list sockaddr))
  | EvRedisTimer (i : nat) (ok : redis_command -> bool) (outcome : connect_outcome)
  | EvRedisConnect (i : nat) (status_ok : bool)
  | EvRedisDisconnect (i : nat)
  | EvRedisAuth (i : nat) (reply : option redis_reply)
  | EvRedisScan (i : nat) (ok : redis_command -> bool) (reply : option redis_reply)
      (alloc_ok : bool)
  | EvRedisGet (i k : nat) (reply : option redis_reply)
  | EvSink (i : nat) (io : sink_io)
  | EvRespawn (i : nat) (al : start_allocs).

(** The handler of an event; [None] is a fault.  An event that cannot happen in
    the state (no such request, timer or reply) changes nothing. *)
Definition handle (e : event) (s : server) : option server :=
  match e with
  | EvClock now msec => 
      Some (Server (Z.max now (sv_now s)) (Z.max msec (sv_msec s)) (sv_world s) (sv_workers s)
              (sv_requests s) (sv_files s))
  | EvRequest i seen env r lcf => on_request s i seen env r lcf
  | EvVariable k f env => on_variable s k f env
  | EvClose k err_status status => on_close s k err_status status
  | EvDrip k dead out rearm err_status status => on_drip s k dead out rearm err_status status
  | EvFeed i j fs => on_feed s i j fs
  | EvLoad i => on_load s i
  | EvPtr i k answer alloc_ok forward_ok => on_ptr s i k answer alloc_ok forward_ok
  | EvFwd i k answer => on_fwd s i k answer
  | EvRedisTimer i ok outcome => on_redis s i (redis_timer_event ok outcome (sv_now s))
  | EvRedisConnect i status_ok => on_redis s i (redis_connect_event status_ok)
  | EvRedisDisconnect i => on_redis s i redis_disconnect_event
  | EvRedisAuth i reply => on_redis s i (redis_auth_event reply)
  | EvRedisScan i ok reply alloc_ok => on_redis s i (redis_scan_event ok reply alloc_ok)
  | EvRedisGet i k reply => on_get s i k reply
  | EvSink i io => on_sink s i io
  | EvRespawn i al => on_respawn s i al
  end.

End Processes.
End System.
