(* ===== verification/SystemFrames.v ===== *)
(** * SystemFrames.v: what each handler does to the state the others share

    For every handler of [System.v]: it returns on well-formed zones, and it
    changes the decision tables, the tarpit counters and the rings in one known
    way.  A step on a decision table is described by the decisions it can add. *)
From stdpp Require Import sorting.
From S2P Require Import Prelude Types Ngx Http NgxModel Score Shm ShmTree ShmSpec ShmOps ShmRate.
From S2P Require Import ShmProps Signals SignalProps Feed FeedProps FeedConc Fcrdns Ring Redis.
From S2P Require Import RedisProps Cssink Pow PowProps Tarpit TarpitProps Metrics Ja4h Core CoreProps.
From S2P Require Import System.

Section Frames.
Context `{NgxHash} `{NgxCompare} `{NgxSlab} `{NgxRbtree} `{NgxParse} `{NgxInet} `{NgxHttp}
        `{NgxFormat} `{NgxHmac} `{NgxQuery} `{NgxSort}.
Context {HashLaws : NgxHashLaws} {CmpLaws : NgxCompareLaws} {SlabLaws : NgxSlabLaws}
        {RbLaws : NgxRbtreeLaws} {ParseLaws : NgxParseLaws} {FormatLaws : NgxFormatLaws}.

(** ** Decision tables *)

(** The table [i] answers [v] for [k] at time [t]. *)
Definition decision_in (l : list zone) (i : nat) (t : Z) (k : bytes) (v : Z) : Prop :=
  exists zc sh, l !! i = Some (Zone zc (Some sh)) /\ active t sh k = Some v.

Definition attached_at (l : list zone) (ref : zone_ref) : Prop :=
  exists zc sh, zone_at l ref = Some (Zone zc (Some sh)).

(** [z'] is [z] with at most the decisions of [D] added. *)
Definition zone_grows (D : Z -> bytes -> Z -> Prop) (z z' : option zone) : Prop :=
  match z with
  | Some (Zone zc (Some sh)) => exists sh', z' = Some (Zone zc (Some sh')) /\
      forall t k v, active t sh' k = Some v -> active t sh k = Some v \/ D t k v
  | _ => z' = z
  end.

Definition cs_grows (D : nat -> Z -> bytes -> Z -> Prop) (l l' : list zone) : Prop :=
  (forall ref, attached_at l ref -> attached_at l' ref) /\
  (forall i t k v, decision_in l' i t k v -> decision_in l i t k v \/ D i t k v).

Definition nothing : nat -> Z -> bytes -> Z -> Prop := fun _ _ _ _ => False.

Lemma zone_grows_refl D z : zone_grows D z z.
Proof. destruct z as [[zc [sh|]]|]; [|done..]. exists sh. auto. Qed.

Lemma cs_grows_refl D l : cs_grows D l l.
Proof. split; auto. Qed.

Lemma cs_grows_nothing D l l' : cs_grows nothing l l' -> cs_grows D l l'.
Proof. intros [Ha Hd]. split; [done|]. intros i t k v Hin. left. by destruct (Hd i t k v Hin). Qed.

Lemma zone_put_grows (D : nat -> Z -> bytes -> Z -> Prop) l ref z' :
  zone_grows (fun t k v => forall i, ref = Some i -> D i t k v) (zone_at l ref) z' ->
  cs_grows D l (zone_put l ref z').
Proof.
  destruct ref as [i|]; simpl; [|intros _; apply cs_grows_refl].
  destruct (l !! i) as [[zc [sh|]]|] eqn:Ei; simpl.
  2: { intros ->. rewrite list_insert_id by done. apply cs_grows_refl. }
  2: { intros ->. apply cs_grows_refl. }
  intros (sh' & -> & Hg). pose proof (lookup_lt_Some _ _ _ Ei) as Hlt. split.
  - intros [j|] (zj & sj & Ej); [|done]. destruct (decide (i = j)) as [<-|Hne].
    + exists zc, sh'. simpl. by rewrite list_lookup_insert_eq.
    + exists zj, sj. simpl in *. by rewrite list_lookup_insert_ne.
  - intros j t k v (zj & sj & Ej & Ha). destruct (decide (i = j)) as [<-|Hne].
    + rewrite list_lookup_insert_eq in Ej by done. injection Ej as <- <-.
      destruct (Hg t k v Ha) as [?|HD]; [left; by exists zc, sh|right; by apply HD].
    + rewrite list_lookup_insert_ne in Ej by done. left. by exists zj, sj.
Qed.

(** The table operations, as seen by a reader at any time. *)
Lemma upsert_grows sh key e a g now pulled :
  wf (fun _ => True) sh -> Z.of_nat (length key) < 65536 ->
  exists rc sh', crowdsec_upsert_locked key e a g now pulled sh = Some (rc, sh') /\
    wf (fun _ => True) sh' /\
    forall t k v, active t sh' k = Some v ->
      active t sh k = Some v \/ (k = key /\ v = a /\ t < e).
Proof.
  intros Hwf Hl.
  destruct (crowdsec_upsert_abs sh key e a g now pulled Hwf Hl) as (rc & sh' & E & Hwf' & _ & Hr).
  exists rc, sh'. split_and!; [done..|]. intros t k v.
  destruct Hr as [[_ Hab]|(_ & -> & _)]; [|by left].
  unfold active. rewrite Hab. destruct (decide (key = k)) as [<-|Hk].
  - rewrite lookup_insert_eq. simpl. destruct (Z.ltb_spec t e); [|done].
    intros [= <-]. by right.
  - rewrite lookup_insert_ne by done. by left.
Qed.

Lemma lookup_grows key now z rc a z' :
  opt_ok table_ok z -> sentinel_shm_crowdsec_lookup z key now = Some ((rc, a), z') ->
  zone_grows (fun _ _ _ => False) z z'.
Proof.
  intros Hz. unfold sentinel_shm_crowdsec_lookup, with_zone.
  destruct z as [[zc [sh|]]|]; [|by intros [= _ _ <-]..].
  pose proof (Hz _ eq_refl) as Hwf. simpl in Hwf.
  destruct (crowdsec_lookup_locked key now zc sh) as [[x sh']|] eqn:E; [|done].
  intros [= -> <-]. exists sh'. split; [done|]. intros t k v Ha. left.
  eapply crowdsec_lookup_shrinks; eauto.
Qed.

Lemma crowdsec_signal_grows r z now x z' :
  opt_ok table_ok z -> sentinel_crowdsec_signal r z now = Some (x, z') ->
  zone_grows (fun _ _ _ => False) z z'.
Proof.
  intros Hz. unfold sentinel_crowdsec_signal. destruct z as [z|]; [|by intros [= _ <-]].
  destruct (r_addr_text r) as [|c addr]; [intros [= _ <-]; apply zone_grows_refl|].
  destruct (sentinel_shm_crowdsec_lookup _ _ _) as [[[rc a] z2]|] eqn:E; [|done].
  apply lookup_grows in E; [|done]. by repeat case_match; intros [= _ <-].
Qed.

(** ** The request context *)

Lemma get_ctx_frame env r lcf slot w o slot' w' res :
  Forall table_ok (wd_cs w) ->
  ngx_sentinel_get_ctx env r lcf slot w = Some (o, slot', w', res) ->
  cs_grows nothing (wd_cs w) (wd_cs w') /\ same_outside w w' /\
  (slot' = slot \/ exists c, slot' = SlotCtx c) /\
  (forall x, res = Some x -> inflight_ok lcf x).
Proof.
  intros Hcs. unfold ngx_sentinel_get_ctx. destruct slot as [|c|t]; [| |done].
  2: { intros [= _ <- <- <-]. split_and!; try done; [apply cs_grows_refl|by left]. }
  destruct (en_ctx_alloc env); cbn [negb].
  2: { intros [= _ <- <- <-]. split_and!; try done; [apply cs_grows_refl|by left]. }
  destruct (sentinel_errrate_signal _ _ _) as [[[[count blocked] scanner] z1]|]; [|done].
  destruct (sentinel_botua_signal r) as [bot good].
  destruct (velocity_at _ _ _ _) as [[vel vels]|]; [|done].
  destruct (sentinel_fcrdns_signal _ _ _ _ _ _ _ _ _) as [[[[v sp] res0] z3]|] eqn:Ef; [|done].
  apply signal_grows in Ef as [_ Hres].
  destruct (sentinel_crowdsec_signal _ _ _) as [[[hit a] z4]|] eqn:Ec; [|done].
  apply crowdsec_signal_grows in Ec; [|by apply zone_at_ok].
  destruct (sentinel_score_compute _ _) as [score|]; [|done]. intros [= _ <- <- <-].
  split_and!; try done; [|right; by eexists].
  apply zone_put_grows. destruct (zone_at _ _) as [[zc [sh|]]|]; try done.
  destruct Ec as (sh' & -> & Hg). exists sh'. split; [done|]. intros t k x Hx. left.
  by destruct (Hg t k x Hx).
Qed.

(** ** Rings *)

Definition ring_ok (r : ring) : Prop := exists q, ring_models r q.

Lemma ring_enqueue_ok r e : ring_ok r -> ring_ok (ring_enqueue r e).
Proof.
  intros [q Hq]. apply (ring_enqueue_models _ _ e) in Hq.
  destruct (_ <? _); destruct Hq as [Hq _]; by eexists.
Qed.

Lemma ring_dequeue_ok r e r' : ring_ok r -> ring_dequeue r = Some (e, r') -> ring_ok r'.
Proof.
  intros [[|x q] Hq] E; apply ring_dequeue_models in Hq; [congruence|].
  destruct Hq as (r2 & E2 & Hq & _). exists q. congruence.
Qed.

Lemma enqueue_redis_ok armed conf r ip action expiry :
  ring_ok r -> ring_ok (sentinel_redis_enqueue_ban armed conf r ip action expiry).
Proof.
  intros Hr. unfold sentinel_redis_enqueue_ban. repeat case_match; auto using ring_enqueue_ok.
Qed.

Lemma enqueue_sink_ok armed conf r ip action expiry :
  ring_ok r -> ring_ok (sentinel_cssink_enqueue_ban armed conf r ip action expiry).
Proof.
  intros Hr. unfold sentinel_cssink_enqueue_ban. repeat case_match; auto using ring_enqueue_ok.
Qed.

Lemma flush_loop_ok ok conf now fuel : forall drained r,
  ring_ok r -> ring_ok (flush_loop ok fuel conf now drained r).2.
Proof.
  induction fuel as [|fuel IH]; intros drained r Hr; cbn [flush_loop]; [done|].
  destruct (ring_dequeue r) as [[e r']|] eqn:E; [|done].
  pose proof (ring_dequeue_ok _ _ _ Hr E) as Hr'.
  destruct (push_command conf now e); [|by apply IH].
  destruct (negb _); [done|]. destruct (_ <=? _); [done|].
  specialize (IH (drained + 1) r' Hr'). by destruct (flush_loop _ _ _ _ _ r').
Qed.

Lemma timer_handler_ring ok exiting conf rc push outcome now rc' push' cmds :
  (forall r, push = Some r -> ring_ok r) ->
  sentinel_redis_timer_handler ok exiting conf rc push outcome now = Some (rc', push', cmds) ->
  forall r, push' = Some r -> ring_ok r.
Proof.
  intros Hp. unfold sentinel_redis_timer_handler.
  destruct (rs_state rc).
  - destruct (sentinel_redis_connect _ _ _ _ _) as [rc2 c2]. by intros [= _ <- _].
  - by intros [= _ <- _].
  - destruct (rs_auth rc); [by intros [= _ <- _]|].
    destruct (sentinel_redis_flush_push ok conf rc push now) as [sets push2] eqn:Ef.
    assert (forall r, push2 = Some r -> ring_ok r) as Hp2.
    { revert Ef. unfold sentinel_redis_flush_push. destruct push as [r|]; [|by intros [= _ <-]].
      destruct (negb _ || _); [by intros [= _ <-]|].
      pose proof (flush_loop_ok ok conf now (S (Z.to_nat NGX_SENTINEL_REDIS_PUSH_RING)) 0 r
        (Hp _ eq_refl)) as Hr.
      destruct (flush_loop _ _ _ _ _ r) as [cs r']. intros [= _ <-]. by intros ? [= <-]. }
    destruct (negb _); [|by intros [= _ <- _]].
    destruct (sentinel_redis_pull_step _ _ _) as [[]|]; [|done]. by intros [= _ <- _].
Qed.

Lemma sink_drain_ok now fuel : forall drained r s,
  ring_ok r -> ring_ok (sink_drain fuel now drained r s).1.
Proof.
  induction fuel as [|fuel IH]; intros drained r s Hr; cbn [sink_drain]; [done|].
  destruct (ring_dequeue r) as [[e r']|] eqn:E; [|done].
  pose proof (ring_dequeue_ok _ _ _ Hr E). destruct (_ <=? _); [done|]. by apply IH.
Qed.

Lemma sink_timer_ring exiting io conf r sc now fs :
  ring_ok r ->
  ring_ok (sentinel_cssink_timer_handler exiting io conf r sc now fs).1.1.1.
Proof.
  intros Hr. unfold sentinel_cssink_timer_handler. destruct exiting; [done|].
  destruct (negb (sk_owner sc)); [done|].
  pose proof (sink_drain_ok now (S (Z.to_nat NGX_SENTINEL_CSSINK_RING)) 0 r (sk_set sc) Hr).
  destruct (sink_drain _ _ _ r _) as [r' s']. by destruct (sentinel_cssink_set_expire s' now).
Qed.
(** ** Tarpit counters *)

(** The counters of the segment are the numbers of contexts that hold a slot. *)
Definition counters_ok (conns : option (list Z)) (held : list tarpit_ctx) : Prop :=
  Forall (fun t => tp_counted t = true /\ (tp_slot t < NGX_MAX_PROCESSES)%nat) held /\
  match conns with
  | None => held = []
  | Some c =>
      length c = NGX_MAX_PROCESSES /\
      (forall i, (i < NGX_MAX_PROCESSES)%nat -> c !! i = Some (held_at i held)) /\
      zsum c = Z.of_nat (length held)
  end.

Lemma counters_sum c held :
  counters_ok (Some c) held -> Z.of_nat (length held) < 2 ^ 64 ->
  sum_conns c = Z.of_nat (length held).
Proof.
  intros (_ & Hl & Hc & Hsum) Hlt. unfold sum_conns. rewrite take_ge by lia.
  rewrite fold_wrap_sum; [lia| |lia|lia].
  apply Forall_lookup. intros i v Hi.
  rewrite Hc in Hi by (rewrite <- Hl; by eapply lookup_lt_Some).
  injection Hi as <-. pose proof (held_at_le i held). lia.
Qed.

(** Slots depend on which slots are held only. *)
Lemma held_at_slots i held held' :
  tp_slot <$> held = tp_slot <$> held' -> held_at i held = held_at i held'.
Proof.
  unfold held_at. revert held'. induction held as [|t held IH]; intros [|t' held']; try done.
  cbn [fmap list_fmap]. intros E. injection E as Es E. rewrite !filter_cons, Es.
  specialize (IH _ E). case_decide; simpl; lia.
Qed.

Lemma counters_ok_perm conns l l' : l ≡ₚ l' -> counters_ok conns l -> counters_ok conns l'.
Proof.
  intros Hp [Hf Hc]. split; [by rewrite <- Hp|]. destruct conns as [c|].
  - destruct Hc as (Hl & Hc & Hsum). split_and!; [done| |by rewrite <- Hp].
    intros i Hi. rewrite Hc by done. unfold held_at. by rewrite Hp.
  - subst l. by apply Permutation_nil in Hp.
Qed.

Lemma counters_ok_snoc conns l t : counters_ok conns (t :: l) -> counters_ok conns (l ++ [t]).
Proof. apply counters_ok_perm. apply Permutation_cons_append. Qed.

(** The contexts outside one slot. *)
Lemma held_at_filter i held :
  Z.of_nat (length held)
    = Z.of_nat (length (filter (fun t => tp_slot t <> i) held)) + held_at i held /\
  forall j, held_at j (filter (fun t => tp_slot t <> i) held)
    = if decide (j = i) then 0 else held_at j held.
Proof.
  unfold held_at. induction held as [|t held [IHl IHj]].
  { split; [done|]. intros j. by case_decide. }
  rewrite !(filter_cons (fun t => tp_slot t <> i)), !(filter_cons (fun t => tp_slot t = i)).
  destruct (decide (tp_slot t = i)) as [E|E].
  - rewrite (decide_False (P := tp_slot t <> i)) by (intros Hc; by apply Hc).
    split; [simpl; lia|]. intros j. rewrite IHj. case_decide; [done|].
    rewrite filter_cons, decide_False by congruence. done.
  - rewrite (decide_True (P := tp_slot t <> i)) by done.
    split; [simpl; lia|]. intros j. rewrite !filter_cons. specialize (IHj j).
    destruct (decide (j = i)) as [->|Hj].
    + rewrite (decide_False (P := tp_slot t = i)) by done. done.
    + case_decide; simpl; lia.
Qed.

(** Writing the own slot of the counters that were seen, back into the counters. *)
Lemma own_slot_same seen slot conns : own_slot slot conns (seen_conns seen slot conns) = conns.
Proof.
  unfold own_slot, seen_conns. destruct conns as [c|]; [|done]. cbn [fmap option_fmap option_map].
  rewrite list_lookup_imap. destruct (c !! slot) as [v|] eqn:E; [|done]. cbn [fmap option_fmap option_map].
  rewrite Nat.eqb_refl. by rewrite list_insert_id.
Qed.

Lemma own_slot_insert c c' slot v :
  length c' = length c -> (slot < length c)%nat ->
  own_slot slot (Some c) (Some (<[slot := v]> c')) = Some (<[slot := v]> c).
Proof. intros Hl Hs. unfold own_slot. by rewrite list_lookup_insert_eq by lia. Qed.

(** A tarpit that starts takes one slot, whatever it sees of the other workers'
    counters; otherwise the counters are as before. *)
Lemma tarpit_start_counters env conf conns held seen worker now count st :
  let slot := worker_slot worker in
  counters_ok conns held -> Z.of_nat (length held) + 1 < 2 ^ 64 ->
  sentinel_tarpit_start env conf (Some (seen_conns seen slot conns)) worker now count = Some st ->
  (sr_cleanup st = None /\ own_slot slot conns (sr_conns st) = conns) \/
  exists t, sr_cleanup st = Some t /\ tp_slot t = slot /\
    counters_ok (own_slot slot conns (sr_conns st)) (t :: held).
Proof.
  intros slot Hok Hlt. pose proof (own_slot_same seen slot conns) as Hsame.
  unfold sentinel_tarpit_start, sentinel_tarpit_reserve.
  destruct conns as [c|]; cbn [seen_conns fmap option_fmap option_map] in *;
    [|intros [= <-]; by left].
  set (c' := imap _ c) in *.
  destruct (tarpit_max_conns conf =? 0); [intros [= <-]; by left|].
  cbn [reserve_loop]. destruct (reserve_check c' _); cbn [negb]; [|intros [= <-]; by left].
  destruct Hok as (Hf & Hl & Hc & Hsum). fold slot.
  assert (slot < NGX_MAX_PROCESSES)%nat as Hslot by apply worker_slot_lt.
  pose proof (held_at_le slot held) as Hh.
  assert (length c' = length c) as Hl' by (unfold c'; by rewrite length_imap).
  assert (c' !! slot = Some (held_at slot held)) as Hcs.
  { unfold c'. rewrite list_lookup_imap, Hc by done. cbn. by rewrite Nat.eqb_refl. }
  assert (reserve_commit c' slot = <[slot := held_at slot held + 1]> c') as Ecommit.
  { unfold reserve_commit. by apply slot_add_insert; [|lia]. }
  assert (slot_add (reserve_commit c' slot) slot (-1) = c') as Hrelease.
  { rewrite Ecommit, (slot_add_insert _ slot (held_at slot held + 1) (-1)).
    - rewrite list_insert_insert_eq. apply list_insert_id. rewrite Hcs. f_equal. lia.
    - apply list_lookup_insert_eq. lia.
    - lia. }
  rewrite !bool_decide_false by done.
  destruct (ts_alloc env); cbn [negb]; [|intros [= <-]; left; cbn; by rewrite Hrelease].
  destruct (ts_cleanup env); cbn [negb]; [|intros [= <-]; left; cbn; by rewrite Hrelease].
  set (t := tarpit_new conf slot now (ts_entropy env)).
  assert (counters_ok (own_slot slot (Some c) (Some (reserve_commit c' slot))) (t :: held)) as Hok'.
  { rewrite Ecommit, own_slot_insert by lia.
    rewrite <- (slot_add_insert c slot (held_at slot held) 1) by (auto || lia).
    destruct (slot_add_held c held (t :: held) slot 1) as (Hl2 & Hc2 & Hsum2); try done.
    - intros i. apply held_at_cons.
    - simpl. lia.
    - simpl. lia.
    - split_and!; try done. by constructor. }
  destruct (ts_header env); intros [= <-]; right; by exists t.
Qed.

(** The slot of a context that ends is given back. *)
Lemma tarpit_cleanup_counters conns l1 t l2 :
  counters_ok conns (l1 ++ t :: l2) -> Z.of_nat (length (l1 ++ t :: l2)) < 2 ^ 64 ->
  counters_ok ((fun c => (sentinel_tarpit_cleanup c t).1) <$> conns) (l1 ++ l2).
Proof.
  intros (Hf & Hc) Hlt. pose proof (Forall_elt _ _ _ Hf) as [Hcount Hslot].
  rewrite Forall_app, Forall_cons in Hf. destruct Hf as (Hf1 & _ & Hf2).
  split; [by apply Forall_app|]. destruct conns as [c|]; [|by destruct l1].
  destruct Hc as (Hl & Hc & Hsum). cbn [fmap option_fmap option_map].
  unfold sentinel_tarpit_cleanup. rewrite Hcount. cbn [negb fst].
  rewrite length_app in Hlt, Hsum. cbn [length] in Hlt, Hsum.
  apply (slot_add_held c (l1 ++ t :: l2) (l1 ++ l2) (tp_slot t) (-1)); try done.
  - rewrite length_app. simpl. lia.
  - intros i. rewrite held_at_middle. case_decide; lia.
  - rewrite !length_app. simpl. lia.
  - rewrite length_app. lia.
Qed.

(** Restarting a worker clears the slot only its dead requests held. *)
Lemma tarpit_respawn_counters conns held i :
  counters_ok conns held -> (i < NGX_MAX_PROCESSES)%nat ->
  counters_ok (sentinel_tarpit_init_process conns i) (filter (fun t => tp_slot t <> i) held).
Proof.
  intros (Hf & Hc) Hi. split.
  { rewrite Forall_forall in *. intros t [_ Ht]%list_elem_of_filter. by apply Hf. }
  destruct conns as [c|]; [|by rewrite Hc]. destruct Hc as (Hl & Hc & Hsum).
  destruct (held_at_filter i held) as [Hlen Hj].
  unfold sentinel_tarpit_init_process, worker_slot. cbn [fmap option_fmap option_map].
  rewrite (proj2 (Nat.leb_gt _ _)) by done. split_and!.
  - by rewrite length_insert.
  - intros j Hjlt. rewrite Hj. destruct (decide (j = i)) as [->|Hne].
    + by rewrite list_lookup_insert_eq by lia.
    + by rewrite list_lookup_insert_ne, Hc by done.
  - replace 0 with (held_at i held + - held_at i held) by lia.
    rewrite zsum_alter by auto. lia.
Qed.
(** ** The request handlers *)

Definition rings_ok (w : world) : Prop := ring_ok (wd_redis w).2 /\ ring_ok (wd_sink w).2.

(** What the PREACCESS handler leaves alone: it can end with a tarpit that was
    started with the counters of the world, and owns its context. *)
Definition preaccess_frame (env : req_env) (lcf : loc_conf) (w w' : world) (slot : ctx_slot)
    (ef : effects) : Prop :=
  cs_grows nothing (wd_cs w) (wd_cs w') /\ (rings_ok w -> rings_ok w') /\
  match ef_tarpit ef with
  | None => wd_conns w' = wd_conns w /\ forall t, slot <> SlotTarpit t
  | Some st =>
      sentinel_tarpit_start (en_tarpit env) (lcf_tarpit lcf) (Some (wd_conns w))
        (en_worker env) (en_msec env) (en_count env) = Some st /\
      wd_conns w' = sr_conns st /\ (forall t, slot = SlotTarpit t -> sr_cleanup st = Some t)
  end.

Lemma block_frame env r lcf hit w w' :
  block_softban env r lcf w = Some w' ->
  let w2 := block_push env r lcf hit w' in
  wd_cs w2 = wd_cs w /\ wd_conns w2 = wd_conns w /\ (rings_ok w -> rings_ok w2).
Proof.
  intros Hb. assert (wd_cs w' = wd_cs w) as Hcs.
  { revert Hb. unfold block_softban. destruct (_ && _ && _); [|by intros [= <-]].
    destruct (sentinel_shm_softban_set _ _ _ _) as [[rc z]|]; [|done]. by intros [= <-]. }
  apply softban_outside in Hb as (Hc & _ & Hr & Hs).
  split_and!; [exact Hcs|exact Hc|]. intros [Hrr Hrs].
  unfold rings_ok, block_push. cbn [wd_redis wd_sink]. rewrite Hr, Hs. split.
  - destruct (_ && _); cbn [snd]; auto using enqueue_redis_ok.
  - destruct (_ && _); cbn [snd]; auto using enqueue_sink_ok.
Qed.

Lemma enforce_frame env r lcf c w rc slot w' ef :
  enforce env r lcf c w = Some (rc, slot, w', ef) -> preaccess_frame env lcf w w' slot ef.
Proof.
  unfold enforce, preaccess_frame. destruct (cx_verdict c).
  - intros [= _ <- <- <-]. split_and!; [apply cs_grows_refl|done..].
  - destruct (sentinel_pow_dispatch _ _ _ _); [|done].
    intros [= _ <- <- <-]. split_and!; [apply cs_grows_refl|done..].
  - destruct (0 <? throttle_rate lcf);
      [intros [= _ <- <- <-]; split_and!; [apply cs_grows_refl|done..]|].
    destruct (negb (shield lcf =? 0));
      [intros [= _ <- <- <-]; split_and!; [apply cs_grows_refl|done..]|].
    destruct (tarpit_max_conns (lcf_tarpit lcf) =? 0);
      [intros [= _ <- <- <-]; split_and!; [apply cs_grows_refl|done..]|].
    destruct (sentinel_tarpit_start _ _ _ _ _ _) as [st|] eqn:Es; [|done].
    intros [= _ <- <- <-]. cbn [ef_tarpit]. split_and!; [apply cs_grows_refl|done..|].
    destruct (sr_set_ctx st), (sr_cleanup st); intros ? [= <-]; done.
  - destruct (block_softban env r lcf w) as [w1|] eqn:Eb; [|done].
    apply (block_frame _ _ _ (crowdsec_hit (cx_inputs c))) in Eb as (Hcs & Hc & Hr).
    intros [= _ <- <- <-]. rewrite Hcs, Hc.
    split_and!; [apply cs_grows_refl|exact Hr|done..].
Qed.

Lemma preaccess_frames env r lcf w rc slot w' ef res :
  Forall table_ok (wd_cs w) ->
  ngx_sentinel_preaccess_handler env r lcf SlotEmpty w = Some (rc, slot, w', ef, res) ->
  preaccess_frame env lcf w w' slot ef /\ (forall x, res = Some x -> inflight_ok lcf x).
Proof.
  intros Hcs. unfold ngx_sentinel_preaccess_handler. destruct (enabled lcf =? 0).
  { intros [= _ <- <- <- <-]. split; [|done]. split_and!; [apply cs_grows_refl|done..]. }
  destruct (ngx_sentinel_get_ctx env r lcf SlotEmpty w) as [[[[o s1] w1] res1]|] eqn:Eg; [|done].
  apply get_ctx_frame in Eg as (Hg & (Hc & _ & Hr & Hs) & Hslot & Hres); [|done].
  assert (forall s0 w0, wd_cs w0 = wd_cs w1 -> wd_conns w0 = wd_conns w1 ->
    wd_redis w0 = wd_redis w1 -> wd_sink w0 = wd_sink w1 -> (forall t, s0 <> SlotTarpit t) ->
    preaccess_frame env lcf w w0 s0 no_effects) as Hplain.
  { intros s0 w0 E1 E2 E3 E4 Hs0. unfold preaccess_frame, rings_ok.
    rewrite E1, E2, E3, E4, Hc, Hr, Hs. by split_and!. }
  assert (forall t, s1 <> SlotTarpit t) as Hs1 by by destruct Hslot as [->|[c ->]].
  destruct o as [c|]; [|intros [= _ <- <- <- <-]; split; [by apply Hplain|done]].
  destruct (negb (shadow lcf =? 0)); [intros [= _ <- <- <- <-]; split; [by apply Hplain|done]|].
  destruct (enforce _ _ _ _ _) as [[[[rc2 s2] w2] ef2]|] eqn:Ee; [|done].
  apply enforce_frame in Ee as (Hg2 & Hr2 & Ht). intros [= _ <- <- <- <-].
  split; [|done]. unfold rings_ok in Hr2. cbn in Hg2, Hr2, Ht. rewrite Hr, Hs in Hr2.
  rewrite Hc in Ht. split_and!; [|exact Hr2|exact Ht].
  destruct Hg as [Ha Hd], Hg2 as [Ha2 Hd2]. split; [auto|].
  intros i t k v Hin. destruct (Hd2 i t k v Hin) as [Hin'|[]]. auto.
Qed.

Lemma log_handler_frame now r lcf w rc w' :
  ngx_sentinel_log_handler now r lcf w = Some (rc, w') ->
  wd_cs w' = wd_cs w /\ wd_fcrdns w' = wd_fcrdns w /\ same_outside w w'.
Proof.
  unfold ngx_sentinel_log_handler. destruct (enabled lcf =? 0); [by intros [= _ <-]|].
  destruct (length (r_addr_text r) =? 0)%nat; [by intros [= _ <-]|].
  destruct (vel_zone lcf) as [v|]; [|done].
  match goal with |- context [match ?m with Some vels => _ | None => None end] =>
    destruct m as [vels|]; [|done] end.
  destruct (zone_at _ _) as [z|]; [|by intros [= _ <-]].
  destruct (_ <? 400); [by intros [= _ <-]|].
  destruct (sentinel_shm_errrate_record _ _ _) as [[x z']|]; [|done]. by intros [= _ <-].
Qed.

(** ** Resolver *)

Lemma finish_total z c v now :
  opt_ok table_ok z -> Z.of_nat (length (c_key c)) < 65536 -> 0 <= now + c_ttl c < 2 ^ 63 ->
  exists z', sentinel_fcrdns_finish z c v now = Some z' /\ opt_ok table_ok z'.
Proof.
  intros Hz Hl Hm. unfold sentinel_fcrdns_finish. destruct (negb _); [|by eexists].
  unfold sentinel_shm_fcrdns_set, with_zone.
  destruct z as [[zc [sh|]]|]; [|by eexists..].
  pose proof (Hz _ eq_refl) as Hwf. simpl in Hwf. rewrite time_add_ok by done.
  destruct (upsert_grows sh (c_key c) (now + c_ttl c) (v mod 256) 0 now false Hwf Hl)
    as (rc & sh' & -> & Hwf' & _).
  eexists. split; [done|]. by intros ? [= <-].
Qed.

Lemma carrier_key lcf c : inflight_ok lcf (WaitPtr c) -> Z.of_nat (length (c_key c)) < 65536.
Proof. intros [(b & _ & ->) _]. apply digest_short. Qed.

Lemma ptr_handler_total lcf z c now answer al fw :
  opt_ok table_ok z -> inflight_ok lcf (WaitPtr c) ->
  0 <= now + fcrdns_ttl_of (lcf_fcrdns lcf) < 2 ^ 63 ->
  exists next z', sentinel_fcrdns_ptr_handler z c now answer al fw = Some (next, z') /\
    opt_ok table_ok z' /\ (forall x, next = Some x -> inflight_ok lcf x).
Proof.
  intros Hz Hin Hm. pose proof (carrier_key _ _ Hin) as Hl. pose proof Hin as (_ & _ & Et).
  rewrite <- Et in Hm.
  assert (exists next z', sentinel_fcrdns_ptr_handler z c now answer al fw = Some (next, z') /\
    opt_ok table_ok z') as (next & z' & E & Hz').
  { unfold sentinel_fcrdns_ptr_handler.
    destruct (finish_total z c NGX_SENTINEL_FCRDNS_PENDING now Hz Hl Hm) as (zp & -> & Hzp).
    destruct (finish_total z c NGX_SENTINEL_FCRDNS_FAILED now Hz Hl Hm) as (zf & -> & Hzf).
    repeat case_match; by do 2 eexists. }
  exists next, z'. split_and!; [done..|]. by apply (ptr_handler_grows lcf) in E as [_ ?].
Qed.

Lemma fwd_handler_total lcf z c name now answer :
  opt_ok table_ok z -> inflight_ok lcf (WaitForward c name) ->
  0 <= now + fcrdns_ttl_of (lcf_fcrdns lcf) < 2 ^ 63 ->
  exists z', sentinel_fcrdns_fwd_handler z c now answer = Some z' /\ opt_ok table_ok z'.
Proof.
  intros Hz [Hin _] Hm. pose proof (carrier_key lcf c Hin) as Hl. pose proof Hin as (_ & _ & Et).
  rewrite <- Et in Hm.
  unfold sentinel_fcrdns_fwd_handler. destruct answer as [[|a l]|]; by apply finish_total.
Qed.

(** ** A decision pulled from a peer *)

(** The reply bans [k] with action [v] until after [t]. *)
Definition pulled (reply : option redis_reply) (ip : bytes) (t : Z) (k : bytes) (v : Z) : Prop :=
  exists text n e, reply = Some (ReplyString text) /\ memchr text SP = Some n /\
    v = sentinel_redis_action (take n text) /\ ngx_atoi (drop (S n) text) = Some e /\
    t < e /\ k = SHA256 ip.

Lemma get_reply_total z reply ip now :
  opt_ok table_ok z -> (exists zc sh, z = Some (Zone zc (Some sh))) ->
  exists z', sentinel_redis_get_reply z reply ip now = Some z' /\ opt_ok table_ok z' /\
    zone_grows (pulled reply ip) z z'.
Proof.
  intros Hz (zc & sh & ->). pose proof (Hz _ eq_refl) as Hwf. simpl in Hwf.
  assert (exists z', Some (Some (Zone zc (Some sh))) = Some z' /\ opt_ok table_ok z' /\
    zone_grows (pulled reply ip) (Some (Zone zc (Some sh))) z') as Hsame.
  { eexists. split_and!; [done..|]. apply zone_grows_refl. }
  unfold sentinel_redis_get_reply.
  destruct reply as [[text| | |]|]; try exact Hsame. destruct text as [|ch text]; [exact Hsame|].
  cbv zeta. destruct (memchr (ch :: text) SP) as [n|] eqn:En; [|exact Hsame].
  destruct (ngx_atoi (drop (S n) (ch :: text))) as [e|] eqn:Ee; [|exact Hsame].
  destruct (Z.leb_spec e now); [exact Hsame|].
  destruct (upsert_grows sh (SHA256 ip) e (sentinel_redis_action (take n (ch :: text)))
    (sh_cs_generation sh) now true Hwf (digest_short ip)) as (rc & sh' & E & Hwf' & Hg).
  rewrite E. eexists. split; [done|]. split; [by intros ? [= <-]|].
  exists sh'. split; [done|]. intros t k v Ha.
  destruct (Hg t k v Ha) as [?|(-> & -> & Ht)]; [by left|].
  right. by exists (ch :: text), n, e.
Qed.

(** ** Loads *)

(** The lines a load still has to apply. *)
Definition phase_lines (ph : loader) : list bytes :=
  match ph with LBump lines | LApply _ lines => lines | _ => [] end.

(** One of the lines bans [k] with action [v] until after [t]. *)
Definition listed (ttl now : Z) (lines : list bytes) (t : Z) (k : bytes) (v : Z) : Prop :=
  exists line e, line ∈ lines /\ apply_line ttl now line = Some (k, e, v) /\ t < e.

Lemma apply_batch_grows ttl now g lines : forall budget sh,
  wf (fun _ => True) sh ->
  exists rest sh', apply_batch ttl now g lines budget sh = Some (rest, sh') /\
    wf (fun _ => True) sh' /\ rest `suffix_of` lines /\
    forall t k v, active t sh' k = Some v -> active t sh k = Some v \/ listed ttl now lines t k v.
Proof.
  induction lines as [|line lines IH]; intros budget sh Hwf; simpl.
  { do 2 eexists. split_and!; [done..|]. by left. }
  assert (forall rest, rest `suffix_of` lines -> rest `suffix_of` line :: lines) as Hsuf
    by (intros; by apply suffix_cons_r).
  assert (forall t k v, listed ttl now lines t k v -> listed ttl now (line :: lines) t k v)
    as Hlist.
  { intros t k v (l & e & Hl & Hr). exists l, e. split; [by right|done]. }
  destruct budget as [|budget].
  { do 2 eexists. split_and!; [done..|]. by left. }
  destruct (apply_line ttl now line) as [[[k e] a]|] eqn:El.
  2: { destruct (IH (S budget) sh Hwf) as (rest & sh' & E & Hwf' & Hr & Hg).
       exists rest, sh'. split_and!; auto. intros t k v Ha. destruct (Hg t k v Ha); auto. }
  destruct (upsert_grows sh k e a g now false Hwf) as (rc & sh1 & E & Hwf1 & Hg1);
    [by eapply apply_line_key|]. rewrite E.
  assert (forall t k0 v, active t sh1 k0 = Some v ->
    active t sh k0 = Some v \/ listed ttl now (line :: lines) t k0 v) as Hg1'.
  { intros t k0 v Ha. destruct (Hg1 t k0 v Ha) as [?|(-> & -> & Ht)]; [by left|].
    right. exists line, e. split_and!; [by left|done..]. }
  case_bool_decide.
  - destruct (IH budget sh1 Hwf1) as (rest & sh' & E' & Hwf' & Hr & Hg).
    exists rest, sh'. split_and!; auto. intros t k0 v Ha. destruct (Hg t k0 v Ha); auto.
  - do 2 eexists. split_and!; [done|done|apply suffix_nil|done].
Qed.

Lemma loader_step_grows ttl now ph sh :
  wf (fun _ => True) sh ->
  exists ph' sh', loader_step ttl now ph sh = Some (ph', sh') /\ wf (fun _ => True) sh' /\
    phase_lines ph' `suffix_of` phase_lines ph /\
    forall t k v, active t sh' k = Some v ->
      active t sh k = Some v \/ listed ttl now (phase_lines ph) t k v.
Proof.
  intros Hwf. destruct ph as [lines|g lines|g|]; simpl.
  - do 2 eexists. split_and!; [done|by apply bump_wf|done|]. by left.
  - destruct (apply_batch_grows ttl now g lines NGX_SENTINEL_FEED_APPLY_BATCH sh Hwf)
      as (rest & sh' & -> & Hwf' & Hr & Hg).
    do 2 eexists. split_and!; [done..| |done]. destruct rest; [apply suffix_nil|done].
  - destruct (sweep_walk_spec g NGX_SENTINEL_FEED_APPLY_BATCH (rev (sh_queue sh)) 0 sh)
      as (d & sh' & E & Hwf' & _ & _ & Hsw & _); [done| | |].
    { eapply NoDup_Permutation_proper; [symmetry; apply Permutation_rev|apply Hwf]. }
    { intros a. by rewrite list_elem_of_In, <- in_rev, <- list_elem_of_In. }
    unfold sentinel_shm_crowdsec_sweep. rewrite E.
    do 2 eexists. split_and!; [done..|by case_match|].
    intros t k v. unfold active. destruct (Hsw k) as [->|[-> _]]; [by left|done].
  - do 2 eexists. split_and!; [done..|]. by left.
Qed.
End Frames.
