(* ===== verification/SystemProps.v ===== *)
(** * SystemProps.v: the invariant of the running server

    [server_ok] holds of a server that has just started and is kept by every
    event of [System.v] that can happen; each of these returns, and changes the
    decision tables in one known way. *)
From S2P Require Import Prelude Types Ngx Http NgxModel Score Shm ShmTree ShmSpec ShmOps ShmRate.
From S2P Require Import ShmProps Signals SignalProps Feed FeedProps FeedConc Fcrdns Ring Redis.
From S2P Require Import RedisProps Cssink Pow PowProps Tarpit TarpitProps Metrics Ja4h Core CoreProps.
From S2P Require Import Init System SystemFrames.

(** Compute the fields of updated records. *)
Ltac server_fields :=
  cbn [put_worker put_world put_requests put_files with_feeds with_load with_gets with_redis
       with_sink with_dns with_cs with_fcrdns with_rings with_conns with_metrics
       sv_now sv_msec sv_world sv_workers sv_requests sv_files
       wd_zones wd_vel wd_cs wd_fcrdns wd_conns wd_metrics wd_redis wd_sink
       wk_feeds wk_load wk_redis wk_gets wk_sink wk_dns
       fl_worker fl_request fl_lcf fl_slot fl_cleanup fl_count
       ld_timer ld_zone ld_ttl ld_now ld_phase ld_done fst snd] in *.

Section Props.
Context `{NgxHash} `{NgxCompare} `{NgxSlab} `{NgxRbtree} `{NgxParse} `{NgxInet} `{NgxHttp}
        `{NgxFormat} `{NgxHmac} `{NgxQuery} `{NgxSort}.
Context {HashLaws : NgxHashLaws} {CmpLaws : NgxCompareLaws} {SlabLaws : NgxSlabLaws}
        {RbLaws : NgxRbtreeLaws} {ParseLaws : NgxParseLaws} {FormatLaws : NgxFormatLaws}.

(** The servers of the configuration and their location configurations, the
    number of workers, the last second the clock reaches, and the number of
    requests that can be in flight (the connections of all workers). *)
Context (servers : list (option loc_conf * location_tree)) (locs : loc_conf -> Prop)
        (n : nat) (T M : Z).

(** ** The events that can happen *)

(** The lifetimes that the configuration does not bound from above. *)
Definition lifetimes_fit (lcf : loc_conf) : Prop :=
  T + pow_ttl_of (lcf_pow lcf) < 2 ^ 63 /\ T + block_ttl lcf < 2 ^ 63 /\
  T + fcrdns_ttl_of (lcf_fcrdns lcf) < 2 ^ 63.

Definition loc_good (lcf : loc_conf) : Prop := lcf_ok lcf /\ lifetimes_fit lcf.

(** A request comes over a free connection, for a merged location; the variables
    of a tarpitted request are left out ([variables_after_tarpit_are_confused]). *)
Definition admissible (e : event) (s : server) : Prop :=
  match e with
  | EvClock now _ => now <= T
  | EvRequest _ _ _ r lcf => locs lcf /\ r_sockaddr r <> None /\
      Z.of_nat (length (sv_requests s)) < M
  | EvVariable k _ _ =>
      forall fl t, sv_requests s !! k = Some fl -> fl_slot fl <> SlotTarpit t
  | _ => True
  end.

Inductive server_step (s s' : server) : Prop :=
  | step_event e : admissible e s -> handle servers e s = Some s' -> server_step s s'.

(** ** The invariant *)

Record worker_ok (cs : list zone) (wk : worker) : Prop := {
  wo_redis : forall lcf rc, wk_redis wk = Some (lcf, rc) ->
    redis_ok rc /\ prefix_fits (lcf_redis lcf) /\ attached_at cs (cs_zone_of lcf);
  wo_load : forall ld, wk_load wk = Some ld ->
    attached_at cs (ld_zone ld) /\
    exists buf all, feed_validate buf = Some all /\ phase_lines (ld_phase ld) `suffix_of` all;
  wo_dns : Forall (fun p => exists lcf, lifetimes_fit lcf /\ inflight_ok lcf p.2) (wk_dns wk)
}.

Record request_ok (fl : inflight) : Prop := {
  ro_lcf : loc_good (fl_lcf fl);
  ro_worker : (fl_worker fl < n)%nat;
  ro_slot : forall t, fl_slot fl = SlotTarpit t -> fl_cleanup fl = Some t;
  ro_cleanup : forall t, fl_cleanup fl = Some t -> tp_slot t = worker_slot (fl_worker fl)
}.

(** The tarpit contexts of the requests. *)
Definition held (l : list inflight) : list tarpit_ctx := omap fl_cleanup l.

Record server_ok (s : server) : Prop := {
  so_now : 0 <= sv_now s <= T;
  so_world : world_ok (sv_now s) (sv_world s);
  so_fits : world_fits T (sv_world s);
  so_rings : rings_ok (sv_world s);
  so_count : length (sv_workers s) = n;
  so_workers : Forall (worker_ok (wd_cs (sv_world s))) (sv_workers s);
  so_requests : Forall request_ok (sv_requests s);
  so_conns : counters_ok (wd_conns (sv_world s)) (held (sv_requests s));
  so_flight : Z.of_nat (length (sv_requests s)) <= M;
  so_redis : forall lcf, sentinel_redis_find_loc servers = Some lcf ->
    attached_at (wd_cs (sv_world s)) (cs_zone_of lcf)
}.

(** The decisions an event can add to the table [i]. *)
Definition adds (e : event) (s : server) (i : nat) (t : Z) (k : bytes) (v : Z) : Prop :=
  match e with
  | EvLoad j => exists wk ld, sv_workers s !! j = Some wk /\ wk_load wk = Some ld /\
      ld_zone ld = Some i /\ listed (ld_ttl ld) (ld_now ld) (phase_lines (ld_phase ld)) t k v
  | EvRedisGet j m reply => exists wk lcf rc ip, sv_workers s !! j = Some wk /\
      wk_redis wk = Some (lcf, rc) /\ wk_gets wk !! m = Some ip /\
      cs_zone_of lcf = Some i /\ pulled reply ip t k v
  | _ => False
  end.

(** ** Frames *)

Lemma worker_ok_mono D cs cs' wk : cs_grows D cs cs' -> worker_ok cs wk -> worker_ok cs' wk.
Proof.
  intros [Ha _] [Hr Hl Hd]. split; [|intros ld E; destruct (Hl ld E); by split; [apply Ha|]|done].
  intros lcf rc E. destruct (Hr lcf rc E) as (? & ? & ?). by split_and!; [..|apply Ha].
Qed.

Lemma idle_lookup s i wk : idle s i = Some wk -> sv_workers s !! i = Some wk /\ wk_load wk = None.
Proof. unfold idle. by repeat case_match; intros [= <-]. Qed.

(** A handler that replaces the worker it runs in and the world, and leaves the
    requests and their counters alone. *)
Lemma worker_step_ok D s i wk0 wk w :
  server_ok s -> sv_workers s !! i = Some wk0 -> world_ok (sv_now s) w ->
  same_zones (sv_world s) w -> rings_ok w ->
  wd_conns w = wd_conns (sv_world s) -> cs_grows D (wd_cs (sv_world s)) (wd_cs w) ->
  worker_ok (wd_cs w) wk -> server_ok (put_world (put_worker s i wk) w).
Proof.
  intros [] Hi Hw Hz Hr Hc Hg Hwk. split; server_fields; try done.
  - by apply (world_fits_same _ (sv_world s)).
  - by rewrite length_insert.
  - apply Forall_insert; [|done]. eapply Forall_impl; [exact so_workers0|].
    intros x. by apply (worker_ok_mono D).
  - by rewrite Hc.
  - intros lcf Hf. apply Hg. auto.
Qed.

Lemma put_world_id s i wk : put_world (put_worker s i wk) (sv_world s) = put_worker s i wk.
Proof. by destruct s. Qed.

Lemma world_with_cs now w ref z :
  world_ok now w -> opt_ok table_ok z -> world_ok now (with_cs w ref z).
Proof. intros (Hz & Hv & Hc & Hf) Ho. split_and!; server_fields; try done. by apply zone_put_ok. Qed.

Lemma world_with_fcrdns now w ref z :
  world_ok now w -> opt_ok table_ok z -> world_ok now (with_fcrdns w ref z).
Proof. intros (Hz & Hv & Hc & Hf) Ho. split_and!; server_fields; try done. by apply zone_put_ok. Qed.

Lemma same_zones_with_cs w ref z : same_zones w (with_cs w ref z).
Proof. by split. Qed.

Lemma same_zones_with_fcrdns w ref z : same_zones w (with_fcrdns w ref z).
Proof. by split. Qed.

Lemma same_zones_with_rings w a b : same_zones w (with_rings w a b).
Proof. by split. Qed.

Lemma same_zones_refl w : same_zones w w.
Proof. by split. Qed.

Lemma held_length l : (length (held l) <= length l)%nat.
Proof.
  unfold held. induction l as [|fl l IH]; cbn [omap list_omap length] in *; [lia|].
  destruct (fl_cleanup fl); cbn [length]; lia.
Qed.

Lemma held_middle l1 fl l2 :
  held (l1 ++ fl :: l2) = held l1 ++ option_list (fl_cleanup fl) ++ held l2.
Proof. unfold held. rewrite omap_app. simpl. by destruct (fl_cleanup fl). Qed.

Lemma held_app l1 l2 : held (l1 ++ l2) = held l1 ++ held l2.
Proof. unfold held. by rewrite omap_app. Qed.

Lemma worker_ok_dns cs wk lcf res :
  worker_ok cs wk -> lifetimes_fit lcf -> (forall x, res = Some x -> inflight_ok lcf x) ->
  worker_ok cs (add_dns wk lcf res).
Proof.
  intros [] Hfit Hx. destruct res as [x|]; split; unfold add_dns; server_fields; try done.
  apply Forall_app. split; [done|]. constructor; [|done]. exists lcf. split; [done|]. by apply Hx.
Qed.

(** ** Requests *)

Hypothesis locs_good : forall lcf, locs lcf -> loc_good lcf.
Hypothesis n_max : (n <= NGX_MAX_PROCESSES)%nat.
Hypothesis M_max : 0 <= M < 2 ^ 64 - 1.
Hypothesis prefix_ok : forall lcf,
  sentinel_redis_find_loc servers = Some lcf -> prefix_fits (lcf_redis lcf).

Abbreviation safe e s := (exists s', handle servers e s = Some s' /\ server_ok s' /\
  cs_grows (adds e s) (wd_cs (sv_world s)) (wd_cs (sv_world s'))).

(** An event that cannot happen. *)
Ltac unchanged := eexists; split_and!; [reflexivity|assumption|apply cs_grows_refl].

(** A request in flight that grows the list: its context, if it has one, was
    counted. *)
Lemma add_request_ok s i wk0 wk w fl :
  server_ok s -> sv_workers s !! i = Some wk0 -> world_ok (sv_now s) w ->
  same_zones (sv_world s) w -> rings_ok w ->
  cs_grows nothing (wd_cs (sv_world s)) (wd_cs w) -> worker_ok (wd_cs w) wk -> request_ok fl ->
  counters_ok (wd_conns w) (held (sv_requests s ++ [fl])) ->
  Z.of_nat (length (sv_requests s)) < M ->
  server_ok (put_requests (put_world (put_worker s i wk) w) (sv_requests s ++ [fl])).
Proof.
  intros [] Hi Hw Hz Hr Hg Hwk Hfl Hc Hcap. split; server_fields; try done.
  - by apply (world_fits_same _ (sv_world s)).
  - by rewrite length_insert.
  - apply Forall_insert; [|done]. eapply Forall_impl; [exact so_workers0|].
    intros x. by apply (worker_ok_mono nothing).
  - apply Forall_app. split; [done|]. by constructor.
  - rewrite length_app. simpl. lia.
  - intros lcf Hf. apply Hg. auto.
Qed.

Lemma world_ok_conns now w conns : world_ok now w -> world_ok now (with_conns w conns).
Proof. done. Qed.

Lemma request_safe s i seen env r lcf :
  server_ok s -> locs lcf -> r_sockaddr r <> None -> Z.of_nat (length (sv_requests s)) < M ->
  safe (EvRequest i seen env r lcf) s.
Proof.
  intros Hs [Hl Hfit]%locs_good Hr Hflight. pose proof Hs as []. cbn [handle]. unfold on_request.
  destruct (idle s i) as [wk|] eqn:Ei; [|unchanged]. apply idle_lookup in Ei as [Ei Hload].
  assert (worker_ok (wd_cs (sv_world s)) wk) as Hwk by (by eapply Forall_lookup_1).
  destruct Hfit as (Hpow & Hban & Hdns).
  set (w0 := with_conns (sv_world s) _).
  destruct (preaccess_total (env_at s i env) r lcf SlotEmpty w0)
    as (rc & slot & w & ef & res & E & Hw); try done; try (cbn [env_at en_now]; lia).
  { apply (world_fits_mono T); [cbn [env_at en_now]; lia|exact so_fits0]. }
  rewrite E. pose proof (preaccess_confs _ _ _ _ _ _ _ _ _ _ E) as Hzones.
  apply preaccess_frames in E as [(Hg & Hrings & Ht) Hres]; [|apply so_world0].
  eexists. split; [done|]. split; [|by apply cs_grows_nothing].
  assert (worker_ok (wd_cs w) (add_dns wk lcf res)) as Hwk'
    by (by eapply worker_ok_mono, worker_ok_dns).
  assert (i < n)%nat as Hi by (rewrite <- so_count0; by eapply lookup_lt_Some).
  pose proof (held_length (sv_requests s)) as Hheld.
  set (conns := wd_conns (sv_world s)) in *.
  destruct (ef_tarpit ef) as [st|].
  - destruct Ht as (Est & Hconns & Hslot). cbn [w0 with_conns wd_conns env_at en_worker] in Est.
    apply (tarpit_start_counters _ _ conns (held (sv_requests s))) in Est
      as [[Ec Econns]|(t & Ec & Eslot & Hok)]; [| |done|lia].
    + eapply add_request_ok; try done; [by apply Hrings|rewrite ?held_app..].
      * split; cbn; try done. intros t Et. congruence.
      * cbn. rewrite Ec, app_nil_r, Hconns, Econns. done.
    + eapply add_request_ok; try done; [by apply Hrings|rewrite ?held_app..].
      * split; cbn; try done. intros t' Et'. rewrite Ec in Et'. by injection Et' as <-.
      * cbn. rewrite Ec, Hconns. by apply counters_ok_snoc.
  - destruct Ht as [Hconns Hslot]. cbn [w0 with_conns wd_conns] in Hconns.
    eapply add_request_ok; try done; [by apply Hrings|rewrite ?held_app..].
    + split; cbn; try done. intros t Et. by apply Hslot in Et.
    + cbn. by rewrite app_nil_r, Hconns, own_slot_same.
Qed.

(** Reading a variable of a request that is not tarpitted. *)
Lemma get_ctx_returns env r lcf slot w :
  world_ok (en_now env) w -> lcf_ok lcf -> 0 <= en_now env ->
  (forall t, slot <> SlotTarpit t) ->
  exists o slot' w' res, ngx_sentinel_get_ctx env r lcf slot w = Some (o, slot', w', res) /\
    world_ok (en_now env) w'.
Proof.
  intros Hw Hl Hnow Hslot. destruct slot as [|c|t]; [| |by destruct (Hslot t)].
  - destruct (en_ctx_alloc env) eqn:Ea.
    + destruct (get_ctx_total env r lcf w Hw Hl Hnow Ea) as (c & w' & res & -> & Hw' & _).
      by do 4 eexists.
    + unfold ngx_sentinel_get_ctx. rewrite Ea. by do 4 eexists.
  - by do 4 eexists.
Qed.

(** Replacing a request by one with the same tarpit context, or with one that
    holds the same slot. *)
Lemma held_update l k fl fl' :
  l !! k = Some fl -> tp_slot <$> fl_cleanup fl = tp_slot <$> fl_cleanup fl' ->
  tp_slot <$> held l = tp_slot <$> held (<[k := fl']> l).
Proof.
  intros Hk Eq. rewrite <- (take_drop_middle l k fl Hk) at 1.
  rewrite insert_take_drop by (by eapply lookup_lt_Some).
  rewrite !held_middle, !fmap_app. f_equal. f_equal.
  by destruct (fl_cleanup fl), (fl_cleanup fl'); simplify_eq/=; f_equal.
Qed.

Lemma counters_ok_slots conns l l' :
  tp_slot <$> l = tp_slot <$> l' -> Forall (fun t => tp_counted t = true) l' ->
  counters_ok conns l -> counters_ok conns l'.
Proof.
  intros Eq Hcount [Hf Hc]. assert (length l = length l') as El
    by by rewrite <- (length_fmap tp_slot), Eq, length_fmap.
  split.
  - assert (Forall (fun i => (i < NGX_MAX_PROCESSES)%nat) (tp_slot <$> l')) as Hs.
    { rewrite <- Eq. apply Forall_fmap. eapply Forall_impl; [exact Hf|]. by intros t [_ ?]. }
    rewrite Forall_fmap in Hs. apply Forall_and. by split.
  - destruct conns as [c|].
    + destruct Hc as (Hl & Hc & Hsum). rewrite <- El. split_and!; [done| |done].
      intros i Hi. rewrite Hc by done. f_equal. by apply held_at_slots.
    + subst l. by destruct l'.
Qed.

Lemma variable_safe s k f env :
  server_ok s -> admissible (EvVariable k f env) s -> safe (EvVariable k f env) s.
Proof.
  intros Hs Hadm. pose proof Hs as []. cbn [handle admissible] in *. unfold on_variable.
  destruct (sv_requests s !! k) as [[i r lcf slot c count]|] eqn:Ek; [|unchanged].
  destruct (idle s i) as [wk|] eqn:Ei; [|unchanged]. apply idle_lookup in Ei as [Ei Hload].
  assert (worker_ok (wd_cs (sv_world s)) wk) as Hwk by (by eapply Forall_lookup_1).
  assert (request_ok (Inflight i r lcf slot c count)) as Hfl by (by eapply Forall_lookup_1).
  destruct (get_ctx_returns (env_at s i env) r lcf slot (sv_world s))
    as (o & slot' & w & res & E & Hw); [done|apply Hfl|apply so_now0| |].
  { intros t Et. by destruct (Hadm _ t eq_refl). }
  rewrite E. pose proof (get_ctx_confs _ _ _ _ _ _ _ _ _ E) as Hzones.
  apply get_ctx_frame in E as (Hg & (Hc & _ & Hr & Hsk) & Hslot & Hres);
    [|apply so_world0].
  eexists. split; [done|]. split; [|by apply cs_grows_nothing].
  assert (Forall (worker_ok (wd_cs w)) (sv_workers s)) as Hwks.
  { eapply Forall_impl; [exact so_workers0|]. intros x. by apply (worker_ok_mono nothing). }
  assert (worker_ok (wd_cs w) (add_dns wk lcf res)) as Hwk'
    by (eapply worker_ok_mono, worker_ok_dns; try done; apply Hfl).
  assert (held (<[k := Inflight i r lcf slot' c count]> (sv_requests s))
    = held (sv_requests s)) as Hheld.
  { rewrite <- (take_drop_middle _ _ _ Ek) at 2.
    rewrite insert_take_drop by (by eapply lookup_lt_Some). by rewrite !held_middle. }
  split; server_fields; try done.
  - by apply (world_fits_same _ (sv_world s)).
  - unfold rings_ok. by rewrite Hr, Hsk.
  - by rewrite length_insert.
  - by apply Forall_insert.
  - apply Forall_insert; [done|]. destruct Hfl. split; cbn in *; try done.
    intros t ->. destruct Hslot as [Hslot|[? [=]]]. by destruct (Hadm _ t eq_refl).
  - by rewrite Hheld, Hc.
  - by rewrite length_insert.
  - intros l Hf. apply Hg. auto.
Qed.

(** A request that ends gives back the slot it holds. *)
Lemma close_ok s k fl err_status status :
  server_ok s -> sv_requests s !! k = Some fl ->
  exists s', close_request s k fl err_status status = Some s' /\ server_ok s' /\
    wd_cs (sv_world s') = wd_cs (sv_world s).
Proof.
  intros [] Ek. assert (request_ok fl) as [] by (by eapply Forall_lookup_1).
  unfold close_request.
  destruct (log_handler_total (sv_world s) (fl_lcf fl)
    (with_status (fl_request fl) err_status status) (sv_now s) (sv_now s)) as (w & E & Hw);
    [done|by apply (world_fits_mono T); [lia|]|apply ro_lcf0|lia|]. rewrite E.
  pose proof (log_handler_confs _ _ _ _ _ _ E) as Hzones.
  apply log_handler_frame in E as (Hcs & _ & Hc & _ & Hr & Hsk).
  eexists. split; [reflexivity|]. server_fields.
  assert (held (sv_requests s)
    = held (take k (sv_requests s)) ++ option_list (fl_cleanup fl) ++ held (drop (S k) (sv_requests s)))
    as Hheld by (rewrite <- held_middle; by rewrite take_drop_middle).
  assert (held (delete k (sv_requests s))
    = held (take k (sv_requests s)) ++ held (drop (S k) (sv_requests s))) as Hdel
    by by rewrite delete_take_drop, held_app.
  assert (Forall request_ok (delete k (sv_requests s))) as Hreq by by apply Forall_delete.
  pose proof (held_length (sv_requests s)) as Hlen.
  rewrite Hheld in so_conns0, Hlen. rewrite <- Hc in so_conns0.
  assert (Z.of_nat (length (delete k (sv_requests s))) <= M) as Hfl.
  { rewrite length_delete by by eexists. lia. }
  split.
  - split; server_fields; rewrite ?Hdel; try done; destruct (fl_cleanup fl) as [t|];
      server_fields; rewrite ?Hcs; try done.
    + by apply (world_fits_same _ (sv_world s)).
    + by apply (world_fits_same _ (sv_world s)).
    + unfold rings_ok. server_fields. by rewrite Hr, Hsk.
    + unfold rings_ok. by rewrite Hr, Hsk.
    + apply tarpit_cleanup_counters; [done|]. simpl in Hlen. lia.
  - by destruct (fl_cleanup fl).
Qed.

Lemma close_safe s k err_status status : server_ok s -> safe (EvClose k err_status status) s.
Proof.
  intros Hs. cbn [handle]. unfold on_close.
  destruct (sv_requests s !! k) as [fl|] eqn:Ek; [|unchanged].
  destruct (idle s (fl_worker fl)); [|unchanged].
  destruct (close_ok s k fl err_status status Hs Ek) as (s' & -> & Hs' & Hcs).
  exists s'. split_and!; [done..|]. rewrite Hcs. apply cs_grows_refl.
Qed.

Lemma tick_same_slot t now dead out rearm count buf t' timer :
  sentinel_tarpit_write_handler (Some t) now dead out rearm count = (buf, TickWaiting t' timer) ->
  tp_slot t' = tp_slot t /\ tp_counted t' = tp_counted t.
Proof.
  unfold sentinel_tarpit_write_handler. destruct (_ || _); [done|]. destruct dead; [done|].
  destruct (tick_buf t) as [b rng]. repeat case_match; by intros [= _ <- _].
Qed.

Lemma drip_safe s k dead out rearm err_status status :
  server_ok s -> safe (EvDrip k dead out rearm err_status status) s.
Proof.
  intros Hs. pose proof Hs as []. cbn [handle]. unfold on_drip.
  destruct (sv_requests s !! k) as [[i r lcf slot c count]|] eqn:Ek; [|unchanged].
  destruct slot as [|c0|t]; [unchanged..|].
  destruct (idle s i); [|unchanged].
  destruct (sentinel_tarpit_write_handler _ _ _ _ _ _) as [buf [cnt rc|t' timer]] eqn:Et;
    cbn [snd].
  { destruct (close_ok s k _ err_status status Hs Ek) as (s' & -> & Hs' & Hcs).
    exists s'. split_and!; [done..|]. rewrite Hcs. apply cs_grows_refl. }
  apply tick_same_slot in Et as [Eslot Ecount].
  assert (request_ok (Inflight i r lcf (SlotTarpit t) c count)) as [? ? Hcl Hsl]
    by (by eapply Forall_lookup_1). cbn in Hcl, Hsl. specialize (Hcl t eq_refl) as ->.
  set (fl' := Inflight i r lcf (SlotTarpit t') (Some t') count).
  pose proof (held_update _ k _ fl' Ek) as Hslots. cbn in Hslots.
  rewrite Eslot in Hslots. specialize (Hslots eq_refl).
  eexists. split; [reflexivity|]. split; [|apply cs_grows_refl]. split; server_fields; try done.
  - apply Forall_insert; [done|]. split; cbn; try done.
    + by intros ? [= <-].
    + intros ? [= <-]. rewrite Eslot. by apply Hsl.
  - eapply counters_ok_slots; [exact Hslots| |done].
    assert (Forall (fun t => tp_counted t = true) (held (sv_requests s))) as Hcount
      by (eapply Forall_impl; [apply so_conns0|]; by intros x [? _]).
    rewrite <- (take_drop_middle _ _ _ Ek), held_middle in Hcount.
    rewrite insert_take_drop, held_middle by (by eapply lookup_lt_Some).
    rewrite !Forall_app in *. cbn in *. rewrite Forall_singleton in *. by rewrite Ecount.
  - by rewrite length_insert.
Qed.
(** ** Timers and callbacks *)

(** A handler of worker [i] that only changes the worker. *)
Lemma worker_only_ok s i wk0 wk :
  server_ok s -> sv_workers s !! i = Some wk0 -> worker_ok (wd_cs (sv_world s)) wk ->
  server_ok (put_worker s i wk).
Proof.
  intros Hs Hi Hwk. pose proof Hs as []. rewrite <- put_world_id.
  eapply (worker_step_ok nothing); try done. apply cs_grows_refl.
Qed.

Lemma feed_safe s i j fs : server_ok s -> safe (EvFeed i j fs) s.
Proof.
  intros Hs. pose proof Hs as []. cbn [handle]. unfold on_feed.
  destruct (idle s i) as [wk|] eqn:Ei; [|unchanged]. apply idle_lookup in Ei as [Ei Hload].
  destruct (wk_feeds wk !! j) as [[[lcf t] d]|]; [|unchanged].
  destruct (feed_ready _ _ _ _ _) as [t' job].
  assert (worker_ok (wd_cs (sv_world s)) wk) as [Hr Hl Hd] by (by eapply Forall_lookup_1).
  eexists. split; [reflexivity|]. split; [|apply cs_grows_refl].
  eapply worker_only_ok; [done|exact Ei|].
  destruct job as [[buf mtime]|]; [|split; server_fields; [done|congruence|done]].
  destruct (feed_lines _ buf) as [lines|] eqn:El; [|split; server_fields; [done|congruence|done]].
  split; server_fields; [done| |done]. intros ? [= <-]. cbn.
  unfold feed_lines in El. destruct (zone_at _ _) as [[zc [sh|]]|] eqn:Ez; try done.
  split; [by exists zc, sh|]. destruct buf as [|b buf]; [done|]. exists (b :: buf), lines. by split.
Qed.

Lemma load_safe s i : server_ok s -> safe (EvLoad i) s.
Proof.
  intros Hs. pose proof Hs as []. cbn [handle]. unfold on_load.
  destruct (sv_workers s !! i) as [wk|] eqn:Ei; [|unchanged].
  destruct (wk_load wk) as [[j ref ttl now ph fin]|] eqn:El; [|unchanged].
  assert (worker_ok (wd_cs (sv_world s)) wk) as [Hr Hl Hd] by (by eapply Forall_lookup_1).
  destruct (Hl _ El) as [(zc & sh & Ez) (buf & all & Hv & Hsuf)]. cbn in Ez, Hsuf. rewrite Ez.
  assert (wf (fun _ => True) sh) as Hwf
    by (apply (zone_at_ok table_ok _ ref (proj1 (proj2 (proj2 so_world0))) _ Ez)).
  destruct (loader_step_grows ttl now ph sh Hwf) as (ph' & sh' & -> & Hwf' & Hsuf' & Hg).
  eexists. split; [reflexivity|].
  assert (cs_grows (adds (EvLoad i) s) (wd_cs (sv_world s))
    (zone_put (wd_cs (sv_world s)) ref (Some (Zone zc (Some sh'))))) as Hcs.
  { apply zone_put_grows. rewrite Ez. exists sh'. split; [done|]. intros t k v Ha.
    destruct (Hg t k v Ha) as [?|Hli]; [by left|]. right. intros i' Ei'.
    cbn [adds]. by exists wk, (Load j ref ttl now ph fin). }
  split; [|exact Hcs]. eapply worker_step_ok; try done.
  - apply world_with_cs; [done|]. by intros ? [= <-].
  - assert (worker_ok (wd_cs (sv_world s)) (with_load wk (Some (Load j ref ttl now ph' fin))))
      as Hwk.
    { split; server_fields; [done| |done]. intros ? [= <-]. cbn. split; [by exists zc, sh|].
      exists buf, all. split; [done|]. by etransitivity. }
    apply (worker_ok_mono (adds (EvLoad i) s) _ _ _ Hcs).
    destruct ph'; try exact Hwk. split; server_fields; done.
Qed.

(** The resolution [k] of a worker. *)
Lemma fcrdns_ttl_pos f : 0 < fcrdns_ttl_of f.
Proof.
  unfold fcrdns_ttl_of, NGX_SENTINEL_FCRDNS_DEFAULT_TTL. destruct (Z.ltb_spec 0 (fcrdns_ttl f)); lia.
Qed.

Lemma worker_dns_ok cs wk k ref x :
  worker_ok cs wk -> wk_dns wk !! k = Some (ref, x) ->
  exists lcf, lifetimes_fit lcf /\ inflight_ok lcf x.
Proof. intros [_ _ Hd] Hk. by apply (Forall_lookup_1 _ _ _ _ Hd Hk). Qed.

Lemma worker_set_dns cs wk l :
  worker_ok cs wk -> Forall (fun p => exists lcf, lifetimes_fit lcf /\ inflight_ok lcf p.2) l ->
  worker_ok cs (with_dns wk l).
Proof. intros [] Hl. by split. Qed.

Lemma ptr_safe s i k answer al fw : server_ok s -> safe (EvPtr i k answer al fw) s.
Proof.
  intros Hs. pose proof Hs as []. cbn [handle]. unfold on_ptr.
  destruct (idle s i) as [wk|] eqn:Ei; [|unchanged]. apply idle_lookup in Ei as [Ei Hload].
  destruct (wk_dns wk !! k) as [[ref [c|c name]]|] eqn:Ek; [|unchanged..].
  assert (worker_ok (wd_cs (sv_world s)) wk) as Hwk by (by eapply Forall_lookup_1).
  destruct (worker_dns_ok _ _ _ _ _ Hwk Ek) as (lcf & Hfit & Hin).
  pose proof (fcrdns_ttl_pos (lcf_fcrdns lcf)).
  destruct (ptr_handler_total lcf (zone_at (wd_fcrdns (sv_world s)) ref) c (sv_now s) answer al fw)
    as (next & z & -> & Hz & Hnext); [apply zone_at_ok, so_world0|done|destruct Hfit; lia|].
  eexists. split; [reflexivity|]. split; [|apply cs_grows_refl].
  eapply (worker_step_ok nothing); try done; [by apply world_with_fcrdns|apply cs_grows_refl|].
  apply worker_set_dns; [done|]. destruct Hwk as [_ _ Hd]. destruct next as [x|].
  - apply Forall_insert; [done|]. exists lcf. split; [done|]. by apply Hnext.
  - by apply Forall_delete.
Qed.

Lemma fwd_safe s i k answer : server_ok s -> safe (EvFwd i k answer) s.
Proof.
  intros Hs. pose proof Hs as []. cbn [handle]. unfold on_fwd.
  destruct (idle s i) as [wk|] eqn:Ei; [|unchanged]. apply idle_lookup in Ei as [Ei Hload].
  destruct (wk_dns wk !! k) as [[ref [c|c name]]|] eqn:Ek; [unchanged| |unchanged].
  assert (worker_ok (wd_cs (sv_world s)) wk) as Hwk by (by eapply Forall_lookup_1).
  destruct (worker_dns_ok _ _ _ _ _ Hwk Ek) as (lcf & Hfit & Hin).
  pose proof (fcrdns_ttl_pos (lcf_fcrdns lcf)).
  destruct (fwd_handler_total lcf (zone_at (wd_fcrdns (sv_world s)) ref) c name (sv_now s) answer)
    as (z & -> & Hz); [apply zone_at_ok, so_world0|done|destruct Hfit; lia|].
  eexists. split; [reflexivity|]. split; [|apply cs_grows_refl].
  eapply (worker_step_ok nothing); try done; [by apply world_with_fcrdns|apply cs_grows_refl|].
  apply worker_set_dns; [done|]. destruct Hwk as [_ _ Hd]. by apply Forall_delete.
Qed.

(** An event of a Redis instance whose handler returns a good instance. *)
Lemma on_redis_safe s i f :
  server_ok s ->
  (forall conf rc push, prefix_fits conf -> redis_ok rc -> (forall r, push = Some r -> ring_ok r) ->
   exists rc' push' cmds, f conf rc push = Some (rc', push', cmds) /\ redis_ok rc' /\
     forall r, push' = Some r -> ring_ok r) ->
  exists s', on_redis s i f = Some s' /\ server_ok s' /\
    wd_cs (sv_world s') = wd_cs (sv_world s).
Proof.
  intros Hs Hf. pose proof Hs as []. unfold on_redis.
  destruct (idle s i) as [wk|] eqn:Ei; [|by exists s]. apply idle_lookup in Ei as [Ei Hload].
  destruct (wk_redis wk) as [[lcf rc]|] eqn:Er; [|by exists s].
  assert (worker_ok (wd_cs (sv_world s)) wk) as [Hr Hl Hd] by (by eapply Forall_lookup_1).
  destruct (Hr _ _ Er) as (Hok & Hp & Hatt). destruct so_rings0 as [Hring Hsink].
  destruct (Hf (lcf_redis lcf) rc
    (match (wd_redis (sv_world s)).1 with Some _ => Some (wd_redis (sv_world s)).2 | None => None end))
    as (rc' & push' & cmds & E & Hok' & Hpush); [done|done|by case_match; intros ? [= <-]|].
  cbv zeta. rewrite E. eexists. split; [reflexivity|]. split; [|done].
  eapply (worker_step_ok nothing); try done; [|apply cs_grows_refl|].
  - split; cbn; [|done]. destruct push'; cbn; auto.
  - split; server_fields; [|done..]. intros ? ? [= <- <-]. by split_and!.
Qed.

Lemma redis_event_safe s e i f :
  server_ok s -> handle servers e s = on_redis s i f ->
  (forall conf rc push, prefix_fits conf -> redis_ok rc -> (forall r, push = Some r -> ring_ok r) ->
   exists rc' push' cmds, f conf rc push = Some (rc', push', cmds) /\ redis_ok rc' /\
     forall r, push' = Some r -> ring_ok r) ->
  safe e s.
Proof.
  intros Hs E Hf. rewrite E. destruct (on_redis_safe s i f Hs Hf) as (s' & -> & Hs' & Hcs).
  exists s'. split_and!; [done..|]. rewrite Hcs. apply cs_grows_refl.
Qed.

Lemma redis_timer_safe s i ok outcome : server_ok s -> safe (EvRedisTimer i ok outcome) s.
Proof.
  intros Hs. eapply redis_event_safe; [done|reflexivity|]. intros conf rc push Hp Hok Hpush.
  unfold redis_timer_event. destruct (rs_timer rc) eqn:Et; [|by do 3 eexists].
  destruct (timer_handler_total conf ok false rc push outcome (sv_now s) Hp Hok)
    as (rc' & push' & cmds & E).
  do 3 eexists. split; [exact E|]. split; [|by eapply timer_handler_ring].
  eapply (step_redis_ok conf ok (rc, push) (rc', push')); [done|].
  eapply redis_timer; [by rewrite Et|exact E].
Qed.

Lemma redis_scan_safe s i ok reply alloc_ok :
  server_ok s -> safe (EvRedisScan i ok reply alloc_ok) s.
Proof.
  intros Hs. eapply redis_event_safe; [done|reflexivity|]. intros conf rc push Hp Hok Hpush.
  unfold redis_scan_event.
  destruct (rs_inflight rc || bool_decide (reply = None)) eqn:Ei; [|by do 3 eexists].
  apply orb_true_iff in Ei as Ei'. rewrite bool_decide_eq_true in Ei'.
  destruct (scan_reply_total conf ok rc reply alloc_ok Hp Hok) as [[rc' cmds] E]. rewrite E.
  do 3 eexists. split; [done|]. split; [|done].
  eapply (step_redis_ok conf ok (rc, push) (rc', push)); [done|].
  by eapply redis_scanned.
Qed.

(** The callbacks without commands. *)
Lemma redis_callback_safe s e i g :
  server_ok s -> handle servers e s = on_redis s i (fun _ rc push => Some (g rc, push, [])) ->
  (forall conf rc push, redis_ok rc ->
     g rc = rc \/ redis_step conf (fun _ => true) (rc, push) (g rc, push)) -> safe e s.
Proof.
  intros Hs E Hg. eapply redis_event_safe; [done|exact E|].
  intros conf rc push Hp Hok Hpush. do 3 eexists. split; [done|]. split; [|done].
  destruct (Hg conf rc push Hok) as [->|Hstep]; [done|]. by apply step_redis_ok in Hstep.
Qed.

Lemma get_safe s i k reply : server_ok s -> safe (EvRedisGet i k reply) s.
Proof.
  intros Hs. pose proof Hs as []. cbn [handle]. unfold on_get.
  destruct (idle s i) as [wk|] eqn:Ei; [|unchanged]. apply idle_lookup in Ei as [Ei Hload].
  destruct (wk_redis wk) as [[lcf rc]|] eqn:Er; [|unchanged].
  destruct (wk_gets wk !! k) as [ip|] eqn:Ek; [|unchanged].
  assert (worker_ok (wd_cs (sv_world s)) wk) as [Hr Hl Hd] by (by eapply Forall_lookup_1).
  destruct (Hr _ _ Er) as (Hok & Hp & Hatt).
  destruct (get_reply_total (zone_at (wd_cs (sv_world s)) (cs_zone_of lcf)) reply ip (sv_now s))
    as (z & -> & Hz & Hg); [apply zone_at_ok, so_world0|done|].
  eexists. split; [reflexivity|].
  assert (cs_grows (adds (EvRedisGet i k reply) s) (wd_cs (sv_world s))
    (zone_put (wd_cs (sv_world s)) (cs_zone_of lcf) z)) as Hcs.
  { apply zone_put_grows. destruct Hatt as (zc & sh & Ez). rewrite Ez in *.
    destruct Hg as (sh' & -> & Hg). exists sh'. split; [done|]. intros t key v Ha.
    destruct (Hg t key v Ha) as [?|Hpu]; [by left|]. right. intros j Ej. cbn [adds].
    by exists wk, lcf, rc, ip. }
  split; [|exact Hcs]. eapply worker_step_ok; try done.
  - by apply world_with_cs.
  - apply (worker_ok_mono _ _ _ _ Hcs). by split.
Qed.

Lemma sink_safe s i io : server_ok s -> safe (EvSink i io) s.
Proof.
  intros Hs. pose proof Hs as []. cbn [handle]. unfold on_sink.
  destruct (idle s i) as [wk|] eqn:Ei; [|unchanged]. apply idle_lookup in Ei as [Ei Hload].
  destruct (wk_sink wk) as [[[lcf sc] d]|]; [|unchanged].
  assert (worker_ok (wd_cs (sv_world s)) wk) as [Hr Hl Hd] by (by eapply Forall_lookup_1).
  destruct so_rings0 as [Hring Hsink].
  pose proof (sink_timer_ring false io (lcf_sink lcf) (wd_sink (sv_world s)).2 sc (sv_now s)
    (sv_files s) Hsink) as Hsink'.
  cbv zeta. destruct (sentinel_cssink_timer_handler _ _ _ _ _ _ _) as [[[ring sc'] [tr fs]] t].
  eexists. split; [reflexivity|]. split; [|apply cs_grows_refl].
  assert (server_ok (put_world (put_worker s i (with_sink wk (lcf, sc', default d t)))
    (with_rings (sv_world s) (wd_redis (sv_world s)).2 ring))) as [].
  { eapply (worker_step_ok nothing); try done. apply cs_grows_refl. }
  by split.
Qed.
(** ** Processes *)

(** A new worker has no load, no resolution and a fresh Redis instance. *)
Lemma start_process_ok cs al i conns wk conns' :
  (forall lcf, sentinel_redis_find_loc servers = Some lcf -> attached_at cs (cs_zone_of lcf)) ->
  start_process servers al i conns = (wk, conns') ->
  worker_ok cs wk /\ conns' = sentinel_tarpit_init_process conns i.
Proof.
  intros Hatt. unfold start_process, ngx_sentinel_init_process. intros [= <- <-].
  split; [|done]. split; cbn; [|done|constructor].
  intros lcf rc Hinit. apply init_process_ok in Hinit as [Hf Hok]. split_and!; auto.
Qed.

Lemma start_processes_ok cs al m : forall i conns wks conns',
  (forall lcf, sentinel_redis_find_loc servers = Some lcf -> attached_at cs (cs_zone_of lcf)) ->
  (i + m <= NGX_MAX_PROCESSES)%nat -> counters_ok conns [] ->
  start_processes servers al m i conns = (wks, conns') ->
  length wks = m /\ Forall (worker_ok cs) wks /\ counters_ok conns' [].
Proof.
  induction m as [|m IH]; intros i conns wks conns' Hatt Hm Hc; cbn [start_processes].
  { intros [= <- <-]. by split_and!. }
  destruct (start_process servers (al i) i conns) as [wk c1] eqn:E1.
  destruct (start_processes servers al m (S i) c1) as [wks' c2] eqn:E2. intros [= <- <-].
  apply (start_process_ok cs) in E1 as [Hwk ->]; [|done].
  apply IH in E2 as (Hl & Hwks & Hc2); [|done|lia|].
  - split_and!; [simpl; lia|by constructor|done].
  - apply (tarpit_respawn_counters conns [] i); [done|lia].
Qed.

(** The contexts left when the requests of a worker are gone. *)
Lemma held_respawn i l :
  Forall request_ok l ->
  held (filter (fun fl => fl_worker fl <> i) l) = filter (fun t => tp_slot t <> i) (held l).
Proof.
  induction 1 as [|fl l [_ Hw _ Hcl] Hl IH]; [done|]. rewrite filter_cons.
  assert (worker_slot (fl_worker fl) = fl_worker fl) as Hslot.
  { unfold worker_slot. by rewrite (proj2 (Nat.leb_gt _ _)) by lia. }
  unfold held in *. cbn [omap list_omap].
  destruct (fl_cleanup fl) as [t|] eqn:Et; case_decide as E; cbn [omap list_omap];
    rewrite ?Et, ?IH; try done; rewrite filter_cons;
    [rewrite decide_True|rewrite decide_False]; try done; rewrite (Hcl t eq_refl), Hslot; tauto.
Qed.

Lemma respawn_safe s i al : server_ok s -> safe (EvRespawn i al) s.
Proof.
  intros Hs. pose proof Hs as []. cbn [handle]. unfold on_respawn.
  destruct (sv_workers s !! i) as [wk0|] eqn:Ei; [|unchanged].
  destruct (start_process servers al i (wd_conns (sv_world s))) as [wk conns] eqn:E.
  apply (start_process_ok (wd_cs (sv_world s))) in E as [Hwk ->]; [|done].
  assert (i < n)%nat as Hi by (rewrite <- so_count0; by eapply lookup_lt_Some).
  eexists. split; [reflexivity|]. split; [|apply cs_grows_refl].
  split; server_fields; try done.
  - by rewrite length_insert.
  - by apply Forall_insert.
  - rewrite Forall_forall in *. intros fl [_ Hfl]%list_elem_of_filter. auto.
  - rewrite held_respawn by done. apply tarpit_respawn_counters; [done|lia].
  - pose proof (length_filter (fun fl => fl_worker fl <> i) (sv_requests s)). lia.
Qed.

Lemma clock_safe s now msec :
  server_ok s -> now <= T -> safe (EvClock now msec) s.
Proof.
  intros [] Ht. cbn [handle]. eexists. split; [reflexivity|]. split; [|apply cs_grows_refl].
  split; server_fields; try done; [lia|].
  destruct so_world0 as (Hz & Hv & Hc & Hf).
  split_and!; try done; (eapply Forall_impl; [eassumption|]);
    intros z; apply rate_zone_ok_mono; lia.
Qed.

(** Every event that can happen is handled, keeps the invariant, and adds only
    the decisions of [adds] to the decision tables. *)
Lemma handle_safe e s : server_ok s -> admissible e s -> safe e s.
Proof.
  intros Hs Hadm. destruct e.
  - by apply clock_safe.
  - destruct Hadm as (? & ? & ?). by apply request_safe.
  - by apply variable_safe.
  - by apply close_safe.
  - by apply drip_safe.
  - by apply feed_safe.
  - by apply load_safe.
  - by apply ptr_safe.
  - by apply fwd_safe.
  - by apply redis_timer_safe.
  - eapply redis_callback_safe; [done|reflexivity|]. intros conf rc push Hok. cbn beta.
    case_bool_decide; [|by left]. right. by constructor.
  - eapply redis_callback_safe; [done|reflexivity|]. intros conf rc push Hok. cbn beta.
    right. by constructor.
  - eapply redis_callback_safe; [done|reflexivity|]. intros conf rc push Hok. cbn beta.
    destruct (rs_auth rc || bool_decide (reply = None)) eqn:Ea; [|by left]. right.
    apply orb_true_iff in Ea. rewrite bool_decide_eq_true in Ea. by constructor.
  - by apply redis_scan_safe.
  - by apply get_safe.
  - by apply sink_safe.
  - by apply respawn_safe.
Qed.

Lemma server_start_ok al now msec w fs :
  0 <= now <= T -> world_ok now w -> world_fits T w -> rings_ok w -> counters_ok (wd_conns w) [] ->
  (forall lcf, sentinel_redis_find_loc servers = Some lcf ->
     attached_at (wd_cs w) (cs_zone_of lcf)) ->
  server_ok (start_server servers al n now msec w fs).
Proof.
  intros Hnow Hw Hfits Hr Hc Hatt. unfold start_server.
  destruct (start_processes servers al n 0 (wd_conns w)) as [wks conns] eqn:E.
  apply (start_processes_ok (wd_cs w)) in E as (Hl & Hwks & Hc'); [|done|lia|done].
  split; server_fields; try done. simpl. lia.
Qed.

Lemma steps_ok s s' : server_ok s -> rtc server_step s s' -> server_ok s'.
Proof.
  intros Hs Hr. induction Hr as [|s1 s2 s3 [e Hadm E] _ IH]; [done|]. apply IH.
  destruct (handle_safe e s1 Hs Hadm) as (s2' & E' & Hs2 & _). congruence.
Qed.
End Props.
