(* ===== verification/Deployed.v ===== *)
(** * Deployed.v: theorems about a deployed server

    Whatever the interleaving of requests, timers, resolver and Redis callbacks,
    feed loads and worker restarts, no handler faults and the shared memory stays
    consistent; only an accepted feed or a reply of a Redis peer puts a decision
    into a CrowdSec table; and a feed tick that nothing interrupts is the
    sequential one. *)
From S2P Require Import Prelude Types Ngx Http NgxModel Score Shm ShmTree ShmSpec ShmOps ShmRate.
From S2P Require Import ShmProps Signals SignalProps Feed FeedProps FeedConc Fcrdns Ring Redis.
From S2P Require Import RedisProps Cssink Pow PowProps Tarpit TarpitProps Metrics Ja4h Core.
From S2P Require Import CoreProps Conf Directives ConfModel ConfProps ConfZones Init System.
From S2P Require Import SystemFrames SystemProps.

(** ** A feed tick that is not interrupted *)
Section Tick.
Context `{NgxHash} `{NgxCompare} `{NgxSlab} `{NgxRbtree} `{NgxParse} `{NgxInet} `{NgxHttp}
        `{NgxFormat} `{NgxHmac} `{NgxQuery} `{NgxSort}.
Context {HashLaws : NgxHashLaws} {CmpLaws : NgxCompareLaws} {SlabLaws : NgxSlabLaws}
        {RbLaws : NgxRbtreeLaws}.

(** The tick is the look at the file, then the parse of what it found. *)
Lemma do_load_split lcf z t fs now :
  sentinel_feed_do_load lcf z t fs now =
    let '(t, job) := feed_ready lcf z t fs now in
    match job with
    | None => Some (t, z)
    | Some (buf, mtime) =>
        let! (rc, z') := sentinel_feed_parse z buf (cs_default_ttl (lcf_cs lcf)) now in
        Some (if bool_decide (rc = NGX_OK)
              then FeedTimer mtime (ft_missing_logged t) (ft_stale_logged t) else t, z')
    end.
Proof.
  unfold sentinel_feed_do_load, feed_ready, feed_read_and_parse.
  destruct (_ || _); [done|]. destruct (ff_stat fs) as [[mtime fsize]|]; [|done]. cbv zeta.
  destruct (cs_stale_after _ <? _); [done|]. destruct (_ && _); [done|].
  destruct (fsize =? 0); [done|]. destruct (_ <? fsize); [done|].
  destruct (ff_pool_ok fs), (ff_open_ok fs), (ff_buf_ok fs); cbn [negb andb]; try done.
  destruct (ff_read fs) as [buf|]; [|done]. by destruct (_ <? fsize).
Qed.

(** The parse of a buffer: nothing, or the load of its lines. *)
Lemma feed_parse_split z buf ttl now :
  opt_ok table_ok z ->
  match feed_lines z buf with
  | None => exists rc, sentinel_feed_parse z buf ttl now = Some (rc, z) /\ rc <> NGX_OK
  | Some lines => exists zc sh sh', z = Some (Zone zc (Some sh)) /\
      sentinel_feed_parse z buf ttl now = Some (NGX_OK, Some (Zone zc (Some sh'))) /\
      rtc (lone ttl now) (LBump lines, sh) (LDone, sh')
  end.
Proof.
  intros Hz. unfold feed_lines, sentinel_feed_parse.
  destruct z as [[zc [sh|]]|]; [|by eexists..]. destruct buf as [|b buf]; [by eexists|].
  destruct (feed_validate (b :: buf)) as [lines|]; [|by eexists].
  destruct (feed_apply_lone ttl now lines sh) as (sh' & -> & _ & Hl); [apply (Hz _ eq_refl)|].
  by exists zc, sh, sh'.
Qed.

(** The server in which worker [i] has reached the phase [ph] of its load and the
    table is [sh]. *)
Definition loading (s : server) (i : nat) (wk : worker) (ld : loader -> load)
    (zc : zone_conf) (p : loader * shctx) : server :=
  put_world (put_worker s i (with_load wk (Some (ld p.1))))
    (with_cs (sv_world s) (ld_zone (ld p.1)) (Some (Zone zc (Some p.2)))).

Lemma loading_run servers s i wk j ref ttl now fin zc p sh0 sh' :
  is_Some (sv_workers s !! i) -> zone_at (wd_cs (sv_world s)) ref = Some (Zone zc (Some sh0)) ->
  let ld ph := Load j ref ttl now ph fin in
  rtc (lone ttl now) p (LDone, sh') -> p.1 <> LDone ->
  rtc (fun a b => handle servers (EvLoad i) a = Some b) (loading s i wk ld zc p)
    (put_world
       (put_worker s i
          (with_load (with_feeds wk (alter (fun e => (e.1.1, fin, e.2)) j (wk_feeds wk))) None))
       (with_cs (sv_world s) ref (Some (Zone zc (Some sh'))))).
Proof.
  intros [wk0 Hi] Hz ld. remember (LDone, sh') as q eqn:Eq.
  intros Hr. induction Hr as [p|p1 p2 p3 [Hne E] Hr IH]; intros Hp; [by subst|].
  pose proof (lookup_lt_Some _ _ _ Hi) as Hlt.
  assert (handle servers (EvLoad i) (loading s i wk ld zc p1) = Some
    (match p2.1 with
     | LDone => put_world
       (put_worker s i
          (with_load (with_feeds wk (alter (fun e => (e.1.1, fin, e.2)) j (wk_feeds wk))) None))
       (with_cs (sv_world s) ref (Some (Zone zc (Some p2.2))))
     | _ => loading s i wk ld zc p2
     end)) as Hstep.
  { destruct ref as [r|]; [|done]. cbn [zone_at] in Hz.
    pose proof (lookup_lt_Some _ _ _ Hz) as Hltz.
    cbn [handle]. unfold on_load, loading. server_fields.
    rewrite list_lookup_insert_eq by done. cbn [with_load wk_load]. unfold ld. server_fields.
    cbn [zone_put zone_at]. rewrite list_lookup_insert_eq by done. rewrite E.
    destruct p2 as [ph2 sh2]; cbn [fst snd].
    destruct ph2; unfold put_world, put_worker, with_cs; server_fields; cbn [zone_put];
      by rewrite !list_insert_insert_eq. }
  destruct p2 as [ph2 sh2].
  assert (ph2 = LDone \/ ph2 <> LDone) as [->|Hph] by (destruct ph2; by auto).
  - assert (sh2 = sh') as ->.
    { subst p3. inversion Hr as [|? ? ? [Hn _] _]; simplify_eq/=; done. }
    eapply rtc_once. exact Hstep.
  - eapply rtc_l; [exact Hstep|]. destruct ph2; try done; by apply IH.
Qed.

Lemma with_cs_id w ref : with_cs w ref (zone_at (wd_cs w) ref) = w.
Proof.
  destruct w. unfold with_cs. server_fields. f_equal. destruct ref as [r|]; [|done].
  cbn [zone_put zone_at]. destruct (_ !! r) eqn:E; [|done]. by apply list_insert_id.
Qed.

Lemma alter_insert {A} (f : A -> A) j x (l : list A) :
  alter f j (<[j := x]> l) = <[j := f x]> l.
Proof.
  apply list_eq. intros k. destruct (decide (j = k)) as [<-|Hne].
  - rewrite list_lookup_alter_eq. destruct (decide (j < length l)%nat).
    + by rewrite !list_lookup_insert_eq.
    + by rewrite !list_insert_ge, lookup_ge_None_2 by lia.
  - by rewrite list_lookup_alter_ne, !list_lookup_insert_ne.
Qed.

(** C15. A feed tick that no other worker interrupts is the sequential tick: on a
    well-formed table, looking at the file and then running the critical
    sections of the load one after the other takes the server to exactly the
    state in which the timer remembers, is armed with, and the table holds what
    the sequential loader computes, nothing else having changed; in particular
    the load ends. *)
Theorem lone_feed_tick_is_sequential servers s i j wk lcf t d fs :
  let z := zone_at (wd_cs (sv_world s)) (cs_zone_of lcf) in
  idle s i = Some wk -> wk_feeds wk !! j = Some (lcf, t, d) -> opt_ok table_ok z ->
  exists delay t' z' s1,
    sentinel_feed_timer_handler lcf z t fs (sv_now s) false = Some (Some delay, t', z') /\
    handle servers (EvFeed i j fs) s = Some s1 /\
    rtc (fun a b => handle servers (EvLoad i) a = Some b) s1
      (put_world (put_worker s i (with_feeds wk (<[j := (lcf, t', delay)]> (wk_feeds wk))))
         (with_cs (sv_world s) (cs_zone_of lcf) z')).
Proof.
  intros z Hidle Hj Hz. pose proof (idle_lookup _ _ _ Hidle) as [Hi Hload].
  unfold sentinel_feed_timer_handler. rewrite do_load_split.
  cbn [handle]. unfold on_feed. rewrite Hidle, Hj. fold z.
  destruct (feed_ready lcf z t fs (sv_now s)) as [t1 job].
  set (delay := cs_interval (lcf_cs lcf) * 1000).
  assert (forall s2, s2 = put_worker s i (with_feeds wk (<[j := (lcf, t1, delay)]> (wk_feeds wk))) ->
    rtc (fun a b => handle servers (EvLoad i) a = Some b) s2
      (put_world (put_worker s i (with_feeds wk (<[j := (lcf, t1, delay)]> (wk_feeds wk))))
         (with_cs (sv_world s) (cs_zone_of lcf) z))) as Hidem.
  { intros s2 ->. unfold z. rewrite with_cs_id. destruct s. apply rtc_refl. }
  destruct job as [[buf mtime]|]; [|do 4 eexists; by split_and!; [| |apply Hidem]].
  pose proof (feed_parse_split z buf (cs_default_ttl (lcf_cs lcf)) (sv_now s) Hz) as Hp.
  destruct (feed_lines z buf) as [lines|].
  2: { destruct Hp as (rc & -> & Hrc). rewrite bool_decide_false by done.
       do 4 eexists. by split_and!; [| |apply Hidem]. }
  destruct Hp as (zc & sh & sh' & Ez & -> & Hl). rewrite bool_decide_true by done.
  set (fin := FeedTimer mtime (ft_missing_logged t1) (ft_stale_logged t1)).
  do 4 eexists. split; [reflexivity|]. split; [reflexivity|].
  set (wk1 := with_feeds wk (<[j := (lcf, t1, delay)]> (wk_feeds wk))).
  pose proof (loading_run servers s i wk1 j (cs_zone_of lcf) (cs_default_ttl (lcf_cs lcf))
    (sv_now s) fin zc (LBump lines, sh) sh sh' (mk_is_Some _ _ Hi) Ez Hl ltac:(done)) as Hrun.
  cbv zeta in Hrun. unfold wk1 in Hrun at 2 3. cbn [with_feeds wk_feeds] in Hrun.
  rewrite alter_insert in Hrun. cbn [fst snd] in Hrun.
  unfold loading in Hrun. cbn [fst snd ld_zone] in Hrun. rewrite <- Ez in Hrun.
  unfold z in Hrun. rewrite with_cs_id, put_world_id in Hrun.
  unfold with_load, with_feeds in *. server_fields. rewrite Hload in *. exact Hrun.
Qed.
End Tick.

(** ** The running server *)
Section Running.
Context `{NgxHash} `{NgxCompare} `{NgxSlab} `{NgxRbtree} `{NgxParse} `{NgxInet}
        `{NgxFormat} `{NgxHmac} `{NgxQuery} `{NgxSort} `{NgxConf}.
Context {HashLaws : NgxHashLaws} {CmpLaws : NgxCompareLaws} {SlabLaws : NgxSlabLaws}
        {RbLaws : NgxRbtreeLaws} {ParseLaws : NgxParseLaws} {FormatLaws : NgxFormatLaws}
        {ConfLaws : NgxConfLaws}.

(** A location configuration that a configuration nginx accepts produces. *)
Definition merged_location (l : loc_conf) : Prop :=
  exists st prev s st', inherited prev /\ parsed s /\
    ngx_sentinel_merge_loc_conf st prev (cm_loc s) = conf_ok (l, st').

(** The deployments the theorems are about: the locations come from a
    configuration; up to the last second [T] of the clock, the lifetimes (of
    cookies, soft bans and resolver verdicts) and the parameters of the zones fit
    their types; [M] requests can be in flight; and a Redis location has a prefix
    that fits the pattern buffer and a table that is attached. *)
Record deployed (servers : list (option loc_conf * location_tree)) (locs : loc_conf -> Prop)
    (n : nat) (T M now : Z) (w : world) : Prop := {
  dp_locs : forall l, locs l ->
    merged_location l /\ lifetimes_fit T l;
  dp_fits : world_fits T w;
  dp_workers : (n <= NGX_MAX_PROCESSES)%nat;
  dp_flight : 0 <= M < 2 ^ 64 - 1;
  dp_clock : 0 <= now <= T;
  dp_rings : rings_ok w;
  dp_conns : wd_conns w = None \/ wd_conns w = Some (replicate NGX_MAX_PROCESSES 0);
  dp_redis : forall l, sentinel_redis_find_loc servers = Some l ->
    prefix_fits (lcf_redis l) /\ attached_at (wd_cs w) (cs_zone_of l)
}.

Lemma fresh_counters conns :
  conns = None \/ conns = Some (replicate NGX_MAX_PROCESSES 0) -> counters_ok conns [].
Proof.
  intros [->| ->]; (split; [constructor|]); [done|]. split_and!.
  - apply length_replicate.
  - intros i Hi. by rewrite lookup_replicate_2.
  - by vm_compute.
Qed.

(** The invariant of every reachable state, and what an event does to it. *)
Lemma running_ok servers locs n T M now w al msec fs s :
  deployed servers locs n T M now w -> world_ok now w ->
  rtc (server_step servers locs T M) (start_server servers al n now msec w fs) s ->
  server_ok servers n T M s /\
  forall e, admissible locs T M e s -> exists s', handle servers e s = Some s' /\
    cs_grows (adds e s) (wd_cs (sv_world s)) (wd_cs (sv_world s')).
Proof.
  intros [] Hw Hr.
  assert (forall l, locs l -> loc_good T l) as Hgood.
  { intros l (( st & prev & c & st' & Hp & Hc & E) & Hrest)%dp_locs0. split; [|done].
    eapply merge_loc_valid; [by apply inherited_ok|by apply parsed_ok|exact E]. }
  assert (forall l, sentinel_redis_find_loc servers = Some l -> prefix_fits (lcf_redis l))
    as Hprefix by (intros l Hl; by apply dp_redis0).
  assert (server_ok servers n T M s) as Hs.
  { eapply steps_ok; try done. apply server_start_ok; try done; [by apply fresh_counters|].
    intros l Hl. by apply dp_redis0. }
  split; [done|]. intros e Hadm.
  destruct (handle_safe servers locs n T M Hgood dp_workers0 dp_flight0 Hprefix e s Hs Hadm)
    as (s' & E & _ & Hg). by exists s'.
Qed.

(** C1. A deployed server never faults: from a configuration nginx accepts, with
    any number of workers and after any interleaving of requests, reads of
    variables (of requests the tarpit does not hold), ends of requests, tarpit
    ticks, feed loads (other workers run between the critical sections of a
    load), resolver answers, Redis timers and replies, sink ticks, worker deaths
    and restarts, the shared zones are well formed, the tarpit counters add up to
    exactly the number of tarpitted requests, every Redis timer is armed, and
    whatever event comes next is handled without a fault.

    What [deployed] assumes beyond the configuration: the Redis prefix fits the
    pattern buffer and its table is attached; the thresholds of the zones are
    below [2^60], and the block times and lifetimes do not carry the clock past
    the end of [time_t].  A handler is one step, except a feed load (a step per
    critical section) and the tarpit's sum of the counters (which reads any
    values of the other workers' counters, so the cap is not part of the claim).
    Requests have a socket address. *)
Theorem deployed_server_never_faults
    servers locs n T M now st pool conns m redis sink al msec fs s :
  let w := start_world pool st conns m redis sink in
  config_run st -> deployed servers locs n T M now w ->
  rtc (server_step servers locs T M) (start_server servers al n now msec w fs) s ->
  world_ok (sv_now s) (sv_world s) /\ rings_ok (sv_world s) /\
  sentinel_tarpit_sum (wd_conns (sv_world s)) = Z.of_nat (length (held (sv_requests s))) /\
  (forall wk lcf rc, wk ∈ sv_workers s -> wk_redis wk = Some (lcf, rc) -> is_Some (rs_timer rc)) /\
  forall e, admissible locs T M e s -> is_Some (handle servers e s).
Proof.
  cbv zeta. intros Hconf Hd Hr. pose proof Hd as [].
  destruct (running_ok _ _ _ _ _ _ _ _ _ _ _ Hd (start_world_ok _ _ _ _ _ _ _ Hconf) Hr)
    as [[Hnow Hworld _ Hrings Hcount Hworkers _ Hconns Hflight _] Hsafe].
  pose proof (held_length (sv_requests s)) as Hheld.
  assert (sentinel_tarpit_sum (wd_conns (sv_world s)) = Z.of_nat (length (held (sv_requests s))))
    as Hsum.
  { destruct (wd_conns (sv_world s)) as [c|]; [by apply counters_sum; [|lia]|].
    destruct Hconns as [_ ->]. done. }
  split_and!; try done.
  - intros wk lcf rc Hwk Er. rewrite Forall_forall in Hworkers.
    destruct (Hworkers wk Hwk) as [Hredis _ _]. by apply (Hredis lcf rc Er).
  - intros e Hadm. destruct (Hsafe e Hadm) as (s' & E & _). by exists s'.
Qed.

(** C3. Only an accepted feed and a peer put decisions into a CrowdSec table: at
    any point of any run, if after an event a table answers a decision it did
    not answer before, the event is a critical section of the load of a file
    that passed validation, one of whose remaining lines says exactly this
    decision, or it is the reply to a GET in flight of a Redis instance, whose
    text says this decision for the address the GET was issued for.  No request,
    whatever its content, adds a decision. *)
Theorem only_feeds_and_peers_ban
    servers locs n T M now w al msec fs s e s' i t k v :
  deployed servers locs n T M now w -> world_ok now w ->
  rtc (server_step servers locs T M) (start_server servers al n now msec w fs) s ->
  admissible locs T M e s -> handle servers e s = Some s' ->
  decision_in (wd_cs (sv_world s')) i t k v -> ~ decision_in (wd_cs (sv_world s)) i t k v ->
  (exists j wk ld buf lines, e = EvLoad j /\ sv_workers s !! j = Some wk /\
     wk_load wk = Some ld /\ ld_zone ld = Some i /\ feed_validate buf = Some lines /\
     phase_lines (ld_phase ld) `suffix_of` lines /\
     listed (ld_ttl ld) (ld_now ld) (phase_lines (ld_phase ld)) t k v) \/
  (exists j wk lcf rc m reply ip, e = EvRedisGet j m reply /\ sv_workers s !! j = Some wk /\
     wk_redis wk = Some (lcf, rc) /\ cs_zone_of lcf = Some i /\ wk_gets wk !! m = Some ip /\
     pulled reply ip t k v).
Proof.
  intros Hd Hw Hr Hadm E Hin Hnot.
  destruct (running_ok _ _ _ _ _ _ _ _ _ _ _ Hd Hw Hr)
    as [[_ _ _ _ _ Hworkers _ _ _ _] Hsafe].
  destruct (Hsafe e Hadm) as (s2 & E2 & [_ Hadds]).
  assert (s2 = s') as -> by congruence.
  destruct (Hadds i t k v Hin) as [?|Ha]; [done|].
  destruct e; try done; cbn [adds] in Ha.
  - left. destruct Ha as (wk & ld & Ej & El & Ez & Hli).
    assert (worker_ok T (wd_cs (sv_world s)) wk) as [_ Hload _] by (by eapply Forall_lookup_1).
    destruct (Hload ld El) as (_ & buf & lines & Hv & Hsuf).
    by exists i0, wk, ld, buf, lines.
  - right. destruct Ha as (wk & lcf & rc & ip & Ej & Er & Eip & Ez & Hp).
    by exists i0, wk, lcf, rc, k0, reply, ip.
Qed.
End Running.

(** ** Witnesses *)
Import Concrete.
Import ConcreteConf.

Definition demo_allocs : start_allocs := StartAllocs (fun _ => true) true true true true true.

(** Two workers of a server with one merged location. *)
Definition demo_boot : world :=
  start_world demo_pools one_zone (Some (replicate NGX_MAX_PROCESSES 0)) None
    (None, ring_init) (None, ring_init).

Lemma ring_init_ok : ring_ok ring_init.
Proof. exists []. apply ring_init_models. Qed.

Lemma demo_deployed l st' :
  ngx_sentinel_merge_loc_conf one_zone ngx_sentinel_create_loc_conf (cm_loc demo_block)
    = conf_ok (l, st') -> pow_ttl_of (lcf_pow l) = 3600 -> block_ttl l = 0 ->
  fcrdns_ttl_of (lcf_fcrdns l) = 3600 ->
  deployed [] (eq l) 2 2000000 65536 1000 demo_boot.
Proof.
  intros E Hpow Hban Hdns.
  assert (merged_location l) as Hl.
  { exists one_zone, ngx_sentinel_create_loc_conf, demo_block, st'.
    split_and!; [|apply demo_block_of_parsed|exact E].
    apply (inherited_main (CmdState one_zone ngx_sentinel_create_loc_conf false)), parsed_new. }
  split; [| |unfold NGX_MAX_PROCESSES; lia|done|done|by split; apply ring_init_ok|by right|done].
  - intros ? <-. split; [done|]. unfold lifetimes_fit. rewrite Hpow, Hban, Hdns. by vm_compute.
  - apply demo_confs_fit. vm_compute. reflexivity.
Qed.

Lemma deployed_server_never_faults_witness :
  exists l s1, handle [] (EvRequest 0 (fun _ => 0) demo_req_env demo_request l)
      (start_server [] (fun _ => demo_allocs) 2 1000 1000000 demo_boot ∅) = Some s1 /\
    is_Some (handle [] (EvClose 0 0 403) s1).
Proof.
  destruct demo_merge as (l & st' & E & _ & _ & Hpow & Hban & Hdns & _).
  pose proof (demo_deployed l st' E Hpow Hban Hdns) as Hd.
  destruct (deployed_server_never_faults [] (eq l) 2 2000000 65536 1000 one_zone demo_pools
    (Some (replicate NGX_MAX_PROCESSES 0)) None (None, ring_init) (None, ring_init)
    (fun _ => demo_allocs) 1000000 ∅ _ one_zone_run Hd (rtc_refl _ _))
    as (_ & _ & _ & _ & Hnext).
  destruct (Hnext (EvRequest 0 (fun _ => 0) demo_req_env demo_request l)) as [s1 E1]; [by split_and!|].
  exists l, s1. split; [exact E1|].
  apply (deployed_server_never_faults [] (eq l) 2 2000000 65536 1000 one_zone demo_pools
    (Some (replicate NGX_MAX_PROCESSES 0)) None (None, ring_init) (None, ring_init)
    (fun _ => demo_allocs) 1000000 ∅ s1 one_zone_run Hd); [|done].
  apply rtc_once, (step_event _ _ _ _ _ _ (EvRequest 0 (fun _ => 0) demo_req_env demo_request l));
    [by split_and!|exact E1].
Defined.

(** A worker connects to Redis, scans one key and asks for it. *)
Definition demo_key_text : bytes := lit "sentinel:ban:192.0.2.7".

Definition demo_pull : list event :=
  [ EvRedisTimer 0 (fun _ => true) ConnectIssued; EvRedisConnect 0 true;
    EvRedisTimer 0 (fun _ => true) ConnectIssued;
    EvRedisScan 0 (fun _ => true)
      (Some (ReplyArray [Some (ReplyString (lit "0"));
                         Some (ReplyArray [Some (ReplyString demo_key_text)])])) true ].

Definition demo_reply : event := EvRedisGet 0 0 (Some (ReplyString (lit "ban 5000"))).

Definition demo_redis_servers : list (option loc_conf * location_tree) :=
  [(Some (demo_core_lcf [] 0), LocNil)].

Definition demo_redis_world : world :=
  World [] [] [Zone (ZoneConf 60 0 0) (Some demo_empty)] [] None None
    (Some 1%nat, ring_init) (None, ring_init).

Definition demo_redis_start : server :=
  start_server demo_redis_servers (fun _ => demo_allocs) 1 1000 1000000 demo_redis_world ∅.

Fixpoint run_events (servers : list (option loc_conf * location_tree)) (evs : list event)
    (s : server) : option server :=
  match evs with
  | [] => Some s
  | e :: evs' => let! s' := handle servers e s in run_events servers evs' s'
  end.

Lemma run_events_steps servers locs T M evs : forall s s',
  Forall (fun e => forall s, admissible locs T M e s) evs -> run_events servers evs s = Some s' ->
  rtc (server_step servers locs T M) s s'.
Proof.
  induction evs as [|e evs IH]; intros s s' Hadm; cbn [run_events].
  { intros [= <-]. apply rtc_refl. }
  apply Forall_cons in Hadm as [He Hadm]. destruct (handle servers e s) as [s1|] eqn:E; [|done].
  intros Hr. eapply rtc_l; [by eapply step_event|]. by apply IH.
Qed.

(** What the table answers for the client at time 1000. *)
Definition demo_answer (s : server) : option Z :=
  match wd_cs (sv_world s) !! 0%nat with
  | Some (Zone _ (Some sh)) => active 1000 sh (SHA256 (lit "192.0.2.7"))
  | _ => None
  end.

Lemma demo_answer_in s v :
  demo_answer s = Some v <->
  decision_in (wd_cs (sv_world s)) 0 1000 (SHA256 (lit "192.0.2.7")) v.
Proof.
  unfold demo_answer, decision_in. split.
  - repeat case_match; intros Ha; try done. by do 2 eexists.
  - by intros (zc & sh & -> & Ha).
Qed.

Lemma demo_redis_deployed :
  deployed demo_redis_servers (fun _ => False) 1 2000000 65536 1000 demo_redis_world.
Proof.
  split; try done; [by split; constructor|unfold NGX_MAX_PROCESSES; lia|by split; apply ring_init_ok|by left|].
  intros l E. assert (l = demo_core_lcf [] 0) as -> by (cbn in E; congruence). split.
  - split; [vm_compute; lia|]. by apply (bool_decide_unpack _).
  - by exists (ZoneConf 60 0 0), demo_empty.
Qed.

Lemma only_feeds_and_peers_ban_witness :
  exists s s', run_events demo_redis_servers demo_pull demo_redis_start = Some s /\
    handle demo_redis_servers demo_reply s = Some s' /\
    demo_answer s = None /\ demo_answer s' = Some NGX_SENTINEL_CS_BAN /\
    exists ip, pulled (Some (ReplyString (lit "ban 5000"))) ip 1000
                 (SHA256 (lit "192.0.2.7")) NGX_SENTINEL_CS_BAN.
Proof.
  assert (match run_events demo_redis_servers demo_pull demo_redis_start with
          | Some s => match handle demo_redis_servers demo_reply s with
                      | Some s' => Some (demo_answer s, demo_answer s')
                      | None => None
                      end
          | None => None
          end = Some (None, Some NGX_SENTINEL_CS_BAN)) as E by (vm_compute; reflexivity).
  destruct (run_events demo_redis_servers demo_pull demo_redis_start) as [s|] eqn:Er; [|done].
  destruct (handle demo_redis_servers demo_reply s) as [s'|] eqn:Eh; [|done].
  injection E as E1 E2.
  exists s, s'. split_and!; [done..|].
  destruct (only_feeds_and_peers_ban demo_redis_servers (fun _ => False) 1 2000000 65536 1000
    demo_redis_world (fun _ => demo_allocs) 1000000 ∅ s demo_reply s' 0 1000
    (SHA256 (lit "192.0.2.7")) NGX_SENTINEL_CS_BAN demo_redis_deployed)
    as [(? & ? & ? & ? & ? & [=] & _)|(? & ? & ? & ? & ? & ? & ip & [= <- <- <-] & _ & _ & _ & _ & Hp)].
  - split_and!; cbn [demo_redis_world wd_zones wd_vel wd_cs wd_fcrdns];
      repeat first [apply Forall_nil_2 | apply Forall_cons_2]. apply wf_empty.
  - eapply run_events_steps; [|exact Er].
    repeat (apply Forall_cons_2; [by intros|]). apply Forall_nil_2.
  - done.
  - exact Eh.
  - by apply demo_answer_in.
  - rewrite <- demo_answer_in, E1. done.
  - by exists ip.
Defined.

(** The feed of [demo_feed], read by the timer of a location. *)
Definition demo_feed_lcf : loc_conf :=
  LocConf 1 0 1 None (Some None) [] default_threshold default_weights
    (CsConf (Some (Some 0%nat)) (lit "/feed") 10 3600 600 16777216) [] [] None []
    demo_deny (DenyConf None []) (DenyConf None []) None None
    (FcrdnsConf (Some None) [] 3600 []) demo_tarpit 403 0 0 0
    (PowConf 0 (Some []) 16 3600)
    (RedisConf [] 6379 (Some []) (Some (lit "sentinel")) 10 3600 None)
    (SinkConf [] 10 3600 (Some (lit "sentinel/http-abuse")) None).

Definition demo_feed_server : server :=
  start_server [(None, LocNode (Some demo_feed_lcf) None LocNil LocNil LocNil)]
    (fun _ => demo_allocs) 1 1000 1000000 demo_redis_world ∅.

Definition demo_feed_file : feed_file :=
  FeedFile (Some (900, Z.of_nat (length demo_feed))) true true true (Some demo_feed).

Lemma lone_feed_tick_is_sequential_witness :
  exists delay t' z' s1,
    sentinel_feed_timer_handler demo_feed_lcf (Some (Zone (ZoneConf 60 0 0) (Some demo_empty)))
      (FeedTimer 0 false false) demo_feed_file 1000 false = Some (Some delay, t', z') /\
    handle [] (EvFeed 0 0 demo_feed_file) demo_feed_server = Some s1 /\
    exists s2, rtc (fun a b => handle [] (EvLoad 0) a = Some b) s1 s2 /\
      wd_cs (sv_world s2) = zone_put (wd_cs demo_redis_world) (Some 0%nat) z'.
Proof.
  destruct (lone_feed_tick_is_sequential [] demo_feed_server 0 0
    (Worker [(demo_feed_lcf, FeedTimer 0 false false, 1000)] None None [] None [])
    demo_feed_lcf (FeedTimer 0 false false) 1000 demo_feed_file)
    as (delay & t' & z' & s1 & E & Eh & Hr); [done|done| |].
  - intros ? [= <-]. apply wf_empty.
  - exists delay, t', z', s1. split; [exact E|]. split; [exact Eh|].
    eexists. split; [exact Hr|done].
Defined.
