(* ===== verification/FuzzFeed.v ===== *)
(** * FuzzFeed.v: the harness of the feed parser ([fuzz/fuzz_feed.c])

    The harness carries a copy of the parser of [sentinel_feed.c] with its own
    versions of the nginx functions the parser calls, and stubs instead of the
    shared memory.  It is modelled at the level of pointers: a pointer is an
    offset in the buffer, every access of the buffer is checked, and [None] is an
    access outside it.  [FuzzFeedProps.v] relates it to the list-based model of
    the parser in [Feed.v]. *)
From S2P Require Import Prelude Types Ngx Http Shm Feed.

(** The C library: [inet_addr] is [None] for [INADDR_NONE], [inet_pton] for a
    result other than 1, [inet_ntop] for NULL. *)
Class Libc : Type := {
  inet_addr : bytes -> option Z;
  inet_pton_in6 : bytes -> option bytes;
  inet_ntop_in : Z -> option bytes;
  inet_ntop_in6 : bytes -> option bytes
}.

(** ** The harness's versions of nginx's functions *)

(** The loop of [ngx_atoi], which stops above 0x7fffffff. *)
Fixpoint fuzz_atoi_loop (p : bytes) (val : Z) : option Z :=
  match p with
  | [] => Some val
  | c :: p' =>
      if (bval c <? 48) || (57 <? bval c) then None
      else
        let val := wrap64 (wrap64 (val * 10) + (bval c - 48)) in
        if 2147483647 <? val then None else fuzz_atoi_loop p' val
  end.

Definition fuzz_atoi (p : bytes) : option Z :=
  match p with [] => None | _ => fuzz_atoi_loop p 0 end.

(** [ngx_crc32_long]: the eight steps of one byte, then the loop. *)
Fixpoint crc_bits (k : nat) (crc b : Z) : Z :=
  match k with
  | O => crc
  | S k' =>
      let bit := Z.land (Z.lxor crc b) 1 in
      let crc := Z.shiftr crc 1 in
      crc_bits k' (if bit =? 0 then crc else Z.lxor crc 3988292384) (Z.shiftr b 1)
  end.

Definition fuzz_crc32_long (p : bytes) : Z :=
  Z.lxor (fold_left (fun crc c => crc_bits 8 crc (bval c)) p 4294967295) 4294967295.

(** The stub of the digest. *)
Definition fuzz_SHA256 (d : bytes) : bytes := replicate NGX_SENTINEL_DIGEST_LEN NUL.

Section Inet.
Context `{Libc}.

(** The C string a call sees of a buffer that is terminated behind [text]. *)
Definition terminated (text : bytes) : bytes := default [] (c_string (text ++ [NUL])).

Definition fuzz_inet_addr (text : bytes) : option Z :=
  if (length text =? 0)%nat || (16 <=? length text)%nat then None
  else inet_addr (terminated text).

Definition fuzz_inet6_addr (p : bytes) : option bytes :=
  if (length p =? 0)%nat || (47 <=? length p)%nat then None
  else inet_pton_in6 (terminated p).

(** The text, of length 0 on failure. *)
Definition fuzz_inet_ntop (addr : Z) : bytes := default [] (inet_ntop_in addr).
Definition fuzz_inet6_ntop (p : bytes) : bytes := default [] (inet_ntop_in6 p).

(** The functions the parser is compiled with. *)
Definition fuzz_inet : NgxInet := {|
  ngx_inet_addr := fuzz_inet_addr;
  ngx_inet6_addr := fuzz_inet6_addr;
  ngx_inet_ntop := fuzz_inet_ntop;
  ngx_inet6_ntop := fuzz_inet6_ntop
|}.
End Inet.

Definition fuzz_parse `{NgxParse} : NgxParse := {|
  ngx_atoi := fuzz_atoi;
  ngx_strncasecmp := ngx_strncasecmp;
  ngx_tolower := ngx_tolower
|}.

Definition fuzz_hash `{NgxHash} : NgxHash := {|
  ngx_crc32_short := ngx_crc32_short;
  ngx_crc32_long := fuzz_crc32_long;
  SHA256 := fuzz_SHA256
|}.

(** ** The shared-memory stubs *)

Definition fuzz_upsert : ngx_rc := NGX_OK.

Definition fuzz_sweep : Z := 0.

(** ** The parser *)
Section Parser.
Context `{Libc}.
(** The allocated buffer and the size of the contents. *)
Variable buf : bytes.
Variable len : nat.

(** [*p], and the [n] bytes at [p]. *)
Definition rd (p : nat) : option Byte.byte := buf !! p.

Definition slice (p n : nat) : option bytes :=
  if (p + n <=? length buf)%nat then Some (take n (drop p buf)) else None.

Definition memchr_at (p : nat) (c : Byte.byte) (n : nat) : option (option nat) :=
  let! s := slice p n in Some ((fun k => p + k)%nat <$> memchr s c).

Definition strncmp_at (p : nat) (s : bytes) (n : nat) : option Z :=
  let! a := slice p n in Some (strncmp a s n).

(** [while (p < lim && *p != ' ') p++;] *)
Fixpoint scan_space (fuel p lim : nat) : option nat :=
  if (lim <=? p)%nat then Some p
  else
    match fuel with
    | O => None
    | S fuel' =>
        let! c := rd p in
        if bool_decide (c = SP) then Some p else scan_space fuel' (S p) lim
    end.

Definition fuzz_feed_action (p n : nat) : option Z :=
  let! ban := if (n =? 3)%nat then strncmp_at p (lit "ban") 3 else Some 1 in
  if ban =? 0 then Some NGX_SENTINEL_CS_BAN
  else
    let! captcha := if (n =? 7)%nat then strncmp_at p (lit "captcha") 7 else Some 1 in
    if captcha =? 0 then Some NGX_SENTINEL_CS_CAPTCHA
    else
      let! throttle := if (n =? 8)%nat then strncmp_at p (lit "throttle") 8 else Some 1 in
      if throttle =? 0 then Some NGX_SENTINEL_CS_THROTTLE else Some NGX_SENTINEL_CS_NONE.

Definition fuzz_feed_canon_ip (p n : nat) : option bytes :=
  if (n =? 0)%nat || (64 <=? n)%nat then Some []
  else
    let! slash := memchr_at p SLASH n in
    match slash with
    | Some _ => Some []
    | None =>
        let! tmp := slice p n in
        Some (match fuzz_inet_addr tmp with
              | Some v4 => fuzz_inet_ntop v4
              | None =>
                  match fuzz_inet6_addr tmp with
                  | Some v6 => fuzz_inet6_ntop v6
                  | None => []
                  end
              end)
    end.

(** The loop over the hexadecimal digits; the inner [None] is a character that
    is not one. *)
Fixpoint hex_loop (fuel p end_ : nat) (file_crc : Z) : option (option Z) :=
  if (end_ <=? p)%nat then Some (Some file_crc)
  else
    match fuel with
    | O => None
    | S fuel' =>
        let! c := rd p in
        let v := bval c in
        if (48 <=? v) && (v <=? 57)
        then hex_loop fuel' (S p) end_ (Z.lor (wrap32 (Z.shiftl file_crc 4)) (v - 48))
        else if (97 <=? v) && (v <=? 102)
        then hex_loop fuel' (S p) end_ (Z.lor (wrap32 (Z.shiftl file_crc 4)) (v - 97 + 10))
        else if (65 <=? v) && (v <=? 70)
        then hex_loop fuel' (S p) end_ (Z.lor (wrap32 (Z.shiftl file_crc 4)) (v - 65 + 10))
        else Some None
    end.

Definition fuzz_feed_check_trailer (trailer tlen : nat) (count crc : Z) : option ngx_rc :=
  if (tlen <? 9)%nat then Some NGX_DECLINED
  else
    let! cmp := strncmp_at trailer (lit "%%EOF ") 6 in
    if negb (cmp =? 0) then Some NGX_DECLINED
    else
      let cstart := (trailer + 6)%nat in
      let end_ := (trailer + tlen)%nat in
      let! p := scan_space tlen cstart end_ in
      if (p =? cstart)%nat || (end_ <=? p)%nat then Some NGX_DECLINED
      else
        let! num := slice cstart (p - cstart) in
        match fuzz_atoi num with
        | None => Some NGX_DECLINED
        | Some n =>
            if negb (wrap64 n =? count) then Some NGX_DECLINED
            else
              let p := S p in
              if (end_ <=? p)%nat then Some NGX_DECLINED
              else
                let! o := hex_loop tlen p end_ 0 in
                match o with
                | None => Some NGX_DECLINED
                | Some file_crc => Some (if file_crc =? crc then NGX_OK else NGX_DECLINED)
                end
        end.

(** The search of the trailer line. *)
Fixpoint find_eof (fuel q : nat) : option (option nat) :=
  if (len <=? q)%nat then Some None
  else
    match fuel with
    | O => None
    | S fuel' =>
        let! e := memchr_at q NL (len - q) in
        let ll := match e with Some e => (e - q)%nat | None => (len - q)%nat end in
        let! cmp := if (6 <=? ll)%nat then strncmp_at q (lit "%%EOF ") 6 else Some 1 in
        if cmp =? 0 then Some (Some q)
        else match e with None => Some None | Some e => find_eof fuel' (S e) end
    end.

(** The start of both loops over the lines: the length of the line at [p] and the
    start of the next one. *)
Definition next_line (p trailer : nat) : option (nat * nat) :=
  let! nl := memchr_at p NL (trailer - p) in
  Some (match nl with Some nl => ((nl - p)%nat, S nl) | None => ((trailer - p)%nat, trailer) end).

(** The three [continue]s before the fields: the length without [\r], or [None]
    inside for a line that is skipped. *)
Definition line_length (line ll : nat) : option (option nat) :=
  if (ll =? 0)%nat then Some None
  else
    let! c := rd line in
    if bool_decide (c = HASH) then Some None
    else
      let! c := rd (line + ll - 1) in
      let ll := if bool_decide (c = CR) then (ll - 1)%nat else ll in
      Some (if (ll =? 0)%nat then None else Some ll).

(** The field pointers [f1end], [f2], [f2end], [f3], or [None] inside when a field
    is missing. *)
Definition line_fields (line ll : nat) : option (option (nat * nat * nat * nat)) :=
  let end_ := (line + ll)%nat in
  let! f1end := scan_space ll line end_ in
  if (end_ <=? f1end)%nat then Some None
  else
    let f2 := S f1end in
    let! f2end := scan_space ll f2 end_ in
    if (end_ <=? f2end)%nat then Some None
    else
      let f3 := S f2end in
      if (end_ <=? f3)%nat then Some None else Some (Some (f1end, f2, f2end, f3)).

(** The first pass: [count] and [malformed]. *)
Fixpoint count_loop (fuel p trailer : nat) (count malformed : Z) : option (Z * Z) :=
  if (trailer <=? p)%nat then Some (count, malformed)
  else
    match fuel with
    | O => None
    | S fuel' =>
        let! (ll, next) := next_line p trailer in
        let! o := line_length p ll in
        match o with
        | None => count_loop fuel' next trailer count malformed
        | Some ll =>
            let! fields := line_fields p ll in
            match fields with
            | None => count_loop fuel' next trailer count (malformed + 1)
            | Some (f1end, f2, f2end, f3) =>
                let! canon := fuzz_feed_canon_ip p (f1end - p) in
                if (length canon =? 0)%nat
                then count_loop fuel' next trailer count (malformed + 1)
                else
                  let! act := fuzz_feed_action f2 (f2end - f2) in
                  if act =? NGX_SENTINEL_CS_NONE
                  then count_loop fuel' next trailer count (malformed + 1)
                  else
                    let! num := slice f3 (p + ll - f3) in
                    match fuzz_atoi num with
                    | None => count_loop fuel' next trailer count (malformed + 1)
                    | Some _ => count_loop fuel' next trailer (count + 1) malformed
                    end
            end
        end
    end.

(** The second pass: the decisions handed to the upsert stub. *)
Fixpoint apply_loop (fuel p trailer : nat) (default_ttl now : Z)
    : option (list (bytes * Z * Z)) :=
  if (trailer <=? p)%nat then Some []
  else
    match fuel with
    | O => None
    | S fuel' =>
        let! (ll, next) := next_line p trailer in
        let! o := line_length p ll in
        match o with
        | None => apply_loop fuel' next trailer default_ttl now
        | Some ll =>
            let! fields := line_fields p ll in
            match fields with
            | None => apply_loop fuel' next trailer default_ttl now
            | Some (f1end, f2, f2end, f3) =>
                let! canon := fuzz_feed_canon_ip p (f1end - p) in
                if (length canon =? 0)%nat then apply_loop fuel' next trailer default_ttl now
                else
                  let! act := fuzz_feed_action f2 (f2end - f2) in
                  if act =? NGX_SENTINEL_CS_NONE
                  then apply_loop fuel' next trailer default_ttl now
                  else
                    let! num := slice f3 (p + ll - f3) in
                    match fuzz_atoi num with
                    | None => apply_loop fuel' next trailer default_ttl now
                    | Some expiry_val =>
                        let exp := if expiry_val =? 0 then now + default_ttl else expiry_val in
                        if exp <=? now then apply_loop fuel' next trailer default_ttl now
                        else
                          let d := (fuzz_SHA256 canon, exp, act) in
                          if negb (bool_decide (fuzz_upsert = NGX_OK)) then Some [d]
                          else
                            let! ds := apply_loop fuel' next trailer default_ttl now in
                            Some (d :: ds)
                    end
            end
        end
    end.

(** The sweep loop ends when the stub answers 0. *)
Fixpoint fuzz_sweep_loop (fuel : nat) : option unit :=
  match fuel with
  | O => None
  | S fuel' => if fuzz_sweep =? 0 then Some tt else fuzz_sweep_loop fuel'
  end.

(** The result, the generation of the zone and the upserts. *)
Definition fuzz_feed_parse (default_ttl now generation : Z)
    : option (ngx_rc * Z * list (bytes * Z * Z)) :=
  let declined := Some (NGX_DECLINED, generation, []) in
  if (len =? 0)%nat then declined
  else
    let! nl := memchr_at 0 NL len in
    let hl := match nl with Some nl => nl | None => len end in
    let want := length NGX_SENTINEL_FEED_HEADER in
    let! cmp := if (hl =? want)%nat then strncmp_at 0 NGX_SENTINEL_FEED_HEADER want else Some 1 in
    if negb (cmp =? 0) then declined
    else
      match nl with
      | None => declined
      | Some nl =>
          let body_start := S nl in
          let! o := find_eof len body_start in
          match o with
          | None => declined
          | Some trailer =>
              let! body := slice body_start (trailer - body_start) in
              let crc := fuzz_crc32_long body in
              let! (count, malformed) := count_loop len body_start trailer 0 0 in
              let! te := memchr_at trailer NL (len - trailer) in
              let tlen := match te with
                          | Some te => (te - trailer)%nat
                          | None => (len - trailer)%nat
                          end in
              let! c := if (0 <? tlen)%nat then rd (trailer + tlen - 1) else Some NUL in
              let tlen := if (0 <? tlen)%nat && bool_decide (c = CR) then (tlen - 1)%nat
                          else tlen in
              let! rc := fuzz_feed_check_trailer trailer tlen count crc in
              if negb (bool_decide (rc = NGX_OK)) then declined
              else if (0 <? malformed)
                      && (count + malformed <? malformed * NGX_SENTINEL_FEED_MALFORMED_DENOM)
              then declined
              else
                let generation := wrap64 (generation + 1) in
                let! ds := apply_loop len body_start trailer default_ttl now in
                let! _ := fuzz_sweep_loop 1 in
                Some (NGX_OK, generation, ds)
          end
      end.
End Parser.

(** ** The entry point

    The generation is the part of the static zone that survives from one input to
    the next; the buffer has one byte more than the input. *)
Definition LLVMFuzzerTestOneInput `{Libc} (data : bytes) (malloc_ok : bool) (generation : Z)
    : option Z :=
  if negb malloc_ok then Some generation
  else
    let! (_, generation, _) :=
      fuzz_feed_parse (data ++ [NUL]) (length data) 3600 1700000000 generation in
    Some generation.
