(* ===== verification/FuzzFeedProps.v ===== *)
(** * FuzzFeedProps.v: the harness's parser refines the model of the parser

    On every input the pointer-level parser stays inside the contents of its
    buffer, and accepts, rejects and upserts exactly what the list-based parser
    of [Feed.v] does when it is given the harness's versions of nginx's
    functions.  These versions differ from nginx's in one way that matters: they
    reject numbers above 31 bits. *)
From S2P Require Import Prelude Types Ngx Http NgxModel Shm Feed ShmProps FeedProps FuzzFeed.

(** ** Bytes between two offsets *)
Section Sub.
Variable str : bytes.

Definition sub (p lim : nat) : bytes := take (lim - p) (drop p str).

Lemma sub_length p lim : (p <= lim <= length str)%nat -> length (sub p lim) = (lim - p)%nat.
Proof. intros Hp. unfold sub. rewrite length_take, length_drop. lia. Qed.

Lemma sub_nil p lim : (lim <= p)%nat -> sub p lim = [].
Proof. intros Hp. unfold sub. by replace (lim - p)%nat with 0%nat by lia. Qed.

Lemma sub_cons p lim : (p < lim <= length str)%nat ->
  exists c, str !! p = Some c /\ sub p lim = c :: sub (S p) lim.
Proof.
  intros Hp. destruct (lookup_lt_is_Some_2 str p) as [c Hc]; [lia|]. exists c. split; [done|].
  unfold sub. rewrite (drop_S _ _ _ Hc). by replace (lim - p)%nat with (S (lim - S p)) by lia.
Qed.

Lemma sub_take p lim k : (p + k <= lim)%nat -> take k (sub p lim) = sub p (p + k).
Proof. intros Hk. unfold sub. rewrite take_take. f_equal. lia. Qed.

Lemma sub_drop p lim k : drop k (sub p lim) = sub (p + k) lim.
Proof.
  unfold sub. rewrite skipn_firstn_comm, drop_drop. f_equal. lia.
Qed.

Lemma sub_lookup p lim k : (p + k < lim)%nat -> sub p lim !! k = str !! (p + k)%nat.
Proof. intros Hk. unfold sub. rewrite lookup_take_lt by lia. by rewrite lookup_drop. Qed.
End Sub.

Lemma memchr_lt p c k : memchr p c = Some k -> (k < length p)%nat.
Proof. intros [Hk _]%memchr_Some. by eapply lookup_lt_Some. Qed.

Lemma strncmp_take a b n : strncmp (take n a) b n = strncmp a b n.
Proof.
  revert a b. induction n as [|n IH]; intros a b; [done|]. cbn [strncmp].
  destruct a as [|x a]; [done|]. cbn [take hd tl]. by rewrite IH.
Qed.

Section Props.
Context `{Libc}.
Variable buf : bytes.
Variable len : nat.
Hypothesis len_buf : (len <= length buf)%nat.

Notation str := (take len buf).

Lemma str_length : length str = len.
Proof. rewrite length_take. lia. Qed.

(** ** Accesses inside the contents *)

Lemma slice_ok p n : (p + n <= len)%nat -> slice buf p n = Some (sub str p (p + n)).
Proof.
  intros Hp. unfold slice. rewrite (proj2 (Nat.leb_le _ _)) by lia. f_equal.
  unfold sub. rewrite skipn_firstn_comm, take_take. f_equal. lia.
Qed.

Lemma rd_ok p : (p < len)%nat -> rd buf p = str !! p.
Proof. intros Hp. unfold rd. by rewrite lookup_take_lt. Qed.

Lemma memchr_at_ok p c lim : (p <= lim <= len)%nat ->
  memchr_at buf p c (lim - p) = Some ((fun k => p + k)%nat <$> memchr (sub str p lim) c).
Proof.
  intros Hp. unfold memchr_at. rewrite slice_ok by lia.
  by replace (p + (lim - p))%nat with lim by lia.
Qed.

Lemma strncmp_at_ok p s n lim : (p + n <= lim)%nat -> (lim <= len)%nat ->
  strncmp_at buf p s n = Some (strncmp (sub str p lim) s n).
Proof.
  intros Hp Hl. unfold strncmp_at. rewrite slice_ok by lia.
  by rewrite <- (sub_take _ p lim), strncmp_take by lia.
Qed.

Lemma scan_space_ok fuel : forall p lim, (p <= lim <= len)%nat -> (lim - p <= fuel)%nat ->
  scan_space buf fuel p lim
    = Some (match memchr (sub str p lim) SP with Some k => (p + k)%nat | None => lim end).
Proof.
  induction fuel as [|fuel IH]; intros p lim Hp Hf; cbn [scan_space].
  - rewrite sub_nil by lia. rewrite (proj2 (Nat.leb_le _ _)) by lia. simpl. f_equal. lia.
  - destruct (Nat.leb_spec lim p); [rewrite sub_nil by lia; simpl; f_equal; lia|].
    destruct (sub_cons str p lim) as (c & Hc & ->); [rewrite str_length; lia|].
    rewrite rd_ok, Hc by lia. cbn [memchr]. case_bool_decide as E.
    + rewrite decide_True by done. f_equal. lia.
    + rewrite decide_False by done. rewrite IH by lia.
      destruct (memchr (sub str (S p) lim) SP); simpl; f_equal; lia.
Qed.

(** ** The fields of a line *)

Lemma action_ok p lim : (p <= lim <= len)%nat ->
  fuzz_feed_action buf p (lim - p) = Some (sentinel_feed_action (sub str p lim)).
Proof.
  intros Hp. unfold fuzz_feed_action, sentinel_feed_action.
  rewrite sub_length by (rewrite str_length; lia).
  destruct (Nat.eqb_spec (lim - p) 3) as [E|_].
  { rewrite (strncmp_at_ok _ _ _ lim) by lia. destruct (_ =? 0); [done|]. by rewrite E. }
  destruct (Nat.eqb_spec (lim - p) 7) as [E|_].
  { rewrite (strncmp_at_ok _ _ _ lim) by lia. cbn [Z.eqb andb]. destruct (_ =? 0); [done|].
    by rewrite E. }
  destruct (Nat.eqb_spec (lim - p) 8) as [E|_]; [|done].
  rewrite (strncmp_at_ok _ _ _ lim) by lia. cbn [Z.eqb andb]. by destruct (_ =? 0).
Qed.

Lemma canon_ip_ok p lim : (p <= lim <= len)%nat ->
  fuzz_feed_canon_ip buf p (lim - p)
    = Some (@sentinel_feed_canon_ip fuzz_inet (sub str p lim)).
Proof.
  intros Hp. unfold fuzz_feed_canon_ip, sentinel_feed_canon_ip.
  rewrite sub_length by (rewrite str_length; lia).
  destruct (_ || _); [done|]. rewrite memchr_at_ok by lia.
  destruct (memchr (sub str p lim) SLASH); [done|]. cbn [fmap option_fmap option_map].
  rewrite slice_ok by lia. by replace (p + (lim - p))%nat with lim by lia.
Qed.

(** A line without its [\\r] is a prefix of the line. *)
Lemma decision_line_prefix l l' : decision_line l = Some l' ->
  l' = take (length l') l /\ (0 < length l' <= length l)%nat.
Proof.
  unfold decision_line. destruct l as [|c l]; [done|]. case_bool_decide; [done|].
  destruct (strip_cr_spec (c :: l)) as [E|E].
  - rewrite E. intros [= <-]. split; [by rewrite firstn_all|simpl; lia].
  - remember (strip_cr (c :: l)) as s eqn:Es. destruct s as [|x s]; [done|]. intros [= <-].
    split; [|rewrite E, length_app; simpl; lia].
    rewrite E. by rewrite take_app_length.
Qed.

Lemma line_length_ok p lim : (p <= lim <= len)%nat ->
  line_length buf p (lim - p) = Some (length <$> decision_line (sub str p lim)).
Proof.
  intros Hp. unfold line_length, decision_line.
  destruct (Nat.eqb_spec (lim - p) 0) as [E|E]; [by rewrite sub_nil by lia|].
  destruct (sub_cons str p lim) as (c & Hc & Es); [rewrite str_length; lia|].
  rewrite rd_ok, Hc, Es by lia. case_bool_decide; [done|]. rewrite <- Es.
  assert (length (sub str p lim) = lim - p)%nat as El by (apply sub_length; rewrite str_length; lia).
  assert (last (sub str p lim) = str !! (p + (lim - p) - 1)%nat) as Hlast.
  { rewrite last_lookup, El, sub_lookup by lia. f_equal. lia. }
  rewrite rd_ok by lia. unfold strip_cr. rewrite Hlast.
  destruct (lookup_lt_is_Some_2 str (p + (lim - p) - 1)) as [d Hd]; [rewrite str_length; lia|].
  rewrite Hd. case_bool_decide.
  - assert (length (removelast (sub str p lim)) = lim - p - 1)%nat as Er.
    { rewrite removelast_firstn_len, length_take, El. lia. }
    destruct (removelast (sub str p lim)) as [|y t]; simpl in Er.
    + by rewrite (proj2 (Nat.eqb_eq _ _)) by lia.
    + rewrite (proj2 (Nat.eqb_neq _ _)) by lia. simpl. by rewrite Er.
  - rewrite (proj2 (Nat.eqb_neq _ _)) by lia. rewrite Es. simpl. rewrite <- El, Es. done.
Qed.

(** The field pointers delimit the fields. *)
Lemma line_fields_ok p lim : (p <= lim <= len)%nat ->
  match line_fields buf p (lim - p) with
  | None => False
  | Some None => split_fields (sub str p lim) = None
  | Some (Some (f1end, f2, f2end, f3)) =>
      split_fields (sub str p lim) = Some (sub str p f1end, sub str f2 f2end, sub str f3 lim) /\
      (p <= f1end)%nat /\ (f1end <= lim)%nat /\ (f2 <= f2end)%nat /\ (f2end <= lim)%nat /\
      (f3 <= lim)%nat
  end.
Proof.
  intros Hp. unfold line_fields, split_fields. replace (p + (lim - p))%nat with lim by lia.
  rewrite scan_space_ok by lia. destruct (memchr (sub str p lim) SP) as [n1|] eqn:E1.
  2: { by rewrite Nat.leb_refl. }
  apply memchr_lt in E1. rewrite sub_length in E1 by (rewrite str_length; lia).
  rewrite (proj2 (Nat.leb_gt _ _)) by lia. rewrite scan_space_ok by lia.
  rewrite sub_drop. replace (p + S n1)%nat with (S (p + n1)) by lia.
  destruct (memchr (sub str (S (p + n1)) lim) SP) as [n2|] eqn:E2.
  2: { by rewrite Nat.leb_refl. }
  apply memchr_lt in E2. rewrite sub_length in E2 by (rewrite str_length; lia).
  rewrite (proj2 (Nat.leb_gt _ _)) by lia. rewrite sub_drop.
  replace (S (p + n1) + S n2)%nat with (S (S (p + n1) + n2)) by lia.
  destruct (Nat.leb_spec lim (S (S (p + n1) + n2))).
  - by rewrite sub_nil by lia.
  - destruct (sub_cons str (S (S (p + n1) + n2)) lim) as (c & _ & Es); [rewrite str_length; lia|].
    rewrite Es. split; [|lia]. rewrite <- Es.
    do 3 f_equal; rewrite sub_take by lia; f_equal; lia.
Qed.
(** ** The lines *)

Lemma body_lines_fuel n : forall m p, (length p <= n)%nat -> (length p <= m)%nat ->
  body_lines n p = body_lines m p.
Proof.
  induction n as [|n IH]; intros m p Hn Hm.
  { destruct p; [|simpl in *; lia]. by destruct m. }
  destruct m as [|m]; [destruct p; [done|simpl in *; lia]|].
  destruct p as [|c p]; [done|]. cbn [body_lines].
  destruct (split_line (c :: p)) as [line [rest|]] eqn:E; [|done]. f_equal.
  unfold split_line in E. destruct (memchr (c :: p) NL) as [k|]; [|done].
  injection E as _ <-. apply IH; rewrite length_drop; simpl in *; lia.
Qed.

(** The lines between two offsets. *)
Definition lines (p trailer : nat) : list bytes := body_lines (trailer - p) (sub str p trailer).

Lemma lines_nil p trailer : (trailer <= p)%nat -> lines p trailer = [].
Proof. intros Hp. unfold lines. rewrite sub_nil by lia. by destruct (trailer - p)%nat. Qed.

Lemma next_line_ok p trailer : (p < trailer <= len)%nat ->
  exists ll next, next_line buf p trailer = Some (ll, next) /\
    (p + ll <= trailer)%nat /\ (p < next <= trailer)%nat /\
    lines p trailer = sub str p (p + ll) :: lines next trailer.
Proof.
  intros Hp. unfold next_line. rewrite memchr_at_ok by lia.
  assert (lines p trailer
          = match split_line (sub str p trailer) with
            | (line, Some rest) => line :: body_lines (trailer - p - 1) rest
            | (line, None) => [line]
            end) as ->.
  { unfold lines. destruct (sub_cons str p trailer) as (c & _ & ->); [rewrite str_length; lia|].
    replace (trailer - p)%nat with (S (trailer - p - 1)) at 1 by lia. cbn [body_lines].
    by destruct (split_line _) as [line [rest|]]. }
  unfold split_line. destruct (memchr (sub str p trailer) NL) as [k|] eqn:Ek;
    cbn [fmap option_fmap option_map]; do 2 eexists; (split; [reflexivity|]).
  - apply memchr_lt in Ek. rewrite sub_length in Ek by (rewrite str_length; lia).
    split; [lia|]. split; [lia|]. rewrite sub_take, sub_drop by lia. f_equal; [f_equal; lia|].
    replace (p + S k)%nat with (S (p + k)) by lia.
    unfold lines. apply body_lines_fuel; rewrite sub_length by (rewrite str_length; lia); lia.
  - split; [lia|]. split; [lia|]. rewrite lines_nil by lia.
    by replace (p + (trailer - p))%nat with trailer by lia.
Qed.

(** What the pointers of a line see, as one case analysis. *)
Lemma line_cases p ll : (p + ll <= len)%nat ->
  match decision_line (sub str p (p + ll)) with
  | None => line_length buf p ll = Some None
  | Some l => exists ll', line_length buf p ll = Some (Some ll') /\ (ll' <= ll)%nat /\
      match split_fields l with
      | None => line_fields buf p ll' = Some None
      | Some (f1, f2, f3) => exists f1end p2 f2end p3,
          line_fields buf p ll' = Some (Some (f1end, p2, f2end, p3)) /\
          fuzz_feed_canon_ip buf p (f1end - p) = Some (@sentinel_feed_canon_ip fuzz_inet f1) /\
          fuzz_feed_action buf p2 (f2end - p2) = Some (sentinel_feed_action f2) /\
          slice buf p3 (p + ll' - p3) = Some f3
      end
  end.
Proof.
  intros Hp. pose proof (line_length_ok p (p + ll) ltac:(lia)) as Hl.
  replace (p + ll - p)%nat with ll in Hl by lia. rewrite Hl.
  destruct (decision_line (sub str p (p + ll))) as [l|] eqn:El; [|done].
  apply decision_line_prefix in El as [El Hlen]. rewrite sub_length in Hlen
    by (rewrite str_length; lia).
  rewrite sub_take in El by lia. exists (length l). split; [done|]. split; [lia|].
  pose proof (line_fields_ok p (p + length l) ltac:(lia)) as Hf. rewrite <- El in Hf.
  replace (p + length l - p)%nat with (length l) in Hf by lia.
  destruct (line_fields buf p (length l)) as [[[[[f1end p2] f2end] p3]|]|]; [| |done].
  - destruct Hf as (-> & Hb). exists f1end, p2, f2end, p3. split; [done|].
    rewrite canon_ip_ok, action_ok, slice_ok by lia.
    split_and!; [done..|]. do 2 f_equal. lia.
  - by rewrite Hf.
Qed.

Context (np : NgxParse).

Lemma count_loop_ok fuel : forall p trailer count malformed,
  (p <= trailer <= len)%nat -> (trailer - p <= fuel)%nat ->
  count_loop buf fuel p trailer count malformed
    = Some (@validate_lines fuzz_parse fuzz_inet (lines p trailer) count malformed).
Proof.
  induction fuel as [|fuel IH]; intros p trailer count malformed Hp Hf; cbn [count_loop].
  { rewrite lines_nil by lia. by rewrite (proj2 (Nat.leb_le _ _)) by lia. }
  destruct (Nat.leb_spec trailer p); [by rewrite lines_nil by lia|].
  destruct (next_line_ok p trailer) as (ll & next & -> & Hll & Hn & ->); [lia|].
  cbn [validate_lines]. unfold validate_line.
  pose proof (line_cases p ll ltac:(lia)) as Hc.
  destruct (decision_line (sub str p (p + ll))) as [l|]; [|rewrite Hc; apply IH; lia].
  destruct Hc as (ll' & -> & Hll' & Hc).
  destruct (split_fields l) as [[[f1 f2] f3]|]; [|rewrite Hc; apply IH; lia].
  destruct Hc as (f1end & p2 & f2end & p3 & -> & -> & -> & ->).
  destruct (@sentinel_feed_canon_ip fuzz_inet f1); [apply IH; lia|]. cbn [length Nat.eqb].
  destruct (_ =? NGX_SENTINEL_CS_NONE); [apply IH; lia|].
  cbn [ngx_atoi fuzz_parse]. destruct (fuzz_atoi f3); apply IH; lia.
Qed.

Lemma apply_loop_ok default_ttl now fuel : forall nh p trailer,
  (p <= trailer <= len)%nat -> (trailer - p <= fuel)%nat ->
  apply_loop buf fuel p trailer default_ttl now
    = Some (@decisions (@fuzz_hash nh) fuzz_parse fuzz_inet default_ttl now (lines p trailer)).
Proof.
  induction fuel as [|fuel IH]; intros nh p trailer Hp Hf; cbn [apply_loop].
  { rewrite lines_nil by lia. by rewrite (proj2 (Nat.leb_le _ _)) by lia. }
  destruct (Nat.leb_spec trailer p); [by rewrite lines_nil by lia|].
  destruct (next_line_ok p trailer) as (ll & next & -> & Hll & Hn & ->); [lia|].
  unfold decisions. cbn [omap list_omap]. unfold apply_line at 1.
  pose proof (line_cases p ll ltac:(lia)) as Hc.
  destruct (decision_line (sub str p (p + ll))) as [l|]; [|rewrite Hc; apply IH; lia].
  destruct Hc as (ll' & -> & Hll' & Hc).
  destruct (split_fields l) as [[[f1 f2] f3]|]; [|rewrite Hc; apply IH; lia].
  destruct Hc as (f1end & p2 & f2end & p3 & -> & -> & -> & ->).
  destruct (@sentinel_feed_canon_ip fuzz_inet f1) eqn:Ec; [apply IH; lia|].
  cbn [length Nat.eqb]. destruct (_ =? NGX_SENTINEL_CS_NONE); [apply IH; lia|].
  cbn [ngx_atoi fuzz_parse]. destruct (fuzz_atoi f3) as [e|]; [|apply IH; lia].
  cbv zeta. destruct (_ <=? now); [apply IH; lia|].
  rewrite bool_decide_true by done. cbn [negb]. by rewrite (IH nh) by lia.
Qed.

(** ** The trailer *)

Lemma hex_loop_ok fuel : forall p lim crc, (p <= lim <= len)%nat -> (lim - p <= fuel)%nat ->
  hex_loop buf fuel p lim crc = Some (trailer_crc (sub str p lim) crc).
Proof.
  induction fuel as [|fuel IH]; intros p lim crc Hp Hf; cbn [hex_loop].
  { rewrite sub_nil by lia. by rewrite (proj2 (Nat.leb_le _ _)) by lia. }
  destruct (Nat.leb_spec lim p); [by rewrite sub_nil by lia|].
  destruct (sub_cons str p lim) as (c & Hc & ->); [rewrite str_length; lia|].
  rewrite rd_ok, Hc by lia. cbn [trailer_crc]. unfold hex_nibble.
  repeat (destruct (_ && _); [apply IH; lia|]). done.
Qed.

Lemma check_trailer_ok trailer tlen count crc : (trailer + tlen <= len)%nat ->
  fuzz_feed_check_trailer buf trailer tlen count crc
    = Some (@sentinel_feed_check_trailer fuzz_parse (sub str trailer (trailer + tlen)) count crc).
Proof.
  intros Ht. unfold fuzz_feed_check_trailer, sentinel_feed_check_trailer.
  rewrite sub_length by (rewrite str_length; lia).
  replace (trailer + tlen - trailer)%nat with tlen by lia.
  destruct (Nat.ltb_spec tlen 9); [done|].
  rewrite (strncmp_at_ok _ _ _ (trailer + tlen)) by lia. destruct (negb _); [done|].
  rewrite scan_space_ok by lia. rewrite sub_drop. set (lim := (trailer + tlen)%nat) in *.
  destruct (memchr (sub str (trailer + 6) lim) SP) as [k|] eqn:Ek.
  2: { rewrite (proj2 (Nat.leb_le lim lim)) by lia. by rewrite orb_true_r. }
  apply memchr_lt in Ek. rewrite sub_length in Ek by (rewrite str_length; lia).
  rewrite (proj2 (Nat.leb_gt lim _)) by lia. rewrite orb_false_r.
  destruct k as [|k]; [by rewrite (proj2 (Nat.eqb_eq _ _)) by lia|].
  rewrite (proj2 (Nat.eqb_neq _ _)) by lia. rewrite slice_ok by lia.
  rewrite sub_take by lia. cbn [ngx_atoi fuzz_parse].
  replace (trailer + 6 + (trailer + 6 + S k - (trailer + 6)))%nat
    with (trailer + 6 + S k)%nat by lia.
  destruct (fuzz_atoi _) as [v|]; [|done]. destruct (negb _); [done|].
  rewrite sub_drop. replace (trailer + 6 + S (S k))%nat with (S (trailer + 6 + S k)) by lia.
  destruct (Nat.leb_spec lim (S (trailer + 6 + S k))); [by rewrite sub_nil by lia|].
  rewrite hex_loop_ok by lia.
  destruct (sub_cons str (S (trailer + 6 + S k)) lim) as (c & _ & Es); [rewrite str_length; lia|].
  rewrite Es. rewrite <- Es. by destruct (trailer_crc _ 0).
Qed.

(** A prefix grows by a line and its newline. *)
Lemma sub_line p q k : (p <= q)%nat -> memchr (sub str q len) NL = Some k ->
  sub str p q ++ take k (sub str q len) ++ [NL] = sub str p (S (q + k)).
Proof.
  intros Hp Hk. pose proof (memchr_lt _ _ _ Hk) as Hlt. apply memchr_Some in Hk as [Hk _].
  assert (q <= len)%nat as Hq.
  { destruct (decide (q <= len)%nat); [done|]. rewrite sub_nil in Hlt by lia. simpl in Hlt. lia. }
  rewrite sub_length in Hlt by (rewrite str_length; lia).
  rewrite sub_lookup in Hk by lia. rewrite sub_take by lia.
  rewrite <- (take_drop (q - p) (sub str p (S (q + k)))). rewrite sub_take, sub_drop by lia.
  replace (p + (q - p))%nat with q by lia. f_equal.
  rewrite <- (take_drop k (sub str q (S (q + k)))). rewrite sub_take, sub_drop by lia. f_equal.
  destruct (sub_cons str (q + k) (S (q + k))) as (c & Hc & ->); [rewrite str_length; lia|].
  rewrite sub_nil by lia. congruence.
Qed.

(** The trailer found by the two searches. *)
Lemma find_eof_ok fuel : forall n p q, (p <= q <= len)%nat -> (len - q <= fuel)%nat ->
  (len - q <= n)%nat ->
  exists o, find_eof buf len fuel q = Some o /\
    find_trailer n (sub str p q) (sub str q len)
      = (fun t => (sub str p t, sub str t len)) <$> o /\
    (forall t, o = Some t -> (q <= t < len)%nat).
Proof.
  induction fuel as [|fuel IH]; intros n p q Hq Hf Hn; cbn [find_eof].
  { rewrite (proj2 (Nat.leb_le _ _)) by lia. rewrite (sub_nil _ q) by lia.
    exists None. split; [done|]. by destruct n. }
  destruct (Nat.leb_spec len q).
  { rewrite (sub_nil _ q) by lia. exists None. split; [done|]. by destruct n. }
  destruct n as [|n]; [lia|].
  destruct (sub_cons str q len) as (c & _ & Es); [rewrite str_length; lia|].
  rewrite Es. cbn [find_trailer]. rewrite <- Es. rewrite memchr_at_ok by lia.
  unfold split_line. destruct (memchr (sub str q len) NL) as [k|] eqn:Ek;
    cbn [fmap option_fmap option_map].
  - apply memchr_lt in Ek as Hk. rewrite sub_length in Hk by (rewrite str_length; lia).
    replace (q + k - q)%nat with k by lia. rewrite length_take, sub_length by (rewrite str_length; lia).
    replace (k `min` (len - q))%nat with k by lia.
    destruct (Nat.leb_spec 6 k).
    + rewrite (strncmp_at_ok _ _ _ len) by lia. cbn [andb].
      destruct (_ =? 0); [exists (Some q); split_and!; [done..|intros ? [= <-]; lia]|].
      rewrite sub_drop. replace (q + S k)%nat with (S (q + k)) by lia.
      destruct (IH n p (S (q + k))) as (o & -> & Eo & Ho); [lia..|].
      exists o. split; [done|]. split; [|intros t Et; specialize (Ho t Et); lia].
      rewrite <- Eo. f_equal. apply sub_line; [lia|done].
    + cbn [Z.eqb andb].
      rewrite sub_drop. replace (q + S k)%nat with (S (q + k)) by lia.
      destruct (IH n p (S (q + k))) as (o & -> & Eo & Ho); [lia..|].
      exists o. split; [done|]. split; [|intros t Et; specialize (Ho t Et); lia].
      rewrite <- Eo. f_equal. apply sub_line; [lia|done].
  - rewrite sub_length by (rewrite str_length; lia).
    destruct (Nat.leb_spec 6 (len - q)).
    + rewrite (strncmp_at_ok _ _ _ len) by lia. cbn [andb].
      destruct (_ =? 0); [exists (Some q); split_and!; [done..|intros ? [= <-]; lia]|].
      exists None. by split_and!.
    + exists None. by split_and!.
Qed.
End Props.

(** ** The parse *)
Section Parse.
Context `{Libc} (np : NgxParse) (nh : NgxHash).

(** What the parser does with the contents [data] of a file. *)
Definition feed_outcome (data : bytes) (default_ttl now generation : Z)
    : ngx_rc * Z * list (bytes * Z * Z) :=
  match @feed_validate (@fuzz_hash nh) (@fuzz_parse np) fuzz_inet data with
  | None => (NGX_DECLINED, generation, [])
  | Some lines =>
      (NGX_OK, wrap64 (generation + 1),
       @decisions (@fuzz_hash nh) (@fuzz_parse np) fuzz_inet default_ttl now lines)
  end.

(** The trailer line without its [\\r]. *)
Lemma trailer_line_ok buf len t : (len <= length buf)%nat -> (t < len)%nat ->
  exists te tlen0 c tlen,
    memchr_at buf t NL (len - t) = Some te /\
    tlen0 = match te with Some te => (te - t)%nat | None => (len - t)%nat end /\
    (if (0 <? tlen0)%nat then rd buf (t + tlen0 - 1) else Some NUL) = Some c /\
    tlen = (if (0 <? tlen0)%nat && bool_decide (c = CR) then (tlen0 - 1)%nat else tlen0) /\
    (t + tlen <= len)%nat /\
    strip_cr (split_line (sub (take len buf) t len)).1 = sub (take len buf) t (t + tlen).
Proof.
  intros Hl Ht. set (str := take len buf).
  assert (length str = len) as Hs by (by apply str_length).
  exists ((fun k => t + k)%nat <$> memchr (sub str t len) NL).
  set (tlen0 := match memchr (sub str t len) NL with Some k => k | None => (len - t)%nat end).
  assert ((split_line (sub str t len)).1 = sub str t (t + tlen0) /\ (t + tlen0 <= len)%nat)
    as [Ef Hb].
  { unfold split_line, tlen0. destruct (memchr (sub str t len) NL) as [k|] eqn:Ek; cbn [fst].
    - apply memchr_lt in Ek. rewrite sub_length in Ek by lia. rewrite sub_take by lia. split; [done|lia].
    - replace (t + (len - t))%nat with len by lia. split; [done|lia]. }
  assert (exists c, (if (0 <? tlen0)%nat then rd buf (t + tlen0 - 1) else Some NUL) = Some c /\
            ((0 < tlen0)%nat -> str !! (t + tlen0 - 1)%nat = Some c)) as (c & Hc & Hlast).
  { destruct (Nat.ltb_spec 0 tlen0); [|eexists; split; [done|lia]].
    rewrite (rd_ok buf len) by lia. fold str.
    destruct (lookup_lt_is_Some_2 str (t + tlen0 - 1)) as [c Hc]; [lia|]. by exists c. }
  exists tlen0, c. eexists. split; [apply (memchr_at_ok buf len Hl); lia|].
  split; [unfold tlen0; destruct (memchr _ _); simpl; lia|]. split; [done|]. split; [done|].
  rewrite Ef. unfold strip_cr.
  destruct (Nat.ltb_spec 0 tlen0) as [Hpos|H0]; cbn [andb].
  - rewrite last_lookup, sub_length, sub_lookup by lia.
    replace (t + Nat.pred (t + tlen0 - t))%nat with (t + tlen0 - 1)%nat by lia.
    rewrite Hlast by done. case_bool_decide; [|done]. split; [lia|].
    rewrite removelast_firstn_len, sub_length, sub_take by lia. f_equal. lia.
  - split; [lia|]. rewrite sub_nil by lia. done.
Qed.

Lemma fuzz_feed_parse_ok buf len default_ttl now generation : (len <= length buf)%nat ->
  fuzz_feed_parse buf len default_ttl now generation
    = Some (feed_outcome (take len buf) default_ttl now generation).
Proof.
  intros Hl. set (str := take len buf).
  assert (length str = len) as Hs by (by apply str_length).
  unfold fuzz_feed_parse, feed_outcome, feed_validate.
  destruct (Nat.eqb_spec len 0) as [E0|E0].
  { assert (str = []) as -> by (apply nil_length_inv; lia). done. }
  assert (sub str 0 len = str) as Estr.
  { unfold sub. rewrite drop_0, Nat.sub_0_r, firstn_all2 by lia. done. }
  pose proof (memchr_at_ok buf len Hl 0 NL len ltac:(lia)) as Em.
  fold str in Em. rewrite Nat.sub_0_r, Estr in Em. rewrite Em.
  assert (exists hl, match (fun k => 0 + k)%nat <$> memchr str NL with
                     | Some nl => nl | None => len end = hl /\
            (hl <= len)%nat /\ length (split_line str).1 = hl) as (hl & -> & Hhl & Ehl).
  { unfold split_line. destruct (memchr str NL) as [k|] eqn:Ek; simpl; eexists; (split; [done|]).
    - apply memchr_lt in Ek. rewrite length_take. lia.
    - lia. }
  destruct (split_line str) as [first rest] eqn:Esl. cbn [fst] in Ehl. rewrite Ehl.
  destruct (Nat.eqb_spec hl (length NGX_SENTINEL_FEED_HEADER)) as [Eh|Eh]; [|done].
  rewrite (strncmp_at_ok _ _ Hl _ _ _ len) by lia. fold str. rewrite Estr. cbn [andb].
  destruct (negb _); [done|].
  unfold split_line in Esl. destruct (memchr str NL) as [k|] eqn:Ek; injection Esl as _ <-; [|done].
  cbn [fmap option_fmap option_map Nat.add].
  apply memchr_lt in Ek as Hk.
  destruct (find_eof_ok buf len Hl len (length (drop (S k) str)) (S k) (S k))
    as (o & -> & Eo & Ho); [lia|lia|rewrite length_drop; lia|].
  fold str in Eo. rewrite (sub_nil _ (S k) (S k)) in Eo by lia.
  replace (sub str (S k) len) with (drop (S k) str) in Eo.
  2: { unfold sub. rewrite firstn_all2; [done|]. rewrite length_drop. lia. }
  rewrite Eo. destruct o as [t|]; [|done]. specialize (Ho t eq_refl).
  cbn [fmap option_fmap option_map].
  rewrite (slice_ok buf len) by lia. fold str.
  replace (S k + (t - S k))%nat with t by lia.
  rewrite (count_loop_ok buf len Hl np) by lia. unfold lines at 1. fold str.
  rewrite sub_length by lia.
  destruct (validate_lines _ 0 0) as [count malformed].
  destruct (trailer_line_ok buf len t) as (te & tlen0 & c & tlen & -> & -> & -> & -> & Hb & Et);
    [lia..|].
  fold str in Et. rewrite Et.
  rewrite (check_trailer_ok buf len Hl np) by done. fold str.
  cbn [ngx_crc32_long fuzz_hash].
  destruct (negb _); [done|].
  match goal with |- context [if ?b then Some (NGX_DECLINED, _, _) else _] => destruct b; [done|] end.
  rewrite (apply_loop_ok buf len Hl np _ _ _ nh) by lia. unfold lines. fold str. done.
Qed.

(** C16. The harness's parser, run on a buffer of which only the first
    [length data] bytes are the file, reads no byte outside the file, and does
    what the list-based model of [sentinel_feed_parse()] does with the same
    nginx functions: it accepts the same files, bumps the generation for these
    only, and asks for the same decisions in the same order.  One input of the
    fuzzer therefore only changes the generation of the static zone. *)
Theorem fuzz_parser_refines_feed_parser data pad default_ttl now generation :
  fuzz_feed_parse (data ++ pad) (length data) default_ttl now generation
    = Some (feed_outcome data default_ttl now generation) /\
  LLVMFuzzerTestOneInput data true generation
    = Some (match @feed_validate (@fuzz_hash nh) (@fuzz_parse np) fuzz_inet data with
            | None => generation
            | Some _ => wrap64 (generation + 1)
            end).
Proof.
  assert (forall pad ttl t, fuzz_feed_parse (data ++ pad) (length data) ttl t generation
            = Some (feed_outcome data ttl t generation)) as Hparse.
  { intros pad' ttl t. rewrite fuzz_feed_parse_ok by (rewrite length_app; lia).
    by rewrite take_app_length. }
  split; [apply Hparse|]. unfold LLVMFuzzerTestOneInput. cbn [negb]. rewrite Hparse.
  unfold feed_outcome. by destruct (@feed_validate _ _ _ data).
Qed.
End Parse.

(** ** Where the copy and the module part

    [ngx_atoi()] of the harness stops at 31 bits, nginx's at the 63 bits of an
    [ngx_int_t]: a ban until 2095 is a decision of the module (here with the
    model of [ngx_atoi()] in [NgxModel.v]) and a malformed line, which fails the
    record count of the trailer, for the harness. *)
Definition late_line : bytes := lit "192.0.2.7 ban 3944678400" ++ [NL].

Definition late_feed : bytes :=
  NGX_SENTINEL_FEED_HEADER ++ [NL] ++ late_line ++ lit "%%EOF 1 " ++
  flat_map (fun i => [hex_char (Z.land (Z.shiftr (Concrete.sum_hash 0 late_line) i) 15)])
    [28; 24; 20; 16; 12; 8; 4; 0] ++ [NL].

Lemma harness_rejects_late_expiry :
  @feed_validate Concrete.hash Concrete.parse Concrete.inet late_feed
    = Some [lit "192.0.2.7 ban 3944678400"] /\
  @feed_validate Concrete.hash (@fuzz_parse Concrete.parse) Concrete.inet late_feed = None.
Proof. split; by vm_compute. Qed.
