(* ===== verification/FuzzRequests.v ===== *)
(** * FuzzRequests.v: the harnesses of the fingerprint and of the bot filter
      ([fuzz/fuzz_ja4h_canon.c], [fuzz/fuzz_botua.c])

    Both compile a source file of the module as it is and turn the bytes of the
    fuzzer into the request it reads.  The decoding of a request is pointer
    arithmetic over the input; an access outside the input or outside the array
    of headers is [None].  The fields of the request the harness's own request
    type does not have are empty. *)
From S2P Require Import Prelude Types Ngx Http Signals Ja4h FuzzFeed.

(** ** fuzz_ja4h_canon.c *)

Definition FUZZ_MAX_HDRS : nat := 80.

Definition harness_methods : list http_method :=
  [NGX_HTTP_GET; NGX_HTTP_POST; NGX_HTTP_PUT; NGX_HTTP_DELETE;
   NGX_HTTP_HEAD; NGX_HTTP_OPTIONS; NGX_HTTP_PATCH; NGX_HTTP_METHOD_OTHER].

Definition harness_versions : list Z :=
  [NGX_HTTP_VERSION_11 - 1; NGX_HTTP_VERSION_11; NGX_HTTP_VERSION_20].

(** The request of the stub type. *)
Definition harness_request (method : http_method) (version : Z) (headers : list header)
    (accept_language user_agent : option bytes) : request :=
  Request method version [] [] [headers] None user_agent None accept_language None None None
          [] None 0 0.

Section Ja4hHarness.
Context `{NgxParse}.
Variable data : bytes.

(** The length of the name at [p], clamped to the input. *)
Definition name_length (c : Byte.byte) (p : nat) : nat :=
  let nlen := Z.to_nat (bval c) in
  let nlen := if (nlen =? 0)%nat then 1%nat else nlen in
  if (length data - p <? nlen)%nat then (length data - p)%nat else nlen.

(** [while (injected < nhdr && p < end)]: the pointer behind the names, the
    injected headers and the two flags the harness tracks. *)
Fixpoint inject_headers (fuel nhdr p : nat) (hdrs : list header) (has_cookie has_referer : bool)
    : option (nat * list header * bool * bool) :=
  if negb ((length hdrs <? nhdr)%nat && (p <? length data)%nat)
  then Some (p, hdrs, has_cookie, has_referer)
  else
    match fuel with
    | O => None
    | S fuel' =>
        let! c := rd data p in
        let p := S p in
        let nlen := name_length c p in
        if (nlen =? 0)%nat then Some (p, hdrs, has_cookie, has_referer)
        else if (FUZZ_MAX_HDRS <=? length hdrs)%nat then None
        else
          let! name := slice data p nlen in
          inject_headers fuel' nhdr (p + nlen) (hdrs ++ [Header 1 name []])
            (has_cookie || name_is name (lit "Cookie"))
            (has_referer || name_is name (lit "Referer"))
    end.

(** The value of Accept-Language: what is left of the input, at most [al_len]. *)
Definition harness_language (al_len p : nat) : option (option bytes) :=
  if (0 <? al_len)%nat && (p <? length data)%nat
  then
    let avail := (length data - p)%nat in
    let! value := slice data p (if (avail <? al_len)%nat then avail else al_len) in
    Some (Some value)
  else Some None.

(** The request; the inner [None] is an input that is too short. *)
Definition fuzz_ja4h_request : option (option request) :=
  if (length data <? 4)%nat then Some None
  else
    let! d0 := rd data 0 in
    let! d1 := rd data 1 in
    let! d2 := rd data 2 in
    let! d3 := rd data 3 in
    let! method := harness_methods !! Z.to_nat (bval d0 mod 8) in
    let! version := harness_versions !! Z.to_nat (bval d1 mod 3) in
    let nhdr := Z.to_nat (bval d2 mod Z.of_nat FUZZ_MAX_HDRS) in
    let al_len := Z.to_nat (bval d3) in
    let! (p, hdrs, _, _) := inject_headers (length data) nhdr 4 [] false false in
    let! language := harness_language al_len p in
    Some (Some (harness_request method version hdrs language None)).
End Ja4hHarness.

(** The fingerprint of one input. *)
Definition fuzz_ja4h_one_input `{NgxHash} `{NgxParse} `{NgxSort} (data : bytes)
    : option (option bytes) :=
  let! r := fuzz_ja4h_request data in
  Some (sentinel_ja4h_compute <$> r).

(** ** fuzz_botua.c *)

Definition fuzz_botua_request (data : bytes) : request :=
  harness_request NGX_HTTP_GET 0 [] None (if (length data =? 0)%nat then None else Some data).

Definition fuzz_botua_one_input (data : bytes) : bool * bool :=
  sentinel_botua_signal (fuzz_botua_request data).
