(* ===== verification/FuzzRequestsProps.v ===== *)
(** * FuzzRequestsProps.v: what the request harnesses can reach

    The decoding of the fingerprint harness reads only its input and is onto the
    requests its layout describes, the ones with more names than the fingerprint
    sorts included; the bot-filter harness reaches every classification. *)
From S2P Require Import Prelude Types Ngx Http NgxModel Signals SignalProps Ja4h Ja4hProps.
From S2P Require Import FuzzFeed FuzzFeedProps FuzzRequests.

Section Decode.
Context `{NgxParse}.
Variable data : bytes.

Lemma slice_in_input p n : (p + n <= length data)%nat ->
  exists s, slice data p n = Some s /\ length s = n.
Proof.
  intros Hp. unfold slice. rewrite (proj2 (Nat.leb_le _ _)) by lia.
  eexists. split; [done|]. rewrite length_take, length_drop. lia.
Qed.

Lemma name_length_le c p :
  (name_length data c p <= length data - p)%nat /\ (name_length data c p <= 255)%nat.
Proof.
  unfold name_length. pose proof (bval_range c).
  destruct (Nat.eqb_spec (Z.to_nat (bval c)) 0), (Nat.ltb_spec (length data - p) 1),
    (Nat.ltb_spec (length data - p) (Z.to_nat (bval c))); lia.
Qed.

(** An injected header: active, with a name of one to 255 bytes. *)
Definition injected_ok (h : header) : Prop :=
  h_hash h <> 0 /\ (0 < length (h_key h) <= 255)%nat.

(** The bytes of the input the headers take, their length prefixes included. *)
Definition taken (hdrs : list header) : nat :=
  sum_list_with (fun h => S (length (h_key h))) hdrs.

Lemma inject_headers_ok fuel : forall nhdr p hdrs ck rf,
  (nhdr <= FUZZ_MAX_HDRS)%nat -> (p <= length data)%nat -> (length data - p <= fuel)%nat ->
  (length hdrs <= nhdr)%nat -> Forall injected_ok hdrs ->
  exists p' hdrs' ck' rf',
    inject_headers data fuel nhdr p hdrs ck rf = Some (p', hdrs', ck', rf') /\
    (p' <= length data)%nat /\ (length hdrs' <= nhdr)%nat /\ Forall injected_ok hdrs' /\
    (p + taken hdrs' <= p' + taken hdrs)%nat.
Proof.
  induction fuel as [|fuel IH]; intros nhdr p hdrs ck rf Hn Hp Hf Hl Hok; cbn [inject_headers].
  { rewrite (proj2 (Nat.ltb_ge p (length data))) by lia. rewrite andb_false_r.
    do 4 eexists. split; [done|]. split_and!; [done..|lia]. }
  destruct (Nat.ltb_spec (length hdrs) nhdr) as [Hlt|]; cbn [andb negb].
  2: { do 4 eexists. split; [done|]. split_and!; [done..|lia]. }
  destruct (Nat.ltb_spec p (length data)) as [Hpl|]; cbn [andb negb].
  2: { do 4 eexists. split; [done|]. split_and!; [done..|lia]. }
  destruct (lookup_lt_is_Some_2 data p Hpl) as [c Hc]. unfold rd. rewrite Hc. cbv zeta.
  pose proof (name_length_le c (S p)) as [Hnl Hnm].
  destruct (Nat.eqb_spec (name_length data c (S p)) 0).
  { do 4 eexists. split; [done|]. split_and!; [lia|lia|done|lia]. }
  rewrite (proj2 (Nat.leb_gt _ _)) by lia.
  destruct (slice_in_input (S p) (name_length data c (S p))) as (s & -> & Hs); [lia|].
  edestruct (IH nhdr (S p + name_length data c (S p))%nat (hdrs ++ [Header 1 s []]))
    as (p' & hdrs' & ck' & rf' & E & Hp' & Hl' & Hok' & Ht);
    [done|lia|lia|rewrite length_app; simpl; lia| |].
  { apply Forall_app. split; [done|]. constructor; [|done]. split; simpl; lia. }
  exists p', hdrs', ck', rf'. split; [exact E|]. split_and!; [done..|].
  unfold taken in Ht at 2. rewrite sum_list_with_app in Ht. fold (taken hdrs) in Ht.
  simpl in Ht. lia.
Qed.

Lemma harness_language_ok al_len p : (p <= length data)%nat -> (al_len <= 255)%nat ->
  exists o, harness_language data al_len p = Some o /\
    (p + length (default [] o) <= length data)%nat /\ (length (default [] o) <= 255)%nat.
Proof.
  intros Hp Ha. unfold harness_language.
  destruct (Nat.ltb_spec 0 al_len), (Nat.ltb_spec p (length data)); cbn [andb];
    try (exists None; split; [done|simpl; lia]).
  destruct (Nat.ltb_spec (length data - p) al_len).
  - destruct (slice_in_input p (length data - p)) as (s & -> & Hs); [lia|].
    exists (Some s). split; [done|]. simpl. lia.
  - destruct (slice_in_input p al_len) as (s & -> & Hs); [lia|].
    exists (Some s). split; [done|]. simpl. lia.
Qed.

Lemma fuzz_ja4h_request_ok : (4 <= length data)%nat ->
  exists method version hdrs language,
    fuzz_ja4h_request data = Some (Some (harness_request method version hdrs language None)) /\
    (length hdrs < FUZZ_MAX_HDRS)%nat /\ Forall injected_ok hdrs /\
    (4 + taken hdrs + length (default [] language) <= length data)%nat.
Proof.
  intros Hs. unfold fuzz_ja4h_request, rd. rewrite (proj2 (Nat.ltb_ge _ _)) by lia.
  destruct (lookup_lt_is_Some_2 data 0) as [d0 ->]; [lia|].
  destruct (lookup_lt_is_Some_2 data 1) as [d1 ->]; [lia|].
  destruct (lookup_lt_is_Some_2 data 2) as [d2 ->]; [lia|].
  destruct (lookup_lt_is_Some_2 data 3) as [d3 ->]; [lia|].
  pose proof (Z.mod_pos_bound (bval d0) 8 ltac:(lia)).
  destruct (lookup_lt_is_Some_2 harness_methods (Z.to_nat (bval d0 mod 8))) as [method ->];
    [simpl; lia|].
  pose proof (Z.mod_pos_bound (bval d1) 3 ltac:(lia)).
  destruct (lookup_lt_is_Some_2 harness_versions (Z.to_nat (bval d1 mod 3))) as [version ->];
    [simpl; lia|].
  pose proof (Z.mod_pos_bound (bval d2) (Z.of_nat FUZZ_MAX_HDRS) ltac:(done)) as Hn.
  cbv zeta.
  edestruct (inject_headers_ok (length data) (Z.to_nat (bval d2 mod Z.of_nat FUZZ_MAX_HDRS)) 4
               [] false false) as (p & hdrs & ck & rf & -> & Hp & Hl & Hok & Ht);
    [lia|lia|lia|simpl; lia|done|].
  pose proof (bval_range d3).
  destruct (harness_language_ok (Z.to_nat (bval d3)) p) as (language & -> & Hlang & _); [lia..|].
  exists method, version, hdrs, language. split; [done|]. split_and!; [lia|done|].
  unfold taken in Ht at 2. simpl in Ht. lia.
Qed.
End Decode.

(** ** The layout is onto *)

Definition encode_names (names : list bytes) : bytes :=
  flat_map (fun n => u_char (Z.of_nat (length n)) :: n) names.

Definition encode_request (method version : nat) (names : list bytes) (language : bytes) : bytes :=
  [u_char (Z.of_nat method); u_char (Z.of_nat version); u_char (Z.of_nat (length names));
   u_char (Z.of_nat (length language))] ++ encode_names names ++ language.

Lemma bval_of_nat n : (n < 256)%nat -> bval (u_char (Z.of_nat n)) = Z.of_nat n.
Proof. intros Hn. rewrite bval_u_char. apply Z.mod_small. lia. Qed.

Lemma slice_app (a b c : bytes) : slice (a ++ b ++ c) (length a) (length b) = Some b.
Proof.
  unfold slice. rewrite (proj2 (Nat.leb_le _ _)) by (rewrite !length_app; lia).
  by rewrite drop_app_length, take_app_length.
Qed.

Lemma inject_encoded `{NgxParse} language names : forall fuel nhdr pre hdrs ck rf,
  Forall (fun n => (0 < length n < 256)%nat) names ->
  nhdr = (length hdrs + length names)%nat -> (nhdr <= FUZZ_MAX_HDRS)%nat ->
  (length (encode_names names) <= fuel)%nat ->
  exists ck' rf',
    inject_headers (pre ++ encode_names names ++ language) fuel nhdr (length pre) hdrs ck rf
      = Some (length (pre ++ encode_names names),
              hdrs ++ ((fun n => Header 1 n []) <$> names), ck', rf').
Proof.
  induction names as [|n names IH]; intros fuel nhdr pre hdrs ck rf Hok Hn Hmax Hf.
  { exists ck, rf. cbn [encode_names flat_map fmap list_fmap]. rewrite !app_nil_r.
    simpl in Hn. assert ((length hdrs <? nhdr)%nat = false) as E by (apply Nat.ltb_ge; lia).
    destruct fuel; cbn [inject_headers]; by rewrite E. }
  inversion Hok as [|? ? Hlen Hok']; subst. cbn [length] in *.
  unfold encode_names in *. cbn [flat_map] in *. rewrite length_app in Hf. cbn [length] in Hf.
  destruct fuel as [|fuel]; [lia|]. cbn [inject_headers].
  set (enc := flat_map _ names) in *.
  assert (pre ++ ((u_char (Z.of_nat (length n)) :: n) ++ enc) ++ language
          = (pre ++ [u_char (Z.of_nat (length n))]) ++ n ++ enc ++ language) as Ed.
  { simpl. by rewrite <- !app_assoc. }
  assert (S (length pre) = length (pre ++ [u_char (Z.of_nat (length n))])) as El.
  { rewrite length_app. simpl. lia. }
  rewrite (proj2 (Nat.ltb_lt _ _)) by lia.
  rewrite (proj2 (Nat.ltb_lt (length pre) _)) by (rewrite !length_app; simpl; lia).
  cbn [andb negb]. unfold rd. rewrite lookup_app_r, Nat.sub_diag by lia. cbn [lookup list_lookup app].
  cbv zeta. assert (name_length (pre ++ ((u_char (Z.of_nat (length n)) :: n) ++ enc) ++ language)
            (u_char (Z.of_nat (length n))) (S (length pre)) = length n) as Enl.
  { unfold name_length. rewrite bval_of_nat, Nat2Z.id by lia.
    rewrite (proj2 (Nat.eqb_neq _ _)) by lia.
    rewrite (proj2 (Nat.ltb_ge _ _)); [done|]. rewrite !length_app. simpl. rewrite ?length_app. lia. }
  cbn [app] in Enl, Ed |- *. rewrite Enl. rewrite (proj2 (Nat.eqb_neq _ _)) by lia.
  rewrite (proj2 (Nat.leb_gt _ _)) by lia. rewrite Ed, El, slice_app.
  rewrite <- length_app, app_assoc.
  edestruct (IH fuel (length hdrs + S (length names))%nat
               ((pre ++ [u_char (Z.of_nat (length n))]) ++ n) (hdrs ++ [Header 1 n []]))
    as (ck' & rf' & E); [done|rewrite length_app; simpl; lia|lia|lia|].
  exists ck', rf'. etransitivity; [exact E|]. by rewrite <- !app_assoc.
Qed.

(** The layout of the input is complete: every method and version the harness
    has, every list of fewer than 80 names of one to 255 bytes (the fingerprint
    sorts at most 64) and every language of up to 255 bytes is the decoding of
    the input that encodes them. *)
Theorem ja4h_harness_decodes_layout `{NgxParse} m v names language method version :
  harness_methods !! m = Some method -> harness_versions !! v = Some version ->
  (length names < FUZZ_MAX_HDRS)%nat -> Forall (fun n => (0 < length n < 256)%nat) names ->
  (length language < 256)%nat ->
  fuzz_ja4h_request (encode_request m v names language)
    = Some (Some (harness_request method version ((fun n => Header 1 n []) <$> names)
                    (if (length language =? 0)%nat then None else Some language) None)).
Proof.
  intros Hm Hv Hn Hnames Hl. unfold FUZZ_MAX_HDRS in Hn.
  pose proof (lookup_lt_Some _ _ _ Hm) as Hm8. pose proof (lookup_lt_Some _ _ _ Hv) as Hv3.
  simpl in Hm8, Hv3. unfold fuzz_ja4h_request.
  rewrite (proj2 (Nat.ltb_ge _ _)) by (unfold encode_request; rewrite length_app; simpl; lia).
  unfold rd, encode_request at 1 2 3 4. cbn [lookup list_lookup app].
  rewrite !bval_of_nat by lia. rewrite !Z.mod_small by (unfold FUZZ_MAX_HDRS; lia).
  rewrite !Nat2Z.id, Hm, Hv. cbv zeta.
  unfold encode_request. set (pre := [_; _; _; _]).
  destruct (inject_encoded language names (length (pre ++ encode_names names ++ language))
              (length names) pre [] false false) as (ck & rf & E);
    [done|done|unfold FUZZ_MAX_HDRS; lia|rewrite !length_app; lia|].
  change (length pre) with 4%nat in E. rewrite E.
  unfold harness_language. rewrite app_assoc, (length_app (pre ++ encode_names names) language).
  destruct (Nat.eqb_spec (length language) 0) as [E0|E0].
  { rewrite E0. done. }
  rewrite (proj2 (Nat.ltb_lt 0 _)) by lia.
  rewrite (proj2 (Nat.ltb_lt _ (_ + _))) by lia. cbn [andb].
  rewrite (proj2 (Nat.ltb_ge _ _)) by lia.
  pose proof (slice_app (pre ++ encode_names names) language []) as Es.
  rewrite app_nil_r in Es. by rewrite Es.
Qed.

(** Seventy names, more than the fingerprint sorts. *)
Lemma ja4h_harness_decodes_layout_witness :
  @fuzz_ja4h_request Concrete.parse
      (encode_request 0 2 (replicate 70 (lit "x-h")) (lit "de,en"))
    = Some (Some (harness_request NGX_HTTP_GET NGX_HTTP_VERSION_20
                    ((fun n => Header 1 n []) <$> replicate 70 (lit "x-h"))
                    (Some (lit "de,en")) None)).
Proof.
  apply (@ja4h_harness_decodes_layout Concrete.parse 0 2 (replicate 70 (lit "x-h"))
           (lit "de,en") NGX_HTTP_GET NGX_HTTP_VERSION_20).
  - done.
  - done.
  - apply (bool_decide_unpack _). by vm_compute.
  - apply Forall_replicate. vm_compute. lia.
  - vm_compute. lia.
Defined.

(** On every input the decoding of the fingerprint harness stays inside the
    input and the array of headers, and every input of at least four bytes ends
    in a fingerprint of the full length. *)
Theorem ja4h_harness_stays_in_input `{NgxHash} `{!NgxHashLaws} `{NgxParse} `{NgxSort} data :
  if (length data <? 4)%nat then fuzz_ja4h_one_input data = Some None
  else exists method version hdrs language out,
    fuzz_ja4h_request data = Some (Some (harness_request method version hdrs language None)) /\
    (length hdrs < FUZZ_MAX_HDRS)%nat /\ Forall injected_ok hdrs /\
    (4 + taken hdrs + length (default [] language) <= length data)%nat /\
    fuzz_ja4h_one_input data = Some (Some out) /\ length out = NGX_SENTINEL_JA4H_HEX_LEN.
Proof.
  unfold fuzz_ja4h_one_input. destruct (Nat.ltb_spec (length data) 4).
  - unfold fuzz_ja4h_request. by rewrite (proj2 (Nat.ltb_lt _ _)) by lia.
  - destruct (fuzz_ja4h_request_ok data) as (method & version & hdrs & language & E & Hr); [lia|].
    exists method, version, hdrs, language. rewrite E. eexists. split; [done|].
    destruct Hr as (? & ? & ?). split_and!; [done..|]. apply ja4h_hex_length.
Qed.

(** The bot filter sees of a request what the harness can make of its input: an
    empty User-Agent is a missing one. *)
Theorem botua_harness_reaches_all r :
  sentinel_botua_signal r = fuzz_botua_one_input (default [] (r_user_agent r)).
Proof.
  unfold fuzz_botua_one_input, fuzz_botua_request, sentinel_botua_signal.
  destruct (r_user_agent r) as [[|c ua]|]; done.
Qed.
